(* ===== verification/_CoqProject ===== *)
-Q . S2P
Prelude.v
GoStd.v
Base.v
Calendar.v
Lamport.v
Pool.v
Pipeline.v
Locks.v
Lru.v
LruSpec.v
Json.v
JsonTree.v
Url.v
Mux.v
Shell.v
Options.v
KVCache.v
Queue.v
Delegate.v
QueueFlow.v
QueueSafe.v
Gossip.v
GossipCache.v
Detector.v
Bridge.v
Rounds.v
Detection.v
Fsm.v
Quorum.v
Http.v
Views.v
Server.v
Demo.v
Protocol.v
Alerts.v
Leader.v
Commands.v
EndToEnd.v
GossipNet.v
ClusterAlert.v
Cluster.v
Startup.v
