(* ===== verification/Prelude.v ===== *)
(** * stcache: a verification library for the couchbase-ha-service

    The service (src/src/couchbase-ha-service) runs one process per node.  The
    nodes form two clusters.  Through raft they replicate a key-value table of
    watched databases and, per key, a consensus record: the last announced
    status, the time of the last event, and whether the key answers empty.
    Through memberlist's gossip they exchange what each node sees when it
    probes a key.  The leader compares the gossiped reports with the record
    and, when a quorum of fresh reports says otherwise, runs a notification
    script and commits the new record.

    ** Files, and the code they model

    - [Prelude]: Go panics as outcomes, nil-able maps with unspecified
      iteration order, 64-bit integers, shared lemmas and tactics, the hint
      database [go].
    - [GoStd], [Calendar]: what the service uses of time, strconv and strings;
      dates, [Format] and the RFC 3339 text of [time.Time] with its parser.
    - [Base]: base.go, the counting loops shared by quorum.go and
      commonDetector.go, [Exists] of scavenger.go.
    - [Lamport], [Pool], [Lru]: lamport.go, gpool.go with the dispatch loops of
      commonVerifier.go and quorum.go, lru.go; [LruSpec]: the recency list
      that lru.go is meant to be.
    - [Pipeline]: feeder, dispatch loop, pool, workers and consumer over
      unbuffered channels, the shape shared by commonVerifier.go with bridge.go
      and by quorum.go.
    - [Locks]: the mutexes of cache.go and gossipCache.go, with the goroutines
      interleaved inside the methods.
    - [Json], [JsonTree]: the encoder and decoder of encoding/json for objects of strings
      and integers and for string maps: UTF-8 coercion, escapes, case-folded
      field names, errors; nested documents.
    - [Url], [Mux]: escaping, query strings and request targets of net/url; the
      vendored router gorilla/mux as the service uses it.
    - [Shell]: the output helpers of shellCmd.go.
    - [Options]: options.go with the command line of package flag, and the
      options a command line asks for, written down by the names of the usage.
    - [KVCache]: cache.go, [cacheManager] as [KV].
    - [Queue]: [TransmitLimitedQueue] of memberlist (queue.go), which holds the
      outgoing broadcasts, over the class [Broadcast]; [QueueFlow],
      [QueueSafe]: its runs, what they bound and when they lose nothing.
    - [Delegate]: delegate.go, the messages and the memberlist delegate.
    - [Gossip]: gossip.go, the interface [GossipNode] as a class with its laws
      and the implementation [GNode] over a class [Memberlist].
    - [GossipCache]: gossipCache.go, [gossipCacheManager] as [GCM].
    - [Detector]: commonDetector.go (ring buffer, [Ping], [Phi]) and
      [ShellCmdTimeout].
    - [Bridge]: bridge.go, commonVerifier.go, scavenger.go, loop body by loop
      body; [Rounds]: a probing round as a [Pipeline] of them; [Detection]: rounds
      one after the other and overlapping.
    - [Fsm]: fsm.go and snapshot.go, and the histories of a node: committed
      entries interleaved with gossip.
    - [Quorum]: quorum.go, in a state monad over the node, raft's answers and
      the commands sent.
    - [Http]: the handlers of http.go, the leadership monitor and the membership
      functions of stCached.go, over a class [RaftConfig].
    - [Views]: the pages of http.go and commonDetector.go that show times.
    - [Server]: [NewHttpServer]: from a request target through the router to the
      handlers of [Http] and [Views]; [Demo]: the demonstration in lru.go.
    - [Protocol], [Alerts]: what a check of the leader proposes and sends, as
      pure plans, and the guarantees on alerts.
    - [Leader]: the goroutines of main.go that touch the records, as a step
      relation, and the runs after an alert.
    - [Commands]: the same goroutines with a check cut into its single actions
      and the notification commands in a [Pipeline].
    - [EndToEnd]: bridge, cache, queue, delegate and checker of several nodes put
      together, from a verdict to an alert.
    - [GossipNet]: the nodes of a cluster with their goroutines interleaved, over
      an asynchronous network, as a transition system; [ClusterAlert]: from any
      of its states to an alert.
    - [Cluster]: any number of such nodes over one raft log.
    - [Startup]: cluster.go, [NewStCachedNode] and main as traces of effects, up
      to the node that runs: the HTTP server from before raft exists, the restore
      of the newest usable snapshot (restoreSnapshot of the vendored raft) and
      the entries applied since; the join request between two nodes.

    ** Conventions

    A record models each struct, a definition each method; names are the
    source's ([Set_] for [Set]).  A method that can panic returns [outcome]:
    a panic ends the process, except in an HTTP handler, where net/http
    recovers and closes the connection.  A Go [error] is an
    [option string].  A map is a [gmap], or an option of one where the code can
    see nil.  Loops over maps take the visiting order as an argument wherever it
    can matter, and theorems quantify over all orders.  Clock readings,
    command outputs, the local time zone and raft's answers are arguments; raft may refuse an entry,
    or report an error for an entry that was applied.  A mutex makes a method
    one atomic step; where a function takes the lock twice it is two
    definitions ([Bridge.verify_ping] and [Bridge.verify_phi]).  In
    [Leader] and [Cluster] the channels between goroutines are lists taken from
    in any order; [Rounds] and [Commands] model the same channels as unbuffered,
    a send and its receive being one joint step.  Logging is left out.

    ** What the theorems show

    - Alerts ([Alerts]): a command is sent only when a quorum of distinct nodes
      backs it with fresh reports against the record, it is sent when they do
      and the quorum is a majority, once; the finished command is recorded;
      below a majority chance decides.  [Leader] shows that an alert whose time
      raft has recorded is not repeated in any run of later checks, workers,
      results, clients and gossip until a newer report arrives.
      [Leader] and [Commands] show that records stay in their domain in every
      interleaving, [Commands] also that nothing deadlocks and that a node
      without new events becomes idle.  [ClusterAlert] follows the verdicts of
      a quorum of nodes, from any state their cluster can be in, through their
      caches, queues and packets to exactly one command of the leader.
    - Replication ([Fsm], [KVCache]): the table refines a finite map; fresh
      nodes with the same log agree on table and records, if each hears a report
      on a key before it is notified about it (otherwise the node panics); a late snapshot with replay is
      harmless for the table, and forgets the records.  [Cluster] shows, for
      every run of a cluster with leader changes, late commits, late snapshots
      and restarts from them, that each node's table is what the entries it has
      applied make once it has caught up with its snapshot, and each record what
      the entries make since the node last forgot it.
    - Gossip ([GossipCache], [Delegate], [Queue], [Bridge]): merging is by newest
      stamp and converges; a hop neither changes nor invents messages; a
      queued report replaces exactly the older ones of its node and key; packets
      respect their limit; a node's own stamps always grow; a probing round
      reports on every key in every interleaving of its goroutines ([Rounds]);
      the scavenger removes exactly what has left.  [QueueFlow] bounds how often
      a message is sent and shows that a queue left alone empties and has sent
      everything; [QueueSafe] shows that it loses nothing before while no message
      replaces all others; [EndToEnd.report_reaches_peer] carries one report to a
      peer.  [Detection] shows that the same answer in as many rounds as the
      detector needs samples becomes the node's report.  [GossipNet] shows, with
      packets delayed, reordered, duplicated and lost, that every cached report
      was made by the node it names and that gossip stops no node.
    - Clients ([Http], [Server], [Views]): reads see committed writes, from the
      URL to the table and back; followers refuse; the router agrees with a
      plain site map; the status pages are JSON that shows exactly the state;
      the membership comparison and the rejoin loop do what they say.
    - Starting ([Options], [Startup]): the command line means its settings, a
      node starts in order and stops at the first error, a restart recovers the
      table from snapshot and log, a join adds exactly this node.
    - Concurrency ([Lamport], [Pool], [Pipeline], [Locks]): the CAS loop under
      interleaving, the bound on workers, progress of the pipelines, the absence
      of races where the locks are right.
    - The LRU cache ([LruSpec]): it refines a recency list in every run that
      does not move an entry whose links the code has looped.
    - Failures: nil-map writes, nil dereferences, races, lost messages and wrong
      evictions that the code does have, each as a theorem on a concrete
      history or on all states of a shape.

    ** Fuel and bounds

    The JSON parsers run on fuel at least the length of the text, and every
    step consumes a character.  [Queue.send_loop] runs on one turn per item
    and one per tier plus one; [Queue.send_loop_fuel] shows that more changes
    nothing.  [Strconv.format_digits] allows nineteen digits, enough for an
    int64.  A pipeline takes at most eight steps per item, a check nine per
    action ([Pipeline.remaining], [Commands.effort]).  Stamps and counters are 64-bit and wrap where Go's do; theorems that
    need room below the limits say so.

    ** Not modelled

    The raft and memberlist protocols themselves: raft is its answers, its
    configuration and the log it applies, memberlist its view of the cluster
    and its queue; of raft's start only the restore of a snapshot is modelled;
    [EndToEnd.transmit] is a packet that arrives,
    [GossipNet.Emit] and [GossipNet.Arrive] one that may be late, doubled or
    lost, the size limits arbitrary.  Named broadcasts, [Prune] and [Reset] of the queue, which the
    service does not use.  The floating point behind the timer scale and the
    retransmit limit, which is a parameter.  [wait_signal], which
    nothing calls.  Restarts in [GossipNet]: a node that stops is one that no
    longer acts; what a restart with a clock set back does is
    [GossipNet.restart_behind_clock].  Logging. *)

From stdpp Require Export base numbers list gmap strings sorting relations.
From Stdlib Require Export ZArith Lia.

#[global] Open Scope Z_scope.

#[global] Arguments String.append !_ _ : simpl nomatch.

(** ** Go panics and the outcome of a computation

    A Go function either returns or panics.  The service never recovers, so a
    panic ends the goroutine's work (and the process, outside the handlers that
    net/http guards) and carries no state. *)

Inductive panic : Type :=
| NilMapWrite
| NilDeref
| IndexOutOfRange
| DivideByZero
| NegativeCounter
| Explicit (msg : string).

Inductive outcome (A : Type) : Type :=
| Ret (a : A)
| Panic (p : panic).

Arguments Ret {A} a.
Arguments Panic {A} p.

#[global] Instance outcome_ret : MRet outcome := fun A a => Ret a.

#[global] Instance outcome_bind : MBind outcome := fun A B f m =>
  match m with
  | Ret a => f a
  | Panic p => Panic p
  end.

#[global] Instance outcome_fmap : FMap outcome := fun A B f m =>
  match m with
  | Ret a => Ret (f a)
  | Panic p => Panic p
  end.

(** The left fold of a loop body that may panic: [for x := range l]. *)
Fixpoint foldlM {A S : Type} (f : S -> A -> outcome S) (s : S) (l : list A) : outcome S :=
  match l with
  | [] => Ret s
  | x :: l => s' ← f s x; foldlM f s' l
  end.

(** A Go [error] value: [None] is nil. *)
Abbreviation error := (option string) (only parsing).

(** ** Go maps

    A map variable is nil ([None]) or refers to a table.  Reading, deleting
    from and ranging over a nil map are harmless; writing to it panics. *)

Abbreviation gomap V := (option (gmap string V)).

Definition gm_make {V : Type} : gomap V := Some ∅.

Definition gm_get {V : Type} (m : gomap V) (k : string) : option V :=
  match m with
  | None => None
  | Some d => d !! k
  end.

Definition gm_set {V : Type} (m : gomap V) (k : string) (v : V) : outcome (gomap V) :=
  match m with
  | None => Panic NilMapWrite
  | Some d => Ret (Some (<[k := v]> d))
  end.

Definition gm_del {V : Type} (m : gomap V) (k : string) : gomap V :=
  match m with
  | None => None
  | Some d => Some (delete k d)
  end.

(** The table behind a map variable: a nil map has no entries. *)
Definition gm_tab {V : Type} (m : gomap V) : gmap string V :=
  match m with
  | None => ∅
  | Some d => d
  end.

(** [range m] visits the entries in an order the language leaves open: [ord]
    is an order in which the loop may run. *)
Definition range_of {V : Type} (ord : list (string * V)) (m : gomap V) : Prop :=
  ord ≡ₚ map_to_list (gm_tab m).

(** The order the model uses when it has to run a loop. *)
Definition gm_items {V : Type} (m : gomap V) : list (string * V) :=
  map_to_list (gm_tab m).

(** ** 64-bit integers *)

Definition two63 : Z := 9223372036854775808.
Definition two64 : Z := 18446744073709551616.
Definition MaxInt64 : Z := two63 - 1.
Definition MinInt64 : Z := - two63.

Definition in_int64 (z : Z) : Prop := MinInt64 <= z <= MaxInt64.
Definition in_uint64 (z : Z) : Prop := 0 <= z < two64.

Definition wrap64 (z : Z) : Z := (z + two63) mod two64 - two63.
Definition wrapu64 (z : Z) : Z := z mod two64.

(** ** Lemmas on outcomes *)

Lemma bind_Ret_inv {A B : Type} (m : outcome A) (f : A -> outcome B) b :
  m ≫= f = Ret b -> exists a, m = Ret a /\ f a = Ret b.
Proof. destruct m; cbn; naive_solver. Qed.

Lemma foldlM_app {A S : Type} (f : S -> A -> outcome S) s l1 l2 :
  foldlM f s (l1 ++ l2) = (s' ← foldlM f s l1; foldlM f s' l2).
Proof.
  revert s. induction l1 as [|x l1 IH]; intros s; [done|].
  cbn. destruct (f s x); cbn; [apply IH | done].
Qed.

(** A loop whose body never panics from the states it can reach is a plain
    fold. *)
Lemma foldlM_pure {A S : Type} (f : S -> A -> outcome S) (g : S -> A -> S) (I : S -> Prop) l :
  forall s, I s ->
  (forall s x, I s -> x ∈ l -> f s x = Ret (g s x) /\ I (g s x)) ->
  foldlM f s l = Ret (fold_left g l s) /\ I (fold_left g l s).
Proof.
  induction l as [|x l IH]; intros s Hs Hstep; [done|].
  destruct (Hstep s x Hs) as [Hf Hg]; [constructor|].
  cbn. rewrite Hf. cbn. apply IH; [done|]. intros; apply Hstep; [done|]. by constructor.
Qed.

(** ** Lemmas on Go maps *)

Lemma gm_get_tab {V : Type} (m : gomap V) k : gm_get m k = gm_tab m !! k.
Proof. destruct m; cbn; [done|]. by rewrite lookup_empty. Qed.

Lemma gm_del_tab {V : Type} (m : gomap V) k : gm_tab (gm_del m k) = delete k (gm_tab m).
Proof. destruct m; cbn; [done|]. by rewrite delete_empty. Qed.

Lemma gm_set_Ret {V : Type} (d : gmap string V) k v :
  gm_set (Some d) k v = Ret (Some (<[k := v]> d)).
Proof. done. Qed.

Lemma gm_items_range {V : Type} (m : gomap V) : range_of (gm_items m) m.
Proof. unfold range_of, gm_items. reflexivity. Qed.

Lemma range_of_elem {V : Type} (ord : list (string * V)) m k v :
  range_of ord m -> (k, v) ∈ ord <-> gm_get m k = Some v.
Proof. unfold range_of. intros ->. by rewrite gm_get_tab, elem_of_map_to_list. Qed.

Lemma range_of_NoDup {V : Type} (ord : list (string * V)) m :
  range_of ord m -> NoDup ord.*1.
Proof. unfold range_of. intros ->. apply NoDup_fst_map_to_list. Qed.

Lemma NoDup_fst_filter {A V : Type} (P : A * V -> Prop) `{!forall x, Decision (P x)} (l : list (A * V)) :
  NoDup l.*1 -> NoDup (filter P l).*1.
Proof.
  induction l as [|[k v] l IH]; intros Hnd; [constructor|]. apply NoDup_cons in Hnd as [Hk Hnd].
  rewrite filter_cons. case_decide; [|by apply IH]. apply NoDup_cons. split; [|by apply IH].
  intros (kv & Hkv & [_ Hin]%list_elem_of_filter)%list_elem_of_fmap. apply Hk, list_elem_of_fmap. eauto.
Qed.

Lemma filter_none {A : Type} (P : A -> Prop) `{!forall x, Decision (P x)} (l : list A) :
  (forall x, x ∈ l -> ~ P x) -> filter P l = [].
Proof.
  induction l as [|x l IH]; intros Hno; [done|].
  rewrite filter_cons, decide_False by (apply Hno; constructor).
  apply IH. intros y Hy. apply Hno. by constructor.
Qed.

Lemma range_of_list_to_map {V : Type} (ord : list (string * V)) m :
  range_of ord m -> list_to_map ord = gm_tab m.
Proof.
  intros H. rewrite <- (list_to_map_to_list (gm_tab m)).
  apply list_to_map_proper; [by eapply range_of_NoDup | done].
Qed.

Lemma fold_insert_list {V W : Type} (f : V -> W) (ord : list (string * V)) acc :
  NoDup ord.*1 ->
  fold_left (fun (acc : gmap string W) kv => <[kv.1 := f kv.2]> acc) ord acc =
  list_to_map (prod_map id f <$> ord) ∪ acc.
Proof.
  revert acc. induction ord as [|[k v] ord IH]; intros acc Hnd; cbn.
  { by rewrite (left_id_L ∅ (∪)). }
  apply NoDup_cons in Hnd as [Hk Hnd]. rewrite IH by done.
  rewrite <- insert_union_l, insert_union_r; [done|].
  apply not_elem_of_list_to_map_1. rewrite <- list_fmap_compose. exact Hk.
Qed.

(** A loop that copies the entries it visits into an empty table rebuilds the
    table, whatever the order. *)
Lemma fold_insert_range {V W : Type} (f : V -> W) (ord : list (string * V)) m :
  range_of ord m ->
  fold_left (fun (acc : gmap string W) kv => <[kv.1 := f kv.2]> acc) ord ∅ = f <$> gm_tab m.
Proof.
  intros H. rewrite fold_insert_list by (by eapply range_of_NoDup).
  by rewrite (right_id_L ∅ (∪)), list_to_map_fmap, (range_of_list_to_map _ _ H).
Qed.

(** ** Lemmas on 64-bit integers *)

Lemma wrap64_id z : in_int64 z -> wrap64 z = z.
Proof.
  unfold in_int64, wrap64, MinInt64, MaxInt64, two63, two64. intros H.
  rewrite Z.mod_small; lia.
Qed.

Lemma wrap64_range z : in_int64 (wrap64 z).
Proof.
  unfold in_int64, wrap64, MinInt64, MaxInt64, two63, two64.
  pose proof (Z.mod_pos_bound (z + 9223372036854775808) 18446744073709551616). lia.
Qed.

Lemma wrapu64_id z : in_uint64 z -> wrapu64 z = z.
Proof. unfold in_uint64, wrapu64. intros. by apply Z.mod_small. Qed.

Lemma wrapu64_range z : in_uint64 (wrapu64 z).
Proof. unfold in_uint64, wrapu64, two64. pose proof (Z.mod_pos_bound z 18446744073709551616). lia. Qed.

(** ** Lemmas on strings *)

Lemma app_nil_str (s : string) : s +:+ EmptyString = s.
Proof. induction s; cbn; congruence. Qed.

Lemma app_assoc_str (a b c : string) : (a +:+ b) +:+ c = a +:+ (b +:+ c).
Proof. induction a; cbn; congruence. Qed.

Lemma length_app_str (a b : string) :
  String.length (a +:+ b) = (String.length a + String.length b)%nat.
Proof. induction a; cbn; congruence. Qed.

(** ** Automation *)

Create HintDb go.
Create Rewrite HintDb go.

#[export] Hint Resolve gm_items_range wrap64_range wrapu64_range : go.
#[export] Hint Rewrite @gm_get_tab @gm_del_tab @gm_set_Ret : go.
#[export] Hint Rewrite app_nil_str app_assoc_str length_app_str : go.

(** Destruct the first [match] of the goal or of a hypothesis, keeping the
    equation, and simplify. *)
Ltac case_go :=
  match goal with
  | H : context [match ?x with _ => _ end] |- _ => destruct x eqn:?; simplify_eq/=
  | |- context [match ?x with _ => _ end] => destruct x eqn:?; simplify_eq/=
  end.

(** Invert a computation that returned: [m ≫= f = Ret b]. *)
Ltac inv_ret H :=
  let a := fresh "a" in let Ha := fresh "Ha" in
  apply bind_Ret_inv in H as (a & Ha & H); cbn in H.

Ltac unfold_int := unfold in_int64, in_uint64, MaxInt64, MinInt64, two63, two64 in *.
Ltac solve_int := unfold_int; lia.
