(* ===== verification/GoStd.v ===== *)
(** * What the service uses of Go's standard library

    [time] (wall-clock instants, [Unix], [UnixNano], [Since]), [strconv]
    (decimal integers and booleans) and [strings] ([Split] on one byte,
    [TrimSuffix]).  Strings are byte strings, as in Go. *)

From Stdlib Require Import Ascii.
From S2P Require Import Prelude.

(** ** time

    An instant is the number of nanoseconds since the Unix epoch, unbounded as
    [time.Time] holds seconds and nanoseconds apart.  The instants the service
    compares come from [time.Unix] or from the zero value, which carry no
    monotonic reading, so [Since] is wall-clock arithmetic. *)
Module Time.

Abbreviation t := Z (only parsing).
Abbreviation Duration := Z (only parsing).

Definition Second : Duration := 1000000000.

(** The zero [time.Time]: January 1 of year 1, UTC. *)
Definition zero : t := -62135596800 * Second.

(** [time.Unix (sec, nsec)] normalises any nanosecond count. *)
Definition Unix (sec nsec : Z) : t := sec * Second + nsec.

(** [UnixNano] is 64-bit arithmetic and wraps outside 1678..2262. *)
Definition UnixNano (x : t) : Z := wrap64 x.

(** [Sub] saturates at the ends of [Duration]. *)
Definition Sub (x y : t) : Duration := Z.max MinInt64 (Z.min MaxInt64 (x - y)).

Definition Since (now x : t) : Duration := Sub now x.

(** [time.Unix(ts/1e9, ts%1e9)] on an int64: Go's division truncates. *)
Definition of_stamp (ts : Z) : t := Unix (Z.quot ts Second) (Z.rem ts Second).

End Time.

(** ** strconv *)
Module Strconv.

Definition digit (d : Z) : Ascii.ascii := Ascii.ascii_of_N (Z.to_N (48 + d)).

Definition digit_value (c : Ascii.ascii) : option Z :=
  let n := Z.of_N (Ascii.N_of_ascii c) in
  if (48 <=? n) && (n <=? 57) then Some (n - 48) else None.

(** The digits of [n], most significant first, in front of [acc]; [fuel] more
    digits may follow the last one. *)
Fixpoint format_digits (fuel : nat) (n : Z) (acc : string) : string :=
  let acc' := String (digit (n mod 10)) acc in
  match fuel with
  | O => acc'
  | S fuel => if n <? 10 then acc' else format_digits fuel (n / 10) acc'
  end.

(** [strconv.FormatInt(n, 10)]: an int64 has at most 19 digits. *)
Definition FormatInt (n : Z) : string :=
  if n <? 0 then String "-"%char (format_digits 18 (- n) EmptyString)
  else format_digits 18 n EmptyString.

Fixpoint parse_digits (s : string) (v : Z) : option Z :=
  match s with
  | EmptyString => Some v
  | String c s =>
      match digit_value c with
      | Some d => parse_digits s (v * 10 + d)
      | None => None
      end
  end.

(** [strconv.ParseInt(s, 10, 64)]; [None] is a syntax or a range error. *)
Definition ParseInt (s : string) : option Z :=
  let '(neg, body) :=
    match s with
    | String "-"%char s' => (true, s')
    | String "+"%char s' => (false, s')
    | _ => (false, s)
    end in
  match body with
  | EmptyString => None
  | _ =>
      match parse_digits body 0 with
      | None => None
      | Some v =>
          if neg then if two63 <? v then None else Some (- v)
          else if two63 <=? v then None else Some v
      end
  end.

Definition FormatBool (b : bool) : string := if b then "true" else "false".

Definition ParseBool (s : string) : option bool :=
  if decide (s ∈ ["1"; "t"; "T"; "true"; "TRUE"; "True"]) then Some true
  else if decide (s ∈ ["0"; "f"; "F"; "false"; "FALSE"; "False"]) then Some false
  else None.

End Strconv.

(** ** strings *)
Module Strings.

Definition newline : Ascii.ascii := "010"%char.

(** [strings.TrimSuffix(s, "\n")]. *)
Fixpoint TrimSuffixNL (s : string) : string :=
  match s with
  | EmptyString => EmptyString
  | String c EmptyString => if decide (c = newline) then EmptyString else s
  | String c s => String c (TrimSuffixNL s)
  end.

(** [strings.Split(s, sep)] for a separator of one byte. *)
Fixpoint Split (sep : Ascii.ascii) (s : string) : list string :=
  match s with
  | EmptyString => [EmptyString]
  | String c s =>
      if decide (c = sep) then EmptyString :: Split sep s
      else match Split sep s with
           | [] => [String c EmptyString]
           | w :: ws => String c w :: ws
           end
  end.

End Strings.

(** ** Lemmas *)

Lemma of_stamp_id ts : Time.of_stamp ts = ts.
Proof. unfold Time.of_stamp, Time.Unix. pose proof (Z.quot_rem' ts Time.Second). lia. Qed.

Lemma UnixNano_of_stamp ts : in_int64 ts -> Time.UnixNano (Time.of_stamp ts) = ts.
Proof. intros. rewrite of_stamp_id. by apply wrap64_id. Qed.

(** The zero instant is before every non-negative stamp even though its
    [UnixNano] overflows. *)
Lemma UnixNano_zero : Time.UnixNano Time.zero = -6795364578871345152.
Proof. reflexivity. Qed.

Lemma Since_id now x : in_int64 (now - x) -> Time.Since now x = now - x.
Proof. unfold Time.Since, Time.Sub. solve_int. Qed.

Lemma digit_value_digit d : 0 <= d <= 9 -> Strconv.digit_value (Strconv.digit d) = Some d.
Proof.
  intros Hd. assert (d = 0 \/ d = 1 \/ d = 2 \/ d = 3 \/ d = 4 \/ d = 5 \/ d = 6 \/ d = 7 \/ d = 8 \/ d = 9)
    as Hcases by lia.
  by repeat destruct Hcases as [-> | Hcases]; subst.
Qed.

Lemma parse_format_digits fuel n acc :
  0 <= n < 10 ^ Z.of_nat (S fuel) ->
  Strconv.parse_digits (Strconv.format_digits fuel n acc) 0 = Strconv.parse_digits acc n.
Proof.
  revert n acc. induction fuel as [|fuel IH]; intros n acc Hn.
  - cbn -[Z.modulo]. change (10 ^ Z.of_nat 1) with 10 in Hn.
    rewrite Z.mod_small, digit_value_digit by lia. done.
  - cbn -[Z.modulo Z.div]. pose proof (Z.mod_pos_bound n 10). destruct (Z.ltb_spec n 10).
    + cbn -[Z.modulo]. rewrite Z.mod_small, digit_value_digit by lia. done.
    + rewrite IH.
      * cbn -[Z.modulo Z.div]. rewrite digit_value_digit by lia.
        f_equal. pose proof (Z.div_mod n 10). lia.
      * rewrite Nat2Z.inj_succ, Z.pow_succ_r in Hn by lia.
        split; [apply Z.div_pos; lia | apply Z.div_lt_upper_bound; lia].
Qed.

Lemma format_digits_head fuel n acc :
  exists d s, Strconv.format_digits fuel n acc = String (Strconv.digit d) s /\ 0 <= d <= 9.
Proof.
  revert n acc. induction fuel as [|fuel IH]; intros n acc;
    pose proof (Z.mod_pos_bound n 10); cbn -[Z.modulo Z.div].
  - eexists _, _. split; [done | lia].
  - destruct (n <? 10); [| apply IH]. eexists _, _. split; [done | lia].
Qed.

Lemma ParseInt_digits d s :
  0 <= d <= 9 ->
  Strconv.ParseInt (String (Strconv.digit d) s) =
  match Strconv.parse_digits (String (Strconv.digit d) s) 0 with
  | Some v => if two63 <=? v then None else Some v
  | None => None
  end.
Proof.
  intros Hd. assert (d = 0 \/ d = 1 \/ d = 2 \/ d = 3 \/ d = 4 \/ d = 5 \/ d = 6 \/ d = 7 \/ d = 8 \/ d = 9)
    as Hcases by lia.
  by repeat destruct Hcases as [-> | Hcases]; subst.
Qed.

Lemma ParseInt_minus_digits d s :
  Strconv.ParseInt (String "-"%char (String (Strconv.digit d) s)) =
  match Strconv.parse_digits (String (Strconv.digit d) s) 0 with
  | Some v => if two63 <? v then None else Some (- v)
  | None => None
  end.
Proof. done. Qed.

Lemma ParseInt_FormatInt n : in_int64 n -> Strconv.ParseInt (Strconv.FormatInt n) = Some n.
Proof.
  intros Hn. unfold Strconv.FormatInt. destruct (Z.ltb_spec n 0).
  - destruct (format_digits_head 18 (- n) EmptyString) as (d & s & Heq & Hd).
    rewrite Heq, ParseInt_minus_digits, <- Heq, parse_format_digits by (cbn; solve_int).
    cbn. destruct (Z.ltb_spec two63 (- n)); [solve_int | f_equal; lia].
  - destruct (format_digits_head 18 n EmptyString) as (d & s & Heq & Hd).
    rewrite Heq, ParseInt_digits, <- Heq, parse_format_digits by (cbn; solve_int).
    cbn. destruct (Z.leb_spec two63 n); [solve_int | done].
Qed.

Lemma ParseBool_FormatBool b : Strconv.ParseBool (Strconv.FormatBool b) = Some b.
Proof. by destruct b. Qed.

#[export] Hint Rewrite of_stamp_id ParseBool_FormatBool : go.
#[export] Hint Resolve ParseInt_FormatInt UnixNano_of_stamp : go.
