(* ===== verification/Base.v ===== *)
(** * Small helpers: base.go and [Exists] of scavenger.go

    [Max], [SliceEqual], the pacing of [GoRoutineInTimeScale], and the linear
    membership test the scavenger and the re-join loop use. *)

From S2P Require Import Prelude GoStd.

Definition notificationScriptTimeout : Z := 60.
Definition verificationScriptTimeoiut : Z := 60.
Definition GOSSIP_LEAVE_INTERVAL_IN_SECONDS : Z := 3.
Definition STALE_INFO_INTERVAL_IN_SECONDS : Z := 300.

Definition Max (x y : Z) : Z := if x >? y then x else y.

(** A Go slice of strings: nil or the elements. *)
Abbreviation goslice := (option (list string)) (only parsing).

Definition slice_elems (a : goslice) : list string := default [] a.

Definition is_nil (a : goslice) : bool :=
  match a with None => true | Some _ => false end.

(** [for i := range a { if a[i] != b[i] { return false } }; return true],
    from index [i] on, with [a] the elements still to visit. *)
Fixpoint SliceEqual_loop (i : nat) (a b : list string) : outcome bool :=
  match a with
  | [] => Ret true
  | x :: a =>
      match b !! i with
      | None => Panic IndexOutOfRange
      | Some y => if decide (x = y) then SliceEqual_loop (S i) a b else Ret false
      end
  end.

Definition SliceEqual (a b : goslice) : outcome bool :=
  if negb (Bool.eqb (is_nil a) (is_nil b)) then Ret false
  else if negb (length (slice_elems a) =? length (slice_elems b))%nat then Ret false
  else SliceEqual_loop 0 (slice_elems a) (slice_elems b).

Fixpoint Exists (slice : list string) (ele : string) : bool :=
  match slice with
  | [] => false
  | v :: slice => if decide (v = ele) then true else Exists slice ele
  end.

(** [countMap[s] += 1] over a list of statuses. *)
Definition count_add (m : gmap string Z) (s : string) : gmap string Z :=
  <[s := default 0 (m !! s) + 1]> m.

Definition count_all (l : list string) : gmap string Z := fold_left count_add l ∅.

(** [for status, count := range countMap { if p count { ... break } }] in the
    order [ord]. *)
Fixpoint first_with (p : Z -> bool) (ord : list (string * Z)) : option string :=
  match ord with
  | [] => None
  | (s, n) :: ord => if p n then Some s else first_with p ord
  end.

(** The pause of one turn of [GoRoutineInTimeScale], in seconds.
    [ceil_log10 n] stands for [math.Ceil(math.Log10(float64(n)))]. *)
Definition time_scale_interval (ceil_log10 : Z -> Z) (base n : Z) : Z :=
  let length := ceil_log10 (Max n 2) in
  let scale := 2 ^ length in
  let interval := Z.quot base scale in
  Max interval 3.

(** ** Lemmas *)

Lemma Max_max x y : Max x y = Z.max x y.
Proof. unfold Max. destruct (Z.gtb_spec x y); lia. Qed.

Lemma SliceEqual_loop_correct i a b :
  length (drop i b) = length a ->
  SliceEqual_loop i a b = Ret (bool_decide (a = drop i b)).
Proof.
  revert i. induction a as [|x a IH]; intros i Hlen; cbn.
  - destruct (drop i b); [done | cbn in Hlen; lia].
  - destruct (b !! i) as [y|] eqn:Hy.
    + rewrite (drop_S b y i Hy) in Hlen |- *. cbn in Hlen. case_decide as Hxy.
      * rewrite IH by lia. subst. f_equal. apply bool_decide_ext. naive_solver.
      * rewrite bool_decide_eq_false_2; [done | naive_solver].
    + apply lookup_ge_None_1 in Hy. rewrite drop_ge in Hlen by done. cbn in Hlen. lia.
Qed.

Lemma Exists_elem slice ele : Exists slice ele = true <-> ele ∈ slice.
Proof.
  induction slice as [|v slice IH]; cbn; [set_solver|].
  rewrite elem_of_cons. case_decide; naive_solver.
Qed.

Lemma Exists_not_elem slice ele : Exists slice ele = false <-> ele ∉ slice.
Proof. rewrite <- Exists_elem. destruct (Exists slice ele); naive_solver. Qed.

(** How often a status occurs. *)
Definition occurs (s : string) (l : list string) : Z := Z.of_nat (length (filter (eq s) l)).

Lemma occurs_cons s x l : occurs s (x :: l) = (if decide (s = x) then 1 else 0) + occurs s l.
Proof. unfold occurs. rewrite filter_cons. case_decide; cbn [length]; lia. Qed.

Lemma occurs_nonneg s l : 0 <= occurs s l.
Proof. unfold occurs. lia. Qed.

Lemma occurs_le_length s l : occurs s l <= Z.of_nat (length l).
Proof. unfold occurs. pose proof (length_filter (eq s) l). lia. Qed.

Lemma occurs_two s1 s2 l :
  s1 <> s2 -> occurs s1 l + occurs s2 l <= Z.of_nat (length l).
Proof.
  intros Hne. induction l as [|x l IH]; [done|]. rewrite !occurs_cons. cbn [length].
  repeat case_decide; subst; try done; lia.
Qed.

Lemma occurs_full s l : occurs s l = Z.of_nat (length l) <-> Forall (eq s) l.
Proof.
  induction l as [|x l IH]; [by split|]. rewrite occurs_cons, Forall_cons. cbn [length].
  pose proof (occurs_le_length s l). destruct (decide (s = x)) as [->|Hne].
  - rewrite <- IH. split; [intros; split; [done|lia] | intros [_ ?]; lia].
  - split; [lia | by intros [? _]].
Qed.

Lemma occurs_zero s l : occurs s l = 0 <-> s ∉ l.
Proof.
  induction l as [|x l IH]; [by split; [intros _; apply not_elem_of_nil|]|].
  rewrite occurs_cons, not_elem_of_cons, <- IH. pose proof (occurs_nonneg s l).
  case_decide; naive_solver lia.
Qed.

Lemma fold_count_lookup l s : forall m,
  default 0 (fold_left count_add l m !! s) = default 0 (m !! s) + occurs s l.
Proof.
  induction l as [|x l IH]; intros m; [change (occurs s []) with 0; cbn; lia|]. cbn [fold_left]. rewrite IH, occurs_cons.
  unfold count_add. rewrite lookup_insert. repeat case_decide; subst; try done; cbn; lia.
Qed.

Lemma fold_count_pos l : forall m,
  map_Forall (fun _ n => 1 <= n) m -> map_Forall (fun _ n => 1 <= n) (fold_left count_add l m).
Proof.
  induction l as [|x l IH]; intros m Hm; [done|]. apply IH. apply map_Forall_insert_2; [|done].
  destruct (m !! x) as [n|] eqn:E; cbn; [specialize (Hm x n E); cbn in Hm; lia | lia].
Qed.

(** The counting map holds exactly the statuses that occur, with their
    number. *)
Lemma count_all_lookup l s n :
  count_all l !! s = Some n <-> n = occurs s l /\ 1 <= n.
Proof.
  pose proof (fold_count_lookup l s ∅) as H. rewrite lookup_empty in H. cbn in H.
  fold (count_all l) in H.
  assert (Hpos : map_Forall (fun _ n => 1 <= n) (count_all l)).
  { apply fold_count_pos. apply map_Forall_empty. }
  destruct (count_all l !! s) as [k|] eqn:E; cbn in H.
  - specialize (Hpos s k E). cbn in Hpos. split; [intros; simplify_eq; lia | intros [-> _]; f_equal; lia].
  - split; [done | lia].
Qed.

Lemma count_all_default l s : default 0 (count_all l !! s) = occurs s l.
Proof. unfold count_all. rewrite fold_count_lookup, lookup_empty. done. Qed.

Lemma occurs_perm s l1 l2 : l1 ≡ₚ l2 -> occurs s l1 = occurs s l2.
Proof. intros H. unfold occurs. by rewrite H. Qed.

Lemma count_all_perm l1 l2 : l1 ≡ₚ l2 -> count_all l1 = count_all l2.
Proof.
  intros H. apply map_eq. intros s. apply option_eq. intros n.
  by rewrite !count_all_lookup, (occurs_perm s l1 l2 H).
Qed.

Lemma first_with_Some p ord s :
  first_with p ord = Some s -> exists n, (s, n) ∈ ord /\ p n = true.
Proof.
  induction ord as [|[s' n] ord IH]; cbn; [done|]. destruct (p n) eqn:E.
  - intros [= ->]. exists n. split; [constructor | done].
  - intros H. destruct (IH H) as (n' & Hn & Hp). exists n'. split; [by constructor | done].
Qed.

Lemma first_with_None p ord :
  first_with p ord = None -> forall s n, (s, n) ∈ ord -> p n = false.
Proof.
  induction ord as [|[s' n'] ord IH]; cbn; intros H s n Hin; [by inversion Hin|].
  destruct (p n') eqn:E; [done|].
  apply elem_of_cons in Hin as [[= -> ->] | Hin]; [done | eauto].
Qed.

(** When at most one status passes the test, the loop finds it in any
    order. *)
Lemma first_with_unique p (m : gmap string Z) ord s :
  ord ≡ₚ map_to_list m ->
  (forall s1 s2 n1 n2, m !! s1 = Some n1 -> m !! s2 = Some n2 -> p n1 = true -> p n2 = true -> s1 = s2) ->
  first_with p ord = Some s <-> exists n, m !! s = Some n /\ p n = true.
Proof.
  intros Hord Huniq.
  assert (Hel : forall s n, (s, n) ∈ ord <-> m !! s = Some n).
  { intros. by rewrite Hord, elem_of_map_to_list. }
  split.
  - intros (n & Hn & Hp)%first_with_Some. exists n. by rewrite <- Hel.
  - intros (n & Hn & Hp). destruct (first_with p ord) as [s'|] eqn:E.
    + apply first_with_Some in E as (n' & Hn' & Hp'). apply Hel in Hn'. f_equal. eauto.
    + apply first_with_None with (s := s) (n := n) in E; [congruence | by apply Hel].
Qed.

Lemma SliceEqual_spec a b : SliceEqual a b = Ret (bool_decide (a = b)).
Proof.
  unfold SliceEqual. destruct a as [a|], b as [b|]; cbn; try done.
  destruct (Nat.eqb_spec (length a) (length b)) as [Hl|Hl]; cbn.
  - rewrite SliceEqual_loop_correct by (by rewrite drop_0). rewrite drop_0.
    f_equal. apply bool_decide_ext. naive_solver.
  - rewrite bool_decide_eq_false_2; [done | naive_solver].
Qed.

Lemma time_scale_interval_bounds ceil_log10 base n :
  0 <= base -> 0 <= ceil_log10 (Max n 2) ->
  3 <= time_scale_interval ceil_log10 base n <= Z.max base 3.
Proof.
  intros Hb Hc. unfold time_scale_interval. rewrite Max_max.
  assert (0 < 2 ^ ceil_log10 (Max n 2)) by (apply Z.pow_pos_nonneg; lia).
  assert (Z.quot base (2 ^ ceil_log10 (Max n 2)) <= base) by (apply Z.quot_le_upper_bound; nia).
  lia.
Qed.

#[export] Hint Rewrite Max_max SliceEqual_spec : go.

(** ** Properties *)

(** [SliceEqual] decides equality of string slices, nil and empty told
    apart, and its index loop never leaves the second slice. *)
Theorem slice_equal_correct a b : SliceEqual a b = Ret (bool_decide (a = b)).
Proof. apply SliceEqual_spec. Qed.
