(* ===== verification/Calendar.v ===== *)
(** * Dates and times as text: what the service uses of time.Format

    The status pages show instants: [Time.Format] with the layout
    "2006-01-02 15:04:05", and [Time.MarshalJSON], which is the layout
    RFC3339Nano.  The calendar is the proleptic Gregorian one.  The offset of
    the local zone at an instant, in seconds east of UTC, comes from the
    zone database: a parameter.  A reader for RFC 3339 serves as the
    specification of the text. *)

From Stdlib Require Import Ascii.
From S2P Require Import Prelude GoStd.

Module Calendar.

(** ** The calendar (time.absDate) *)

Definition daysPer400Years : Z := 365 * 400 + 97.
Definition daysPer100Years : Z := 365 * 100 + 24.
Definition daysPer4Years : Z := 365 * 4 + 1.

Definition isLeap (year : Z) : bool :=
  (year mod 4 =? 0) && (negb (year mod 100 =? 0) || (year mod 400 =? 0)).

(** Days before each month of a common year. *)
Definition daysBefore (m : Z) : Z :=
  nth (Z.to_nat m) [0; 31; 59; 90; 120; 151; 181; 212; 243; 273; 304; 334; 365] 365.

(** Year and day of the year of a day counted from January 1 of year 1. *)
Definition absYear (d : Z) : Z * Z :=
  let n := d / daysPer400Years in
  let y := 400 * n in
  let d := d - daysPer400Years * n in
  let n := d / daysPer100Years in
  let n := n - Z.shiftr n 2 in
  let y := y + 100 * n in
  let d := d - daysPer100Years * n in
  let n := d / daysPer4Years in
  let y := y + 4 * n in
  let d := d - daysPer4Years * n in
  let n := d / 365 in
  let n := n - Z.shiftr n 2 in
  (y + n + 1, d - 365 * n).

(** Month and day of a day of the year. *)
Definition month_day (leap : bool) (yday : Z) : Z * Z :=
  if leap && (yday =? 31 + 29 - 1) then (2, 29) else
  let day := if leap && (31 + 29 - 1 <? yday) then yday - 1 else yday in
  let month := day / 31 in
  let fin := daysBefore (month + 1) in
  if fin <=? day then (month + 2, day - fin + 1)
  else (month + 1, day - daysBefore month + 1).

Definition absDate (d : Z) : Z * Z * Z :=
  let '(y, yday) := absYear d in
  let '(m, day) := month_day (isLeap y) yday in (y, m, day).

(** Days from January 1 of year 1 to the Unix epoch. *)
Definition unixToAbsolute : Z := 719162.

Definition secondsPerDay : Z := 86400.

(** ** Formatting *)

(** [appendInt] with a width, for a number that fits. *)
Fixpoint pad (width : nat) (n : Z) : string :=
  match width with
  | O => EmptyString
  | S w => pad w (n / 10) +:+ String (Strconv.digit (n mod 10)) EmptyString
  end.

(** [formatNano] with nine digits, trailing zeros cut. *)
Fixpoint trim_zeros (s : string) : string :=
  match s with
  | EmptyString => EmptyString
  | String c s =>
      match trim_zeros s with
      | EmptyString => if decide (c = "0"%char) then EmptyString else String c EmptyString
      | t => String c t
      end
  end.

Definition formatNano (nsec : Z) : string :=
  match trim_zeros (pad 9 nsec) with
  | EmptyString => EmptyString
  | t => String "." t
  end.

(** The local reading of an instant: seconds since the epoch on the wall clock
    of a zone [off] seconds east. *)
Definition wall (off : Z) (t : Time.t) : Z := t / Time.Second + off.

Definition wall_date (off : Z) (t : Time.t) : Z * Z * Z := absDate (wall off t / secondsPerDay + unixToAbsolute).

Definition format_date (d : Z * Z * Z) : string :=
  let '(y, m, day) := d in pad 4 y +:+ "-" +:+ pad 2 m +:+ "-" +:+ pad 2 day.

Definition format_clock (sec : Z) : string :=
  pad 2 (sec / 3600) +:+ ":" +:+ pad 2 (sec mod 3600 / 60) +:+ ":" +:+ pad 2 (sec mod 60).

(** [t.Format("2006-01-02 15:04:05")]. *)
Definition Format (off : Z) (t : Time.t) : string :=
  format_date (wall_date off t) +:+ " " +:+ format_clock (wall off t mod secondsPerDay).

(** "Z07:00": the offset in minutes. *)
Definition format_zone (off : Z) : string :=
  if off =? 0 then "Z" else
  let zone := Z.quot off 60 in
  (if zone <? 0 then "-" else "+") +:+ pad 2 (Z.abs zone / 60) +:+ ":" +:+ pad 2 (Z.abs zone mod 60).

Definition RFC3339Nano (off : Z) (t : Time.t) : string :=
  format_date (wall_date off t) +:+ "T" +:+ format_clock (wall off t mod secondsPerDay)
  +:+ formatNano (t mod Time.Second) +:+ format_zone off.

(** [MarshalJSON]: the text of the JSON string, or an error when the year has
    not four digits. *)
Definition MarshalJSON (off : Z) (t : Time.t) : option string :=
  let '(y, _, _) := wall_date off t in
  if (y <? 0) || (9999 <? y) then None else Some (RFC3339Nano off t).

(** ** Reading RFC 3339 *)

Definition days_of (y m d : Z) : Z :=
  365 * (y - 1) + (y - 1) / 4 - (y - 1) / 100 + (y - 1) / 400
  + daysBefore (m - 1) + (if isLeap y && (2 <? m) then 1 else 0) + d - 1.

Fixpoint read (width : nat) (s : string) (v : Z) : option (Z * string) :=
  match width with
  | O => Some (v, s)
  | S w => match s with
           | String c s => d ← Strconv.digit_value c; read w s (v * 10 + d)
           | EmptyString => None
           end
  end.

Definition expect (c : ascii) (s : string) : option string :=
  match s with
  | String a s => if decide (a = c) then Some s else None
  | EmptyString => None
  end.

(** Up to nine digits of a fraction, the missing ones zero. *)
Fixpoint read_frac (width : nat) (s : string) (v : Z) : Z * string :=
  match width with
  | O => (v, s)
  | S w => match s with
           | String c s' => match Strconv.digit_value c with
                            | Some d => read_frac w s' (v * 10 + d)
                            | None => (v * 10 ^ Z.of_nat width, s)
                            end
           | EmptyString => (v * 10 ^ Z.of_nat width, s)
           end
  end.

Definition read_zone (s : string) : option Z :=
  match s with
  | String "Z" EmptyString => Some 0
  | String c s =>
      h ← read 2 s 0; s1 ← expect ":" h.2; m ← read 2 s1 0;
      if decide (m.2 <> "") then None
      else if decide (c = "+"%char) then Some (60 * (60 * h.1 + m.1))
      else if decide (c = "-"%char) then Some (- (60 * (60 * h.1 + m.1)))
      else None
  | EmptyString => None
  end.

(** The instant an RFC 3339 text denotes. *)
Definition parse_rfc3339 (s : string) : option Time.t :=
  y ← read 4 s 0; s ← expect "-" y.2; m ← read 2 s 0; s ← expect "-" m.2; d ← read 2 s 0;
  s ← expect "T" d.2; hh ← read 2 s 0; s ← expect ":" hh.2; mm ← read 2 s 0; s ← expect ":" mm.2;
  ss ← read 2 s 0;
  let '(nsec, s) := match ss.2 with String "." s => read_frac 9 s 0 | s => (0, s) end in
  off ← read_zone s;
  Some (Time.Unix ((days_of y.1 m.1 d.1 - unixToAbsolute) * secondsPerDay + hh.1 * 3600 + mm.1 * 60 + ss.1 - off) nsec).

(** ** Lemmas: the calendar *)

(** Months, checked on every day of a common and of a leap year. *)
Definition month_ok (leap : bool) (yday : Z) : bool :=
  let '(m, day) := month_day leap yday in
  (daysBefore (m - 1) + (if leap && (2 <? m) then 1 else 0) + day - 1 =? yday)
  && (1 <=? m) && (m <=? 12) && (1 <=? day) && (day <=? 31).

Fixpoint all_from (p : Z -> bool) (n : nat) (d : Z) : bool :=
  match n with
  | O => true
  | S n => p d && all_from p n (d + 1)
  end.

Lemma all_from_spec p n : forall b d, all_from p n b = true -> b <= d < b + Z.of_nat n -> p d = true.
Proof.
  induction n as [|n IH]; [lia|]. intros b d [Hb Hall]%andb_true_iff Hd.
  destruct (decide (d = b)) as [-> | Hne]; [done|]. apply (IH (b + 1)); [done|lia].
Qed.

Definition year_days (y : Z) : Z := if isLeap y then 366 else 365.

Lemma month_day_ok y yday : 0 <= yday < year_days y -> month_ok (isLeap y) yday = true.
Proof.
  unfold year_days. intros Hd. destruct (isLeap y).
  - apply (all_from_spec _ 366 0); [by vm_compute|lia].
  - apply (all_from_spec _ 365 0); [by vm_compute|lia].
Qed.

Lemma shiftr2 n : 0 <= n <= 4 -> n - Z.shiftr n 2 = Z.min n 3.
Proof.
  intros Hn. rewrite Z.shiftr_div_pow2 by lia. change (2 ^ 2) with 4.
  pose proof (Z.div_mod n 4). pose proof (Z.mod_pos_bound n 4). lia.
Qed.

(** The quotients of [absYear] in a cycle of 400 years. *)
Lemma absYear_quotients r :
  0 <= r < 146097 ->
  exists n1 n2 n3, absYear r = (100 * n1 + 4 * n2 + n3 + 1, r - 36524 * n1 - 1461 * n2 - 365 * n3) /\
    n1 = Z.min (r / 36524) 3 /\ n2 = (r - 36524 * n1) / 1461 /\ n3 = Z.min ((r - 36524 * n1 - 1461 * n2) / 365) 3.
Proof.
  intros Hr. unfold absYear. change daysPer400Years with 146097. change daysPer100Years with 36524.
  change daysPer4Years with 1461. rewrite (Z.div_small r) by lia.
  replace (r - 146097 * 0) with r by lia. cbv zeta.
  assert (H1 : 0 <= r / 36524 <= 4) by (pose proof (Z.div_mod r 36524); pose proof (Z.mod_pos_bound r 36524); lia).
  rewrite (shiftr2 _ H1). set (n1 := Z.min (r / 36524) 3). set (n2 := (r - 36524 * n1) / 1461).
  assert (H3 : 0 <= (r - 36524 * n1 - 1461 * n2) / 365 <= 4).
  { pose proof (Z.div_mod (r - 36524 * n1) 1461). pose proof (Z.mod_pos_bound (r - 36524 * n1) 1461).
    fold n2 in H. split; [apply Z.div_pos|apply Z.lt_succ_r, Z.div_lt_upper_bound]; lia. }
  rewrite (shiftr2 _ H3). eexists n1, n2, _. split_and!; [|done..]. f_equal; lia.
Qed.

Lemma leap_year n1 n2 n3 :
  0 <= n1 <= 3 -> 0 <= n2 <= 24 -> 0 <= n3 <= 3 ->
  isLeap (100 * n1 + 4 * n2 + n3 + 1) = (n3 =? 3) && (negb (n2 =? 24) || (n1 =? 3)).
Proof.
  intros H1 H2 H3. unfold isLeap.
  assert (E4 : (100 * n1 + 4 * n2 + n3 + 1) mod 4 = (n3 + 1) mod 4).
  { replace (100 * n1 + 4 * n2 + n3 + 1) with (n3 + 1 + (25 * n1 + n2) * 4) by lia. apply Z.mod_add. lia. }
  assert (E100 : (100 * n1 + 4 * n2 + n3 + 1) mod 100 = (4 * n2 + n3 + 1) mod 100).
  { replace (100 * n1 + 4 * n2 + n3 + 1) with (4 * n2 + n3 + 1 + n1 * 100) by lia. apply Z.mod_add. lia. }
  rewrite E4, E100. apply eq_true_iff_eq.
  rewrite !andb_true_iff, !orb_true_iff, !negb_true_iff, !Z.eqb_eq, !Z.eqb_neq. Z.to_euclidean_division_equations. lia.
Qed.

(** Days of the years before year [y]. *)
Definition days_before (y : Z) : Z := 365 * (y - 1) + (y - 1) / 4 - (y - 1) / 100 + (y - 1) / 400.

Lemma absYear_spec r :
  0 <= r < daysPer400Years ->
  exists y yday, absYear r = (y, yday) /\ 1 <= y <= 400 /\ days_before y + yday = r /\ 0 <= yday < year_days y.
Proof.
  intros Hr. change daysPer400Years with 146097 in Hr.
  destruct (absYear_quotients r Hr) as (n1 & n2 & n3 & -> & H1 & H2 & H3).
  assert (B : 0 <= n1 <= 3 /\ 0 <= n2 <= 24 /\ 0 <= n3 <= 3 /\ 0 <= r - 36524 * n1 - 1461 * n2 - 365 * n3 <= 365 /\
    (r - 36524 * n1 - 1461 * n2 - 365 * n3 = 365 -> n3 = 3 /\ (n2 <> 24 \/ n1 = 3))).
  { Z.to_euclidean_division_equations. lia. }
  destruct B as (B1 & B2 & B3 & B4 & B5). eexists _, _. split; [done|].
  unfold year_days, days_before. rewrite leap_year by done. split_and!; [lia|lia| |lia|].
  - replace (100 * n1 + 4 * n2 + n3 + 1 - 1) with (100 * n1 + 4 * n2 + n3) by lia.
    Z.to_euclidean_division_equations. lia.
  - destruct (Z.eqb_spec n3 3), (Z.eqb_spec n2 24), (Z.eqb_spec n1 3); cbn; lia.
Qed.

Lemma absYear_cycle n d : 0 <= d < daysPer400Years -> absYear (daysPer400Years * n + d) = (400 * n + (absYear d).1, (absYear d).2).
Proof.
  intros Hd. unfold absYear. replace (daysPer400Years * n + d) with (d + n * daysPer400Years) by lia.
  rewrite Z.div_add, (Z.div_small d) by (unfold daysPer400Years in *; lia).
  replace (d + n * daysPer400Years - daysPer400Years * (0 + n)) with (d - daysPer400Years * 0) by lia.
  cbn [fst snd]. f_equal. lia.
Qed.

Lemma isLeap_cycle n y : isLeap (400 * n + y) = isLeap y.
Proof.
  unfold isLeap. replace (400 * n + y) with (y + (100 * n) * 4) at 1 by lia.
  replace (400 * n + y) with (y + (4 * n) * 100) at 1 by lia.
  replace (400 * n + y) with (y + n * 400) by lia. by rewrite !Z.mod_add by lia.
Qed.

Lemma days_of_cycle n y m d : days_of (400 * n + y) m d = daysPer400Years * n + days_of y m d.
Proof.
  unfold days_of. rewrite isLeap_cycle. unfold daysPer400Years.
  replace (400 * n + y - 1) with (y - 1 + (100 * n) * 4) at 2 by lia.
  replace (400 * n + y - 1) with (y - 1 + (4 * n) * 100) at 2 by lia.
  replace (400 * n + y - 1) with (y - 1 + n * 400) at 2 by lia. rewrite !Z.div_add by lia. lia.
Qed.

(** The date of a day gives the day back. *)
Lemma absDate_spec d :
  exists y m day, absDate d = (y, m, day) /\ days_of y m day = d /\ 1 <= m <= 12 /\ 1 <= day <= 31 /\
    400 * (d / daysPer400Years) + 1 <= y <= 400 * (d / daysPer400Years) + 400.
Proof.
  set (n := d / daysPer400Years). set (r := d mod daysPer400Years).
  assert (Hr : 0 <= r < daysPer400Years) by (apply Z.mod_pos_bound; done).
  assert (Hd : d = daysPer400Years * n + r) by (apply Z.div_mod; done).
  destruct (absYear_spec r Hr) as (y & yday & Hy & Hyr & Hdays & Hyd).
  pose proof (month_day_ok y yday Hyd) as Hok. unfold month_ok in Hok. unfold absDate.
  rewrite Hd, absYear_cycle, Hy by done. cbn [fst snd]. rewrite isLeap_cycle.
  destruct (month_day (isLeap y) yday) as [m day]. rewrite !andb_true_iff, !Z.leb_le, Z.eqb_eq in Hok.
  eexists _, _, _. split; [done|]. rewrite days_of_cycle. unfold days_before in Hdays. unfold days_of at 1. lia.
Qed.

(** ** Lemmas: reading what was written *)

Lemma read_pad_app w : forall n k s v, 0 <= n < 10 ^ Z.of_nat w ->
  read (w + k) (pad w n +:+ s) v = read k s (v * 10 ^ Z.of_nat w + n).
Proof.
  induction w as [|w IH]; intros n k s v Hn.
  { cbn [pad String.append Nat.add]. f_equal. cbn in *. lia. }
  rewrite Nat2Z.inj_succ, Z.pow_succ_r in * by lia. cbn [pad]. rewrite app_assoc_str. cbn [String.append].
  pose proof (Z.mod_pos_bound n 10). pose proof (Z.div_mod n 10).
  replace (S w + k)%nat with (w + S k)%nat by lia. rewrite IH by (Z.to_euclidean_division_equations; nia).
  cbn [read]. rewrite digit_value_digit by lia. cbn [mbind option_bind]. f_equal. lia.
Qed.

Lemma read_pad w n s : 0 <= n < 10 ^ Z.of_nat w -> read w (pad w n +:+ s) 0 = Some (n, s).
Proof. intros Hn. rewrite <- (Nat.add_0_r w) at 1. rewrite read_pad_app by done. done. Qed.

Lemma expect_same c s : expect c (String c s) = Some s.
Proof. cbn. by rewrite decide_True. Qed.

(** What ends a run of digits. *)
Definition stops (s : string) : Prop :=
  match s with
  | EmptyString => True
  | String c _ => Strconv.digit_value c = None
  end.

Lemma read_frac_stops w s v : stops s -> read_frac w s v = (v * 10 ^ Z.of_nat w, s).
Proof.
  intros Hs. destruct w as [|w]; [cbn; f_equal; lia|]. destruct s as [|c s]; [done|]. cbn in Hs |- *. by rewrite Hs.
Qed.

Lemma read_frac_trim w : forall t v v' rest,
  read w t v = Some (v', EmptyString) -> stops rest -> read_frac w (trim_zeros t +:+ rest) v = (v', rest).
Proof.
  induction w as [|w IH]; intros t v v' rest Hr Hs.
  { cbn in Hr. injection Hr as -> ->. done. }
  destruct t as [|c t]; [done|]. cbn [read] in Hr. destruct (Strconv.digit_value c) as [d|] eqn:Hd; [|done].
  cbn [mbind option_bind] in Hr. specialize (IH t (v * 10 + d) v' rest Hr Hs). cbn [trim_zeros].
  destruct (trim_zeros t) as [|a u].
  - cbn [String.append] in IH. rewrite read_frac_stops in IH by done. injection IH as <-.
    case_decide as Hc.
    + subst c. injection Hd as <-. cbn [String.append]. rewrite read_frac_stops by done. f_equal.
      rewrite Nat2Z.inj_succ, Z.pow_succ_r by lia. lia.
    + cbn [String.append read_frac]. rewrite Hd. by rewrite read_frac_stops.
  - cbn [String.append read_frac]. by rewrite Hd.
Qed.

Lemma zone_stops off : stops (format_zone off).
Proof. unfold format_zone. by repeat case_match. Qed.

(** The fraction and the zone behind it. *)
Lemma read_nano n off :
  0 <= n < Time.Second ->
  match formatNano n +:+ format_zone off with
  | String "." s => read_frac 9 s 0
  | s => (0, s)
  end = (n, format_zone off).
Proof.
  intros Hn. unfold formatNano.
  pose proof (read_pad 9 n "" Hn) as Hr. rewrite app_nil_str in Hr.
  pose proof (read_frac_trim 9 (pad 9 n) 0 n (format_zone off) Hr (zone_stops off)) as Hf.
  destruct (trim_zeros (pad 9 n)) as [|a u]; [|done].
  cbn [String.append] in *. rewrite read_frac_stops in Hf by apply zone_stops. injection Hf as <-.
  unfold format_zone. by repeat case_match.
Qed.

(** Offsets of whole minutes, less than a hundred hours. *)
Definition good_offset (off : Z) : Prop := exists z, off = 60 * z /\ -6000 < z < 6000.

Lemma read_format_zone off : good_offset off -> read_zone (format_zone off) = Some off.
Proof.
  intros (z & -> & Hz). unfold format_zone. destruct (Z.eqb_spec (60 * z) 0) as [Hz0|Hz0]; [f_equal; cbn; f_equal; lia|].
  replace (Z.quot (60 * z) 60) with z by (rewrite Z.mul_comm, Z.quot_mul; lia).
  assert (Hread : forall c, read_zone (String c (pad 2 (Z.abs z / 60) +:+ ":" +:+ pad 2 (Z.abs z mod 60))) =
    if decide (c = "+"%char) then Some (60 * Z.abs z) else
    if decide (c = "-"%char) then Some (- (60 * Z.abs z)) else None).
  { intros c. assert (Hh : 0 <= Z.abs z / 60 < 10 ^ Z.of_nat 2) by (change (10 ^ Z.of_nat 2) with 100; Z.to_euclidean_division_equations; lia).
    assert (Hm : 0 <= Z.abs z mod 60 < 10 ^ Z.of_nat 2) by (change (10 ^ Z.of_nat 2) with 100; Z.to_euclidean_division_equations; lia).
    assert (Hdm : 60 * (Z.abs z / 60) + Z.abs z mod 60 = Z.abs z) by (symmetry; apply Z.div_mod; lia).
    assert (Hstep : forall c s, s <> "" -> read_zone (String c s) = (h ← read 2 s 0; s1 ← expect ":" h.2; m ← read 2 s1 0;
      if decide (m.2 <> "") then None
      else if decide (c = "+"%char) then Some (60 * (60 * h.1 + m.1))
      else if decide (c = "-"%char) then Some (- (60 * (60 * h.1 + m.1))) else None)).
    { intros c0 s Hs. destruct s as [|a s]; [done|].
      destruct (decide (c0 = "Z"%char)) as [-> | Hc]; [done|].
      by destruct c0 as [[] [] [] [] [] [] [] []]. }
    rewrite Hstep by (by cbn). rewrite read_pad by done. cbn [mbind option_bind fst snd String.append].
    rewrite expect_same. cbn [mbind option_bind]. pose proof (read_pad 2 _ "" Hm) as Hr2. rewrite app_nil_str in Hr2.
    rewrite Hr2. cbn [mbind option_bind fst snd]. rewrite decide_False by auto. by rewrite Hdm. }
  destruct (Z.ltb_spec z 0); cbn [String.append]; rewrite Hread; cbn; f_equal; lia.
Qed.

Lemma parse_rfc3339_parts y m d sec n off :
  0 <= y <= 9999 -> 0 <= m <= 99 -> 0 <= d <= 99 -> 0 <= sec < secondsPerDay -> 0 <= n < Time.Second -> good_offset off ->
  parse_rfc3339 (format_date (y, m, d) +:+ "T" +:+ format_clock sec +:+ formatNano n +:+ format_zone off) =
  Some (Time.Unix ((days_of y m d - unixToAbsolute) * secondsPerDay + sec - off) n).
Proof.
  intros Hy Hm Hd Hs Hn Hoff. unfold secondsPerDay in Hs. unfold format_date, format_clock.
  repeat progress (rewrite ?app_assoc_str; cbn [String.append]).
  assert (Hh : 0 <= sec / 3600 < 10 ^ Z.of_nat 2) by (change (10 ^ Z.of_nat 2) with 100; Z.to_euclidean_division_equations; lia).
  assert (Hi : 0 <= sec mod 3600 / 60 < 10 ^ Z.of_nat 2) by (change (10 ^ Z.of_nat 2) with 100; Z.to_euclidean_division_equations; lia).
  assert (Hc : 0 <= sec mod 60 < 10 ^ Z.of_nat 2) by (change (10 ^ Z.of_nat 2) with 100; Z.to_euclidean_division_equations; lia).
  unfold parse_rfc3339.
  rewrite read_pad by (change (10 ^ Z.of_nat 4) with 10000; lia). cbn [mbind option_bind fst snd]. rewrite expect_same. cbn [mbind option_bind].
  rewrite read_pad by (change (10 ^ Z.of_nat 2) with 100; lia). cbn [mbind option_bind fst snd]. rewrite expect_same. cbn [mbind option_bind].
  rewrite read_pad by (change (10 ^ Z.of_nat 2) with 100; lia). cbn [mbind option_bind fst snd]. rewrite expect_same. cbn [mbind option_bind].
  rewrite read_pad by done. cbn [mbind option_bind fst snd]. rewrite expect_same. cbn [mbind option_bind].
  rewrite read_pad by done. cbn [mbind option_bind fst snd]. rewrite expect_same. cbn [mbind option_bind].
  rewrite read_pad by done. cbn [mbind option_bind fst snd].
  rewrite (read_nano n off Hn), (read_format_zone off Hoff). cbn [mbind option_bind]. f_equal. f_equal.
  Z.to_euclidean_division_equations. lia.
Qed.

(** The JSON text of an instant denotes the instant. *)
Lemma parse_MarshalJSON off t s : good_offset off -> MarshalJSON off t = Some s -> parse_rfc3339 s = Some t.
Proof.
  intros Hoff. unfold MarshalJSON, RFC3339Nano, wall_date.
  destruct (absDate_spec (wall off t / secondsPerDay + unixToAbsolute)) as (y & m & d & -> & Hdays & Hm & Hd & _).
  destruct (Z.ltb_spec y 0), (Z.ltb_spec 9999 y); cbn [orb]; try done.
  intros Hs. apply (inj Some) in Hs as <-. rewrite parse_rfc3339_parts; [|lia|lia|lia|by apply Z.mod_pos_bound|by apply Z.mod_pos_bound|done].
  f_equal. rewrite Hdays. unfold Time.Unix, wall. change secondsPerDay with 86400. change Time.Second with 1000000000.
  Z.to_euclidean_division_equations. lia.
Qed.

Lemma MarshalJSON_text off t s : MarshalJSON off t = Some s -> s = RFC3339Nano off t.
Proof.
  unfold MarshalJSON. destruct (wall_date off t) as [[y m] d]. destruct (_ || _); [done|].
  intros Hs. symmetry. by apply (inj Some).
Qed.

(** Instants of 64-bit stamps, and the zero instant in UTC, have four-digit
    years in every zone of less than a hundred hours. *)
Lemma MarshalJSON_stamp off t : good_offset off -> in_int64 t -> exists s, MarshalJSON off t = Some s.
Proof.
  intros (z & -> & Hz) Ht. unfold MarshalJSON, wall_date.
  destruct (absDate_spec (wall (60 * z) t / secondsPerDay + unixToAbsolute)) as (y & m & d & -> & _ & _ & _ & Hy).
  assert (Hb : 1 <= (wall (60 * z) t / secondsPerDay + unixToAbsolute) / daysPer400Years <= 10).
  { unfold wall. change secondsPerDay with 86400. change Time.Second with 1000000000. change unixToAbsolute with 719162.
    change daysPer400Years with 146097. unfold_int. Z.to_euclidean_division_equations. lia. }
  destruct (Z.ltb_spec y 0), (Z.ltb_spec 9999 y); cbn [orb]; try lia. eauto.
Qed.

Lemma MarshalJSON_zero : MarshalJSON 0 Time.zero = Some "0001-01-01T00:00:00Z".
Proof. vm_compute. reflexivity. Qed.

Example new_year_2020 :
  MarshalJSON 28800 (Time.Unix 1577836800 5) = Some "2020-01-01T08:00:00.000000005+08:00" /\
  MarshalJSON (-12600) (Time.Unix 951782400 120000000) = Some "2000-02-28T20:30:00.12-03:30" /\
  Format 0 (Time.Unix (-1) 0) = "1969-12-31 23:59:59".
Proof. vm_compute. done. Qed.

End Calendar.
