(* ===== verification/Lamport.v ===== *)
(** * The Lamport clock: lamport.go

    One 64-bit counter, read, incremented and compare-and-swapped atomically
    by any number of goroutines.  The sequential meaning of each operation,
    and the interleaved executions of many as a step relation whose atomic
    steps are the loads, the adds and the swaps of the source. *)

From S2P Require Import Prelude.

Module Lamport.

(** ** Atomic operations and sequential meaning *)

Abbreviation counter := Z (only parsing).

Definition Time (l : counter) : Z := l.

(** [atomic.AddUint64] returns the new value. *)
Definition Increment (l : counter) : counter * Z := let l := wrapu64 (l + 1) in (l, l).

(** [atomic.CompareAndSwapUint64]. *)
Definition cas (l old new : Z) : counter * bool :=
  if l =? old then (new, true) else (l, false).

(** [Witness] alone on the clock: load, compare, swap. *)
Definition Witness (l : counter) (v : Z) : counter :=
  let cur := l in
  if v <? cur then l else (cas l cur (wrapu64 (v + 1))).1.

(** ** Interleaved executions *)

(** Where a goroutine is: outside, at the label [WITNESS], or past the load.
    [start] and [retries] are history: the counter when the call began, and how
    often its swap has failed. *)
Inductive pc : Type :=
| Idle
| AtLoad (v start retries : Z)
| AtSwap (v start retries cur : Z).

(** The counter, the goroutines, and what has returned: values of [Increment],
    newest first, and arguments of [Witness]. *)
Record clock : Type := Clock {
  c_counter : counter;
  c_threads : list pc;
  c_issued : list Z;
  c_witnessed : list Z
}.

Definition goto (c : clock) (i : nat) (p : pc) : list pc := <[i := p]> (c_threads c).

Inductive step : clock -> clock -> Prop :=
| step_Increment c i :
    c_threads c !! i = Some Idle ->
    step c (Clock (Increment (c_counter c)).1 (c_threads c)
              ((Increment (c_counter c)).2 :: c_issued c) (c_witnessed c))
| step_Witness c i v :
    c_threads c !! i = Some Idle -> in_uint64 v ->
    step c (Clock (c_counter c) (goto c i (AtLoad v (c_counter c) 0)) (c_issued c) (c_witnessed c))
| step_old c i v start retries :
    c_threads c !! i = Some (AtLoad v start retries) -> v < c_counter c ->
    step c (Clock (c_counter c) (goto c i Idle) (c_issued c) (v :: c_witnessed c))
| step_load c i v start retries :
    c_threads c !! i = Some (AtLoad v start retries) -> c_counter c <= v ->
    step c (Clock (c_counter c) (goto c i (AtSwap v start retries (c_counter c))) (c_issued c) (c_witnessed c))
| step_swap c i v start retries cur l :
    c_threads c !! i = Some (AtSwap v start retries cur) ->
    cas (c_counter c) cur (wrapu64 (v + 1)) = (l, true) ->
    step c (Clock l (goto c i Idle) (c_issued c) (v :: c_witnessed c))
| step_retry c i v start retries cur l :
    c_threads c !! i = Some (AtSwap v start retries cur) ->
    cas (c_counter c) cur (wrapu64 (v + 1)) = (l, false) ->
    step c (Clock l (goto c i (AtLoad v start (retries + 1))) (c_issued c) (c_witnessed c)).

(** [n] goroutines on a new clock. *)
Definition start (n : nat) : clock := Clock 0 (replicate n Idle) [] [].

(** No step is about to wrap around: the counter and the pending arguments are
    below the last 64-bit value. *)
Definition pending (p : pc) : Z :=
  match p with Idle => 0 | AtLoad v _ _ => v | AtSwap v _ _ _ => v end.

Definition below_wrap (c : clock) : Prop :=
  c_counter c < two64 - 1 /\ Forall (fun p => pending p < two64 - 1) (c_threads c).

Definition safe_step (c c' : clock) : Prop := step c c' /\ below_wrap c /\ below_wrap c'.

(** ** The invariant *)

(** The counter has moved at least once per failed swap, and a goroutine about
    to swap has seen a counter not past its argument. *)
Definition thread_ok (l : counter) (p : pc) : Prop :=
  match p with
  | Idle => True
  | AtLoad v start retries => 0 <= v /\ 0 <= start /\ 0 <= retries /\ start + retries <= l /\ (retries = 0 \/ start + retries <= v + 1)
  | AtSwap v start retries cur =>
      0 <= start /\ 0 <= retries /\ start + retries <= cur /\ cur <= v /\ cur <= l
  end.

Definition invariant (c : clock) : Prop :=
  0 <= c_counter c /\ Forall (thread_ok (c_counter c)) (c_threads c) /\
  Forall (fun v => v < c_counter c) (c_witnessed c) /\
  Forall (fun v => v <= c_counter c) (c_issued c) /\
  StronglySorted (fun x y => y < x) (c_issued c).

(** ** Lemmas *)

Lemma thread_ok_grow l l' p : l <= l' -> thread_ok l p -> thread_ok l' p.
Proof. intros Hl. destruct p; cbn; [done|lia|lia]. Qed.

Lemma Forall_insert (P : pc -> Prop) (ts : list pc) i p : Forall P ts -> P p -> Forall P (<[i := p]> ts).
Proof.
  intros Hts Hp. rewrite Forall_lookup in *. intros j x. rewrite list_lookup_insert_Some.
  intros [(_ & <- & _)|[_ Hx]]; [done | eauto].
Qed.

Lemma threads_ok_move l l' ts i p :
  l <= l' -> Forall (thread_ok l) ts -> thread_ok l' p -> Forall (thread_ok l') (<[i := p]> ts).
Proof.
  intros Hl Hts Hp. apply Forall_insert; [|done]. eapply Forall_impl; [exact Hts|].
  intros. by eapply thread_ok_grow.
Qed.

Lemma Forall_below (l l' : Z) vs : l <= l' -> Forall (fun v => v < l) vs -> Forall (fun v => v < l') vs.
Proof. intros Hl H. eapply Forall_impl; [exact H|]. cbn. lia. Qed.

Lemma Forall_upto (l l' : Z) vs : l <= l' -> Forall (fun v => v <= l) vs -> Forall (fun v => v <= l') vs.
Proof. intros Hl H. eapply Forall_impl; [exact H|]. cbn. lia. Qed.

Lemma cas_true l old new l' : cas l old new = (l', true) -> l = old /\ l' = new.
Proof. unfold cas. destruct (Z.eqb_spec l old); [by intros [= <-] | done]. Qed.

Lemma cas_false l old new l' : cas l old new = (l', false) -> l <> old /\ l' = l.
Proof. unfold cas. destruct (Z.eqb_spec l old); [done | by intros [= <-]]. Qed.

(** Without wrap-around, a step keeps the invariant and never moves the
    counter back. *)
Lemma clock_invariant_step c c' :
  invariant c -> safe_step c c' -> invariant c' /\ c_counter c <= c_counter c'.
Proof.
  intros (H0 & Hts & Hw & Hi & Hs) (Hstep & (Hb & Hp) & _).
  assert (Hpick : forall i p, c_threads c !! i = Some p -> thread_ok (c_counter c) p /\ pending p < two64 - 1).
  { intros i p Hlook. rewrite Forall_lookup in Hts, Hp. eauto. }
  unfold invariant. destruct Hstep as [c i Hth|c i v Hth Hv|c i v st re Hth Hlt|c i v st re Hth Hle
    |c i v st re cur l Hth Hcas|c i v st re cur l Hth Hcas]; cbn in *; destruct (Hpick _ _ Hth) as [Hok Hpe]; cbn in Hok, Hpe.
  - rewrite wrapu64_id by (unfold_int; lia). split; [|lia]. split_and!; [lia| | | |].
    + eapply Forall_impl; [exact Hts|]. intros. eapply thread_ok_grow; [|done]. lia.
    + eapply Forall_below; [|done]. lia.
    + constructor; [lia|]. eapply Forall_upto; [|done]. lia.
    + constructor; [done|]. eapply Forall_impl; [exact Hi|]. cbn. lia.
  - split; [|lia]. split_and!; try done. apply (threads_ok_move (c_counter c)); [lia|done|].
    cbn. unfold_int. lia.
  - split; [|lia]. split_and!; try done; [by apply Forall_insert|]. by constructor.
  - split; [|lia]. split_and!; try done. apply (threads_ok_move (c_counter c)); [lia|done|]. cbn. lia.
  - apply cas_true in Hcas as [<- ->]. rewrite wrapu64_id by (unfold_int; lia). split; [|lia].
    split_and!; [lia| | | |done].
    + apply (threads_ok_move (c_counter c)); [lia|done|done].
    + constructor; [lia|]. eapply Forall_below; [|done]. lia.
    + eapply Forall_upto; [|done]. lia.
  - apply cas_false in Hcas as [Hne ->]. split; [|lia]. split_and!; try done.
    apply (threads_ok_move (c_counter c)); [lia|done|]. cbn. lia.
Qed.

Lemma clock_invariant_start n : invariant (start n).
Proof.
  split_and!; cbn; [done| |constructor|constructor|constructor].
  apply Forall_replicate. done.
Qed.

Lemma clock_invariant_reachable n c : rtc safe_step (start n) c -> invariant c.
Proof.
  intros H. assert (Hi := clock_invariant_start n). induction H as [|c1 c2 c3 H1 _ IH]; [done|].
  apply IH. by apply (clock_invariant_step c1).
Qed.

(** ** One goroutine alone *)

(** A step of goroutine [i] inside its call: no other step moves [i], and inside
    a call every step does. *)
Definition advance (i : nat) (c c' : clock) : Prop :=
  step c c' /\ c_threads c !! i <> Some Idle /\ c_threads c' !! i <> c_threads c !! i.

(** The clock when the call is over: [v] is its argument. *)
Definition returned (c : clock) (i : nat) (v : Z) (c' : clock) : Prop :=
  c_counter c' = (if v <? c_counter c then c_counter c else wrapu64 (v + 1)) /\
  c_threads c' = <[i := Idle]> (c_threads c) /\ c_issued c' = c_issued c /\ c_witnessed c' = v :: c_witnessed c.

(** From the label, the goroutine either returns or loads; it has no other
    step. *)
Lemma advance_load i v start retries c c' :
  c_threads c !! i = Some (AtLoad v start retries) -> advance i c c' ->
  (v < c_counter c /\ c' = Clock (c_counter c) (goto c i Idle) (c_issued c) (v :: c_witnessed c)) \/
  (c_counter c <= v /\
   c' = Clock (c_counter c) (goto c i (AtSwap v start retries (c_counter c))) (c_issued c) (c_witnessed c)).
Proof.
  intros Hi (Hstep & _ & Hmove). destruct Hstep as [c j Hj|c j v' Hj Hv|c j v' st re Hj Hlt|c j v' st re Hj Hle
    |c j v' st re cur l Hj Hcas|c j v' st re cur l Hj Hcas]; cbn in Hmove; unfold goto in *;
    try (destruct (decide (j = i)) as [->|Hne]; [|by rewrite list_lookup_insert_ne in Hmove]);
    try (rewrite Hi in Hj; simplify_eq); [done|by left|by right].
Qed.

(** Past an undisturbed load, the goroutine swaps. *)
Lemma advance_swap i v start retries c c' :
  c_threads c !! i = Some (AtSwap v start retries (c_counter c)) -> advance i c c' ->
  c' = Clock (wrapu64 (v + 1)) (goto c i Idle) (c_issued c) (v :: c_witnessed c).
Proof.
  intros Hi (Hstep & _ & Hmove). destruct Hstep as [c j Hj|c j v' Hj Hv|c j v' st re Hj Hlt|c j v' st re Hj Hle
    |c j v' st re cur l Hj Hcas|c j v' st re cur l Hj Hcas]; cbn in Hmove; unfold goto in *;
    try (destruct (decide (j = i)) as [->|Hne]; [|by rewrite list_lookup_insert_ne in Hmove]);
    try (rewrite Hi in Hj; simplify_eq); [done| |].
  - by apply cas_true in Hcas as [_ ->].
  - by apply cas_false in Hcas as [? _].
Qed.

Lemma advance_inside i c c' : advance i c c' -> c_threads c !! i <> Some Idle.
Proof. by intros (_ & ? & _). Qed.

Lemma idle_stops i c n c' : c_threads c !! i = Some Idle -> nsteps (advance i) n c c' -> n = 0%nat /\ c' = c.
Proof. intros Hi Hn. destruct Hn as [|n c c1 c' H1 _]; [done|]. by apply advance_inside in H1. Qed.

(** Every run of the goroutine alone, from the label: it is over after one step
    or two, and until then there is a next step. *)
Lemma call_alone i v start retries c n c' :
  c_threads c !! i = Some (AtLoad v start retries) -> nsteps (advance i) n c c' ->
  (n <= 2)%nat /\ (c_threads c' !! i = Some Idle -> returned c i v c') /\
  (c_threads c' !! i <> Some Idle -> exists c'', advance i c' c'').
Proof.
  intros Hi Hrun. pose proof (lookup_lt_Some _ _ _ Hi) as Hlen. unfold returned.
  assert (Hin : forall p (ts : list pc), length ts = length (c_threads c) -> <[i := p]> ts !! i = Some p).
  { intros p ts Hts. apply list_lookup_insert_eq. by rewrite Hts. }
  destruct Hrun as [c|n c c1 c' H1 Hrun].
  { split_and!; [lia|by rewrite Hi|]. intros _.
    destruct (Z.lt_ge_cases v (c_counter c)) as [Hlt|Hge]; eexists; (split_and!;
      [first [by eapply step_old | by eapply step_load]|by rewrite Hi|cbn; unfold goto; rewrite Hin by done; by rewrite Hi]). }
  destruct (advance_load i v start retries c c1 Hi H1) as [[Hlt ->] | [Hge ->]].
  - apply idle_stops in Hrun as [-> ->]; [|by apply Hin].
    split_and!; [lia| |cbn; unfold goto; rewrite Hin by done; done]. intros _. cbn.
    destruct (Z.ltb_spec v (c_counter c)); [done|lia].
  - set (c1 := Clock _ _ _ _) in *.
    assert (Hthr : c_threads c1 = <[i := AtSwap v start retries (c_counter c)]> (c_threads c)) by done.
    assert (Hiss : c_issued c1 = c_issued c) by done. assert (Hwit : c_witnessed c1 = c_witnessed c) by done.
    assert (H1i : c_threads c1 !! i = Some (AtSwap v start retries (c_counter c1))) by by apply Hin.
    assert (Hlen1 : length (c_threads c1) = length (c_threads c)) by apply length_insert.
    destruct Hrun as [c1'|n c1' c2 c' H2 Hrun].
    + split_and!; [lia|by rewrite H1i|]. intros _. eexists. split_and!; [eapply step_swap; [exact H1i|]|by rewrite H1i|].
      * unfold cas. by rewrite Z.eqb_refl.
      * cbn [c_threads]. unfold goto. rewrite Hin by done. by rewrite H1i.
    + rewrite (advance_swap i v start retries _ c2 H1i H2) in Hrun.
      apply idle_stops in Hrun as [-> ->]; [|by apply Hin].
      split_and!; [lia| |cbn [c_threads]; unfold goto; rewrite Hin by done; done]. intros _. cbn.
      destruct (Z.ltb_spec v (c_counter c)); [lia|]. unfold goto. rewrite Hthr, Hwit. split_and!; try done. apply list_insert_insert_eq.
Qed.

End Lamport.

(** ** Properties *)

(** C27: the Lamport clock under any interleaving, short of the last 64-bit
    value: the clock is past every value a finished [Witness] was given,
    successive [Increment]s return strictly growing values, no step moves the
    clock back, and a [Witness] call has retried no more often than its
    argument is ahead of the clock it started from, so it ends. *)
Theorem lamport_interleaved n c :
  rtc Lamport.safe_step (Lamport.start n) c ->
  Forall (fun v => v < Lamport.c_counter c) (Lamport.c_witnessed c) /\
  StronglySorted (fun x y => y < x) (Lamport.c_issued c) /\
  (forall c', Lamport.safe_step c c' -> Lamport.c_counter c <= Lamport.c_counter c') /\
  (forall i v start retries, Lamport.c_threads c !! i = Some (Lamport.AtLoad v start retries) ->
     retries <= Z.max 0 (v + 1 - start)).
Proof.
  intros Hc. pose proof (Lamport.clock_invariant_reachable n c Hc) as Hinv.
  pose proof Hinv as (H0 & Hts & Hw & Hi & Hs). split_and!; [done|done| |].
  - intros c' Hstep. by apply Lamport.clock_invariant_step.
  - intros i v start retries Hth. rewrite Forall_lookup in Hts. apply Hts in Hth. cbn in Hth. lia.
Qed.

Lemma lamport_interleaved_witness :
  exists c, rtc Lamport.safe_step (Lamport.start 2) c /\ Lamport.c_issued c = [1] /\
    StronglySorted (fun x y => y < x) (Lamport.c_issued c).
Proof.
  set (c := Lamport.Clock 1 (replicate 2 Lamport.Idle) [1] []).
  assert (Hc : rtc Lamport.safe_step (Lamport.start 2) c).
  { apply rtc_once. split_and!; [by apply (Lamport.step_Increment (Lamport.start 2) 0)| |];
      (split; [vm_compute; reflexivity|repeat (apply Forall_cons; split); [vm_compute; reflexivity..|by apply Forall_nil]]). }
  exists c. split_and!; [exact Hc|reflexivity|]. exact (proj1 (proj2 (lamport_interleaved 2 c Hc))).
Defined.

(** C28: [Witness] is obstruction free: whatever the other goroutines have done
    and wherever they stand, a goroutine at the label [WITNESS] that runs alone
    is done after at most two steps of its own, it is never stuck before, and
    however it ran, in the end the clock is unchanged when it was ahead of the
    argument, and one past the argument otherwise (the clock wraps at the last
    64-bit value); nothing else has changed. *)
Theorem lamport_witness_ends c i v start retries n c' :
  Lamport.c_threads c !! i = Some (Lamport.AtLoad v start retries) -> nsteps (Lamport.advance i) n c c' ->
  (n <= 2)%nat /\
  (Lamport.c_threads c' !! i <> Some Lamport.Idle -> exists c'', Lamport.advance i c' c'') /\
  (Lamport.c_threads c' !! i = Some Lamport.Idle ->
   Lamport.c_counter c' = (if v <? Lamport.c_counter c then Lamport.c_counter c else wrapu64 (v + 1)) /\
   Lamport.c_threads c' = <[i := Lamport.Idle]> (Lamport.c_threads c) /\
   Lamport.c_issued c' = Lamport.c_issued c /\ Lamport.c_witnessed c' = v :: Lamport.c_witnessed c).
Proof. intros Hi Hrun. by destruct (Lamport.call_alone i v start retries c n c' Hi Hrun) as (? & ? & ?). Qed.

Lemma lamport_witness_ends_witness :
  let c := Lamport.Clock 7 [Lamport.Idle; Lamport.AtLoad 41 3 2] [] [] in
  exists c', nsteps (Lamport.advance 1) 2 c c' /\ Lamport.c_counter c' = 42 /\
    Lamport.c_threads c' = [Lamport.Idle; Lamport.Idle].
Proof.
  intros c. set (c1 := Lamport.Clock 7 [Lamport.Idle; Lamport.AtSwap 41 3 2 7] [] []).
  set (c' := Lamport.Clock 42 [Lamport.Idle; Lamport.Idle] [] [41]).
  assert (Hrun : nsteps (Lamport.advance 1) 2 c c').
  { eapply (nsteps_l _ 1 c c1 c'); [|eapply nsteps_once]; (split_and!; [|discriminate|discriminate]).
    - apply (Lamport.step_load c 1 41 3 2); [reflexivity|]. vm_compute. discriminate.
    - apply (Lamport.step_swap c1 1 41 3 2 7 42); reflexivity. }
  destruct (lamport_witness_ends c 1 41 3 2 2 c' eq_refl Hrun) as (_ & _ & Hend).
  destruct (Hend eq_refl) as (Hc & Ht & _). exists c'. split_and!; [exact Hrun|exact Hc|exact Ht].
Defined.

(** At the last 64-bit value the clock wraps: witnessing it sets any clock
    back to 0, and so does incrementing there, against the promise that the
    clock ends ahead of what it witnessed. *)
Theorem lamport_wraps l :
  in_uint64 l -> Lamport.Witness l (two64 - 1) = 0 /\ (Lamport.Increment (two64 - 1)).1 = 0.
Proof.
  intros Hl. unfold Lamport.Witness, Lamport.cas. destruct (Z.ltb_spec (two64 - 1) l); [solve_int|].
  rewrite Z.eqb_refl. done.
Qed.

Lemma lamport_wraps_witness : Lamport.Witness 17 (two64 - 1) = 0 /\ (Lamport.Increment (two64 - 1)).1 = 0.
Proof. apply lamport_wraps. solve_int. Defined.
