(* ===== verification/Pool.v ===== *)
(** * The worker pool: gpool.go, and the dispatch loops that use it

    A pool is a buffered channel that counts the workers and a wait group.
    The loops of commonVerifier.go and quorum.go take a slot with [Add(1)],
    start a worker, and the worker gives the slot back with [Done]. *)

From S2P Require Import Prelude.

Module Pool.

Record pool : Type := MkPool {
  p_size : Z;    (** the capacity of the channel *)
  p_queue : Z;   (** the tokens in it *)
  p_wg : Z       (** the counter of the wait group *)
}.

Definition New (size : Z) : pool := MkPool (if size <=? 0 then 1 else size) 0 0.

(** An operation returns, panics, or blocks ([None]) until another goroutine
    moves. *)
Abbreviation blocking A := (option (outcome A)).

Definition send (p : pool) : option pool :=
  if p_queue p <? p_size p then Some (MkPool (p_size p) (p_queue p + 1) (p_wg p)) else None.

Definition recv (p : pool) : option pool :=
  if 0 <? p_queue p then Some (MkPool (p_size p) (p_queue p - 1) (p_wg p)) else None.

(** [wg.Add] panics when the counter turns negative. *)
Definition wg_add (p : pool) (delta : Z) : outcome pool :=
  if p_wg p + delta <? 0 then Panic NegativeCounter
  else Ret (MkPool (p_size p) (p_queue p) (p_wg p + delta)).

Fixpoint repeat_op (op : pool -> option pool) (n : nat) (p : pool) : option pool :=
  match n with
  | O => Some p
  | S n => match op p with Some p => repeat_op op n p | None => None end
  end.

(** [Add]: one loop sends for a positive [delta], the other receives for a
    negative one. *)
Definition Add (p : pool) (delta : Z) : blocking pool :=
  match repeat_op send (Z.to_nat delta) p with
  | None => None
  | Some p =>
      match repeat_op recv (Z.to_nat (- delta)) p with
      | None => None
      | Some p => Some (wg_add p delta)
      end
  end.

Definition Done (p : pool) : blocking pool :=
  match recv p with
  | None => None
  | Some p => Some (wg_add p (-1))
  end.

(** [Wait] returns when the counter is zero. *)
Definition Wait (p : pool) : option unit := if p_wg p =? 0 then Some tt else None.

(** ** The dispatch loop

    The dispatcher is waiting for work, in [Add], or between the two halves of
    [Add]; workers run, or are between the two halves of [Done].  The halves
    are separate atomic steps. *)

Inductive dispatcher : Type :=
| Receiving
| Adding
| Counting.

Record system : Type := System {
  s_pool : pool;
  s_disp : dispatcher;
  s_running : nat;
  s_leaving : nat
}.

Inductive step : system -> system -> Prop :=
| step_input p r l :
    step (System p Receiving r l) (System p Adding r l)
| step_slot p p' r l :
    send p = Some p' -> step (System p Adding r l) (System p' Counting r l)
| step_spawn p p' r l :
    wg_add p 1 = Ret p' -> step (System p Counting r l) (System p' Receiving (S r) l)
| step_release p p' d r l :
    recv p = Some p' -> step (System p d (S r) l) (System p' d r (S l))
| step_exit p p' d r l :
    wg_add p (-1) = Ret p' -> step (System p d r (S l)) (System p' d r l).

Definition start (size : Z) : system := System (New size) Receiving 0 0.

(** The slot the dispatcher holds for a worker it has not started. *)
Definition reserved (d : dispatcher) : Z := match d with Counting => 1 | _ => 0 end.

(** Tokens are workers that run or are about to, the counter is workers that
    have not returned. *)
Definition invariant (s : system) : Prop :=
  1 <= p_size (s_pool s) /\ p_queue (s_pool s) <= p_size (s_pool s) /\
  p_queue (s_pool s) = Z.of_nat (s_running s) + reserved (s_disp s) /\
  p_wg (s_pool s) = Z.of_nat (s_running s) + Z.of_nat (s_leaving s).

(** ** Lemmas *)

Lemma send_Some p p' : send p = Some p' -> p_queue p < p_size p /\ p' = MkPool (p_size p) (p_queue p + 1) (p_wg p).
Proof. unfold send. destruct (Z.ltb_spec (p_queue p) (p_size p)); [|done]. by intros [= <-]. Qed.

Lemma recv_Some p p' : recv p = Some p' -> 0 < p_queue p /\ p' = MkPool (p_size p) (p_queue p - 1) (p_wg p).
Proof. unfold recv. destruct (Z.ltb_spec 0 (p_queue p)); [|done]. by intros [= <-]. Qed.

Lemma wg_add_Ret p delta p' :
  wg_add p delta = Ret p' -> 0 <= p_wg p + delta /\ p' = MkPool (p_size p) (p_queue p) (p_wg p + delta).
Proof. unfold wg_add. destruct (Z.ltb_spec (p_wg p + delta) 0); [done|]. by intros [= <-]. Qed.

Lemma pool_invariant_step s s' : invariant s -> step s s' -> invariant s' /\ p_size (s_pool s') = p_size (s_pool s).
Proof.
  unfold invariant. intros Hi Hstep. destruct Hstep as [p r l|p p' r l H|p p' r l H|p p' d r l H|p p' d r l H];
    cbn [s_pool s_disp s_running s_leaving] in *; [cbn in *; lia|..].
  1: apply send_Some in H as [? ->].
  2: apply wg_add_Ret in H as [? ->].
  3: apply recv_Some in H as [? ->].
  4: apply wg_add_Ret in H as [? ->].
  all: cbn in *; lia.
Qed.

Lemma pool_invariant_reachable size s :
  rtc step (start size) s -> invariant s /\ p_size (s_pool s) = Z.max 1 size.
Proof.
  intros H. assert (Hi : invariant (start size) /\ p_size (s_pool (start size)) = Z.max 1 size).
  { unfold invariant, start, New. cbn. destruct (Z.leb_spec size 0); lia. }
  induction H as [|s1 s2 s3 H1 _ IH]; [done|]. apply IH. destruct Hi as [Hi Hsz].
  destruct (pool_invariant_step s1 s2 Hi H1) as [Hi2 Hsz2]. split; [done|congruence].
Qed.

(** From a reachable state [Add] of a positive number takes that many slots or
    blocks. *)
Lemma repeat_send n : forall p,
  repeat_op send n p = if (n =? 0)%nat || (p_queue p + Z.of_nat n <=? p_size p)
                       then Some (MkPool (p_size p) (p_queue p + Z.of_nat n) (p_wg p)) else None.
Proof.
  induction n as [|n IH]; intros p; cbn [repeat_op]; [cbn; rewrite Z.add_0_r; by destruct p|].
  cbn [Nat.eqb orb]. unfold send at 1. destruct (Z.ltb_spec (p_queue p) (p_size p)).
  - rewrite IH. cbn [p_size p_queue p_wg].
    replace (p_queue p + 1 + Z.of_nat n) with (p_queue p + Z.of_nat (S n)) by lia.
    destruct n; cbn [Nat.eqb orb]; [|done]. destruct (Z.leb_spec (p_queue p + Z.of_nat 1) (p_size p)); [done|lia].
  - destruct (Z.leb_spec (p_queue p + Z.of_nat (S n)) (p_size p)); [lia|done].
Qed.

End Pool.

(** ** Properties *)

(** C29: a pool never runs more workers than its size (at least one): in every
    interleaving of the dispatch loop and its workers, the running workers are
    bounded, no wait-group counter turns negative, a worker that returns never
    blocks, a free slot is given out whenever fewer than [size] workers run,
    and [Wait] returns only when every worker has returned. *)
Theorem pool_bounds_workers size s :
  rtc Pool.step (Pool.start size) s ->
  Z.of_nat (Pool.s_running s) <= Z.max 1 size /\
  (forall r, Pool.s_running s = S r -> exists p, Pool.recv (Pool.s_pool s) = Some p) /\
  (forall l, Pool.s_leaving s = S l -> exists p, Pool.wg_add (Pool.s_pool s) (-1) = Ret p) /\
  (Pool.s_disp s = Pool.Adding -> Z.of_nat (Pool.s_running s) < Z.max 1 size ->
   exists p, Pool.send (Pool.s_pool s) = Some p) /\
  (Pool.Wait (Pool.s_pool s) = Some tt <-> Pool.s_running s = 0%nat /\ Pool.s_leaving s = 0%nat).
Proof.
  intros [(H1 & H2 & H3 & H4) Hsz]%Pool.pool_invariant_reachable.
  assert (0 <= Pool.reserved (Pool.s_disp s)) by (by destruct (Pool.s_disp s)).
  split_and!.
  - lia.
  - intros r Hr. unfold Pool.recv. destruct (Z.ltb_spec 0 (Pool.p_queue (Pool.s_pool s))); [eauto|lia].
  - intros l Hl. unfold Pool.wg_add. destruct (Z.ltb_spec (Pool.p_wg (Pool.s_pool s) + -1) 0); [lia|eauto].
  - intros Hd Hlt. rewrite Hd in H3. cbn in H3. unfold Pool.send.
    destruct (Z.ltb_spec (Pool.p_queue (Pool.s_pool s)) (Pool.p_size (Pool.s_pool s))); [eauto|lia].
  - unfold Pool.Wait. destruct (Z.eqb_spec (Pool.p_wg (Pool.s_pool s)) 0); split; (done || lia).
Qed.

Lemma pool_bounds_workers_witness :
  exists s, rtc Pool.step (Pool.start 0) s /\ Pool.s_running s = 1%nat /\
    Z.of_nat (Pool.s_running s) <= Z.max 1 0.
Proof.
  set (s := Pool.System (Pool.MkPool 1 1 1) Pool.Receiving 1 0).
  assert (Hs : rtc Pool.step (Pool.start 0) s).
  { eapply rtc_l; [apply Pool.step_input|]. eapply rtc_l; [by apply Pool.step_slot|].
    by apply rtc_once, Pool.step_spawn. }
  exists s. split_and!; [exact Hs|reflexivity|]. exact (proj1 (pool_bounds_workers 0 s Hs)).
Defined.

(** [Add] with a positive number takes that many slots and counts as many
    workers, or blocks when the channel has no room; it does not panic on a
    pool whose counter is not negative. *)
Theorem pool_add_positive p n :
  0 < n -> 0 <= Pool.p_wg p ->
  Pool.Add p n = if Pool.p_queue p + n <=? Pool.p_size p
                 then Some (Ret (Pool.MkPool (Pool.p_size p) (Pool.p_queue p + n) (Pool.p_wg p + n)))
                 else None.
Proof.
  intros Hn Hwg. unfold Pool.Add. rewrite Pool.repeat_send, Z2Nat.id by lia.
  destruct (Nat.eqb_spec (Z.to_nat n) 0); [lia|]. cbn [orb].
  destruct (Pool.p_queue p + n <=? Pool.p_size p); [|done].
  replace (Z.to_nat (- n)) with 0%nat by lia. cbn [Pool.repeat_op]. unfold Pool.wg_add. cbn.
  destruct (Z.ltb_spec (Pool.p_wg p + n) 0); [lia|done].
Qed.

Lemma pool_add_positive_witness :
  Pool.Add (Pool.New 2) 2 = Some (Ret (Pool.MkPool 2 2 2)) /\ Pool.Add (Pool.New 2) 3 = None.
Proof.
  split.
  - apply (pool_add_positive (Pool.New 2) 2); [lia|done].
  - apply (pool_add_positive (Pool.New 2) 3); [lia|done].
Defined.
