(* ===== verification/Pipeline.v ===== *)
(** * Pipelines: a feeder, a pool of workers, a consumer

    The verifier (bridge.go, commonVerifier.go) and the notification commands
    (quorum.go) run in the same way: a feeder sends items on an unbuffered
    channel, a dispatch loop takes a slot of the pool for each and starts a
    worker, and the workers hand their results to a consumer on a second
    unbuffered channel.  Here all goroutines interleave: a send and its receive
    are one joint step, everything else is a step of one goroutine.  What the
    workers and the consumer do to the state of the node is given by
    relations. *)

From S2P Require Import Prelude Pool.

Module Pipeline.

Section Net.

(** The state of the node, items, results; the first critical section of a
    worker, its second with the result ([None]: nothing to send), and the
    consumer on a result. *)
Context {St In Out : Type}.
Context (work : St -> In -> St -> Prop) (emit : St -> In -> option Out -> Prop) (take : St -> Out -> St -> Prop).

(** The dispatch loop: at its [select], in [pool.Add] before and after the
    send on the slot channel, or in [pool.Wait] after the context is done. *)
Inductive dispatcher : Type :=
| Receiving
| Adding (x : In)
| Counting (x : In)
| Stopping.

Record net : Type := Net {
  n_state : St;
  n_todo : list In;             (** what the feeder has still to send *)
  n_disp : dispatcher;
  n_pool : Pool.pool;
  n_running : list In;          (** workers before their first section *)
  n_worked : list In;           (** workers between their sections *)
  n_sending : list (In * Out);  (** workers at their send *)
  n_done : list (In * option Out); (** finished work, a ghost *)
  n_releasing : nat;            (** workers about to give their slot back *)
  n_leaving : nat;              (** workers before [wg.Done] *)
  n_consumer : bool;            (** the consumer is at its [select] *)
  n_cancelled : bool            (** the context is done *)
}.

Inductive step : net -> net -> Prop :=
| step_feed s x todo p r w sd d rl lv c k :
    step (Net s (x :: todo) Receiving p r w sd d rl lv c k) (Net s todo (Adding x) p r w sd d rl lv c k)
| step_slot s todo x p p' r w sd d rl lv c k :
    Pool.send p = Some p' ->
    step (Net s todo (Adding x) p r w sd d rl lv c k) (Net s todo (Counting x) p' r w sd d rl lv c k)
| step_spawn s todo x p p' r w sd d rl lv c k :
    Pool.wg_add p 1 = Ret p' ->
    step (Net s todo (Counting x) p r w sd d rl lv c k) (Net s todo Receiving p' (r ++ [x]) w sd d rl lv c k)
| step_work s s' todo ds p r1 x r2 w sd d rl lv c k :
    work s x s' ->
    step (Net s todo ds p (r1 ++ x :: r2) w sd d rl lv c k) (Net s' todo ds p (r1 ++ r2) (w ++ [x]) sd d rl lv c k)
| step_emit s todo ds p r w1 x w2 y sd d rl lv c k :
    emit s x (Some y) ->
    step (Net s todo ds p r (w1 ++ x :: w2) sd d rl lv c k) (Net s todo ds p r (w1 ++ w2) (sd ++ [(x, y)]) d rl lv c k)
| step_quit s todo ds p r w1 x w2 sd d rl lv c k :
    emit s x None ->
    step (Net s todo ds p r (w1 ++ x :: w2) sd d rl lv c k)
         (Net s todo ds p r (w1 ++ w2) sd (d ++ [(x, None)]) (S rl) lv c k)
| step_take s s' todo ds p r w sd1 x y sd2 d rl lv k :
    take s y s' ->
    step (Net s todo ds p r w (sd1 ++ (x, y) :: sd2) d rl lv true k)
         (Net s' todo ds p r w (sd1 ++ sd2) (d ++ [(x, Some y)]) (S rl) lv true k)
| step_release s todo ds p p' r w sd d rl lv c k :
    Pool.recv p = Some p' ->
    step (Net s todo ds p r w sd d (S rl) lv c k) (Net s todo ds p' r w sd d rl (S lv) c k)
| step_exit s todo ds p p' r w sd d rl lv c k :
    Pool.wg_add p (-1) = Ret p' ->
    step (Net s todo ds p r w sd d rl (S lv) c k) (Net s todo ds p' r w sd d rl lv c k)
| step_stop s todo p r w sd d rl lv c :
    step (Net s todo Receiving p r w sd d rl lv c true) (Net s todo Stopping p r w sd d rl lv c true)
| step_consumer_stop s todo ds p r w sd d rl lv :
    step (Net s todo ds p r w sd d rl lv true true) (Net s todo ds p r w sd d rl lv false true).

(** [cancel()]. *)
Definition cancel (n : net) : net :=
  Net (n_state n) (n_todo n) (n_disp n) (n_pool n) (n_running n) (n_worked n) (n_sending n) (n_done n)
    (n_releasing n) (n_leaving n) (n_consumer n) true.

(** The goroutines wait for work, the feeder has the items [l]. *)
Definition start (size : Z) (s : St) (l : list In) : net :=
  Net s l Receiving (Pool.New size) [] [] [] [] 0 0 true false.

(** Every item is through and every goroutine is back where it waits. *)
Definition finished (n : net) : Prop :=
  n_todo n = [] /\ n_disp n = Receiving /\ n_running n = [] /\ n_worked n = [] /\ n_sending n = [] /\
  n_releasing n = 0%nat /\ n_leaving n = 0%nat /\ Pool.p_queue (n_pool n) = 0 /\ Pool.Wait (n_pool n) = Some tt.

(** ** The invariant *)

Definition held (d : dispatcher) : list In := match d with Adding x | Counting x => [x] | _ => [] end.

(** The items not yet worked on, those past the first section, all of them. *)
Definition pending (n : net) : list In := n_todo n ++ held (n_disp n) ++ n_running n.
Definition started (n : net) : list In := n_worked n ++ (n_sending n).*1 ++ (n_done n).*1.

Definition workers (n : net) : nat :=
  (length (n_running n) + length (n_worked n) + length (n_sending n) + n_releasing n)%nat.

Definition net_ok (size : Z) (l : list In) (n : net) : Prop :=
  pending n ++ started n ≡ₚ l /\
  Pool.p_size (n_pool n) = Z.max 1 size /\
  Pool.p_queue (n_pool n) <= Z.max 1 size /\
  Pool.p_queue (n_pool n) = Z.of_nat (workers n) + (match n_disp n with Counting _ => 1 | _ => 0 end) /\
  Pool.p_wg (n_pool n) = Z.of_nat (workers n) + Z.of_nat (n_leaving n) /\
  n_cancelled n = false /\ n_consumer n = true /\ n_disp n <> Stopping.

(** What is left to do; every step does one of it. *)
Definition remaining (n : net) : nat :=
  (8 * length (n_todo n) + match n_disp n with Adding _ => 7 | Counting _ => 6 | _ => 0 end
   + 5 * length (n_running n) + 4 * length (n_worked n) + 3 * length (n_sending n)
   + 2 * n_releasing n + n_leaving n)%nat.

(** ** Lemmas *)

Lemma net_ok_start size s l : net_ok size l (start size s l).
Proof.
  unfold net_ok, start, pending, started, workers, Pool.New. cbn. rewrite !app_nil_r.
  destruct (Z.leb_spec size 0); split_and!; try done; lia.
Qed.

Ltac pool_steps :=
  repeat match goal with
  | H : Pool.send _ = Some _ |- _ => apply Pool.send_Some in H as [? ->]
  | H : Pool.recv _ = Some _ |- _ => apply Pool.recv_Some in H as [? ->]
  | H : Pool.wg_add _ _ = Ret _ |- _ => apply Pool.wg_add_Ret in H as [? ->]
  end.

Ltac sizes := unfold workers, remaining in *; cbn in *; rewrite ?length_app in *; cbn in *; lia.

Lemma net_ok_step size l n n' : net_ok size l n -> step n n' -> net_ok size l n' /\ (remaining n' < remaining n)%nat.
Proof.
  intros (Hp & Hsz & Hq & Hqueue & Hwg & Hk & Hc & Hd) Hstep.
  assert (Hitems : pending n' ++ started n' ≡ₚ pending n ++ started n).
  { destruct Hstep; unfold pending, started; cbn; rewrite ?fmap_app; cbn; try done; try solve_Permutation. }
  destruct Hstep; pool_steps; cbn in Hk, Hc, Hd; try done; (split; [|sizes]);
    (split; [by rewrite Hitems|]); split_and!; try done; sizes.
Qed.

(** The data steps of a state are possible. *)
Definition enabled (n : net) : Prop :=
  (forall x, x ∈ n_running n -> exists s', work (n_state n) x s') /\
  (forall x, x ∈ n_worked n -> exists o, emit (n_state n) x o) /\
  (forall x y, (x, y) ∈ n_sending n -> exists s', take (n_state n) y s').

(** No deadlock: a pipeline whose data steps are possible moves on or is
    finished. *)
Lemma net_progress size l n : net_ok size l n -> enabled n -> (exists n', step n n') \/ finished n.
Proof.
  intros (Hp & Hsz & Hq & Hqueue & Hwg & Hk & Hc & Hd) (Hw & He & Ht).
  destruct n as [s todo ds p r w sd d rl lv c k]. cbn in *. subst c k. unfold workers in *. cbn in *.
  destruct r as [|x r]; [|left; destruct (Hw x) as [s' Hs']; [constructor|]; eexists; exact (step_work _ _ _ _ _ [] _ _ _ _ _ _ _ _ _ Hs')].
  destruct w as [|x w].
  2: { left. destruct (He x) as [o Ho]; [constructor|]. destruct o as [y|]; eexists.
       - exact (step_emit _ _ _ _ _ [] _ _ _ _ _ _ _ _ _ Ho).
       - exact (step_quit _ _ _ _ _ [] _ _ _ _ _ _ _ _ Ho). }
  destruct sd as [|[x y] sd]; [|left; destruct (Ht x y) as [s' Hs']; [constructor|]; eexists; exact (step_take _ _ _ _ _ _ _ [] _ _ _ _ _ _ _ Hs')].
  cbn [length Nat.add] in *. destruct rl as [|rl].
  2: { left. eexists. eapply step_release. unfold Pool.recv. destruct (Z.ltb_spec 0 (Pool.p_queue p)); [done|].
       destruct ds; lia. }
  destruct lv as [|lv].
  2: { left. eexists. eapply step_exit. unfold Pool.wg_add. destruct (Z.ltb_spec (Pool.p_wg p + -1) 0); [lia|done]. }
  destruct ds as [|x|x|]; [|left..|done].
  - destruct todo as [|x todo]; [right|left; eexists; apply step_feed].
    split_and!; try done. unfold Pool.Wait. cbn. by rewrite Hwg.
  - eexists. eapply step_slot. unfold Pool.send. destruct (Z.ltb_spec (Pool.p_queue p) (Pool.p_size p)); [done|lia].
  - eexists. eapply step_spawn. unfold Pool.wg_add. destruct (Z.ltb_spec (Pool.p_wg p + 1) 0); [lia|done].
Qed.

(** Shutting down can hang: when the consumer sees the end of the context while a
    worker is at its send, the worker waits for ever and with it the
    [pool.Wait] of the dispatch loop. *)
Lemma shutdown_hangs size s s1 x y :
  work s x s1 -> emit s1 x (Some y) ->
  exists n n', rtc step (start size s [x]) n /\ rtc step (cancel n) n' /\
    n_disp n' = Stopping /\ Pool.Wait (n_pool n') = None /\ forall n'', ~ step n' n''.
Proof.
  intros Hw He. set (p := Pool.MkPool (Pool.p_size (Pool.New size)) 1 1).
  exists (Net s1 [] Receiving p [] [] [(x, y)] [] 0 0 true false), (Net s1 [] Stopping p [] [] [(x, y)] [] 0 0 false true).
  split_and!; [| |done|done|].
  - eapply rtc_l; [apply step_feed|].
    eapply rtc_l; [eapply (step_slot _ _ _ _ (Pool.MkPool (Pool.p_size (Pool.New size)) 1 0))|].
    { unfold Pool.send, Pool.New. cbn. destruct (Z.leb_spec size 0); cbn; [done|]. destruct (Z.ltb_spec 0 size); [done|lia]. }
    eapply rtc_l; [by eapply (step_spawn _ _ _ _ p)|].
    eapply rtc_l; [exact (step_work s s1 [] Receiving p [] x [] [] [] [] 0 0 true false Hw)|].
    apply rtc_once. exact (step_emit s1 [] Receiving p [] [] x [] y [] [] 0 0 true false He).
  - eapply rtc_l; [apply step_stop|]. apply rtc_once, step_consumer_stop.
  - intros n'' Hn. inversion Hn; subst; by match goal with H : ?a ++ _ = [] |- _ => destruct a end.
Qed.

(** Results can overtake each other: of two items fed one after the other, the
    result found first may be taken last. *)
Lemma overtaking size s s1 s2 s3 s4 x x' y y' :
  2 <= size -> work s x s1 -> emit s1 x (Some y) -> work s1 x' s2 -> emit s2 x' (Some y') ->
  take s2 y' s3 -> take s3 y s4 ->
  exists n, rtc step (start size s [x; x']) n /\ finished n /\ n_state n = s4.
Proof.
  intros Hsize Hw1 He1 Hw2 He2 Ht1 Ht2. pose (P := Pool.MkPool size).
  assert (Hnew : Pool.New size = P 0 0) by (unfold Pool.New; destruct (Z.leb_spec size 0); [lia|done]).
  assert (Hsend : forall q w, q < size -> Pool.send (P q w) = Some (P (q + 1) w)).
  { intros q w Hq. unfold Pool.send. cbn. by destruct (Z.ltb_spec q size); [|lia]. }
  exists (Net s4 [] Receiving (P 0 0) [] [] [] [(x', Some y'); (x, Some y)] 0 0 true false).
  split_and!; [|by split_and!|done]. unfold start. rewrite Hnew.
  eapply rtc_l; [apply step_feed|].
  eapply rtc_l; [apply (step_slot _ _ _ (P 0 0) (P 1 0)), Hsend; lia|].
  eapply rtc_l; [by apply (step_spawn _ _ _ (P 1 0) (P 1 1))|].
  eapply rtc_l; [apply step_feed|].
  eapply rtc_l; [apply (step_slot _ _ _ (P 1 1) (P 2 1)), Hsend; lia|].
  eapply rtc_l; [by apply (step_spawn _ _ _ (P 2 1) (P 2 2))|].
  eapply rtc_l; [exact (step_work s s1 [] Receiving (P 2 2) [] x [x'] [] [] [] 0 0 true false Hw1)|].
  eapply rtc_l; [exact (step_emit s1 [] Receiving (P 2 2) [x'] [] x [] y [] [] 0 0 true false He1)|].
  eapply rtc_l; [exact (step_work s1 s2 [] Receiving (P 2 2) [] x' [] [] [(x, y)] [] 0 0 true false Hw2)|].
  eapply rtc_l; [exact (step_emit s2 [] Receiving (P 2 2) [] [] x' [] y' [(x, y)] [] 0 0 true false He2)|].
  eapply rtc_l; [exact (step_take s2 s3 [] Receiving (P 2 2) [] [] [(x, y)] x' y' [] [] 0 0 false Ht1)|].
  eapply rtc_l; [exact (step_take s3 s4 [] Receiving (P 2 2) [] [] [] x y [] _ 1 0 false Ht2)|].
  eapply rtc_l; [by apply (step_release _ _ _ (P 2 2) (P 1 2))|].
  eapply rtc_l; [by apply (step_release _ _ _ (P 1 2) (P 0 2))|].
  eapply rtc_l; [by apply (step_exit _ _ _ (P 0 2) (P 0 1))|].
  apply rtc_once. by apply (step_exit _ _ _ (P 0 1) (P 0 0)).
Qed.

(** A property [I] of the data that steps keep and that makes the data steps
    possible: then every run is short, never stuck, and ends finished. *)
Context (size : Z) (s0 : St) (l : list In) (I : net -> Prop).
Hypothesis I_start : I (start size s0 l).
Hypothesis I_step : forall n n', net_ok size l n -> I n -> step n n' -> I n'.
Hypothesis I_enabled : forall n, net_ok size l n -> I n -> enabled n.

Lemma runs_ok n m k : nsteps step k n m -> net_ok size l n -> I n ->
  net_ok size l m /\ I m /\ (k + remaining m <= remaining n)%nat.
Proof.
  induction 1 as [n|k n n1 m H1 _ IH]; intros Hok Hi; [split_and!; [done|done|lia]|].
  destruct (net_ok_step size l n n1 Hok H1) as [Hok1 Hlt]. destruct IH as (Hm & Him & Hk); [done|exact (I_step _ _ Hok Hi H1)|].
  split_and!; [done|done|lia].
Qed.

Lemma run_bounded k n : nsteps step k (start size s0 l) n ->
  net_ok size l n /\ I n /\ (k <= 8 * length l)%nat /\ ((exists n', step n n') \/ finished n).
Proof.
  intros Hk. destruct (runs_ok _ _ _ Hk (net_ok_start size s0 l) I_start) as (Hok & Hi & Hle).
  split_and!; [done|done| |by apply (net_progress size l n); [|apply I_enabled]].
  unfold remaining, start in Hle. cbn in Hle. lia.
Qed.

(** From every state of a run the end can be reached, and every longest run
    reaches it. *)
Lemma run_finishes n : net_ok size l n -> I n -> exists m, rtc step n m /\ finished m.
Proof.
  remember (remaining n) as r eqn:Hr. revert n Hr. induction (Nat.lt_wf_0 r) as [r _ IH]. intros n -> Hok Hi.
  destruct (net_progress size l n Hok) as [[n1 H1]|Hf]; [by apply I_enabled| |by exists n].
  destruct (net_ok_step size l n n1 Hok H1) as [Hok1 Hlt].
  destruct (IH (remaining n1) Hlt n1) as (m & Hm & Hf); [done|done|exact (I_step _ _ Hok Hi H1)|].
  exists m. split; [by eapply rtc_l|done].
Qed.

(** At the end all items are done, each once. *)
Lemma finished_done n : net_ok size l n -> finished n -> (n_done n).*1 ≡ₚ l.
Proof.
  intros (Hp & _) (H1 & H2 & H3 & H4 & H5 & _). unfold pending, started in Hp. by rewrite H1, H2, H3, H4, H5 in Hp.
Qed.

End Net.

Arguments net : clear implicits.

End Pipeline.
