(* ===== verification/Locks.v ===== *)
(** * Lock discipline: the mutexes of cache.go and gossipCache.go

    A method takes its lock, touches the data and releases the lock.  Here the
    goroutines interleave inside the methods: a step takes the lock, starts or
    ends the access, or releases the lock.  Two accesses at the same time, one
    of them a write, are a race, on which the Go runtime stops the process for
    maps.  Where there is no race each method is one atomic step, as the other
    files have it. *)

From S2P Require Import Prelude.

Module Locks.

(** What a method locks, [sync.RWMutex], and whether it writes. *)
Inductive lock_mode : Type := NoLock | RLock | Lock.

Record method : Type := Method { m_name : string; m_lock : lock_mode; m_writes : bool }.

(** [sync.RWMutex]. *)
Record rwmutex : Type := RW { rw_writer : bool; rw_readers : nat }.

Inductive phase : Type := Waiting | Holding | Accessing | Leaving | Finished.

Record thread : Type := Thread { t_method : method; t_phase : phase }.

Record state : Type := State { st_mutex : rwmutex; st_threads : list thread }.

(** The mutex after taking the lock, if it can be taken. *)
Definition acquire (l : lock_mode) (m : rwmutex) : option rwmutex :=
  match l with
  | NoLock => Some m
  | RLock => if rw_writer m then None else Some (RW false (S (rw_readers m)))
  | Lock => if rw_writer m || negb (rw_readers m =? 0)%nat then None else Some (RW true 0)
  end.

Definition release (l : lock_mode) (m : rwmutex) : rwmutex :=
  match l with
  | NoLock => m
  | RLock => RW (rw_writer m) (pred (rw_readers m))
  | Lock => RW false (rw_readers m)
  end.

Inductive step : state -> state -> Prop :=
| step_acquire m m' ts i f :
    ts !! i = Some (Thread f Waiting) -> acquire (m_lock f) m = Some m' ->
    step (State m ts) (State m' (<[i := Thread f Holding]> ts))
| step_enter m ts i f :
    ts !! i = Some (Thread f Holding) -> step (State m ts) (State m (<[i := Thread f Accessing]> ts))
| step_leave m ts i f :
    ts !! i = Some (Thread f Accessing) -> step (State m ts) (State m (<[i := Thread f Leaving]> ts))
| step_release m ts i f :
    ts !! i = Some (Thread f Leaving) ->
    step (State m ts) (State (release (m_lock f) m) (<[i := Thread f Finished]> ts)).

(** Goroutines about to call methods. *)
Definition start (fs : list method) : state := State (RW false 0) ((fun f => Thread f Waiting) <$> fs).

Definition race (s : state) : Prop :=
  exists i j f g, i <> j /\ st_threads s !! i = Some (Thread f Accessing) /\ st_threads s !! j = Some (Thread g Accessing) /\
    (m_writes f || m_writes g) = true.

(** A writer holds the lock, a reader holds it at least for reading. *)
Definition disciplined (f : method) : bool :=
  match m_lock f with
  | NoLock => false
  | RLock => negb (m_writes f)
  | Lock => true
  end.

(** ** The methods *)

(** cache.go *)
Definition cache_methods : list method :=
  [Method "Get" RLock false; Method "GetKey" RLock false; Method "Set" Lock true; Method "Del" RLock true;
   Method "Marshal" RLock false; Method "MarshalForKey" RLock false; Method "UnMarshal" Lock true;
   Method "Clone" RLock false; Method "Len" NoLock false].

(** gossipCache.go *)
Definition gossip_methods : list method :=
  [Method "GetKeyNode" RLock false; Method "Set" Lock true; Method "SetPreviousConsensus" Lock true;
   Method "GetPreviousConsensus" Lock false; Method "SetPreviousEventTime" Lock true; Method "GetEmpty" Lock false;
   Method "SetEmpty" Lock true; Method "setEmptyTime" Lock true; Method "DelNodeAddr" Lock true;
   Method "DelKey" Lock true; Method "Clone" RLock false; Method "Marshal" RLock false; Method "GetKey" RLock false].

(** ** Lemmas *)

Definition holds (l : lock_mode) (t : thread) : bool :=
  match m_lock (t_method t), l with
  | RLock, RLock | Lock, Lock =>
      match t_phase t with Holding | Accessing | Leaving => true | _ => false end
  | _, _ => false
  end.

Fixpoint count {A : Type} (p : A -> bool) (l : list A) : nat :=
  match l with
  | [] => 0
  | x :: l => (if p x then 1 else 0) + count p l
  end.

Lemma count_insert {A : Type} (p : A -> bool) l i x y :
  l !! i = Some x -> (count p (<[i := y]> l) + (if p x then 1 else 0) = count p l + (if p y then 1 else 0))%nat.
Proof.
  revert i. induction l as [|a l IH]; intros [|i] Hi; [done..| |].
  - injection Hi as ->. cbn. destruct (p x), (p y); lia.
  - change (<[S i := y]> (a :: l)) with (a :: <[i := y]> l). cbn [count]. specialize (IH i Hi). lia.
Qed.

Lemma count_pos {A : Type} (p : A -> bool) l i x : l !! i = Some x -> p x = true -> (1 <= count p l)%nat.
Proof.
  revert i. induction l as [|a l IH]; intros [|i] Hi Hp; [done..| |]; cbn in *.
  - injection Hi as ->. rewrite Hp. lia.
  - specialize (IH i Hi Hp). destruct (p a); lia.
Qed.

Lemma count_two {A : Type} (p : A -> bool) l i j x y :
  i <> j -> l !! i = Some x -> l !! j = Some y -> p x = true -> p y = true -> (2 <= count p l)%nat.
Proof.
  revert i j. induction l as [|a l IH]; intros [|i] [|j] Hij Hi Hj Hx Hy; try done; cbn in *.
  - injection Hi as ->. rewrite Hx. pose proof (count_pos p l j y Hj Hy). lia.
  - injection Hj as ->. rewrite Hy. pose proof (count_pos p l i x Hi Hx). lia.
  - specialize (IH i j ltac:(congruence) Hi Hj Hx Hy). destruct (p a); lia.
Qed.

(** The mutex counts its holders, and a writer is alone. *)
Definition lock_ok (s : state) : Prop :=
  rw_readers (st_mutex s) = count (holds RLock) (st_threads s) /\
  count (holds Lock) (st_threads s) = (if rw_writer (st_mutex s) then 1 else 0)%nat /\
  (rw_writer (st_mutex s) = true -> rw_readers (st_mutex s) = 0%nat).

Lemma lock_ok_start fs : lock_ok (start fs).
Proof.
  assert (H : forall l, count (holds l) ((fun f => Thread f Waiting) <$> fs) = 0%nat).
  { intros l. induction fs as [|f fs IH]; [done|]. cbn. rewrite IH. unfold holds. cbn. by destruct (m_lock f), l. }
  unfold lock_ok. cbn. by rewrite !H.
Qed.

Lemma lock_ok_step s s' : lock_ok s -> step s s' -> lock_ok s'.
Proof.
  intros (Hr & Hw & Hx) Hstep. destruct Hstep as [m m' ts i f Hi Ha|m ts i f Hi|m ts i f Hi|m ts i f Hi];
    unfold lock_ok; cbn [st_mutex st_threads] in *.
  all: [> pose proof (count_insert (holds RLock) ts i _ (Thread f Holding) Hi) as C1;
          pose proof (count_insert (holds Lock) ts i _ (Thread f Holding) Hi) as C2
        | pose proof (count_insert (holds RLock) ts i _ (Thread f Accessing) Hi) as C1;
          pose proof (count_insert (holds Lock) ts i _ (Thread f Accessing) Hi) as C2
        | pose proof (count_insert (holds RLock) ts i _ (Thread f Leaving) Hi) as C1;
          pose proof (count_insert (holds Lock) ts i _ (Thread f Leaving) Hi) as C2
        | pose proof (count_insert (holds RLock) ts i _ (Thread f Finished) Hi) as C1;
          pose proof (count_insert (holds Lock) ts i _ (Thread f Finished) Hi) as C2;
          pose proof (count_pos (holds Lock) ts i _ Hi) as P1; pose proof (count_pos (holds RLock) ts i _ Hi) as P2 ].
  all: destruct m as [w r]; unfold holds, acquire, release in *; cbn [t_method t_phase rw_writer rw_readers] in *.
  all: destruct (m_lock f), w; cbn in *; try discriminate; simplify_eq; cbn in *.
  all: repeat match goal with
       | H : (if negb (?n =? 0)%nat then _ else _) = _ |- _ => destruct (Nat.eqb_spec n 0); cbn in H; simplify_eq; cbn in *
       end; split_and!; intros; try lia; try discriminate.
Qed.

Lemma lock_ok_reachable fs s : rtc step (start fs) s -> lock_ok s.
Proof.
  intros H. pose proof (lock_ok_start fs) as H0. induction H as [|a b c Hab _ IH]; [done|]. by apply IH, (lock_ok_step a).
Qed.

(** Threads keep their methods. *)
Lemma step_methods s s' : step s s' -> t_method <$> st_threads s' = t_method <$> st_threads s.
Proof.
  destruct 1; cbn [st_threads]; rewrite list_fmap_insert; apply list_insert_id; rewrite list_lookup_fmap;
    match goal with H : _ !! _ = Some _ |- _ => by rewrite H end.
Qed.

Lemma reachable_methods fs s : rtc step (start fs) s -> t_method <$> st_threads s = fs.
Proof.
  intros H. assert (H0 : t_method <$> st_threads (start fs) = fs).
  { cbn. rewrite <- list_fmap_compose. apply list_fmap_id. }
  induction H as [|a b c Hab _ IH]; [done|]. apply IH. by rewrite (step_methods _ _ Hab).
Qed.

Lemma no_race fs s : Forall (fun f => disciplined f = true) fs -> rtc step (start fs) s -> ~ race s.
Proof.
  intros Hd Hs (i & j & f & g & Hij & Hi & Hj & Hw). destruct (lock_ok_reachable fs s Hs) as (Hr & Hl & Hx).
  assert (Hm : forall k h ph, st_threads s !! k = Some (Thread h ph) -> disciplined h = true).
  { intros k h ph Hk. rewrite Forall_forall in Hd. apply Hd. rewrite <- (reachable_methods fs s Hs).
    apply list_elem_of_fmap. eexists. split; [|by apply list_elem_of_lookup_2 in Hk]. done. }
  pose proof (Hm _ _ _ Hi) as Df. pose proof (Hm _ _ _ Hj) as Dg. unfold disciplined in *.
  pose proof (count_pos (holds RLock) _ _ _ Hi) as Rf. pose proof (count_pos (holds RLock) _ _ _ Hj) as Rg.
  pose proof (count_pos (holds Lock) _ _ _ Hi) as Lf. pose proof (count_pos (holds Lock) _ _ _ Hj) as Lg.
  pose proof (count_two (holds Lock) _ _ _ _ _ Hij Hi Hj) as LL.
  unfold holds in *. cbn [t_method t_phase] in *. destruct (rw_writer (st_mutex s)).
  all: destruct (m_lock f), (m_lock g), (m_writes f), (m_writes g); try discriminate.
  all: try specialize (Hx eq_refl); try specialize (LL eq_refl eq_refl); try specialize (Lf eq_refl); try specialize (Lg eq_refl);
       try specialize (Rf eq_refl); try specialize (Rg eq_refl); lia.
Qed.

(** When nobody holds the lock it is free. *)
Lemma count_zero {A : Type} (p : A -> bool) l : (forall x, x ∈ l -> p x = false) -> count p l = 0%nat.
Proof.
  induction l as [|x l IH]; intros Hp; [done|]. cbn. rewrite (Hp x) by constructor. apply IH. intros y Hy. apply Hp. by constructor.
Qed.

Lemma progress fs s i t :
  rtc step (start fs) s -> st_threads s !! i = Some t -> t_phase t <> Finished -> exists s', step s s'.
Proof.
  intros Hs Hi Ht. destruct s as [m ts]. cbn [st_threads] in Hi.
  assert (Hact : forall k f ph, ts !! k = Some (Thread f ph) -> ph ∈ [Holding; Accessing; Leaving] -> exists s', step (State m ts) s').
  { intros k f ph Hk Hph. rewrite !elem_of_cons, elem_of_nil in Hph. destruct Hph as [-> | [-> | [-> | []]]].
    - eexists. by eapply step_enter.
    - eexists. by eapply step_leave.
    - eexists. by eapply step_release. }
  destruct t as [f ph]. cbn in Ht. destruct ph; [|by eapply Hact; [done|set_solver]..|done].
  destruct (lock_ok_reachable fs _ Hs) as (Hr & Hl & _). cbn [st_mutex st_threads] in *.
  destruct (acquire (m_lock f) m) as [m'|] eqn:Ha; [eexists; by eapply step_acquire|].
  destruct (decide (Forall (fun t => holds RLock t = false /\ holds Lock t = false) ts)) as [Hno|Hsome].
  - exfalso. rewrite Forall_forall in Hno. rewrite count_zero in Hr by (intros; by apply Hno).
    rewrite count_zero in Hl by (intros; by apply Hno). destruct m as [w r]. cbn in *. subst r. destruct w; [done|].
    by destruct (m_lock f).
  - apply not_Forall_Exists, Exists_exists in Hsome as ([g ph] & Hin & Hh); [|apply _].
    apply list_elem_of_lookup in Hin as [k Hk]. eapply Hact; [exact Hk|]. clear -Hh. unfold holds in Hh. cbn in Hh.
    destruct ph; [exfalso; apply Hh; by destruct (m_lock g)|set_solver..|exfalso; apply Hh; by destruct (m_lock g)].
Qed.

(** ** Properties *)

(** C26: lock discipline: goroutines that call any methods of the gossip cache,
    as many and in any interleaving, never race; the same holds for the
    key-value cache without [Del] and [Len]; and no set of calls deadlocks. *)
Theorem locks_exclude_races fs s :
  rtc step (start fs) s ->
  ((forall f, f ∈ fs -> f ∈ gossip_methods) -> ~ race s) /\
  ((forall f, f ∈ fs -> f ∈ cache_methods /\ m_name f ∉ ["Del"; "Len"]) -> ~ race s) /\
  (forall i t, st_threads s !! i = Some t -> t_phase t <> Finished -> exists s', step s s').
Proof.
  intros Hs. split_and!.
  - intros Hf. apply (no_race fs); [|done]. apply Forall_forall. intros f Hin. apply Hf in Hin. unfold gossip_methods in Hin.
    by repeat (apply elem_of_cons in Hin as [-> | Hin]; [reflexivity|]); apply elem_of_nil in Hin.
  - intros Hf. apply (no_race fs); [|done]. apply Forall_forall. intros f Hin. apply Hf in Hin as [Hin Hno]. unfold cache_methods in Hin.
    by repeat (apply elem_of_cons in Hin as [-> | Hin]; [reflexivity || (exfalso; apply Hno; cbn; set_solver)|]); apply elem_of_nil in Hin.
  - intros i t. by apply (progress fs).
Qed.

Definition method_of (l : list method) (name : string) : option method := find (fun f => bool_decide (m_name f = name)) l.

(** Two threads that enter one after the other. *)
Lemma both_enter f g m1 m2 :
  acquire (m_lock f) (RW false 0) = Some m1 -> acquire (m_lock g) m1 = Some m2 ->
  rtc step (start [f; g]) (State m2 [Thread f Accessing; Thread g Accessing]).
Proof.
  intros H1 H2. unfold start. cbn.
  eapply rtc_l; [eapply (step_acquire _ _ _ 0%nat f); [done|exact H1]|].
  eapply rtc_l; [eapply (step_acquire _ _ _ 1%nat g); [done|exact H2]|].
  eapply rtc_l; [by eapply (step_enter _ _ 0%nat f)|]. eapply rtc_l; [by eapply (step_enter _ _ 1%nat g)|]. apply rtc_refl.
Qed.

(** [Del] of the key-value cache takes the lock for reading although it
    writes, so it races with a reader and with another [Del]; [Len] takes no
    lock and races with [Set].  The calls exist: fsm.go deletes while the HTTP
    handlers read. *)
Theorem cache_locks_race :
  forall a b, (a, b) ∈ [("Del", "Get"); ("Del", "Clone"); ("Del", "Del"); ("Set", "Len")] ->
  exists f g s, method_of cache_methods a = Some f /\ method_of cache_methods b = Some g /\
    rtc step (start [f; g]) s /\ race s.
Proof.
  intros a b Hin.
  repeat (apply elem_of_cons in Hin as [[= -> ->]|Hin];
    [eexists _, _, _; split_and!; [reflexivity|reflexivity|eapply both_enter; reflexivity|by exists 0%nat, 1%nat; do 2 eexists]|]).
  by apply elem_of_nil in Hin.
Qed.

Lemma cache_locks_race_witness :
  exists f g s, method_of cache_methods "Del" = Some f /\ method_of cache_methods "Get" = Some g /\
    rtc step (start [f; g]) s /\ race s.
Proof. apply cache_locks_race. apply list_elem_of_here. Defined.

(** [Set] writes while [Marshal] waits: no race, and [Set] goes on. *)
Lemma locks_exclude_races_witness :
  let fs := [Method "Set" Lock true; Method "Marshal" RLock false] in
  let s := State (RW true 0) [Thread (Method "Set" Lock true) Accessing; Thread (Method "Marshal" RLock false) Waiting] in
  rtc step (start fs) s /\ ~ race s /\ exists s', step s s'.
Proof.
  intros fs s. assert (Hs : rtc step (start fs) s).
  { eapply rtc_l; [by eapply (step_acquire _ _ _ 0%nat)|]. eapply rtc_l; [by eapply (step_enter _ _ 0%nat)|]. apply rtc_refl. }
  destruct (locks_exclude_races fs s Hs) as (H1 & _ & H3).
  split; [exact Hs|]. split; [apply H1; set_solver|]. by apply (H3 0%nat (Thread (Method "Set" Lock true) Accessing)).
Defined.

End Locks.
