(* ===== verification/Lru.v ===== *)
(** * The LRU cache: lru.go

    A map from keys to nodes of a doubly linked list, most recently used at
    the head.  The list lives in a heap of nodes addressed by [nat]; a nil
    pointer is [None], and following it panics.  The mutex makes each operation
    atomic. *)

From S2P Require Import Prelude.

Module Lru.

Record node : Type := MkNode {
  n_key : string;
  n_value : string;
  n_prev : option nat;
  n_next : option nat
}.

Record Cache : Type := MkCache {
  mp : gmap string nat;
  cap : Z;
  head : option nat;
  tail : option nat;
  heap : gmap nat node;
  fresh : nat              (** the next unused address *)
}.

Definition NewLRUCache (cap : Z) : Cache := MkCache ∅ cap None None ∅ 0.

(** ** Pointers *)

Definition load (c : Cache) (p : option nat) : outcome node :=
  match p with
  | None => Panic NilDeref
  | Some l => match heap c !! l with Some n => Ret n | None => Panic NilDeref end
  end.

Definition store (c : Cache) (p : option nat) (f : node -> node) : outcome Cache :=
  match p with
  | None => Panic NilDeref
  | Some l =>
      match heap c !! l with
      | Some n => Ret (MkCache (mp c) (cap c) (head c) (tail c) (<[l := f n]> (heap c)) (fresh c))
      | None => Panic NilDeref
      end
  end.

Definition with_prev (p : option nat) (n : node) : node := MkNode (n_key n) (n_value n) p (n_next n).
Definition with_next (p : option nat) (n : node) : node := MkNode (n_key n) (n_value n) (n_prev n) p.
Definition with_value (v : string) (n : node) : node := MkNode (n_key n) v (n_prev n) (n_next n).

Definition set_head (c : Cache) (p : option nat) : Cache :=
  MkCache (mp c) (cap c) p (tail c) (heap c) (fresh c).
Definition set_tail (c : Cache) (p : option nat) : Cache :=
  MkCache (mp c) (cap c) (head c) p (heap c) (fresh c).
Definition set_mp (c : Cache) (m : gmap string nat) : Cache :=
  MkCache m (cap c) (head c) (tail c) (heap c) (fresh c).

(** [&node{key:key, value:value}]. *)
Definition alloc (c : Cache) (key value : string) : Cache * option nat :=
  (MkCache (mp c) (cap c) (head c) (tail c) (<[fresh c := MkNode key value None None]> (heap c)) (S (fresh c)),
   Some (fresh c)).

(** ** Operations *)

(** [n.next = c.head; c.head.prev = n; c.head = n]. *)
Definition insert_head (c : Cache) (p : option nat) : outcome Cache :=
  c ← store c p (with_next (head c));
  c ← store c (head c) (with_prev p);
  Ret (set_head c p).

(** Taking the node out of the list, by its place. *)
Definition unlink (c : Cache) (p : option nat) : outcome Cache :=
  if decide (p = head c) then Ret c
  else if decide (p = tail c) then
    n ← load c p;
    let c := set_tail c (n_prev n) in
    store c (tail c) (with_next None)
  else
    n ← load c p;
    c ← store c (n_prev n) (with_next (n_next n));
    n ← load c p;
    c ← store c (n_next n) (with_prev (n_prev n));
    c ← store c p (with_prev None);
    store c p (with_next None).

Definition removeAndInsert (c : Cache) (p : option nat) : outcome Cache :=
  c ← unlink c p; insert_head c p.

Definition Get (c : Cache) (key : string) : outcome (Cache * option string) :=
  match mp c !! key with
  | Some l =>
      n ← load c (Some l);
      c ← removeAndInsert c (Some l);
      Ret (c, Some (n_value n))
  | None => Ret (c, None)
  end.

Definition delTail (c : Cache) : outcome Cache :=
  n ← load c (tail c);
  let c := set_mp c (delete (n_key n) (mp c)) in
  let c := set_tail c (n_prev n) in
  store c (tail c) (with_next None).

Definition Put (c : Cache) (key value : string) : outcome Cache :=
  match head c with
  | None =>
      let '(c, p) := alloc c key value in
      let c := set_head c p in
      let c := set_tail c p in
      Ret (set_mp c (<[key := default 0%nat p]> (mp c)))
  | Some _ =>
      match mp c !! key with
      | Some l =>
          c ← store c (Some l) (with_value value);
          removeAndInsert c (Some l)
      | None =>
          let '(c, p) := alloc c key value in
          c ← (if Z.of_nat (size (mp c)) >=? cap c then delTail c else Ret c);
          let c := set_mp c (<[key := default 0%nat p]> (mp c)) in
          insert_head c p
      end
  end.

(** ** Runs *)

Inductive op : Type :=
| OpGet (key : string)
| OpPut (key value : string).

Definition run_op (c : Cache) (o : op) : outcome (Cache * option string) :=
  match o with
  | OpGet key => Get c key
  | OpPut key value => c ← Put c key value; Ret (c, None)
  end.

(** The cache after a run and what its reads returned. *)
Fixpoint run (c : Cache) (l : list op) : outcome (Cache * list (option string)) :=
  match l with
  | [] => Ret (c, [])
  | o :: l =>
      r ← run_op c o;
      q ← run r.1 l;
      Ret (q.1, r.2 :: q.2)
  end.

(** ** Specification: reads and the values last put *)

Definition put_value (vals : gmap string string) (o : op) : gmap string string :=
  match o with OpGet _ => vals | OpPut key value => <[key := value]> vals end.

(** A read returns nothing or the value last put. *)
Fixpoint reads_ok (vals : gmap string string) (l : list op) (out : list (option string)) : Prop :=
  match l, out with
  | [], [] => True
  | o :: l, r :: out =>
      match o, r with
      | OpGet key, Some v => vals !! key = Some v
      | OpGet _, None => True
      | OpPut _ _, r => r = None
      end /\ reads_ok (put_value vals o) l out
  | _, _ => False
  end.

(** Every mapped key has its own node with the value last put, and addresses
    from [fresh] on are unused. *)
Record values_ok (vals : gmap string string) (c : Cache) : Prop := {
  vo_node : forall k l, mp c !! k = Some l ->
    exists n, heap c !! l = Some n /\ n_key n = k /\ vals !! k = Some (n_value n);
  vo_fresh : forall l, (fresh c <= l)%nat -> heap c !! l = None
}.

(** ** Lemmas *)

(** Two caches that differ in links only. *)
Record same_values (c c' : Cache) : Prop := {
  sv_mp : mp c' = mp c;
  sv_fresh : fresh c' = fresh c;
  sv_heap : forall l, (fun n => (n_key n, n_value n)) <$> heap c' !! l =
                      (fun n => (n_key n, n_value n)) <$> heap c !! l
}.

Lemma same_values_refl c : same_values c c.
Proof. done. Qed.

Lemma same_values_trans c1 c2 c3 : same_values c1 c2 -> same_values c2 c3 -> same_values c1 c3.
Proof. intros [H1 H2 H3] [H4 H5 H6]. split; [congruence|congruence|]. intros l. by rewrite H6. Qed.

Lemma values_ok_same vals c c' : same_values c c' -> values_ok vals c -> values_ok vals c'.
Proof.
  intros [Hmp Hfr Hh] [Hn Hf]. split.
  - intros k l Hl. rewrite Hmp in Hl. destruct (Hn k l Hl) as (n & Hnode & Hk & Hv).
    specialize (Hh l). rewrite Hnode in Hh. destruct (heap c' !! l) as [n'|]; [|done].
    cbn in Hh. injection Hh as Hk' Hv'. exists n'. split_and!; [done|congruence|congruence].
  - intros l Hl. rewrite Hfr in Hl. specialize (Hh l). rewrite (Hf l Hl) in Hh.
    by destruct (heap c' !! l).
Qed.

Lemma load_Ret c p n : load c p = Ret n -> exists l, p = Some l /\ heap c !! l = Some n.
Proof. unfold load. repeat case_match; naive_solver. Qed.

Lemma store_link c p f c' :
  (forall n, n_key (f n) = n_key n /\ n_value (f n) = n_value n) -> store c p f = Ret c' -> same_values c c'.
Proof.
  intros Hf. unfold store. destruct p as [l|]; [|done]. destruct (heap c !! l) as [n|] eqn:Hl; [|done].
  intros [= <-]. split; [done|done|]. intros l'. cbn. rewrite lookup_insert. case_decide; [subst|done].
  rewrite Hl. cbn. by destruct (Hf n) as [-> ->].
Qed.

Ltac links :=
  repeat match goal with
  | H : _ ≫= _ = Ret _ |- _ => let x := fresh "c" in let Hx := fresh "Hx" in
      apply bind_Ret_inv in H as (x & Hx & H)
  | H : store _ _ (with_next _) = Ret _ |- _ => apply store_link in H; [|done]
  | H : store _ _ (with_prev _) = Ret _ |- _ => apply store_link in H; [|done]
  end.

Lemma insert_head_same c p c' : insert_head c p = Ret c' -> same_values c c'.
Proof.
  unfold insert_head. intros H. links. injection H as <-.
  eapply same_values_trans; [exact Hx|]. eapply same_values_trans; [exact Hx0|]. done.
Qed.

Lemma unlink_same c p c' : unlink c p = Ret c' -> same_values c c'.
Proof.
  unfold unlink. case_decide; [by intros [= <-]|]. case_decide; intros Hu; links.
  - by eapply same_values_trans; [|exact Hu].
  - eapply same_values_trans; [exact Hx0|]. eapply same_values_trans; [exact Hx2|].
    eapply same_values_trans; [exact Hx3|]. exact Hu.
Qed.

Lemma removeAndInsert_same c p c' : removeAndInsert c p = Ret c' -> same_values c c'.
Proof.
  unfold removeAndInsert. intros H. apply bind_Ret_inv in H as (c1 & H1 & H2).
  eapply same_values_trans; [by eapply unlink_same | by eapply insert_head_same].
Qed.

Lemma Get_values vals c key c' r :
  values_ok vals c -> Get c key = Ret (c', r) ->
  values_ok vals c' /\ (forall v, r = Some v -> vals !! key = Some v).
Proof.
  intros Hok. unfold Get. destruct (mp c !! key) as [l|] eqn:Hl; intros H; [|by simplify_eq].
  apply bind_Ret_inv in H as (n & Hn & H). apply bind_Ret_inv in H as (c1 & H1 & [= <- <-]).
  split; [by eapply values_ok_same; [eapply removeAndInsert_same|]|]. intros v [= <-].
  apply load_Ret in Hn as (l' & [= <-] & Hn).
  destruct (vo_node _ _ Hok key l Hl) as (n' & Hn' & _ & Hv). congruence.
Qed.

(** Allocation keeps the mapped values. *)
Lemma alloc_values vals c key value :
  values_ok vals c -> values_ok vals (alloc c key value).1.
Proof.
  intros [Hn Hf]. split; cbn.
  - intros k l Hl. destruct (Hn k l Hl) as (n & Hnode & Hrest). exists n. split; [|done].
    rewrite lookup_insert_ne; [done|]. intros <-. rewrite Hf in Hnode by lia. done.
  - intros l Hl. rewrite lookup_insert_ne by lia. apply Hf. lia.
Qed.

(** Mapping a key to a node with the new value. *)
Lemma map_values vals c key value l :
  values_ok vals c -> (fun n => (n_key n, n_value n)) <$> heap c !! l = Some (key, value) ->
  values_ok (<[key := value]> vals) (set_mp c (<[key := l]> (mp c))).
Proof.
  intros [Hn Hf] Hl. split; cbn; [|done]. intros k l'. rewrite lookup_insert.
  destruct (decide (key = k)) as [<-|Hk].
  - intros [= <-]. apply fmap_Some in Hl as (n & Hnode & [= Hk Hv]). exists n.
    split_and!; [done|done|]. by rewrite lookup_insert_eq, Hv.
  - intros Hl'. destruct (Hn k l' Hl') as (n & Hnode & Hkey & Hv). exists n. split_and!; [done|done|].
    by rewrite lookup_insert_ne.
Qed.

(** Evicting the tail unmaps a key and touches links only. *)
Lemma delTail_values vals c c' :
  values_ok vals c -> delTail c = Ret c' ->
  values_ok vals c' /\ (forall l, (fun n => (n_key n, n_value n)) <$> heap c' !! l =
                                  (fun n => (n_key n, n_value n)) <$> heap c !! l) /\ fresh c' = fresh c.
Proof.
  intros [Hn Hf] H. unfold delTail in H. apply bind_Ret_inv in H as (n & Hld & H). cbn in H.
  set (c1 := set_tail (set_mp c (delete (n_key n) (mp c))) (n_prev n)) in H.
  apply store_link in H; [|done].
  assert (Hok1 : values_ok vals c1).
  { split; [|exact Hf]. cbn. intros k l [_ Hl]%lookup_delete_Some. by apply Hn. }
  split_and!; [by eapply values_ok_same | apply (sv_heap _ _ H) | apply (sv_fresh _ _ H)].
Qed.

(** Writing the value of a mapped key. *)
Lemma store_values vals c key value l c' :
  values_ok vals c -> mp c !! key = Some l -> store c (Some l) (with_value value) = Ret c' ->
  values_ok (<[key := value]> vals) c'.
Proof.
  intros [Hn Hf] Hl. destruct (Hn key l Hl) as (n & Hnode & Hkey & Hv). unfold store. rewrite Hnode.
  intros [= <-]. split; cbn.
  - intros k l' Hl'. destruct (Hn k l' Hl') as (n' & Hnode' & Hkey' & Hv'). rewrite !lookup_insert.
    destruct (decide (l = l')) as [<-|Hll].
    + assert (n' = n) as -> by congruence. exists (with_value value n). cbn.
      split_and!; [done|done|]. by rewrite decide_True by congruence.
    + exists n'. split_and!; [done|done|]. rewrite decide_False; [done|]. congruence.
  - intros l' Hl'. rewrite lookup_insert_ne; [by apply Hf|]. intros <-. rewrite Hf in Hnode by done. done.
Qed.

Lemma Put_values vals c key value c' :
  values_ok vals c -> Put c key value = Ret c' -> values_ok (<[key := value]> vals) c'.
Proof.
  intros Hok. unfold Put. pose proof (alloc_values vals c key value Hok) as Ha.
  assert (Hnew : (fun n => (n_key n, n_value n)) <$> heap (alloc c key value).1 !! fresh c = Some (key, value)).
  { cbn. by rewrite lookup_insert_eq. }
  destruct (head c) as [hd|].
  2: { intros [= <-].
       apply (map_values vals (set_tail (set_head (alloc c key value).1 (Some (fresh c))) (Some (fresh c))));
         [|done]. by apply (values_ok_same vals (alloc c key value).1). }
  destruct (mp c !! key) as [l|] eqn:Hl.
  - intros H. apply bind_Ret_inv in H as (c1 & H1 & H2).
    eapply values_ok_same; [exact (removeAndInsert_same _ _ _ H2)|].
    exact (store_values _ _ _ _ _ _ Hok Hl H1).
  - cbn [alloc]. set (c0 := (alloc c key value).1) in *.
    change (MkCache _ _ _ _ (<[fresh c := _]> _) _) with c0. intros H.
    apply bind_Ret_inv in H as (c1 & H1 & H2). cbn [default] in H2.
    eapply values_ok_same; [exact (insert_head_same _ _ _ H2)|].
    destruct (Z.of_nat (size (mp c0)) >=? cap c0).
    + destruct (delTail_values vals c0 c1 Ha H1) as (Hok1 & Hheap & _).
      apply (map_values vals c1 key value); [done|]. by rewrite Hheap.
    + injection H1 as <-. by apply (map_values vals c0 key value).
Qed.

Lemma run_values l : forall vals c c' out,
  values_ok vals c -> run c l = Ret (c', out) -> reads_ok vals l out.
Proof.
  induction l as [|o l IH]; intros vals c c' out Hok H; cbn [run] in H; [by injection H as _ <-|].
  apply bind_Ret_inv in H as ([c1 r] & H1 & H). apply bind_Ret_inv in H as ([c2 q] & H2 & [= <- <-]).
  cbn [fst snd] in H2. destruct o as [key|key value]; cbn [run_op] in H1.
  - destruct (Get_values vals c key c1 r Hok H1) as [Hok1 Hr]. split; [destruct r; auto|]. by eapply IH.
  - apply bind_Ret_inv in H1 as (c3 & H3 & [= -> <-]). split; [done|].
    eapply IH; [|exact H2]. by eapply Put_values.
Qed.

Lemma values_ok_new cap : values_ok ∅ (NewLRUCache cap).
Proof. split; cbn; intros *; rewrite lookup_empty; done. Qed.

End Lru.

(** ** Properties *)

(** The cache returns no stale value: in any run that does not panic, every
    read returns nothing or the value last put for its key, whatever happens
    to the links of the list. *)
Theorem lru_reads_last_put cap l c out :
  Lru.run (Lru.NewLRUCache cap) l = Ret (c, out) -> Lru.reads_ok ∅ l out.
Proof. apply Lru.run_values, Lru.values_ok_new. Qed.

Lemma lru_reads_last_put_witness :
  let l := [Lru.OpPut "a" "1"; Lru.OpPut "a" "2"; Lru.OpPut "b" "3"; Lru.OpGet "a"] in
  exists c out, Lru.run (Lru.NewLRUCache 2) l = Ret (c, out) /\ out = [None; None; None; Some "2"] /\
    Lru.reads_ok ∅ l out.
Proof.
  eexists _, _. split_and!; [vm_compute; reflexivity|reflexivity|].
  eapply (lru_reads_last_put 2 [Lru.OpPut "a" "1"; Lru.OpPut "a" "2"; Lru.OpPut "b" "3"; Lru.OpGet "a"]).
  vm_compute. reflexivity.
Defined.

(** Reading the head of the list breaks the eviction order: moving the head
    to the head links it to itself, and after one more insertion and read the
    list has lost a node.  In this run of a cache of four, [c] is used after
    [d], yet it is [c] that is evicted while [d] stays. *)
Theorem lru_evicts_wrong_key :
  let l := [Lru.OpPut "a" "1"; Lru.OpPut "b" "2"; Lru.OpPut "c" "3"; Lru.OpGet "c"; Lru.OpPut "d" "4";
            Lru.OpGet "c"; Lru.OpPut "e" "5"; Lru.OpPut "f" "6"; Lru.OpPut "g" "7"] in
  exists c out c1 c2, Lru.run (Lru.NewLRUCache 4) l = Ret (c, out) /\
    Lru.Get c "c" = Ret (c1, None) /\ Lru.Get c "d" = Ret (c2, Some "4").
Proof. eexists _, _, _, _. split_and!; vm_compute; reflexivity. Qed.

(** A cache of one entry panics on its second key: the evicted tail has no
    predecessor. *)
Theorem lru_capacity_one_panics k1 v1 k2 v2 :
  k1 <> k2 -> (c ← Lru.Put (Lru.NewLRUCache 1) k1 v1; Lru.Put c k2 v2) = Panic NilDeref.
Proof.
  intros Hne. cbn. unfold Lru.Put. cbn. rewrite lookup_insert_ne by done.
  rewrite lookup_empty. cbn. rewrite map_size_insert_None by apply lookup_empty. cbn.
  unfold Lru.delTail. cbn. rewrite lookup_insert_ne by done. rewrite lookup_insert_eq. done.
Qed.

Lemma lru_capacity_one_panics_witness :
  (c ← Lru.Put (Lru.NewLRUCache 1) "a" "1"; Lru.Put c "b" "2") = Panic NilDeref.
Proof. apply lru_capacity_one_panics. discriminate. Defined.
