(* ===== verification/LruSpec.v ===== *)
(** * What the LRU cache is meant to be: lru.go against a recency list

    The specification keeps the entries in a list, most recently used first.
    The linked list of lru.go implements it as long as no entry that was used
    while it was at the head is later moved from the middle: using the head
    links its [next] to itself (see [lru_evicts_wrong_key]), and such an entry
    is in order again once a neighbour has been taken out behind it or it has
    become the tail. *)

From S2P Require Import Prelude Lru.

Module LruSpec.

Import Lru.

(** ** The specification *)

Abbreviation recency := (list (string * string)) (only parsing).

Definition find_key (key : string) (l : recency) : option (nat * (string * string)) :=
  list_find (fun kv => kv.1 = key) l.

Definition full (cap : Z) (l : recency) : bool := Z.of_nat (length l) >=? cap.

Definition recent_get (l : recency) (key : string) : recency * option string :=
  match find_key key l with
  | Some (i, kv) => (kv :: delete i l, Some kv.2)
  | None => (l, None)
  end.

Definition recent_put (cap : Z) (l : recency) (key value : string) : recency :=
  match find_key key l with
  | Some (i, _) => (key, value) :: delete i l
  | None => (key, value) :: if full cap l then delete (pred (length l)) l else l
  end.

Definition recent_op (cap : Z) (l : recency) (o : op) : recency * option string :=
  match o with
  | OpGet key => recent_get l key
  | OpPut key value => (recent_put cap l key value, None)
  end.

Fixpoint recent_run (cap : Z) (l : recency) (ops : list op) : recency * list (option string) :=
  match ops with
  | [] => (l, [])
  | o :: ops =>
      let '(l, r) := recent_op cap l o in
      let '(l, rs) := recent_run cap l ops in
      (l, r :: rs)
  end.

(** ** The entries whose [next] is looped

    [looped_step] is what an operation makes of the set of looped entries, or
    [None] when it would move a looped entry from the middle. *)

Definition op_key (o : op) : string := match o with OpGet key => key | OpPut key _ => key end.

Definition key_at (keys : list string) (i : nat) : gset string :=
  match keys !! i with Some k => {[k]} | None => ∅ end.

(** Moving the [i]-th entry, of key [key], to the head. *)
Definition touched (keys : list string) (looped : gset string) (key : string) (i : nat) : option (gset string) :=
  match i with
  | O => Some (looped ∪ {[key]})
  | S j =>
      if bool_decide (key ∈ looped) && bool_decide (S i < length keys)%nat then None
      else Some (looped ∖ key_at keys j ∖ {[key]})
  end.

Definition looped_step (cap : Z) (l : recency) (looped : gset string) (o : op) : option (gset string) :=
  match find_key (op_key o) l with
  | Some (i, _) => touched l.*1 looped (op_key o) i
  | None =>
      match o with
      | OpGet _ => Some looped
      | OpPut key _ =>
          Some ((if full cap l then looped ∖ key_at l.*1 (pred (pred (length l))) else looped) ∖ {[key]})
      end
  end.

Fixpoint safe_run (cap : Z) (l : recency) (looped : gset string) (ops : list op) : bool :=
  match ops with
  | [] => true
  | o :: ops =>
      match looped_step cap l looped o with
      | None => false
      | Some looped => safe_run cap (recent_op cap l o).1 looped ops
      end
  end.

(** ** The representation: the entries with their addresses *)

Abbreviation cells := (list (nat * (string * string))) (only parsing).

Definition addr (l : cells) (i : nat) : option nat := fst <$> l !! i.

(** The node of the [i]-th entry: its predecessor is right but for the head,
    its successor is right but for looped entries. *)
Definition linked (h : gmap nat node) (looped : gset string) (l : cells) : Prop :=
  forall i a k v, l !! i = Some (a, (k, v)) ->
    exists p nx, h !! a = Some (MkNode k v p nx) /\ (i <> O -> p = addr l (pred i)) /\
                 (k ∉ looped -> nx = addr l (S i)).

Definition index_of (l : cells) : gmap string nat := list_to_map ((fun x => (x.2.1, x.1)) <$> l).

(** The list part of the cache, without its map. *)
Record chained (capacity : Z) (looped : gset string) (l : cells) (c : Cache) : Prop := {
  ch_cap : cap c = capacity;
  ch_head : head c = addr l 0;
  ch_tail : tail c = addr l (pred (length l));
  ch_linked : linked (heap c) looped l;
  ch_addrs : NoDup l.*1;
  ch_keys : NoDup l.*2.*1;
  ch_fresh : Forall (fun x => x.1 < fresh c)%nat l
}.

Definition repr (capacity : Z) (looped : gset string) (l : cells) (c : Cache) : Prop :=
  chained capacity looped l c /\ mp c = index_of l.

(** ** Lemmas: lists *)

Lemma list_lookup_delete {A} (l : list A) i j :
  (i < length l)%nat -> delete i l !! j = if decide (j < i)%nat then l !! j else l !! S j.
Proof.
  intros Hi. case_decide as Hj; [by apply list_lookup_delete_lt | apply list_lookup_delete_ge; lia].
Qed.

Lemma addr_delete (l : cells) i j :
  (i < length l)%nat -> addr (delete i l) j = if decide (j < i)%nat then addr l j else addr l (S j).
Proof. intros Hi. unfold addr. rewrite list_lookup_delete by done. by case_decide. Qed.

Lemma addrs_inj (l : cells) i j x y :
  NoDup l.*1 -> l !! i = Some x -> l !! j = Some y -> x.1 = y.1 -> i = j.
Proof.
  intros Hnd Hi Hj Heq. eapply (NoDup_lookup _ i j x.1); [done|by rewrite list_lookup_fmap, Hi|].
  by rewrite list_lookup_fmap, Hj, Heq.
Qed.

Lemma keys_inj (l : cells) i j a b k v w :
  NoDup l.*2.*1 -> l !! i = Some (a, (k, v)) -> l !! j = Some (b, (k, w)) -> i = j.
Proof.
  intros Hnd Hi Hj. by eapply (NoDup_lookup _ i j k); [done|rewrite !list_lookup_fmap, ?Hi, ?Hj..].
Qed.

Lemma addr_Some (l : cells) i a : addr l i = Some a <-> exists kv, l !! i = Some (a, kv).
Proof.
  unfold addr. rewrite fmap_Some. split; [intros ([b kv] & H & ->); by exists kv|].
  intros [kv H]. by exists (a, kv).
Qed.

Lemma find_key_cells (l : cells) key :
  (find_key key l.*2 = None /\ forall a v, (a, (key, v)) ∉ l) \/
  exists i a v, find_key key l.*2 = Some (i, (key, v)) /\ l !! i = Some (a, (key, v)).
Proof.
  unfold find_key. destruct (list_find _ _) as [[i [k v]]|] eqn:Hf; [right|left].
  - apply list_find_Some in Hf as (Hi & Hk & _). cbn in Hk. subst k.
    rewrite list_lookup_fmap in Hi. apply fmap_Some in Hi as ([a kv] & Hi & Heq).
    cbn in Heq. subst kv. by exists i, a, v.
  - split; [done|]. apply list_find_None in Hf. rewrite Forall_forall in Hf. intros a v Hin.
    apply (Hf (key, v)); [|done]. apply list_elem_of_fmap. by exists (a, (key, v)).
Qed.

Lemma index_of_Some (l : cells) i a k v :
  NoDup l.*2.*1 -> l !! i = Some (a, (k, v)) -> index_of l !! k = Some a.
Proof.
  intros Hnd Hi. apply elem_of_list_to_map_1.
  - rewrite <- list_fmap_compose. by rewrite <- list_fmap_compose in Hnd.
  - apply list_elem_of_fmap. exists (a, (k, v)). split; [done|]. by eapply list_elem_of_lookup_2.
Qed.

Lemma index_of_None (l : cells) k : (forall a v, (a, (k, v)) ∉ l) -> index_of l !! k = None.
Proof.
  intros Hno. apply not_elem_of_list_to_map_1. rewrite <- list_fmap_compose.
  intros ([a [k' v]] & Heq & Hin)%list_elem_of_fmap. cbn in Heq. subst k'. by apply (Hno a v).
Qed.

Lemma index_of_size (l : cells) : NoDup l.*2.*1 -> size (index_of l) = length l.
Proof.
  intros Hnd. unfold index_of. rewrite map_size_list_to_map, length_fmap; [done|].
  rewrite <- list_fmap_compose. by rewrite <- list_fmap_compose in Hnd.
Qed.

Lemma index_of_perm (l l' : cells) : NoDup l.*2.*1 -> l ≡ₚ l' -> index_of l = index_of l'.
Proof.
  intros Hnd Hp. apply list_to_map_proper; [|by rewrite Hp].
  rewrite <- list_fmap_compose. by rewrite <- list_fmap_compose in Hnd.
Qed.

(** ** Lemmas: links *)

Lemma linked_mono h looped looped' l : looped ⊆ looped' -> linked h looped l -> linked h looped' l.
Proof.
  intros Hsub Hl i a k v Hi. destruct (Hl i a k v Hi) as (p & nx & Hn & Hp & Hx).
  exists p, nx. split_and!; [done|done|]. intros Hk. apply Hx. set_solver.
Qed.

Lemma linked_frame h h' looped l :
  (forall a, a ∈ l.*1 -> h' !! a = h !! a) -> linked h looped l -> linked h' looped l.
Proof.
  intros Hf Hl i a k v Hi. destruct (Hl i a k v Hi) as (p & nx & Hn & Hrest).
  exists p, nx. rewrite Hf; [done|]. apply list_elem_of_fmap. exists (a, (k, v)).
  split; [done|]. by eapply list_elem_of_lookup_2.
Qed.

(** A node in front of the list. *)
Lemma linked_push h looped l a k v n a0 kv0 n0 :
  linked h looped l -> h !! a = Some n -> n_key n = k -> n_value n = v -> a ∉ l.*1 -> k ∉ l.*2.*1 ->
  NoDup l.*1 -> l !! 0%nat = Some (a0, kv0) -> h !! a0 = Some n0 ->
  linked (<[a0 := with_prev (Some a) n0]> (<[a := with_next (Some a0) n]> h)) (looped ∖ {[k]}) ((a, (k, v)) :: l).
Proof.
  intros Hl Hn Hkey Hval Ha Hk Hnd H0 Hn0. assert (Hne : a0 <> a).
  { intros ->. apply Ha, list_elem_of_fmap. exists (a, kv0). split; [done|]. by eapply list_elem_of_lookup_2. }
  intros [|i] b kb vb Hi.
  - cbn in Hi. injection Hi as <- <- <-. rewrite lookup_insert_ne, lookup_insert_eq by done.
    eexists _, _. split_and!; [by unfold with_next; rewrite Hkey, Hval|done|]. intros _.
    change (Some a0 = fst <$> l !! 0%nat). by rewrite H0.
  - change (l !! i = Some (b, (kb, vb))) in Hi. assert (Hin : (b, (kb, vb)) ∈ l) by (by eapply list_elem_of_lookup_2).
    assert (Hba : b <> a). { intros ->. apply Ha, list_elem_of_fmap. by exists (a, (kb, vb)). }
    assert (Hkb : kb <> k).
    { intros ->. apply Hk. rewrite <- list_fmap_compose. apply list_elem_of_fmap. by exists (b, (k, vb)). }
    destruct (Hl i b kb vb Hi) as (p & nx & Hb & Hp & Hx).
    assert (Hx' : kb ∉ looped ∖ {[k]} -> nx = addr l (S i)) by (intros H; apply Hx; set_solver).
    destruct i as [|i].
    + rewrite H0 in Hi. injection Hi as -> ->. rewrite lookup_insert_eq. rewrite Hn0 in Hb. injection Hb as ->.
      by eexists _, _.
    + assert (Hb0 : b <> a0).
      { intros ->. by pose proof (addrs_inj l (S i) 0 _ _ Hnd Hi H0 eq_refl). }
      rewrite !lookup_insert_ne by done. eexists _, _. split_and!; [done|intros _; by apply Hp|done].
Qed.

(** Taking out the [i]-th node: its neighbours are linked to each other. *)
Lemma linked_delete h h' looped l i x :
  linked h looped l -> l !! i = Some x -> i <> O ->
  (forall j a k v p nx, l !! j = Some (a, (k, v)) -> j <> i -> h !! a = Some (MkNode k v p nx) ->
     h' !! a = Some (MkNode k v (if decide (j = S i) then addr l (pred i) else p)
                                (if decide (S j = i) then addr l (S i) else nx))) ->
  NoDup l.*2.*1 ->
  linked h' (looped ∖ key_at l.*2.*1 (pred i)) (delete i l).
Proof.
  intros Hl Hx Hi0 Hh Hkeys j a k v Hj. assert (Hlen : (i < length l)%nat) by (by eapply lookup_lt_Some).
  rewrite list_lookup_delete in Hj by done.
  assert (exists j', l !! j' = Some (a, (k, v)) /\ ((j < i /\ j' = j) \/ (i <= j /\ j' = S j))%nat)
    as (j' & Hj' & Hjj) by (case_decide; eauto with lia).
  assert (Hji : j' <> i) by lia.
  destruct (Hl j' a k v Hj') as (p & nx & Hn & Hp & Hnx).
  pose proof (Hh j' a k v p nx Hj' Hji Hn) as Hn'. eexists _, _. split_and!; [exact Hn'| |]; clear Hn' Hn Hj Hh.
  - intros Hj0. rewrite addr_delete by done.
    destruct (decide (j' = S i)) as [Heq|Hne].
    + case_decide; [f_equal; lia|lia].
    + rewrite Hp by lia. case_decide; f_equal; lia.
  - intros Hk. rewrite addr_delete by done.
    destruct (decide (S j' = i)) as [Heq|Hne].
    + case_decide; first [lia | f_equal; lia].
    + assert (Hkl : k ∉ looped).
      { intros Hin. apply Hk. apply elem_of_difference. split; [done|]. unfold key_at.
        destruct (l.*2.*1 !! pred i) as [k'|] eqn:Hkv; [|set_solver]. intros ->%elem_of_singleton.
        rewrite <- list_fmap_compose, list_lookup_fmap in Hkv. apply fmap_Some in Hkv as ([b [kb vb]] & Hb & ->).
        cbn in *.
        pose proof (keys_inj l _ _ _ _ _ _ _ Hkeys Hj' Hb). lia. }
      rewrite (Hnx Hkl). case_decide; f_equal; lia.
Qed.

(** ** Lemmas: operations on the list *)

Definition set_heap (c : Cache) (h : gmap nat node) : Cache :=
  MkCache (mp c) (cap c) (head c) (tail c) h (fresh c).

Lemma store_eq c a n f : heap c !! a = Some n -> store c (Some a) f = Ret (set_heap c (<[a := f n]> (heap c))).
Proof. intros Hn. unfold store. by rewrite Hn. Qed.

Lemma load_eq c a n : heap c !! a = Some n -> load c (Some a) = Ret n.
Proof. intros Hn. unfold load. by rewrite Hn. Qed.

Lemma delete_NoDup {A B} (f : A -> B) (l : list A) i : NoDup (f <$> l) -> NoDup (f <$> delete i l).
Proof. intros H. eapply sublist_NoDup; [exact H|]. apply fmap_sublist, sublist_delete. Qed.

(** The parts of [chained] a deletion from the list keeps. *)
Lemma chained_delete capacity looped looped' l c c' i :
  chained capacity looped l c -> i <> O -> (i < length l)%nat ->
  cap c' = cap c -> head c' = head c -> fresh c' = fresh c ->
  tail c' = addr l (if decide (S i = length l) then pred i else pred (length l)) ->
  linked (heap c') looped' (delete i l) -> chained capacity looped' (delete i l) c'.
Proof.
  intros [Hcap Hhead Htail Hl Ha Hk Hf] Hi0 Hlen Ec Eh Ef Et Hl'. split; [congruence| | |done| | |].
  - rewrite Eh, Hhead, addr_delete by done. by rewrite decide_True by lia.
  - rewrite Et, addr_delete, length_delete by (done || by apply lookup_lt_is_Some).
    repeat case_decide; f_equal; lia.
  - by apply delete_NoDup.
  - rewrite <- list_fmap_compose in *. by apply delete_NoDup.
  - rewrite Ef. eapply Forall_delete, Hf.
Qed.

(** Cutting the tail off, as [removeAndInsert] and [delTail] do. *)
Lemma cut_tail capacity looped l c i a k v :
  chained capacity looped l c -> l !! i = Some (a, (k, v)) -> i <> O -> S i = length l ->
  exists p nx c', heap c !! a = Some (MkNode k v p nx) /\
    store (set_tail c p) p (with_next None) = Ret c' /\
    chained capacity (looped ∖ key_at l.*2.*1 (pred i)) (delete i l) c' /\
    mp c' = mp c /\ fresh c' = fresh c /\ heap c' !! a = heap c !! a.
Proof.
  intros Hch Hi Hi0 Hlast. pose proof Hch as [Hcap Hhead Htail Hl Ha Hk Hf].
  destruct (Hl i a k v Hi) as (p & nx & Hn & Hp & _). rewrite Hp in Hn by done.
  destruct (lookup_lt_is_Some_2 l (pred i)) as [[ap [kp vp]] Hap]; [lia|].
  destruct (Hl _ _ _ _ Hap) as (pp & np & Hnp & _ & _).
  assert (Hadr : addr l (pred i) = Some ap) by (unfold addr; by rewrite Hap). rewrite Hadr in Hn.
  assert (Hne : a <> ap). { intros ->. pose proof (addrs_inj l _ _ _ _ Ha Hi Hap eq_refl). lia. }
  exists (Some ap), nx. eexists. split_and!; [done|by apply store_eq| |done|done|cbn; by rewrite lookup_insert_ne].
  eapply chained_delete; [exact Hch|done|lia|done|done|done| |].
  - cbn. by rewrite decide_True, Hadr.
  - apply (linked_delete (heap c) _ _ _ i (a, (k, v))); [done..| |done].
    intros j b kb vb pb nb Hj Hji Hb. cbn. rewrite lookup_insert. destruct (decide (ap = b)) as [<-|Hb'].
    + pose proof (addrs_inj l _ _ _ _ Ha Hj Hap eq_refl).
      rewrite decide_False, decide_True by lia. unfold with_next. rewrite Hb in Hnp. injection Hnp as -> -> -> ->.
      cbn. do 2 f_equal. unfold addr. rewrite lookup_ge_None_2 by lia. done.
    + rewrite decide_False by (apply lookup_lt_Some in Hj; lia). rewrite decide_False; [done|].
      intros Heq. apply Hb'. replace (pred i) with j in Hap by lia. congruence.
Qed.

(** Cutting a node out of the middle; its own links are right. *)
Lemma cut_middle capacity looped l c i a k v :
  chained capacity looped l c -> l !! i = Some (a, (k, v)) -> i <> O -> (S i < length l)%nat -> k ∉ looped ->
  exists c', unlink c (Some a) = Ret c' /\
    chained capacity (looped ∖ key_at l.*2.*1 (pred i)) (delete i l) c' /\
    mp c' = mp c /\ fresh c' = fresh c /\ heap c' !! a = Some (MkNode k v None None).
Proof.
  intros Hch Hi Hi0 Hlen Hkl. pose proof Hch as [Hcap Hhead Htail Hl Ha Hk Hf].
  destruct (Hl i a k v Hi) as (p & nx & Hn & Hp & Hx). rewrite Hp in Hn by done. rewrite Hx in Hn by done.
  clear p nx Hp Hx.
  destruct (lookup_lt_is_Some_2 l (pred i)) as [[ap [kp vp]] Hap]; [lia|].
  destruct (lookup_lt_is_Some_2 l (S i)) as [[an [kn vn]] Han]; [lia|].
  assert (Hadp : addr l (pred i) = Some ap) by (unfold addr; by rewrite Hap).
  assert (Hadn : addr l (S i) = Some an) by (unfold addr; by rewrite Han). rewrite Hadp, Hadn in Hn.
  destruct (Hl _ _ _ _ Hap) as (pp & np & Hnp & _ & _). destruct (Hl _ _ _ _ Han) as (pn & nn & Hnn & _ & _).
  assert (Hinj : forall j1 j2 b1 b2 kv1 kv2, l !! j1 = Some (b1, kv1) -> l !! j2 = Some (b2, kv2) -> j1 <> j2 -> b1 <> b2).
  { intros j1 j2 b1 b2 kv1 kv2 H1 H2 Hne ->. by apply Hne, (addrs_inj l _ _ _ _ Ha H1 H2). }
  assert (Hap_a : ap <> a) by (by eapply (Hinj (pred i) i); [..|lia]).
  assert (Han_a : an <> a) by (by eapply (Hinj (S i) i); [..|lia]).
  assert (Hap_an : ap <> an) by (by eapply (Hinj (pred i) (S i)); [..|lia]).
  assert (Hnhead : Some a <> head c).
  { rewrite Hhead. intros (kv & H0)%symmetry%addr_Some. by apply (Hinj 0%nat i _ _ _ _ H0 Hi). }
  assert (Hntail : Some a <> tail c).
  { rewrite Htail. intros (kv & H0)%symmetry%addr_Some. apply (Hinj (pred (length l)) i _ _ _ _ H0 Hi); [lia|done]. }
  unfold unlink. rewrite !decide_False by done. rewrite (load_eq _ _ _ Hn). cbn [mbind outcome_bind n_prev n_next].
  rewrite (store_eq _ _ _ _ Hnp). cbn [mbind outcome_bind].
  rewrite (load_eq _ a (MkNode k v (Some ap) (Some an))) by (cbn; by rewrite lookup_insert_ne).
  cbn [mbind outcome_bind n_prev n_next].
  rewrite (store_eq _ an (MkNode kn vn pn nn)) by (cbn; by rewrite lookup_insert_ne). cbn [mbind outcome_bind].
  rewrite (store_eq _ a (MkNode k v (Some ap) (Some an))) by (cbn; by rewrite !lookup_insert_ne).
  cbn [mbind outcome_bind]. erewrite store_eq by (cbn; by rewrite lookup_insert_eq).
  eexists. split; [reflexivity|]. split_and!; [|done|done|cbn; by rewrite lookup_insert_eq].
  eapply chained_delete; [exact Hch|done|lia|done|done|done| |].
  - cbn. by rewrite decide_False by lia.
  - apply (linked_delete (heap c) _ _ _ i (a, (k, v))); [done..| |done].
    intros j b kb vb pb nb Hj Hji Hb. cbn. assert (Hba : a <> b) by (by eapply (Hinj i j)).
    rewrite !(lookup_insert_ne _ a) by done. rewrite !lookup_insert.
    destruct (decide (an = b)) as [<-|Hbn]; [|destruct (decide (ap = b)) as [<-|Hbp]].
    + pose proof (addrs_inj l _ _ _ _ Ha Hj Han eq_refl). rewrite decide_True, decide_False by lia.
      rewrite Hnn in Hb. injection Hb as -> -> -> ->. unfold with_prev. cbn. by rewrite Hadp.
    + pose proof (addrs_inj l _ _ _ _ Ha Hj Hap eq_refl). rewrite decide_False, decide_True by lia.
      rewrite Hnp in Hb. injection Hb as -> -> -> ->. unfold with_next. cbn. by rewrite Hadn.
    + rewrite !decide_False; [done| |].
      * intros <-. cbn in Hap. congruence.
      * intros ->. congruence.
Qed.

Lemma unlink_spec capacity looped l c i a k v :
  chained capacity looped l c -> l !! i = Some (a, (k, v)) -> i <> O -> (k ∉ looped \/ S i = length l) ->
  exists c' n, unlink c (Some a) = Ret c' /\
    chained capacity (looped ∖ key_at l.*2.*1 (pred i)) (delete i l) c' /\
    mp c' = mp c /\ fresh c' = fresh c /\ heap c' !! a = Some n /\ n_key n = k /\ n_value n = v.
Proof.
  intros Hch Hi Hi0 Hor. destruct (decide (S i = length l)) as [Hlast|Hmid].
  - destruct (cut_tail capacity looped l c i a k v Hch Hi Hi0 Hlast) as (p & nx & c' & Hn & Hst & Hch' & Hmp & Hfr & Hh).
    exists c', (MkNode k v p nx). split_and!; try done; [|by rewrite Hh].
    unfold unlink. rewrite decide_False, decide_True.
    + by rewrite (load_eq _ _ _ Hn).
    + rewrite (ch_tail _ _ _ _ Hch), <- Hlast. unfold addr. cbn. by rewrite Hi.
    + rewrite (ch_head _ _ _ _ Hch). intros (kv & H0)%symmetry%addr_Some.
      by apply Hi0, (addrs_inj l _ _ _ _ (ch_addrs _ _ _ _ Hch) Hi H0).
  - destruct Hor as [Hk|?]; [|done]. pose proof (lookup_lt_Some _ _ _ Hi).
    destruct (cut_middle capacity looped l c i a k v Hch Hi Hi0) as (c' & Hu & Hch' & Hmp & Hfr & Hn); [lia|done|].
    by exists c', (MkNode k v None None).
Qed.

Lemma insert_head_spec capacity looped l c a k v n :
  chained capacity looped l c -> l <> [] -> heap c !! a = Some n -> n_key n = k -> n_value n = v ->
  a ∉ l.*1 -> k ∉ l.*2.*1 -> (a < fresh c)%nat ->
  exists c', insert_head c (Some a) = Ret c' /\
    chained capacity (looped ∖ {[k]}) ((a, (k, v)) :: l) c' /\ mp c' = mp c.
Proof.
  intros [Hcap Hhead Htail Hl Ha Hk Hf] Hne Hn Hkn Hvn Hal Hkl Hafr.
  destruct l as [|[a0 [k0 v0]] l0] eqn:El; [done|]. rewrite <- El in *.
  assert (H0 : l !! 0%nat = Some (a0, (k0, v0))) by (by rewrite El).
  destruct (Hl _ _ _ _ H0) as (p0 & nx0 & Hn0 & _).
  assert (Hne0 : a <> a0). { intros ->. apply Hal. rewrite El. constructor. }
  unfold insert_head. rewrite (store_eq _ _ _ _ Hn). cbn [mbind outcome_bind head set_heap].
  rewrite Hhead. replace (addr l 0) with (Some a0) by (unfold addr; by rewrite H0).
  erewrite store_eq by (cbn; rewrite lookup_insert_ne by done; exact Hn0). cbn [mbind outcome_bind].
  eexists. split; [reflexivity|]. split; [|done]. split; cbn [set_head set_heap cap head tail heap fresh]; try done.
  - rewrite Htail. rewrite El. done.
  - by apply (linked_push (heap c) looped l a k v n a0 (k0, v0)).
  - by apply NoDup_cons.
  - by apply NoDup_cons.
  - by apply Forall_cons.
Qed.

(** ** Lemmas: the operations of the cache *)

(** Using the head loops it. *)
Lemma touch_head capacity looped l c a k v :
  chained capacity looped l c -> l !! 0%nat = Some (a, (k, v)) ->
  exists c', removeAndInsert c (Some a) = Ret c' /\
    chained capacity (looped ∪ {[k]}) l c' /\ mp c' = mp c.
Proof.
  intros [Hcap Hhead Htail Hl Ha Hk Hf] H0. destruct (Hl _ _ _ _ H0) as (p & nx & Hn & _).
  assert (Hh : head c = Some a) by (rewrite Hhead; unfold addr; by rewrite H0).
  unfold removeAndInsert, unlink. rewrite decide_True by done. cbn [mbind outcome_bind].
  unfold insert_head. rewrite (store_eq _ _ _ _ Hn). cbn [mbind outcome_bind head set_heap]. rewrite Hh.
  erewrite store_eq by (cbn; by rewrite lookup_insert_eq). cbn [mbind outcome_bind].
  eexists. split; [reflexivity|]. split; [|done].
  split; cbn [set_head set_heap cap head tail heap fresh]; try done; [by rewrite <- Hhead|].
  intros i b kb vb Hi. destruct (Hl _ _ _ _ Hi) as (pb & nb & Hb & Hp & Hx).
  rewrite insert_insert_eq, lookup_insert. destruct (decide (a = b)) as [<-|Hab].
  - pose proof (addrs_inj l _ _ _ _ Ha Hi H0 eq_refl) as ->. rewrite H0 in Hi. injection Hi as <- <-.
    eexists _, _. split_and!; [reflexivity|done|]. set_solver.
  - exists pb, nb. split_and!; [done|done|]. intros Hkb. apply Hx. set_solver.
Qed.

Lemma touch_spec capacity looped looped' l c i a k v :
  repr capacity looped l c -> l !! i = Some (a, (k, v)) -> touched l.*2.*1 looped k i = Some looped' ->
  exists c', removeAndInsert c (Some a) = Ret c' /\ repr capacity looped' ((a, (k, v)) :: delete i l) c'.
Proof.
  intros [Hch Hmp] Hi Ht. pose proof (delete_Permutation l i _ Hi) as Hperm.
  assert (Hidx : mp c = index_of ((a, (k, v)) :: delete i l)).
  { rewrite Hmp. apply index_of_perm; [apply Hch|done]. }
  destruct i as [|j]; cbn [touched] in Ht.
  - injection Ht as <-. destruct (touch_head capacity looped l c a k v Hch Hi) as (c' & Hrun & Hch' & Hmp').
    exists c'. split; [done|]. destruct l as [|x l]; [done|]. cbn in Hi. injection Hi as ->.
    by split; [|rewrite Hmp'].
  - destruct (bool_decide (k ∈ looped) && _) eqn:Hb; [done|]. injection Ht as <-.
    pose proof (lookup_lt_Some _ _ _ Hi) as Hlen.
    destruct (unlink_spec capacity looped l c (S j) a k v Hch Hi) as (c1 & n & Hu & Hch1 & Hmp1 & Hfr & Hn & Hkn & Hvn);
      [done| |].
    { rewrite andb_false_iff, !bool_decide_eq_false, !length_fmap in Hb. destruct Hb; [by left|right; lia]. }
    destruct Hch as [_ _ _ _ Ha Hk Hf]. rewrite Hperm in Ha, Hk. cbn in Ha, Hk.
    apply NoDup_cons in Ha as [Ha _]. apply NoDup_cons in Hk as [Hk _].
    destruct (insert_head_spec capacity _ (delete (S j) l) c1 a k v n Hch1) as (c2 & Hins & Hch2 & Hmp2);
      [|done..| |].
    { intros Hnil. apply (f_equal length) in Hnil. rewrite length_delete in Hnil by done. cbn in Hnil. lia. }
    { rewrite Hfr. rewrite Forall_lookup in Hf. exact (Hf _ _ Hi). }
    exists c2. unfold removeAndInsert. rewrite Hu. split; [exact Hins|]. split; [exact Hch2|]. congruence.
Qed.

(** Writing the value of an entry. *)
Lemma write_value capacity looped l c i a k v w :
  repr capacity looped l c -> l !! i = Some (a, (k, v)) ->
  exists c', store c (Some a) (with_value w) = Ret c' /\ repr capacity looped (<[i := (a, (k, w))]> l) c'.
Proof.
  intros [[Hcap Hhead Htail Hl Ha Hk Hf] Hmp] Hi. destruct (Hl _ _ _ _ Hi) as (p & nx & Hn & Hp & Hx).
  assert (Hadr : forall j, addr (<[i := (a, (k, w))]> l) j = addr l j).
  { intros j. unfold addr. rewrite <- !list_lookup_fmap, list_fmap_insert, list_insert_id; [done|].
    by rewrite list_lookup_fmap, Hi. }
  assert (Hfmap : forall {B} (f : nat * (string * string) -> B), f (a, (k, w)) = f (a, (k, v)) ->
            f <$> <[i := (a, (k, w))]> l = f <$> l).
  { intros B f Hf'. rewrite list_fmap_insert, list_insert_id; [done|]. by rewrite list_lookup_fmap, Hi, Hf'. }
  eexists. split; [by apply store_eq|]. split.
  - split; cbn [set_heap cap head tail heap fresh]; rewrite ?Hadr, ?length_insert; try done.
    + intros j b kb vb Hj. rewrite list_lookup_insert in Hj. rewrite !Hadr.
      case_decide as Hd; [destruct Hd as [<- _]; injection Hj as <- <- <-|].
      * exists p, nx. rewrite lookup_insert_eq. done.
      * assert (Hne : i <> j) by (apply lookup_lt_Some in Hi; naive_solver).
        rewrite lookup_insert_ne; [by apply Hl|]. intros <-. by apply Hne, (addrs_inj l _ _ _ _ Ha Hi Hj).
    + by rewrite Hfmap.
    + rewrite <- list_fmap_compose, Hfmap by done. by rewrite <- list_fmap_compose in Hk.
    + apply Forall_insert; [done|]. rewrite Forall_lookup in Hf. exact (Hf _ _ Hi).
  - cbn. rewrite Hmp. unfold index_of. f_equal. symmetry. by apply Hfmap.
Qed.

(** A new node in the heap. *)
Lemma alloc_spec capacity looped l c key value :
  chained capacity looped l c -> chained capacity looped l (alloc c key value).1.
Proof.
  intros [Hcap Hhead Htail Hl Ha Hk Hf]. split; cbn; try done.
  - eapply linked_frame; [|exact Hl]. intros a (x & -> & Hx)%list_elem_of_fmap. rewrite Forall_forall in Hf.
    specialize (Hf x Hx). by rewrite lookup_insert_ne by lia.
  - eapply Forall_impl; [exact Hf|]. cbn. lia.
Qed.

Lemma fresh_not_in (l : cells) f : Forall (fun x => x.1 < f)%nat l -> f ∉ l.*1.
Proof.
  rewrite Forall_forall. intros Hf (x & Heq & Hx)%list_elem_of_fmap. specialize (Hf x Hx). lia.
Qed.

Lemma key_not_in (l : cells) k : (forall a v, (a, (k, v)) ∉ l) -> k ∉ l.*2.*1.
Proof.
  intros Hno. rewrite <- list_fmap_compose. intros ([a [k' v]] & -> & Hx)%list_elem_of_fmap. by apply (Hno a v).
Qed.

(** Evicting the tail. *)
Lemma evict_spec capacity looped l c :
  repr capacity looped l c -> (2 <= length l)%nat ->
  let i := pred (length l) in
  exists c', delTail c = Ret c' /\ repr capacity (looped ∖ key_at l.*2.*1 (pred i)) (delete i l) c' /\
    fresh c' = fresh c /\ forall a, a ∉ l.*1 -> heap c' !! a = heap c !! a.
Proof.
  intros [Hch Hmp] Hlen i. destruct (lookup_lt_is_Some_2 l i) as [[a [k v]] Hi]; [subst i; lia|].
  set (m := delete k (mp c)).
  assert (Hch0 : chained capacity looped l (set_mp c m)) by (destruct Hch; by split).
  destruct (cut_tail capacity looped l (set_mp c m) i a k v Hch0 Hi) as (p & nx & c' & Hn & Hst & Hch' & Hmp' & Hfr & _);
    [subst i; lia..|].
  exists c'. split_and!; [| |done|].
  - unfold delTail. rewrite (ch_tail _ _ _ _ Hch). fold i.
    replace (addr l i) with (Some a) by (unfold addr; by rewrite Hi). cbn [heap set_mp] in Hn.
    rewrite (load_eq _ _ _ Hn). exact Hst.
  - split; [done|]. rewrite Hmp'. cbn. subst m. rewrite Hmp. pose proof (delete_Permutation l i _ Hi) as Hperm.
    rewrite (index_of_perm l _ (ch_keys _ _ _ _ Hch) Hperm). unfold index_of at 1. cbn.
    rewrite delete_insert_eq. apply delete_id. apply index_of_None. intros b w Hin.
    pose proof (ch_keys _ _ _ _ Hch) as Hk. rewrite Hperm in Hk. cbn in Hk. apply NoDup_cons in Hk as [Hk _].
    apply Hk. rewrite <- list_fmap_compose. apply list_elem_of_fmap. by exists (b, (k, w)).
  - intros b Hb. cbn [heap set_mp] in Hst. destruct p as [p|]; [|done]. unfold store in Hst. cbn in Hst.
    destruct (heap c !! p) as [np|] eqn:Hnp; [|done]. injection Hst as <-. cbn.
    destruct (decide (p = b)) as [<-|Hne]; [|by rewrite lookup_insert_ne]. exfalso. apply Hb.
    destruct (ch_linked _ _ _ _ Hch i a k v Hi) as (p' & nx' & Hn' & Hp' & _). cbn in Hn. rewrite Hn in Hn'.
    injection Hn' as <- <-. specialize (Hp' ltac:(subst i; lia)). symmetry in Hp'. apply addr_Some in Hp' as [kv Hkv].
    apply list_elem_of_fmap. exists (p, kv). split; [done|]. by eapply list_elem_of_lookup_2.
Qed.

(** An entry for a new key at the head. *)
Lemma add_spec capacity looped l c a key value :
  repr capacity looped l c -> (forall b v, (b, (key, v)) ∉ l) -> l <> [] -> a ∉ l.*1 -> (a < fresh c)%nat ->
  heap c !! a = Some (MkNode key value None None) ->
  exists c', insert_head (set_mp c (<[key := a]> (mp c))) (Some a) = Ret c' /\
    repr capacity (looped ∖ {[key]}) ((a, (key, value)) :: l) c'.
Proof.
  intros [Hch Hmp] Hno Hne Ha Hfr Hn.
  assert (Hch1 : chained capacity looped l (set_mp c (<[key := a]> (mp c)))) by (destruct Hch; by split).
  destruct (insert_head_spec capacity looped l _ a key value (MkNode key value None None) Hch1)
    as (c' & Hrun & Hch' & Hmp'); [done|done|done|done|done|by apply key_not_in|done|].
  exists c'. split; [done|]. split; [done|]. rewrite Hmp'. cbn. by rewrite Hmp.
Qed.

Lemma Get_spec capacity looped looped' l c key :
  repr capacity looped l c -> looped_step capacity l.*2 looped (OpGet key) = Some looped' ->
  exists c' l', Get c key = Ret (c', (recent_get l.*2 key).2) /\ repr capacity looped' l' c' /\
    l'.*2 = (recent_get l.*2 key).1.
Proof.
  intros Hr Hs. unfold looped_step in Hs. cbn [op_key] in Hs. unfold Get, recent_get.
  pose proof Hr as [Hch Hmp]. rewrite Hmp.
  destruct (find_key_cells l key) as [[Hf Hno] | (i & a & v & Hf & Hi)]; rewrite Hf in *.
  - injection Hs as <-. rewrite index_of_None by done. by exists c, l.
  - rewrite (index_of_Some l i a key v) by (done || apply Hch).
    destruct (ch_linked _ _ _ _ Hch i a key v Hi) as (p & nx & Hn & _).
    destruct (touch_spec capacity looped looped' l c i a key v Hr Hi Hs) as (c' & Hrun & Hr').
    exists c', ((a, (key, v)) :: delete i l). rewrite (load_eq _ _ _ Hn). cbn [mbind outcome_bind].
    rewrite Hrun. split_and!; [done|done|]. cbn. by rewrite list_fmap_delete.
Qed.

Lemma Put_new_spec capacity looped l c key value :
  repr capacity looped l c -> (forall a v, (a, (key, v)) ∉ l) -> 2 <= capacity ->
  exists c' l', Put c key value = Ret c' /\
    repr capacity ((if full capacity l.*2 then looped ∖ key_at l.*2.*1 (pred (pred (length l.*2))) else looped) ∖ {[key]}) l' c' /\
    l'.*2 = (key, value) :: (if full capacity l.*2 then delete (pred (length l.*2)) l.*2 else l.*2).
Proof.
  intros Hr Hno Hcap2. pose proof Hr as [Hch Hmp]. unfold full. rewrite length_fmap. unfold Put.
  rewrite (ch_head _ _ _ _ Hch). destruct (decide (l = [])) as [->|Hne].
  { eexists _, [(fresh c, (key, value))]. split; [reflexivity|]. cbn [length].
    destruct (Z.geb_spec (Z.of_nat 0) capacity); [lia|]. split; [|done]. split; [|cbn; by rewrite Hmp].
    split; cbn; try done; [apply Hch| |by apply NoDup_singleton|by apply NoDup_singleton|by apply Forall_singleton; cbn; lia].
    intros [|i] b kb vb Hi; [|by rewrite lookup_nil in Hi || destruct i]. cbn in Hi. injection Hi as <- <- <-.
    rewrite lookup_insert_eq. eexists _, _. by split_and!. }
  destruct (addr l 0) as [hd|] eqn:Hhd.
  2: { destruct l; [done|]. cbn in Hhd. done. }
  rewrite Hmp, index_of_None by done. set (c0 := (alloc c key value).1).
  change (alloc c key value) with (c0, Some (fresh c)). cbn iota beta zeta.
  assert (Hr0 : repr capacity looped l c0) by (split; [by apply alloc_spec|done]).
  pose proof (fresh_not_in l _ (ch_fresh _ _ _ _ Hch)) as Hfr.
  assert (Hn0 : heap c0 !! fresh c = Some (MkNode key value None None)) by apply lookup_insert_eq.
  replace (size (mp c0)) with (length l).
  2: { change (mp c0) with (mp c). rewrite Hmp. symmetry. apply index_of_size, Hch. }
  replace (cap c0) with capacity by (symmetry; apply Hch). cbn [default].
  destruct (Z.of_nat (length l) >=? capacity) eqn:Hfull.
  - destruct (evict_spec capacity looped l c0 Hr0) as (c1 & Hev & Hr1 & Hfr1 & Hh1); [lia|].
    rewrite Hev. cbn [mbind outcome_bind].
    destruct (add_spec capacity _ (delete (pred (length l)) l) c1 (fresh c) key value Hr1) as (c2 & Hadd & Hr2).
    + intros a v Hin. apply (Hno a v). eapply elem_of_sublist; [exact Hin|apply sublist_delete].
    + intros Hnil. apply (f_equal length) in Hnil. rewrite length_delete in Hnil; [cbn in Hnil; lia|].
      apply lookup_lt_is_Some. destruct l; [done|cbn; lia].
    + intros Hin. apply Hfr. rewrite list_fmap_delete in Hin. eapply elem_of_sublist; [exact Hin|apply sublist_delete].
    + rewrite Hfr1. cbn. lia.
    + by rewrite Hh1.
    + exists c2. eexists. split_and!; [exact Hadd|exact Hr2|]. cbn. by rewrite list_fmap_delete.
  - cbn [mbind outcome_bind].
    destruct (add_spec capacity looped l c0 (fresh c) key value Hr0) as (c2 & Hadd & Hr2); [done|done|done|cbn; lia|done|].
    exists c2. eexists. split_and!; [exact Hadd|exact Hr2|done].
Qed.

Lemma Put_spec capacity looped looped' l c key value :
  repr capacity looped l c -> 2 <= capacity ->
  looped_step capacity l.*2 looped (OpPut key value) = Some looped' ->
  exists c' l', Put c key value = Ret c' /\ repr capacity looped' l' c' /\
    l'.*2 = recent_put capacity l.*2 key value.
Proof.
  intros Hr Hcap Hs. unfold looped_step in Hs. cbn [op_key] in Hs. unfold recent_put.
  destruct (find_key_cells l key) as [[Hf Hno] | (i & a & v & Hf & Hi)]; rewrite Hf in *.
  - injection Hs as <-. by apply Put_new_spec.
  - destruct (write_value capacity looped l c i a key v value Hr Hi) as (c1 & Hst & Hr1).
    pose proof (lookup_lt_Some _ _ _ Hi) as Hlen.
    assert (Hi1 : <[i := (a, (key, value))]> l !! i = Some (a, (key, value))) by (by apply list_lookup_insert_eq).
    assert (Hkeys : (<[i := (a, (key, value))]> l).*2.*1 = l.*2.*1).
    { rewrite <- !list_fmap_compose, list_fmap_insert, list_insert_id; [done|]. by rewrite list_lookup_fmap, Hi. }
    rewrite <- Hkeys in Hs.
    destruct (touch_spec capacity looped looped' _ c1 i a key value Hr1 Hi1 Hs) as (c2 & Hrun & Hr2).
    exists c2. eexists. split_and!; [|exact Hr2|].
    + unfold Put. destruct Hr as [Hch Hmp].
      destruct (head c) eqn:Hhd; [|rewrite (ch_head _ _ _ _ Hch) in Hhd; destruct l; [done|by cbn in Hhd]].
      rewrite Hmp, (index_of_Some l i a key v) by (done || apply Hch). rewrite Hst. exact Hrun.
    + cbn. f_equal. rewrite !list_fmap_delete, list_fmap_insert. apply list_eq. intros j.
      rewrite !list_lookup_delete by (rewrite ?length_insert, length_fmap; done).
      case_decide; rewrite list_lookup_insert_ne by lia; done.
Qed.

Lemma run_spec ops : forall capacity looped l c,
  2 <= capacity -> repr capacity looped l c -> safe_run capacity l.*2 looped ops = true ->
  exists c' l' looped', run c ops = Ret (c', (recent_run capacity l.*2 ops).2) /\
    repr capacity looped' l' c' /\ l'.*2 = (recent_run capacity l.*2 ops).1.
Proof.
  induction ops as [|o ops IH]; intros capacity looped l c Hcap Hr Hs; [by exists c, l, looped|].
  cbn [safe_run] in Hs. destruct (looped_step capacity l.*2 looped o) as [looped1|] eqn:Hst; [|done].
  assert (exists c1 l1, run_op c o = Ret (c1, (recent_op capacity l.*2 o).2) /\
            repr capacity looped1 l1 c1 /\ l1.*2 = (recent_op capacity l.*2 o).1) as (c1 & l1 & H1 & Hr1 & Hl1).
  { destruct o as [key|key value]; [by apply (Get_spec _ looped)|].
    destruct (Put_spec capacity looped looped1 l c key value Hr Hcap Hst) as (c1 & l1 & Hp & Hr1 & Hl1).
    exists c1, l1. cbn. by rewrite Hp. }
  rewrite <- Hl1 in Hs. destruct (IH capacity looped1 l1 c1 Hcap Hr1 Hs) as (c2 & l2 & looped2 & H2 & Hr2 & Hl2).
  exists c2, l2, looped2. cbn [run recent_run]. rewrite H1. cbn [mbind outcome_bind fst snd]. rewrite H2.
  cbn [mbind outcome_bind fst snd]. rewrite Hl1 in H2, Hl2 |- *.
  destruct (recent_op capacity l.*2 o) as [r1 v1]. cbn [fst snd] in *.
  by destruct (recent_run capacity r1 ops) as [r2 v2].
Qed.

Lemma empty_repr capacity : repr capacity ∅ [] (NewLRUCache capacity).
Proof. split; [|done]. split; try done; by constructor || intros i a k v. Qed.

Lemma repr_keys capacity looped l c k : repr capacity looped l c -> is_Some (mp c !! k) <-> k ∈ l.*2.*1.
Proof.
  intros [Hch Hmp]. rewrite Hmp. split.
  - intros [a Ha]. apply elem_of_list_to_map_2, list_elem_of_fmap in Ha as ([b [k' v]] & [= -> ->] & Hin).
    rewrite <- list_fmap_compose. apply list_elem_of_fmap. by exists (b, (k', v)).
  - rewrite <- list_fmap_compose. intros ([a [k' v]] & -> & [i Hi]%list_elem_of_lookup)%list_elem_of_fmap.
    exists a. eapply index_of_Some; [apply Hch|exact Hi].
Qed.

End LruSpec.

(** ** Properties *)

(** C37: the LRU cache is a recency list: with room for two entries or more, a
    run that never moves a looped entry from the middle returns, its reads are
    those of the recency list with eviction of the least recently used entry,
    and the cache holds exactly the keys of the list. *)
Theorem lru_refines_recency capacity ops :
  2 <= capacity -> LruSpec.safe_run capacity [] ∅ ops = true ->
  exists c, Lru.run (Lru.NewLRUCache capacity) ops = Ret (c, (LruSpec.recent_run capacity [] ops).2) /\
    forall k, is_Some (Lru.mp c !! k) <-> k ∈ (LruSpec.recent_run capacity [] ops).1.*1.
Proof.
  intros Hcap Hs. destruct (LruSpec.run_spec ops capacity ∅ [] (Lru.NewLRUCache capacity) Hcap
    (LruSpec.empty_repr capacity) Hs) as (c & l & looped & Hrun & Hr & Hl).
  exists c. split; [exact Hrun|]. intros k. rewrite (LruSpec.repr_keys _ _ _ _ k Hr), Hl. done.
Qed.

(** Reads, a read of the head, an overwrite and two evictions. *)
Definition lru_demo_ops : list Lru.op :=
  [Lru.OpPut "a" "1"; Lru.OpPut "b" "2"; Lru.OpGet "b"; Lru.OpGet "a"; Lru.OpPut "c" "3"; Lru.OpPut "d" "4";
   Lru.OpGet "b"; Lru.OpPut "a" "5"; Lru.OpPut "e" "6"; Lru.OpGet "c"; Lru.OpGet "a"].

Lemma lru_refines_recency_witness :
  exists c, Lru.run (Lru.NewLRUCache 3) lru_demo_ops = Ret (c, (LruSpec.recent_run 3 [] lru_demo_ops).2) /\
    (forall k, is_Some (Lru.mp c !! k) <-> k ∈ (LruSpec.recent_run 3 [] lru_demo_ops).1.*1) /\
    LruSpec.recent_run 3 [] lru_demo_ops =
      ([("a", "5"); ("e", "6"); ("d", "4")],
       [None; None; Some "2"; Some "1"; None; None; None; None; None; None; Some "5"]).
Proof.
  destruct (lru_refines_recency 3 lru_demo_ops) as (c & Hrun & Hk); [lia|vm_compute; reflexivity|].
  exists c. split_and!; [exact Hrun|exact Hk|vm_compute; reflexivity].
Defined.
