(* ===== verification/Json.v ===== *)
(** * encoding/json, as far as the service uses it

    The service marshals structs of strings and 64-bit integers and maps from
    string to string, and reads them back.  This file models Go's encoder for
    those types byte for byte (Go before 1.22, HTML escaping on), the JSON
    grammar of the decoder, and the way the decoder stores a parsed value into
    a struct or a map.  Strings are byte strings: the encoder replaces bytes
    that are not UTF-8 by U+FFFD, and so does the decoder. *)

From Stdlib Require Import Ascii.
From S2P Require Import Prelude GoStd.

(** ** UTF-8 *)
Module Utf8.

Definition code (a : ascii) : N := N_of_ascii a.

Definition byte_in (lo hi : N) (a : ascii) : bool := (lo <=? code a)%N && (code a <=? hi)%N.

Definition is_ascii (a : ascii) : bool := byte_in 0 127 a.
Definition cont (a : ascii) : bool := byte_in 128 191 a.
Definition lead2 (a : ascii) : bool := byte_in 194 223 a.

(** The ranges of the first two bytes of a three- and a four-byte rune. *)
Definition lead3 (a b : ascii) : bool :=
  (byte_in 224 224 a && byte_in 160 191 b) || (byte_in 225 236 a && cont b)
  || (byte_in 237 237 a && byte_in 128 159 b) || (byte_in 238 239 a && cont b).

Definition lead4 (a b : ascii) : bool :=
  (byte_in 240 240 a && byte_in 144 191 b) || (byte_in 241 243 a && cont b)
  || (byte_in 244 244 a && byte_in 128 143 b).

(** One step of [utf8.DecodeRune]: a rune of one to four bytes, or one byte
    that does not start a rune. *)
Inductive chunk : Type :=
| C1 (a : ascii)
| C2 (a b : ascii)
| C3 (a b c : ascii)
| C4 (a b c d : ascii)
| Bad (a : ascii).

Definition wf_chunk (c : chunk) : bool :=
  match c with
  | C1 a => is_ascii a
  | C2 a b => lead2 a && cont b
  | C3 a b c => lead3 a b && cont c
  | C4 a b c d => lead4 a b && cont c && cont d
  | Bad a => negb (is_ascii a)
  end.

Definition uncons (s : string) : option (chunk * string) :=
  match s with
  | EmptyString => None
  | String a s1 =>
      if is_ascii a then Some (C1 a, s1) else
      match s1 with
      | EmptyString => Some (Bad a, s1)
      | String b s2 =>
          if lead2 a && cont b then Some (C2 a b, s2) else
          match s2 with
          | EmptyString => Some (Bad a, s1)
          | String c s3 =>
              if lead3 a b && cont c then Some (C3 a b c, s3) else
              match s3 with
              | EmptyString => Some (Bad a, s1)
              | String d s4 =>
                  if lead4 a b && cont c && cont d then Some (C4 a b c d, s4)
                  else Some (Bad a, s1)
              end
          end
      end
  end.

(** The runes of a string, left to right; [fuel] is its length. *)
Fixpoint chunks_fuel (fuel : nat) (s : string) : list chunk :=
  match fuel with
  | O => []
  | S fuel =>
      match uncons s with
      | None => []
      | Some (c, s') => c :: chunks_fuel fuel s'
      end
  end.

Definition chunks (s : string) : list chunk := chunks_fuel (String.length s) s.

Definition replacement : string := String "239" (String "191" (String "189" EmptyString)).

(** The bytes of a chunk, and the bytes it becomes when re-encoded. *)
Definition raw (c : chunk) : string :=
  match c with
  | C1 a | Bad a => String a EmptyString
  | C2 a b => String a (String b EmptyString)
  | C3 a b c => String a (String b (String c EmptyString))
  | C4 a b c d => String a (String b (String c (String d EmptyString)))
  end.

Definition coerce_chunk (c : chunk) : string :=
  match c with
  | Bad _ => replacement
  | c => raw c
  end.

Definition concat_map (f : chunk -> string) (cs : list chunk) : string :=
  foldr (fun c s => f c +:+ s) EmptyString cs.

(** A string with every byte that is not UTF-8 replaced by U+FFFD. *)
Definition coerce (s : string) : string := concat_map coerce_chunk (chunks s).

Definition valid (s : string) : bool :=
  forallb (fun c => match c with Bad _ => false | _ => true end) (chunks s).

Definition byte (n : N) : ascii := ascii_of_N n.

(** [utf8.EncodeRune]. *)
Definition encode_rune (r : N) : string :=
  if (r <=? 127)%N then String (byte r) EmptyString
  else if (r <=? 2047)%N then
    String (byte (192 + r / 64)) (String (byte (128 + r mod 64)) EmptyString)
  else if ((55296 <=? r) && (r <=? 57343))%N || (1114111 <? r)%N then replacement
  else if (r <=? 65535)%N then
    String (byte (224 + r / 4096))
      (String (byte (128 + (r / 64) mod 64)) (String (byte (128 + r mod 64)) EmptyString))
  else
    String (byte (240 + r / 262144)) (String (byte (128 + (r / 4096) mod 64))
      (String (byte (128 + (r / 64) mod 64)) (String (byte (128 + r mod 64)) EmptyString))).

End Utf8.

(** ** String literals *)
Module Lit.

Import Utf8.

Definition dquote : ascii := "034".
Definition backslash : ascii := "092".

(** [htmlSafeSet]: bytes copied as they are. *)
Definition html_safe (a : ascii) : bool :=
  byte_in 32 127 a
  && negb (bool_decide (a ∈ [dquote; backslash; "<"; ">"; "&"]%char)).

Definition hex_digit (n : N) : ascii :=
  if (n <? 10)%N then byte (48 + n) else byte (87 + n).

Definition hex_value (a : ascii) : option N :=
  if byte_in 48 57 a then Some (code a - 48)%N
  else if byte_in 97 102 a then Some (code a - 87)%N
  else if byte_in 65 70 a then Some (code a - 55)%N
  else None.

(** What [encodeState.string] writes for one rune. *)
Definition quote_chunk (c : chunk) : string :=
  match c with
  | C1 a =>
      if html_safe a then String a EmptyString
      else if decide (a = dquote \/ a = backslash) then String backslash (String a EmptyString)
      else if decide (a = "010"%char) then String backslash (String "n" EmptyString)
      else if decide (a = "013"%char) then String backslash (String "r" EmptyString)
      else if decide (a = "009"%char) then String backslash (String "t" EmptyString)
      else String backslash (String "u" (String "0" (String "0"
             (String (hex_digit (code a / 16)) (String (hex_digit (code a mod 16)) EmptyString)))))
  | C3 a b c =>
      if decide (a = "226" /\ b = "128" /\ c = "168")%char then String backslash "u2028"
      else if decide (a = "226" /\ b = "128" /\ c = "169")%char then String backslash "u2029"
      else raw (C3 a b c)
  | Bad _ => String backslash "ufffd"
  | c => raw c
  end%char.

Definition quote_body (s : string) : string := concat_map quote_chunk (chunks s).

Definition quote (s : string) : string :=
  String dquote (quote_body s +:+ String dquote EmptyString).

(** [getu4] without the leading [\u]: four hexadecimal digits. *)
Definition hex4 (s : string) : option (N * string) :=
  match s with
  | String a (String b (String c (String d s'))) =>
      match hex_value a, hex_value b, hex_value c, hex_value d with
      | Some a, Some b, Some c, Some d => Some ((a * 4096 + b * 256 + c * 16 + d)%N, s')
      | _, _, _, _ => None
      end
  | _ => None
  end.

Definition simple_escape (e : ascii) : option ascii :=
  match e with
  | "034" => Some dquote
  | "\" => Some backslash
  | "/" => Some "/"
  | "b" => Some "008"
  | "f" => Some "012"
  | "n" => Some "010"
  | "r" => Some "013"
  | "t" => Some "009"
  | _ => None
  end%char.

Definition is_surrogate (r : N) : bool := ((55296 <=? r) && (r <=? 57343))%N.

(** [utf16.DecodeRune] of [hi] and of the escape that follows it. *)
Definition low_surrogate (hi : N) (s : string) : option (N * string) :=
  match s with
  | String a (String b s1) =>
      if decide (a = backslash /\ b = "u"%char) then
        match hex4 s1 with
        | Some (lo, s2) =>
            if ((hi <=? 56319) && (56320 <=? lo) && (lo <=? 57343))%N
            then Some (((hi - 55296) * 1024 + (lo - 56320) + 65536)%N, s2)
            else None
        | None => None
        end
      else None
  | _ => None
  end.

Definition prepend (p : string) (o : option (string * string)) : option (string * string) :=
  match o with
  | Some (v, r) => Some (p +:+ v, r)
  | None => None
  end.

(** The body of a literal after its opening quote: the decoded bytes and what
    follows the closing quote.  Each step reads at least one byte. *)
Fixpoint parse_str (fuel : nat) (s : string) : option (string * string) :=
  match fuel with
  | O => None
  | S fuel =>
      match s with
      | EmptyString => None
      | String a s1 =>
          if decide (a = dquote) then Some (EmptyString, s1)
          else if decide (a = backslash) then
            match s1 with
            | EmptyString => None
            | String e s2 =>
                match simple_escape e with
                | Some c => prepend (String c EmptyString) (parse_str fuel s2)
                | None =>
                    if decide (e = "u"%char) then
                      match hex4 s2 with
                      | None => None
                      | Some (r, s3) =>
                          if is_surrogate r then
                            match low_surrogate r s3 with
                            | Some (r', s4) => prepend (encode_rune r') (parse_str fuel s4)
                            | None => prepend replacement (parse_str fuel s3)
                            end
                          else prepend (encode_rune r) (parse_str fuel s3)
                      end
                    else None
                end
            end
          else if (code a <? 32)%N then None
          else match uncons s with
               | Some (c, s') => prepend (coerce_chunk c) (parse_str fuel s')
               | None => None
               end
      end
  end.

End Lit.

(** ** Values *)

Inductive json : Type :=
| JNull
| JBool (b : bool)
| JNum (lit : string)
| JStr (s : string)
| JArr (l : list json)
| JObj (l : list (string * json)).

Module Parse.

Import Utf8.

Definition is_ws (a : ascii) : bool := bool_decide (a ∈ [" "; "009"; "010"; "013"]%char).

Fixpoint skip_ws (s : string) : string :=
  match s with
  | String a s' => if is_ws a then skip_ws s' else s
  | EmptyString => EmptyString
  end.

Fixpoint strip_prefix (p s : string) : option string :=
  match p, s with
  | EmptyString, _ => Some s
  | String a p, String b s => if decide (a = b) then strip_prefix p s else None
  | _, _ => None
  end.

Fixpoint span_digits (s : string) : string * string :=
  match s with
  | String a s' =>
      if byte_in 48 57 a then let '(d, r) := span_digits s' in (String a d, r)
      else (EmptyString, s)
  | EmptyString => (EmptyString, EmptyString)
  end.

(** A non-empty run of digits. *)
Definition digits1 (s : string) : option (string * string) :=
  match span_digits s with
  | (EmptyString, _) => None
  | (d, r) => Some (d, r)
  end.

Definition parse_int_part (s : string) : option (string * string) :=
  match s with
  | String "0"%char r => Some ("0"%string, r)
  | _ => digits1 s
  end.

Definition parse_frac (s : string) : option (string * string) :=
  match s with
  | String "."%char r =>
      match digits1 r with
      | Some (d, r') => Some (String "."%char d, r')
      | None => None
      end
  | _ => Some (EmptyString, s)
  end.

Definition parse_exp (s : string) : option (string * string) :=
  match s with
  | String e r =>
      if decide (e = "e"%char \/ e = "E"%char) then
        let '(sign, r1) :=
          match r with
          | String "+"%char r1 => ("+"%string, r1)
          | String "-"%char r1 => ("-"%string, r1)
          | _ => (EmptyString, r)
          end in
        match digits1 r1 with
        | Some (d, r2) => Some (String e (sign +:+ d), r2)
        | None => None
        end
      else Some (EmptyString, s)
  | EmptyString => Some (EmptyString, s)
  end.

Definition parse_unsigned (s : string) : option (string * string) :=
  match parse_int_part s with
  | None => None
  | Some (i, s1) =>
      match parse_frac s1 with
      | None => None
      | Some (f, s2) =>
          match parse_exp s2 with
          | None => None
          | Some (e, s3) => Some (i +:+ f +:+ e, s3)
          end
      end
  end.

(** A number literal: its text and what follows it. *)
Definition parse_number (s : string) : option (string * string) :=
  match s with
  | String "-"%char s1 => Lit.prepend "-" (parse_unsigned s1)
  | _ => parse_unsigned s
  end.

Definition parse_string (s : string) : option (string * string) :=
  Lit.parse_str (S (String.length s)) s.

(** [null], [true], [false] and numbers. *)
Definition parse_scalar (s : string) : option (json * string) :=
  match strip_prefix "null" s with
  | Some r => Some (JNull, r)
  | None =>
  match strip_prefix "true" s with
  | Some r => Some (JBool true, r)
  | None =>
  match strip_prefix "false" s with
  | Some r => Some (JBool false, r)
  | None =>
  match parse_number s with
  | Some (n, r) => Some (JNum n, r)
  | None => None
  end end end end.

(** [parse_members] starts at the quote of a key, [parse_elems] at an
    element; every call reads at least one byte. *)
Fixpoint parse_value (fuel : nat) (s : string) : option (json * string) :=
  match fuel with
  | O => None
  | S fuel =>
      match skip_ws s with
      | EmptyString => None
      | String a s1 as s0 =>
          if decide (a = Lit.dquote) then
            match parse_string s1 with
            | Some (v, r) => Some (JStr v, r)
            | None => None
            end
          else if decide (a = "{"%char) then
            match skip_ws s1 with
            | String "}"%char r => Some (JObj [], r)
            | s2 =>
                match parse_members fuel s2 with
                | Some (l, r) => Some (JObj l, r)
                | None => None
                end
            end
          else if decide (a = "["%char) then
            match skip_ws s1 with
            | String "]"%char r => Some (JArr [], r)
            | s2 =>
                match parse_elems fuel s2 with
                | Some (l, r) => Some (JArr l, r)
                | None => None
                end
            end
          else parse_scalar s0
      end
  end
with parse_members (fuel : nat) (s : string) : option (list (string * json) * string) :=
  match fuel with
  | O => None
  | S fuel =>
      match s with
      | EmptyString => None
      | String a s1 =>
          if decide (a = Lit.dquote) then
            match parse_string s1 with
            | None => None
            | Some (k, s2) =>
                match skip_ws s2 with
                | String ":"%char s3 =>
                    match parse_value fuel s3 with
                    | None => None
                    | Some (v, s4) =>
                        match skip_ws s4 with
                        | String "}"%char r => Some ([(k, v)], r)
                        | String ","%char s5 =>
                            match parse_members fuel (skip_ws s5) with
                            | Some (l, r) => Some ((k, v) :: l, r)
                            | None => None
                            end
                        | _ => None
                        end
                    end
                | _ => None
                end
            end
          else None
      end
  end
with parse_elems (fuel : nat) (s : string) : option (list json * string) :=
  match fuel with
  | O => None
  | S fuel =>
      match parse_value fuel s with
      | None => None
      | Some (v, s1) =>
          match skip_ws s1 with
          | String "]"%char r => Some ([v], r)
          | String ","%char s2 =>
              match parse_elems fuel s2 with
              | Some (l, r) => Some (v :: l, r)
              | None => None
              end
          | _ => None
          end
      end
  end.

(** The first value of a stream, as [json.Decoder.Decode] reads it. *)
Definition parse_first (s : string) : option json :=
  match parse_value (S (String.length s)) s with
  | Some (v, _) => Some v
  | None => None
  end.

(** A whole document, as [json.Unmarshal] reads it. *)
Definition parse_document (s : string) : option json :=
  match parse_value (S (String.length s)) s with
  | Some (v, r) => match skip_ws r with EmptyString => Some v | _ => None end
  | None => None
  end.

End Parse.

(** ** Storing a value: structs and maps *)
Module Decode.

Import Utf8.

(** A struct field: its JSON name and how a value is stored into it, [None]
    being an [UnmarshalTypeError]. *)
Record field (T : Type) : Type := Field {
  f_name : string;
  f_store : json -> T -> option T
}.
Arguments Field {T} _ _.
Arguments f_name {T} _.
Arguments f_store {T} _ _ _.

Definition store_string {T : Type} (set : string -> T -> T) (j : json) (t : T) : option T :=
  match j with
  | JStr s => Some (set s t)
  | _ => None
  end.

Definition store_int64 {T : Type} (set : Z -> T -> T) (j : json) (t : T) : option T :=
  match j with
  | JNum lit => match Strconv.ParseInt lit with Some n => Some (set n t) | None => None end
  | _ => None
  end.

(** Case folding of one rune against ASCII names: letters in either case, the
    long s (U+017F) and the Kelvin sign (U+212A). *)
Definition fold_chunk (c : chunk) : chunk :=
  match c with
  | C1 a => if byte_in 65 90 a then C1 (byte (code a + 32)) else C1 a
  | C2 "197" "191" => C1 "s"
  | C3 "226" "132" "170" => C1 "k"
  | c => c
  end%char.

#[global] Instance chunk_eq_dec : EqDecision chunk.
Proof. solve_decision. Defined.

Definition equal_fold (s t : string) : bool :=
  bool_decide (fold_chunk <$> chunks s = fold_chunk <$> chunks t).

(** The field a member is stored into: an exact match, else the first match up
    to case. *)
Definition find_field {T : Type} (fs : list (field T)) (key : string) : option (field T) :=
  match list_find (fun f => f_name f = key) fs with
  | Some (_, f) => Some f
  | None => snd <$> list_find (fun f => equal_fold (f_name f) key = true) fs
  end.

(** One member; the flag says that no type error has been saved so far. *)
Definition store_member {T : Type} (fs : list (field T)) (acc : T * bool) (m : string * json)
    : T * bool :=
  let '(t, ok) := acc in
  match find_field fs m.1, m.2 with
  | None, _ => (t, ok)
  | Some _, JNull => (t, ok)
  | Some f, j => match f_store f j t with Some t' => (t', ok) | None => (t, false) end
  end.

Definition finish {T : Type} (acc : T * bool) : option T :=
  if acc.2 then Some acc.1 else None.

(** Decoding into a struct that holds [t]; [None] is an error. *)
Definition into_struct {T : Type} (fs : list (field T)) (t : T) (j : json) : option T :=
  match j with
  | JNull => Some t
  | JObj l => finish (fold_left (store_member fs) l (t, true))
  | _ => None
  end.

Definition store_entry (acc : gmap string string * bool) (m : string * json)
    : gmap string string * bool :=
  let '(d, ok) := acc in
  match m.2 with
  | JStr v => (<[m.1 := v]> d, ok)
  | JNull => (<[m.1 := EmptyString]> d, ok)
  | _ => (<[m.1 := EmptyString]> d, false)
  end.

(** Decoding into a nil [map[string]string]. *)
Definition into_map (j : json) : option (gomap string) :=
  match j with
  | JNull => Some None
  | JObj l =>
      match finish (fold_left store_entry l (∅, true)) with
      | Some d => Some (Some d)
      | None => None
      end
  | _ => None
  end.

End Decode.

(** ** Encoding structs and maps *)
Module Encode.

(** [{"n1":v1,"n2":v2,...}] for values already rendered. *)
Fixpoint members (l : list (string * string)) : string :=
  match l with
  | [] => EmptyString
  | [(n, v)] => Lit.quote n +:+ String ":"%char v
  | (n, v) :: l => Lit.quote n +:+ String ":"%char (v +:+ String ","%char (members l))
  end.

Definition object (l : list (string * string)) : string :=
  String "{"%char (members l +:+ String "}"%char EmptyString).

Definition key_le (x y : string * string) : Prop := String.le x.1 y.1.

#[global] Instance key_le_dec : RelDecision key_le.
Proof. intros x y. unfold key_le. apply _. Defined.

(** [json.Marshal] of a [map[string]string]: the keys in byte order. *)
Definition marshal_map (m : gomap string) : string :=
  match m with
  | None => "null"
  | Some d => object (prod_map id Lit.quote <$> merge_sort key_le (map_to_list d))
  end.

End Encode.

(** ** Lemmas: runes *)

Import Utf8.

Lemma uncons_spec s c r :
  uncons s = Some (c, r) ->
  wf_chunk c = true /\ s = raw c +:+ r /\ (String.length r < String.length s)%nat.
Proof.
  unfold uncons. intros H. repeat case_go; cbn;
    repeat match goal with E : ?b = true |- context [?b] => rewrite E | E : ?b = false |- context [?b] => rewrite E end;
    cbn; repeat split; try done; try lia; naive_solver.
Qed.

Lemma uncons_empty s : uncons s = None -> s = EmptyString.
Proof. unfold uncons. intros H. by repeat case_go. Qed.

Lemma chunks_fuel_spec fuel s :
  (String.length s <= fuel)%nat ->
  Forall (fun c => wf_chunk c = true) (chunks_fuel fuel s) /\
  concat_map raw (chunks_fuel fuel s) = s.
Proof.
  revert s. induction fuel as [|fuel IH]; intros s Hs; cbn.
  { destruct s; [done | cbn in Hs; lia]. }
  destruct (uncons s) as [[c r]|] eqn:Hu.
  - apply uncons_spec in Hu as (Hwf & -> & Hlen). destruct (IH r) as [HF Hc]; [lia|].
    split; [by constructor|]. cbn. unfold concat_map in Hc. by rewrite Hc.
  - by rewrite (uncons_empty s Hu).
Qed.

Lemma coerce_valid s : valid s = true -> coerce s = s.
Proof.
  unfold valid, coerce. intros Hv.
  rewrite <- (proj2 (chunks_fuel_spec (String.length s) s ltac:(lia))) at 2.
  fold (chunks s). unfold concat_map. induction (chunks s) as [|c cs IH]; [done|].
  cbn in Hv |- *. rewrite IH by (by destruct c; cbn in Hv). by destruct c.
Qed.

(** ** Lemmas: string literals *)

Lemma parse_quote_ascii fuel a X :
  is_ascii a = true ->
  Lit.parse_str (S fuel) (Lit.quote_chunk (C1 a) +:+ X) =
  Lit.prepend (String a EmptyString) (Lit.parse_str fuel X).
Proof.
  intros Ha. destruct a as [b0 b1 b2 b3 b4 b5 b6 b7].
  destruct b7; [by destruct b0, b1, b2, b3, b4, b5, b6|]. clear Ha.
  destruct b0, b1, b2, b3, b4, b5, b6; reflexivity.
Qed.

Lemma byte_in_code lo hi a : byte_in lo hi a = true <-> (lo <= code a <= hi)%N.
Proof. unfold byte_in. rewrite andb_true_iff, !N.leb_le. done. Qed.

Lemma lead3_code a b : lead3 a b = true -> (224 <= code a <= 239)%N.
Proof.
  unfold lead3. rewrite !orb_true_iff, !andb_true_iff, !byte_in_code. lia.
Qed.

Lemma lead4_code a b : lead4 a b = true -> (240 <= code a <= 244)%N.
Proof.
  unfold lead4. rewrite !orb_true_iff, !andb_true_iff, !byte_in_code. lia.
Qed.

Lemma byte_in_false lo hi a : (code a < lo \/ hi < code a)%N -> byte_in lo hi a = false.
Proof. intros H. apply not_true_iff_false. rewrite byte_in_code. lia. Qed.

(** The first byte of a longer rune. *)
Lemma wf_chunk_lead c :
  wf_chunk c = true -> (forall a, c <> C1 a) -> (forall a, c <> Bad a) ->
  exists a s, raw c = String a s /\ (194 <= code a)%N.
Proof.
  intros Hwf H1 HB. destruct c; try naive_solver; cbn in Hwf |- *;
    rewrite ?andb_true_iff in Hwf; eexists _, _; (split; [done|]).
  - destruct Hwf as [Hl _]. apply byte_in_code in Hl. lia.
  - destruct Hwf as [Hl _]. apply lead3_code in Hl. lia.
  - destruct Hwf as [[Hl _] _]. apply lead4_code in Hl. lia.
Qed.

Lemma uncons_raw c X :
  wf_chunk c = true -> (forall a, c <> Bad a) -> uncons (raw c +:+ X) = Some (c, X).
Proof.
  intros Hwf HB. destruct c; try naive_solver; cbn in Hwf |- *.
  - by rewrite Hwf.
  - rewrite Hwf. apply andb_true_iff in Hwf as [Hl _]. apply byte_in_code in Hl.
    unfold is_ascii. rewrite !(byte_in_false _ _ a) by lia. done.
  - rewrite Hwf. apply andb_true_iff in Hwf as [Hl _]. apply lead3_code in Hl.
    unfold is_ascii, lead2. rewrite !(byte_in_false _ _ a) by lia. done.
  - rewrite Hwf. rewrite !andb_true_iff in Hwf. destruct Hwf as [[Hl _] _].
    apply lead4_code in Hl. unfold is_ascii, lead2, lead3.
    rewrite !(byte_in_false _ _ a) by lia. done.
Qed.

Lemma chunks_fuel_raw cs :
  Forall (fun c => wf_chunk c = true /\ forall a, c <> Bad a) cs ->
  forall fuel, (String.length (concat_map raw cs) <= fuel)%nat -> chunks_fuel fuel (concat_map raw cs) = cs.
Proof.
  induction 1 as [|c cs [Hwf HB] _ IH]; intros fuel Hf; [by destruct fuel|].
  change (concat_map raw (c :: cs)) with (raw c +:+ concat_map raw cs) in *. rewrite length_app_str in Hf.
  assert (1 <= String.length (raw c))%nat by (destruct c; cbn; lia). destruct fuel as [|fuel]; [lia|].
  cbn [chunks_fuel]. rewrite uncons_raw by done. f_equal. apply IH. lia.
Qed.

(** What coercion leaves is UTF-8. *)
Lemma coerce_is_valid s : valid (coerce s) = true.
Proof.
  set (fix_chunk c := match c with Bad _ => C3 "239" "191" "189" | c => c end).
  assert (Hc : coerce s = concat_map raw (fix_chunk <$> chunks s)).
  { unfold coerce, concat_map. induction (chunks s) as [|c cs IH]; [done|]. cbn. rewrite IH. by destruct c. }
  assert (Hwf : Forall (fun c => wf_chunk c = true /\ forall a, c <> Bad a) (fix_chunk <$> chunks s)).
  { apply Forall_fmap. eapply Forall_impl; [apply (chunks_fuel_spec (String.length s) s); lia|].
    intros c H. by destruct c. }
  unfold valid, chunks at 1. rewrite Hc, chunks_fuel_raw by done. apply forallb_forall. intros c Hin%list_elem_of_In.
  rewrite Forall_forall in Hwf. destruct (Hwf c Hin) as [_ HB]. by destruct c; [..|exfalso; eapply HB].
Qed.

(** A rune written as its own bytes is read back as these bytes. *)
Lemma parse_raw_chunk fuel c X :
  wf_chunk c = true -> (forall a, c <> C1 a) -> (forall a, c <> Bad a) ->
  Lit.parse_str (S fuel) (raw c +:+ X) = Lit.prepend (raw c) (Lit.parse_str fuel X).
Proof.
  intros Hwf H1 HB. pose proof (uncons_raw c X Hwf HB) as Hu.
  destruct (wf_chunk_lead c Hwf H1 HB) as (a & s & Hraw & Ha).
  assert (raw c = coerce_chunk c) as Hco by (destruct c; naive_solver).
  assert (raw c +:+ X = String a (s +:+ X)) as HX by (by rewrite Hraw).
  rewrite HX in Hu |- *. rewrite Hco. cbn -[uncons].
  rewrite decide_False by (intros ->; by vm_compute in Ha).
  rewrite decide_False by (intros ->; by vm_compute in Ha).
  destruct (N.ltb_spec (code a) 32); [lia|]. by rewrite Hu.
Qed.

Lemma parse_quote_chunk fuel c X :
  wf_chunk c = true ->
  Lit.parse_str (S fuel) (Lit.quote_chunk c +:+ X) =
  Lit.prepend (coerce_chunk c) (Lit.parse_str fuel X).
Proof.
  intros Hwf. destruct c as [a|a b|a b c|a b c d|a].
  - by apply parse_quote_ascii.
  - by apply (parse_raw_chunk fuel (C2 a b) X).
  - cbn [Lit.quote_chunk]. repeat case_decide; destruct_and?; subst; try reflexivity.
    by apply (parse_raw_chunk fuel (C3 a b c) X).
  - by apply (parse_raw_chunk fuel (C4 a b c d) X).
  - reflexivity.
Qed.

Lemma parse_quote_chunks fuel cs rest :
  Forall (fun c => wf_chunk c = true) cs -> (length cs < fuel)%nat ->
  Lit.parse_str fuel (concat_map Lit.quote_chunk cs +:+ String Lit.dquote rest) =
  Some (concat_map coerce_chunk cs, rest).
Proof.
  revert fuel. induction cs as [|c cs IH]; intros fuel HF Hlen.
  - destruct fuel; [lia | done].
  - destruct fuel as [|fuel]; [cbn in Hlen; lia|]. apply Forall_cons in HF as [Hc HF].
    cbn [concat_map foldr]. rewrite app_assoc_str, parse_quote_chunk by done.
    fold (concat_map Lit.quote_chunk cs). rewrite IH; [done..|cbn in Hlen; lia].
Qed.

Lemma quote_chunk_nonempty c : (1 <= String.length (Lit.quote_chunk c))%nat.
Proof. destruct c; cbn; repeat case_match; cbn; lia. Qed.

Lemma length_quote_chunks cs :
  (length cs <= String.length (concat_map Lit.quote_chunk cs))%nat.
Proof.
  induction cs as [|c cs IH]; cbn; [lia|]. rewrite length_app_str.
  pose proof (quote_chunk_nonempty c). unfold concat_map in IH. lia.
Qed.

(** Reading a literal back gives the string, coerced to UTF-8. *)
Lemma parse_string_quote s rest :
  Parse.parse_string (Lit.quote_body s +:+ String Lit.dquote rest) = Some (coerce s, rest).
Proof.
  apply parse_quote_chunks.
  - apply chunks_fuel_spec. lia.
  - rewrite length_app_str. pose proof (length_quote_chunks (chunks s)).
    unfold Lit.quote_body. cbn. lia.
Qed.

(** ** Lemmas: rendered values *)

(** What may follow a member's value. *)
Definition delim (rest : string) : Prop :=
  exists a r, rest = String a r /\ (a = ","%char \/ a = "}"%char).

(** [v] is a rendering of [j]: in front of a delimiter it parses to [j]. *)
Definition renders (v : string) (j : json) : Prop :=
  forall fuel rest, delim rest -> Parse.parse_value (S fuel) (v +:+ rest) = Some (j, rest).

Fixpoint all_digits (s : string) : bool :=
  match s with
  | EmptyString => true
  | String a s => byte_in 48 57 a && all_digits s
  end.

Lemma parse_value_dquote fuel X :
  Parse.parse_value (S fuel) (String Lit.dquote X) =
  match Parse.parse_string X with Some (v, r) => Some (JStr v, r) | None => None end.
Proof. done. Qed.

Lemma renders_quote s : renders (Lit.quote s) (JStr (coerce s)).
Proof.
  intros fuel rest _. unfold Lit.quote. cbn [String.append]. rewrite app_assoc_str.
  cbn [String.append]. by rewrite parse_value_dquote, parse_string_quote.
Qed.

Lemma digit_cases (P : ascii -> Prop) d :
  0 <= d <= 9 ->
  P "0"%char -> P "1"%char -> P "2"%char -> P "3"%char -> P "4"%char ->
  P "5"%char -> P "6"%char -> P "7"%char -> P "8"%char -> P "9"%char ->
  P (Strconv.digit d).
Proof.
  intros. assert (d = 0 \/ d = 1 \/ d = 2 \/ d = 3 \/ d = 4 \/ d = 5 \/ d = 6 \/ d = 7 \/ d = 8 \/ d = 9)
    as Hcases by lia.
  by repeat destruct Hcases as [-> | Hcases]; subst.
Qed.

Lemma digit_is_digit d : 0 <= d <= 9 -> byte_in 48 57 (Strconv.digit d) = true.
Proof. intros Hd. by apply (digit_cases (fun a => byte_in 48 57 a = true)). Qed.

Lemma all_digits_format fuel n acc :
  all_digits acc = true -> all_digits (Strconv.format_digits fuel n acc) = true.
Proof.
  revert n acc. induction fuel as [|fuel IH]; intros n acc Hacc;
    pose proof (Z.mod_pos_bound n 10);
    assert (all_digits (String (Strconv.digit (n mod 10)) acc) = true)
      by (cbn; rewrite digit_is_digit by lia; done); [done|].
  cbn -[Z.modulo Z.div all_digits]. destruct (n <? 10); [done | by apply IH].
Qed.

Lemma format_digits_nonzero fuel n acc :
  1 <= n < 10 ^ Z.of_nat (S fuel) ->
  exists d s, Strconv.format_digits fuel n acc = String (Strconv.digit d) s /\ 1 <= d <= 9.
Proof.
  revert n acc. induction fuel as [|fuel IH]; intros n acc Hn.
  - change (10 ^ Z.of_nat 1) with 10 in Hn. cbn -[Z.modulo].
    rewrite Z.mod_small by lia. eexists _, _. split; [done|lia].
  - cbn -[Z.modulo Z.div]. destruct (Z.ltb_spec n 10).
    + rewrite Z.mod_small by lia. eexists _, _. split; [done|lia].
    + apply IH. rewrite Nat2Z.inj_succ, Z.pow_succ_r in Hn by lia.
      split; [apply Z.div_le_lower_bound; lia | apply Z.div_lt_upper_bound; lia].
Qed.

Lemma span_digits_app s rest :
  all_digits s = true -> delim rest -> Parse.span_digits (s +:+ rest) = (s, rest).
Proof.
  intros Hs (a & r & -> & Ha). induction s as [|c s IH]; cbn -[byte_in] in Hs |- *.
  - by destruct Ha as [-> | ->].
  - apply andb_true_iff in Hs as [Hc Hs]. by rewrite Hc, IH.
Qed.

Lemma digit_not_zero d : 1 <= d <= 9 -> Strconv.digit d <> "0"%char.
Proof.
  intros Hd Heq. apply (f_equal Strconv.digit_value) in Heq.
  rewrite digit_value_digit in Heq by lia. change (Some d = Some 0) in Heq. simplify_eq. lia.
Qed.

Lemma parse_int_part_nonzero a X :
  a <> "0"%char -> Parse.parse_int_part (String a X) = Parse.digits1 (String a X).
Proof.
  intros Ha. destruct a as [b0 b1 b2 b3 b4 b5 b6 b7].
  destruct b0, b1, b2, b3, b4, b5, b6, b7; done.
Qed.

Lemma parse_unsigned_digits d s rest :
  1 <= d <= 9 -> all_digits s = true -> delim rest ->
  Parse.parse_unsigned (String (Strconv.digit d) s +:+ rest) =
  Some (String (Strconv.digit d) s, rest).
Proof.
  intros Hd Hs Hr. unfold Parse.parse_unsigned. cbn [String.append].
  rewrite parse_int_part_nonzero by (by apply digit_not_zero). unfold Parse.digits1.
  change (String (Strconv.digit d) (s +:+ rest)) with (String (Strconv.digit d) s +:+ rest).
  rewrite span_digits_app; [|by cbn; rewrite digit_is_digit by lia |done].
  destruct Hr as (a & r & -> & [-> | ->]); cbn; rewrite decide_False by naive_solver;
    by rewrite app_nil_str.
Qed.

Lemma format_unsigned n rest :
  0 <= n < 10 ^ 19 -> delim rest ->
  Parse.parse_unsigned (Strconv.format_digits 18 n "" +:+ rest) =
  Some (Strconv.format_digits 18 n "", rest).
Proof.
  intros Hn Hr. destruct (decide (n = 0)) as [-> | Hn0].
  { destruct Hr as (a & r & -> & [-> | ->]); reflexivity. }
  destruct (format_digits_nonzero 18 n "") as (d & s & Heq & Hd); [cbn in *; lia|].
  pose proof (all_digits_format 18 n "" eq_refl) as Hall. rewrite Heq in Hall |- *.
  cbn -[byte_in] in Hall. apply andb_true_iff in Hall as [_ Hall].
  by apply parse_unsigned_digits.
Qed.

(** A digit starts a number and nothing else. *)
Lemma parse_value_digit fuel d X :
  0 <= d <= 9 ->
  Parse.parse_value (S fuel) (String (Strconv.digit d) X) =
  match Parse.parse_unsigned (String (Strconv.digit d) X) with
  | Some (n, r) => Some (JNum n, r)
  | None => None
  end.
Proof.
  intros Hd. by apply (digit_cases (fun a => Parse.parse_value (S fuel) (String a X) =
    match Parse.parse_unsigned (String a X) with
    | Some (n, r) => Some (JNum n, r) | None => None end)).
Qed.

Lemma parse_value_minus fuel X :
  Parse.parse_value (S fuel) (String "-"%char X) =
  match Parse.parse_unsigned X with
  | Some (n, r) => Some (JNum (String "-"%char n), r)
  | None => None
  end.
Proof.
  change (match Lit.prepend "-" (Parse.parse_unsigned X) with
    | Some (n, r) => Some (JNum n, r) | None => None end =
    match Parse.parse_unsigned X with
    | Some (n, r) => Some (JNum (String "-"%char n), r) | None => None end).
  by destruct (Parse.parse_unsigned X) as [[]|].
Qed.

Lemma renders_int n : in_int64 n -> renders (Strconv.FormatInt n) (JNum (Strconv.FormatInt n)).
Proof.
  intros Hn fuel rest Hr. unfold Strconv.FormatInt. destruct (Z.ltb_spec n 0).
  - cbn [String.append]. rewrite parse_value_minus, format_unsigned; [done|solve_int|done].
  - destruct (format_digits_head 18 n "") as (d & s & Heq & Hd).
    pose proof (format_unsigned n rest) as Hp. rewrite Heq in Hp |- *. cbn [String.append] in *.
    rewrite parse_value_digit, Hp; [done|solve_int|done|done].
Qed.

(** ** Lemmas: objects *)

Lemma quote_app s X :
  Lit.quote s +:+ X = String Lit.dquote (Lit.quote_body s +:+ String Lit.dquote X).
Proof. unfold Lit.quote. cbn [String.append]. by rewrite app_assoc_str. Qed.

(** The members of a parsed object: keys coerced, values as rendered. *)
Definition member_ok (m : string * string) (p : string * json) : Prop :=
  p.1 = coerce m.1 /\ renders m.2 p.2.

Lemma parse_members_step fuel k X :
  Parse.parse_members (S fuel) (Lit.quote k +:+ String ":"%char X) =
  match Parse.parse_value fuel X with
  | None => None
  | Some (v, s4) =>
      match Parse.skip_ws s4 with
      | String "}"%char r => Some ([(coerce k, v)], r)
      | String ","%char s5 =>
          match Parse.parse_members fuel (Parse.skip_ws s5) with
          | Some (l, r) => Some ((coerce k, v) :: l, r)
          | None => None
          end
      | _ => None
      end
  end.
Proof.
  rewrite quote_app.
  change (Parse.parse_members (S fuel) ?s) with
    (match s with
     | String a s1 =>
         if decide (a = Lit.dquote) then
         match Parse.parse_string s1 with
         | None => None
         | Some (k, s2) => match Parse.skip_ws s2 with
           | String ":"%char s3 => match Parse.parse_value fuel s3 with
             | None => None
             | Some (v, s4) => match Parse.skip_ws s4 with
               | String "}"%char r => Some ([(k, v)], r)
               | String ","%char s5 => match Parse.parse_members fuel (Parse.skip_ws s5) with
                 | Some (l, r) => Some ((k, v) :: l, r) | None => None end
               | _ => None end end
           | _ => None end end
         else None
     | _ => None end).
  cbn iota beta. rewrite decide_True, parse_string_quote by done. done.
Qed.

Lemma members_head m l X :
  exists Y, Encode.members (m :: l) +:+ X = String Lit.dquote Y.
Proof.
  destruct m as [n v], l; cbn [Encode.members]; rewrite app_assoc_str, quote_app; eauto.
Qed.

Lemma skip_ws_dquote Y : Parse.skip_ws (String Lit.dquote Y) = String Lit.dquote Y.
Proof. done. Qed.

Lemma delim_close rest : delim (String "}"%char rest).
Proof. eexists _, _. eauto. Qed.

Lemma delim_comma rest : delim (String ","%char rest).
Proof. eexists _, _. eauto. Qed.

#[local] Hint Resolve delim_close delim_comma : core.

Lemma members_cons2 n v m l :
  Encode.members ((n, v) :: m :: l) =
  Lit.quote n +:+ String ":"%char (v +:+ String ","%char (Encode.members (m :: l))).
Proof. done. Qed.

Lemma parse_members_members l lj fuel rest :
  Forall2 member_ok l lj -> l <> [] -> (length l < fuel)%nat ->
  Parse.parse_members fuel (Encode.members l +:+ String "}"%char rest) = Some (lj, rest).
Proof.
  intros HF. revert fuel. induction HF as [|[n v] [k j] l lj [Hk Hv] HF IH]; intros fuel Hne Hlen;
    [done|]. change (k = coerce n) in Hk. change (renders v j) in Hv. cbn [length] in Hlen. subst k.
  destruct fuel as [|[|fuel]]; [lia|lia|].
  destruct l as [|m l].
  - inversion HF; subst. cbn [Encode.members]. rewrite app_assoc_str. cbn [String.append].
    rewrite parse_members_step, Hv by auto. done.
  - rewrite members_cons2, app_assoc_str. cbn [String.append]. rewrite app_assoc_str. cbn [String.append].
    rewrite parse_members_step, Hv by auto.
    change (Parse.skip_ws (String "," ?X)) with (String "," X).
    destruct (members_head m l (String "}"%char rest)) as [Y HY].
    rewrite HY, skip_ws_dquote, <- HY, IH by (done || lia). done.
Qed.

Lemma parse_value_object l lj fuel rest :
  Forall2 member_ok l lj -> (length l < fuel)%nat ->
  Parse.parse_value (S fuel) (Encode.object l +:+ rest) = Some (JObj lj, rest).
Proof.
  intros HF Hlen. destruct l as [|m l].
  { inversion HF; subst. reflexivity. }
  pose proof (parse_members_members _ _ fuel rest HF ltac:(done) Hlen) as Hm.
  unfold Encode.object. cbn [String.append]. rewrite app_assoc_str. cbn [String.append].
  destruct (members_head m l (String "}"%char rest)) as [Y HY]. rewrite HY in Hm |- *.
  transitivity (match Parse.parse_members fuel (String Lit.dquote Y) with
    | Some (l, r) => Some (JObj l, r) | None => None end); [done|]. by rewrite Hm.
Qed.

Lemma length_members l : (length l <= String.length (Encode.members l))%nat.
Proof.
  induction l as [|[n v] l IH]; [done|]. destruct l as [|m l].
  - cbn [Encode.members length]. rewrite quote_app. cbn [String.length]. lia.
  - rewrite members_cons2, quote_app. cbn [String.length length] in *.
    rewrite length_app_str. cbn [String.length]. rewrite length_app_str. cbn [String.length]. lia.
Qed.

Lemma parse_document_object l lj :
  Forall2 member_ok l lj -> Parse.parse_document (Encode.object l) = Some (JObj lj).
Proof.
  intros HF. unfold Parse.parse_document.
  rewrite <- (app_nil_str (Encode.object l)) at 2.
  rewrite (parse_value_object l lj); [done..|].
  unfold Encode.object. cbn [String.length]. rewrite length_app_str.
  pose proof (length_members l). cbn. lia.
Qed.

Lemma parse_first_document s j : Parse.parse_document s = Some j -> Parse.parse_first s = Some j.
Proof. unfold Parse.parse_document, Parse.parse_first. repeat case_match; naive_solver. Qed.

(** ** Lemmas: structs and maps *)

Lemma store_member_hit {T : Type} (fs : list (Decode.field T)) f k j t ok t' :
  Decode.find_field fs k = Some f -> j <> JNull -> Decode.f_store f j t = Some t' ->
  Decode.store_member fs (t, ok) (k, j) = (t', ok).
Proof. intros Hf Hj Ht. unfold Decode.store_member. cbn. rewrite Hf. destruct j; by rewrite ?Ht. Qed.

Lemma member_quote_coerce n s :
  valid n = true -> member_ok (n, Lit.quote s) (n, JStr (coerce s)).
Proof. intros Hn. split; [symmetry; by apply coerce_valid|]. apply renders_quote. Qed.

Lemma member_quote n s :
  valid n = true -> valid s = true -> member_ok (n, Lit.quote s) (n, JStr s).
Proof. intros Hn Hs. rewrite <- (coerce_valid s) at 2 by done. by apply member_quote_coerce. Qed.

(** A string of ASCII bytes is UTF-8. *)
Fixpoint ascii_str (s : string) : bool :=
  match s with
  | EmptyString => true
  | String a s => is_ascii a && ascii_str s
  end.

Lemma ascii_valid s : ascii_str s = true -> valid s = true.
Proof.
  unfold valid, chunks. induction s as [|a s IH]; [done|].
  cbn [ascii_str String.length chunks_fuel uncons]. intros [Ha Hs]%andb_true_iff. rewrite Ha.
  by apply IH.
Qed.

Lemma all_digits_ascii s : all_digits s = true -> ascii_str s = true.
Proof.
  induction s as [|a s IH]; [done|]. cbn [all_digits ascii_str]. intros [Ha Hs]%andb_true_iff.
  rewrite IH by done. apply byte_in_code in Ha. unfold is_ascii.
  rewrite andb_true_r. apply byte_in_code. lia.
Qed.

Lemma FormatInt_valid n : valid (Strconv.FormatInt n) = true.
Proof.
  apply ascii_valid. unfold Strconv.FormatInt.
  destruct (n <? 0); cbn [ascii_str]; by rewrite all_digits_ascii by (by apply all_digits_format).
Qed.

(** Decode an object member by member. *)
Ltac store_members :=
  repeat (erewrite store_member_hit; [| reflexivity | done | cbn; reflexivity]).

(** Every key and value of the table is UTF-8. *)
Definition utf8_map (d : gmap string string) : Prop :=
  map_Forall (fun k v => valid k = true /\ valid v = true) d.

Lemma fold_store_entry l d :
  fold_left Decode.store_entry (prod_map id JStr <$> l) (d, true) =
  (fold_left (fun (acc : gmap string string) kv => <[kv.1 := id kv.2]> acc) l d, true).
Proof. revert d. induction l as [|[k v] l IH]; intros d; [done|]. cbn. apply IH. Qed.

Lemma map_roundtrip_object (d : gmap string string) l :
  utf8_map d -> l ≡ₚ map_to_list d ->
  Parse.parse_document (Encode.object (prod_map id Lit.quote <$> l)) =
    Some (JObj (prod_map id JStr <$> l)) /\
  Decode.into_map (JObj (prod_map id JStr <$> l)) = Some (Some d).
Proof.
  intros Hd Hl. split.
  - apply parse_document_object. apply Forall2_fmap, Forall_Forall2_diag, Forall_forall.
    intros [k v] Hkv. rewrite Hl, elem_of_map_to_list in Hkv. destruct (Hd _ _ Hkv) as [Hk Hv].
    by apply member_quote.
  - unfold Decode.into_map, Decode.finish. rewrite fold_store_entry. cbn [fst snd].
    rewrite (fold_insert_range id l (Some d) Hl). by rewrite map_fmap_id.
Qed.

(** Marshalling a map of UTF-8 strings and decoding it gives the map back; a
    nil map comes back as a nil map. *)
Lemma marshal_map_roundtrip (m : gomap string) :
  utf8_map (gm_tab m) ->
  exists j, Parse.parse_document (Encode.marshal_map m) = Some j /\ Decode.into_map j = Some m.
Proof.
  intros Hm. destruct m as [d|]; cbn in Hm.
  - eexists. apply map_roundtrip_object; [done|]. apply merge_sort_Permutation.
  - exists JNull. done.
Qed.
