(* ===== verification/JsonTree.v ===== *)
(** * Rendering JSON trees

    [json.Marshal] of nested values: objects from structs in field order and
    from maps in key order, arrays, strings and booleans.  What is rendered
    parses back to the same tree, its strings as UTF-8. *)

From Stdlib Require Import Ascii.
From S2P Require Import Prelude GoStd Json.

Module JsonTree.

(** Elements between commas. *)
Fixpoint elems (l : list string) : string :=
  match l with
  | [] => EmptyString
  | [x] => x
  | x :: l => x +:+ String ","%char (elems l)
  end.

Fixpoint render (j : json) : string :=
  match j with
  | JNull => "null"
  | JBool b => Strconv.FormatBool b
  | JNum lit => lit
  | JStr s => Lit.quote s
  | JArr l => String "["%char (elems (map render l) +:+ "]")
  | JObj l => Encode.object (map (fun m => (m.1, render m.2)) l)
  end.

(** The tree a reader gets: every string coerced to UTF-8. *)
Fixpoint coerced (j : json) : json :=
  match j with
  | JStr s => JStr (Utf8.coerce s)
  | JArr l => JArr (map coerced l)
  | JObj l => JObj (map (fun m => (Utf8.coerce m.1, coerced m.2)) l)
  | j => j
  end.

(** Trees without numbers: none of the status pages has one. *)
Fixpoint numberless (j : json) : bool :=
  match j with
  | JNum _ => false
  | JArr l => forallb numberless l
  | JObj l => forallb (fun m => numberless m.2) l
  | _ => true
  end.

(** Turns the parser takes. *)
Fixpoint cost (j : json) : nat :=
  match j with
  | JArr l => S (sum_list_with (fun j => S (cost j)) l)
  | JObj l => S (sum_list_with (fun m => S (cost m.2)) l)
  | _ => 1
  end.

(** The items of a map in the order [json.Marshal] writes them. *)
Definition item_le {A : Type} (x y : string * A) : Prop := String.le x.1 y.1.

#[global] Instance item_le_dec {A : Type} : RelDecision (@item_le A).
Proof. intros x y. unfold item_le. apply _. Defined.

Definition items {A : Type} (m : gmap string A) : list (string * A) := merge_sort item_le (map_to_list m).

(** A member of an object. *)
Definition field (k : string) (j : json) : option json :=
  match j with
  | JObj l => (list_to_map l : gmap string json) !! k
  | _ => None
  end.

Definition text (j : json) : option string :=
  match j with
  | JStr s => Some s
  | _ => None
  end.

(** ** Lemmas: induction *)

Section Induction.

Context (P : json -> Prop).
Context (Hnull : P JNull) (Hbool : forall b, P (JBool b)) (Hnum : forall n, P (JNum n)) (Hstr : forall s, P (JStr s)).
Context (Harr : forall l, Forall P l -> P (JArr l)) (Hobj : forall l, Forall (fun m => P m.2) l -> P (JObj l)).

Fixpoint json_nested (j : json) : P j :=
  match j with
  | JNull => Hnull
  | JBool b => Hbool b
  | JNum n => Hnum n
  | JStr s => Hstr s
  | JArr l => Harr l ((fix go l : Forall P l :=
      match l with
      | [] => @Forall_nil_2 json P
      | x :: l => @Forall_cons_2 json P x l (json_nested x) (go l)
      end) l)
  | JObj l => Hobj l ((fix go l : Forall (fun m => P m.2) l :=
      match l with
      | [] => @Forall_nil_2 _ (fun m => P m.2)
      | x :: l => @Forall_cons_2 _ (fun m => P m.2) x l (json_nested x.2) (go l)
      end) l)
  end.

End Induction.

(** ** Lemmas: rendered text parses *)

Definition parses (j : json) : Prop :=
  forall fuel rest, (cost j <= fuel)%nat -> Parse.parse_value fuel (render j +:+ rest) = Some (coerced j, rest).

Lemma render_head j : numberless j = true ->
  exists a s, render j = String a s /\ Parse.is_ws a = false /\ a <> "]"%char.
Proof.
  intros Hj. destruct j as [|[]| |s|l|l]; [| | |done|..]; eexists _, _; (split; [reflexivity|done]).
Qed.

Lemma skip_ws_head a s : Parse.is_ws a = false -> Parse.skip_ws (String a s) = String a s.
Proof. intros Ha. cbn. by rewrite Ha. Qed.

Lemma elems_cons2 x y l : elems (x :: y :: l) = x +:+ String ","%char (elems (y :: l)).
Proof. done. Qed.

Lemma parse_elems_step fuel s :
  Parse.parse_elems (S fuel) s =
  match Parse.parse_value fuel s with
  | None => None
  | Some (v, s1) =>
      match Parse.skip_ws s1 with
      | String "]"%char r => Some ([v], r)
      | String ","%char s2 =>
          match Parse.parse_elems fuel s2 with
          | Some (l, r) => Some (v :: l, r)
          | None => None
          end
      | _ => None
      end
  end.
Proof. done. Qed.

Lemma parse_elems_render l : Forall parses l -> l <> [] -> forall fuel rest,
  (sum_list_with (fun j => S (cost j)) l <= fuel)%nat ->
  Parse.parse_elems fuel (elems (map render l) +:+ String "]"%char rest) = Some (map coerced l, rest).
Proof.
  induction 1 as [|x l Hx Hl IH]; [done|]. intros _ fuel rest Hf. cbn [map sum_list_with] in Hf.
  destruct fuel as [|fuel]; [lia|]. rewrite parse_elems_step. destruct l as [|y l].
  - cbn [map elems]. rewrite Hx by (cbn in Hf; lia). done.
  - cbn [map] in *. rewrite elems_cons2, app_assoc_str. cbn [String.append]. rewrite Hx by lia.
    change (Parse.skip_ws (String "," ?X)) with (String "," X). cbn iota.
    rewrite IH by (done || (cbn [map sum_list_with] in *; lia)). done.
Qed.

Lemma parse_members_render l : Forall (fun m => parses m.2) l -> l <> [] -> forall fuel rest,
  (sum_list_with (fun m => S (cost m.2)) l <= fuel)%nat ->
  Parse.parse_members fuel (Encode.members (map (fun m => (m.1, render m.2)) l) +:+ String "}"%char rest) =
  Some (map (fun m => (Utf8.coerce m.1, coerced m.2)) l, rest).
Proof.
  induction 1 as [|[k x] l Hx Hl IH]; [done|]. intros _ fuel rest Hf. cbn [map sum_list_with fst snd] in *.
  destruct fuel as [|fuel]; [lia|]. destruct l as [|[k2 y] l].
  - cbn [map Encode.members]. rewrite app_assoc_str. cbn [String.append].
    rewrite parse_members_step, Hx by (cbn in Hf; lia). done.
  - cbn [map fst snd] in *. rewrite members_cons2, app_assoc_str. cbn [String.append]. rewrite app_assoc_str. cbn [String.append].
    rewrite parse_members_step, Hx by lia. change (Parse.skip_ws (String "," ?X)) with (String "," X). cbn iota.
    destruct (members_head (k2, render y) (map (fun m => (m.1, render m.2)) l) (String "}"%char rest)) as [Y HY].
    rewrite HY, skip_ws_dquote, <- HY, IH by (done || (cbn [map sum_list_with fst snd] in *; lia)). done.
Qed.

Lemma parse_render j : numberless j = true -> parses j.
Proof.
  induction j as [|b|n|s|l IH|l IH] using json_nested; intros Hj fuel rest Hf;
    (destruct fuel as [|fuel]; [cbn in Hf; lia|]).
  - done.
  - by destruct b.
  - done.
  - cbn [render coerced]. rewrite quote_app, parse_value_dquote, parse_string_quote. done.
  - assert (Hl : Forall parses l).
    { apply Forall_forall. intros x Hx. rewrite Forall_forall in IH. apply IH; [done|].
      cbn in Hj. rewrite forallb_forall in Hj. by apply Hj, list_elem_of_In. }
    destruct l as [|x l]; [done|]. cbn [render]. cbn [String.append]. rewrite app_assoc_str. cbn [String.append].
    pose proof (parse_elems_render (x :: l) Hl ltac:(done) fuel rest ltac:(cbn [cost] in Hf; lia)) as Hp.
    destruct (render_head x) as (a & s & Ha & Hws & Hne); [cbn in Hj; by apply andb_true_iff in Hj as [? _]|].
    assert (Hhead : exists s', elems (map render (x :: l)) +:+ String "]"%char rest = String a s').
    { destruct l as [|y l]; cbn [map]; [|rewrite elems_cons2]; cbn [elems]; rewrite Ha; cbn [String.append]; eauto. }
    destruct Hhead as [s' Hs']. rewrite Hs' in Hp |- *.
    transitivity (match Parse.parse_elems fuel (String a s') with Some (l, r) => Some (JArr l, r) | None => None end);
      [|by rewrite Hp].
    cbn [Parse.parse_value]. rewrite (skip_ws_head "["%char) by done. rewrite decide_False, decide_False, decide_True by done.
    rewrite skip_ws_head by done. by destruct a as [[] [] [] [] [] [] [] []].
  - assert (Hl : Forall (fun m => parses m.2) l).
    { apply Forall_forall. intros x Hx. rewrite Forall_forall in IH. apply IH; [done|].
      cbn in Hj. rewrite forallb_forall in Hj. by apply Hj, list_elem_of_In. }
    destruct l as [|x l]; [done|]. cbn [render]. unfold Encode.object. cbn [String.append]. rewrite app_assoc_str. cbn [String.append].
    pose proof (parse_members_render (x :: l) Hl ltac:(done) fuel rest ltac:(cbn [cost] in Hf; lia)) as Hp.
    destruct (members_head (x.1, render x.2) (map (fun m => (m.1, render m.2)) l) (String "}"%char rest)) as [Y HY].
    cbn [map] in *. rewrite HY in Hp |- *.
    transitivity (match Parse.parse_members fuel (String Lit.dquote Y) with Some (l, r) => Some (JObj l, r) | None => None end);
      [done|by rewrite Hp].
Qed.

(** The text is at least as long as the parser's turns. *)
Lemma length_elems l :
  Forall (fun j => (cost j <= String.length (render j))%nat) l ->
  (sum_list_with (fun j => S (cost j)) l <= S (String.length (elems (map render l))))%nat.
Proof.
  induction 1 as [|x l Hx Hl IH]; [cbn; lia|]. destruct l as [|y l]; [cbn in *; lia|].
  cbn [map]. rewrite elems_cons2, length_app_str. cbn [map sum_list_with String.length] in *. lia.
Qed.

Lemma length_pairs l :
  Forall (fun m => (cost m.2 <= String.length (render m.2))%nat) l ->
  (sum_list_with (fun m => S (cost m.2)) l <= S (String.length (Encode.members (map (fun m => (m.1, render m.2)) l))))%nat.
Proof.
  induction 1 as [|[k x] l Hx Hl IH]; [cbn; lia|]. destruct l as [|[k2 y] l]; cbn [map fst snd] in *.
  - cbn [Encode.members sum_list_with snd]. rewrite length_app_str. cbn [String.length]. lia.
  - rewrite members_cons2, !length_app_str. cbn [String.length]. rewrite length_app_str. cbn [sum_list_with String.length snd] in *. lia.
Qed.

Lemma cost_length j : numberless j = true -> (cost j <= String.length (render j))%nat.
Proof.
  induction j as [|b|n|s|l IH|l IH] using json_nested; intros Hj; [cbn; lia|destruct b; cbn; lia|done| | |].
  - cbn [render cost]. unfold Lit.quote. cbn [String.length]. lia.
  - cbn in Hj. rewrite forallb_forall in Hj. cbn [render cost String.length]. rewrite length_app_str.
    assert (H := length_elems l). cbn [String.length]. ospecialize (H _); [|lia].
    eapply Forall_impl; [apply Forall_and; split; [exact IH|apply Forall_forall; intros x Hx; apply Hj, list_elem_of_In, Hx]|].
    cbn. naive_solver.
  - cbn in Hj. rewrite forallb_forall in Hj. cbn [render cost]. unfold Encode.object. cbn [String.length]. rewrite length_app_str.
    assert (H := length_pairs l). cbn [String.length]. ospecialize (H _); [|lia].
    eapply Forall_impl; [apply Forall_and; split; [exact IH|apply Forall_forall; intros x Hx; apply Hj, list_elem_of_In, Hx]|].
    cbn. naive_solver.
Qed.

(** A rendered tree is a document that reads as the tree. *)
Lemma parse_document_render j : numberless j = true -> Parse.parse_document (render j) = Some (coerced j).
Proof.
  intros Hj. unfold Parse.parse_document. rewrite <- (app_nil_str (render j)) at 2.
  rewrite (parse_render j Hj); [done|]. pose proof (cost_length j Hj). lia.
Qed.

(** ** Lemmas: objects from maps *)

Lemma items_perm {A : Type} (m : gmap string A) : items m ≡ₚ map_to_list m.
Proof. apply merge_sort_Permutation. Qed.

(** A map written with UTF-8 keys has the members of the map. *)
Lemma field_items {A : Type} (f : A -> json) (m : gmap string A) k :
  map_Forall (fun key _ => Utf8.valid key = true) m ->
  field k (coerced (JObj (map (fun kv => (kv.1, f kv.2)) (items m)))) = (fun v => coerced (f v)) <$> m !! k.
Proof.
  intros Hm. cbn [coerced field]. rewrite map_map.
  assert (Hmap : map (fun x => (Utf8.coerce (x.1, f x.2).1, coerced (x.1, f x.2).2)) (items m) =
    prod_map id (fun v => coerced (f v)) <$> items m).
  { apply list_fmap_ext. intros i [key v] Hi. cbn. f_equal. apply coerce_valid.
    apply list_elem_of_lookup_2 in Hi. rewrite items_perm in Hi. by apply elem_of_map_to_list, Hm in Hi. }
  rewrite Hmap. rewrite list_to_map_fmap.
  rewrite <- (list_to_map_to_list m) at 2. rewrite lookup_fmap. f_equal. f_equal.
  apply list_to_map_proper; [|apply items_perm].
  rewrite items_perm. apply NoDup_fst_map_to_list.
Qed.

Lemma field_cons k k' v l : field k (JObj ((k', v) :: l)) = if decide (k = k') then Some v else field k (JObj l).
Proof.
  cbn [field list_to_map foldr fst snd]. case_decide as Hk; [subst; by rewrite lookup_insert_eq|by rewrite lookup_insert_ne].
Qed.

Lemma numberless_map {A : Type} (f : A -> json) (l : list (string * A)) :
  (forall v, numberless (f v) = true) -> numberless (JObj (map (fun kv => (kv.1, f kv.2)) l)) = true.
Proof. intros Hf. cbn [numberless]. apply forallb_forall. intros x (kv & <- & _)%in_map_iff. apply Hf. Qed.

(** Look a literal name up in a literal object. *)
Ltac find_field := repeat (rewrite field_cons; first [rewrite decide_True by reflexivity | rewrite decide_False by discriminate]).

End JsonTree.
