(* ===== verification/Url.v ===== *)
(** * URLs: what the service uses of net/url, net/http and path

    Escaping, the parsing of a query ([ParseQuery], [Values.Get]), the
    request target of an incoming request, the URL of an outgoing one, and
    [path.Clean] on rooted paths.  Strings are byte strings. *)

From Stdlib Require Import Ascii.
From S2P Require Import Prelude GoStd Json.

Module Url.

(** ** Escaping *)

Inductive encoding : Type := encodePath | encodeQueryComponent.

#[global] Instance encoding_eq_dec : EqDecision encoding.
Proof. solve_decision. Defined.

(** [unescape]; [None] is an [EscapeError]. *)
Fixpoint unescape (mode : encoding) (s : string) : option string :=
  match s with
  | EmptyString => Some EmptyString
  | String c s1 =>
      if decide (c = "%"%char) then
        match s1 with
        | String a (String b s2) =>
            match Lit.hex_value a, Lit.hex_value b with
            | Some x, Some y => String (Utf8.byte (16 * x + y)) <$> unescape mode s2
            | _, _ => None
            end
        | _ => None
        end
      else if decide (mode = encodeQueryComponent /\ c = "+"%char) then String " "%char <$> unescape mode s1
      else String c <$> unescape mode s1
  end.

(** [shouldEscape] is false for letters, digits and these marks. *)
Definition unreserved (c : ascii) : bool :=
  Utf8.byte_in 97 122 c || Utf8.byte_in 65 90 c || Utf8.byte_in 48 57 c
  || bool_decide (c ∈ ["-"; "_"; "."; "~"]%char).

Definition upper_hex (n : N) : ascii :=
  if (n <? 10)%N then Utf8.byte (48 + n) else Utf8.byte (55 + n).

Definition hex_byte (c : ascii) : string :=
  String "%"%char (String (upper_hex (Utf8.code c / 16)) (String (upper_hex (Utf8.code c mod 16)) EmptyString)).

(** What a client writes for one byte of a query component. *)
Definition escape_byte (c : ascii) : string :=
  if unreserved c then String c EmptyString
  else if decide (c = " "%char) then "+"
  else hex_byte c.

(** [url.QueryEscape]. *)
Fixpoint QueryEscape (s : string) : string :=
  match s with
  | EmptyString => EmptyString
  | String c s => escape_byte c +:+ QueryEscape s
  end.

(** An element of a path with every byte escaped but the unreserved ones. *)
Fixpoint PathEscape (s : string) : string :=
  match s with
  | EmptyString => EmptyString
  | String c s => (if unreserved c then String c EmptyString else hex_byte c) +:+ PathEscape s
  end.

(** ** Queries *)

(** Cut at the first [sep]: what precedes it, what follows it. *)
Fixpoint cut (sep : ascii) (s : string) : string * option string :=
  match s with
  | EmptyString => (EmptyString, None)
  | String c s =>
      if decide (c = sep) then (EmptyString, Some s)
      else let '(a, b) := cut sep s in (String c a, b)
  end.

Fixpoint has_byte (p : ascii -> bool) (s : string) : bool :=
  match s with
  | EmptyString => false
  | String c s => p c || has_byte p s
  end.

Definition is_semicolon (c : ascii) : bool := bool_decide (c = ";"%char).

(** One turn of the loop of [ParseQuery]: a pair, or nothing when the text is
    empty or wrongly escaped. *)
Definition parse_pair (p : string) : option (string * string) :=
  if decide (p = "") then None else
  let '(key, value) := cut "="%char p in
  match unescape encodeQueryComponent key, unescape encodeQueryComponent (default "" value) with
  | Some key, Some value => Some (key, value)
  | _, _ => None
  end.

(** A query as a client writes it. *)
Definition encode_pair (p : string * string) : string :=
  QueryEscape p.1 +:+ String "="%char (QueryEscape p.2).

Fixpoint encode_query (l : list (string * string)) : string :=
  match l with
  | [] => ""
  | [p] => encode_pair p
  | p :: l => encode_pair p +:+ String "&"%char (encode_query l)
  end.

Definition read_pair (semi : bool) (p : string) : option (string * string) :=
  if negb semi && has_byte is_semicolon p then None else parse_pair p.

(** [ParseQuery] as [URL.Query] uses it: the errors are dropped.  A semicolon
    separates pairs before Go 1.17 ([semi]); since then a pair that has one is
    dropped. *)
Definition ParseQuery (semi : bool) (query : string) : list (string * string) :=
  omap (read_pair semi)
    (if semi then s ← Strings.Split "&"%char query; Strings.Split ";"%char s
     else Strings.Split "&"%char query).

(** [Values.Get]: the first value of the key, or the empty string. *)
Fixpoint Get (values : list (string * string)) (key : string) : string :=
  match values with
  | [] => ""
  | (k, v) :: values => if decide (k = key) then v else Get values key
  end.

(** ** Requests *)

(** Bytes that end the request line or make [url.Parse] fail. *)
Definition is_ctl (c : ascii) : bool := Utf8.byte_in 0 32 c || bool_decide (c = "127"%char).

(** The path, unescaped, and the raw query of a request target; [None] is
    answered with Bad Request. *)
Definition parse_target (target : string) : option (string * string) :=
  if has_byte is_ctl target then None else
  let '(p, q) := cut "?"%char target in
  match p with
  | String "/" _ => path ← unescape encodePath p; Some (path, default "" q)
  | _ => None
  end.

(** The host and the request target of an http URL, as [http.Get] sends them:
    the fragment stays with the client.  The authority is kept as written; an
    authority with escapes, user information or brackets is outside the
    model, and whether the host can be dialled is the network's. *)
Definition plain_authority (c : ascii) : bool :=
  unreserved c || bool_decide (c = ":"%char).

Fixpoint all_bytes (p : ascii -> bool) (s : string) : bool :=
  match s with
  | EmptyString => true
  | String c s => p c && all_bytes p s
  end.

(** The authority ends at the first slash or question mark. *)
Fixpoint split_authority (s : string) : string * string :=
  match s with
  | EmptyString => (EmptyString, EmptyString)
  | String c s1 =>
      if decide (c = "/"%char \/ c = "?"%char) then (EmptyString, s)
      else let '(a, b) := split_authority s1 in (String c a, b)
  end.

Definition parse_http (url : string) : option (string * string) :=
  if has_byte is_ctl url then None else
  rest ← Parse.strip_prefix "http://" (cut "#"%char url).1;
  let '(host, target) := split_authority rest in
  if all_bytes plain_authority host && negb (bool_decide (host = "")) then
    Some (host, match target with String "/" _ => target | _ => String "/" target end)
  else None.

(** ** path.Clean on a rooted path

    Empty elements and dots go, a double dot removes the element before it. *)
Fixpoint clean (elems stack : list string) : list string :=
  match elems with
  | [] => rev stack
  | e :: elems =>
      if decide (e = "" \/ e = ".") then clean elems stack
      else if decide (e = "..") then clean elems (tail stack)
      else clean elems (e :: stack)
  end.

Fixpoint join_slash (l : list string) : string :=
  match l with
  | [] => ""
  | [e] => e
  | e :: l => e +:+ String "/"%char (join_slash l)
  end.

Definition Clean (p : string) : string :=
  String "/"%char (join_slash (clean (Strings.Split "/"%char p) [])).

(** ** Lemmas: escaping *)

Lemma upper_hex_value (n : N) : (n < 16)%N -> Lit.hex_value (upper_hex n) = Some n.
Proof.
  intros Hn. unfold upper_hex, Lit.hex_value, Utf8.byte_in, Utf8.byte, Utf8.code.
  destruct (N.ltb_spec n 10); rewrite N_ascii_embedding by lia;
    repeat case_match; rewrite ?andb_true_iff, ?andb_false_iff, ?N.leb_le, ?N.leb_gt in *; f_equal; lia.
Qed.

Lemma byte_code c : Utf8.byte (Utf8.code c) = c.
Proof. apply ascii_N_embedding. Qed.

Lemma code_lt c : (Utf8.code c < 256)%N.
Proof. apply N_ascii_bounded. Qed.

Lemma code_hex c : (Utf8.code c / 16 < 16)%N /\ (Utf8.code c mod 16 < 16)%N.
Proof. pose proof (code_lt c). split; [apply N.Div0.div_lt_upper_bound; lia|apply N.mod_lt; lia]. Qed.

Lemma unescape_hex mode c s : unescape mode (hex_byte c +:+ s) = String c <$> unescape mode s.
Proof.
  destruct (code_hex c). cbn [hex_byte String.append unescape]. rewrite decide_True, !upper_hex_value by done.
  by rewrite <- N.div_mod', byte_code.
Qed.

Lemma unescape_plain mode c s :
  c <> "%"%char -> c <> "+"%char -> unescape mode (String c s) = String c <$> unescape mode s.
Proof. intros H1 H2. cbn [unescape]. by rewrite decide_False, decide_False by naive_solver. Qed.

Lemma unescape_byte c s :
  unescape encodeQueryComponent (escape_byte c +:+ s) = String c <$> unescape encodeQueryComponent s.
Proof.
  unfold escape_byte. destruct (unreserved c) eqn:Hc; [by apply unescape_plain; intros ->|].
  case_decide as Hsp; [by subst c|]. apply unescape_hex.
Qed.

Lemma unescape_PathEscape s : unescape encodePath (PathEscape s) = Some s.
Proof.
  induction s as [|c s IH]; [done|]. cbn [PathEscape]. destruct (unreserved c) eqn:Hc.
  - cbn [String.append]. rewrite unescape_plain by (by intros ->). by rewrite IH.
  - by rewrite unescape_hex, IH.
Qed.

Lemma unescape_QueryEscape s : unescape encodeQueryComponent (QueryEscape s) = Some s.
Proof. induction s as [|c s IH]; [done|]. cbn [QueryEscape]. by rewrite unescape_byte, IH. Qed.

(** Bytes an escaped component is made of. *)
Definition escaped_byte (c : ascii) : bool := unreserved c || bool_decide (c ∈ ["%"; "+"]%char).

Lemma upper_hex_unreserved (n : N) : (n < 16)%N -> unreserved (upper_hex n) = true.
Proof.
  intros Hn. unfold upper_hex, unreserved, Utf8.byte_in, Utf8.byte, Utf8.code.
  destruct (N.ltb_spec n 10); rewrite N_ascii_embedding by lia; rewrite !orb_true_iff, !andb_true_iff, !N.leb_le; lia.
Qed.

Lemma all_bytes_app p s t : all_bytes p (s +:+ t) = all_bytes p s && all_bytes p t.
Proof. induction s as [|c s IH]; [done|]. cbn. by rewrite IH, andb_assoc. Qed.

Lemma all_bytes_impl (p q : ascii -> bool) s :
  (forall c, p c = true -> q c = true) -> all_bytes p s = true -> all_bytes q s = true.
Proof.
  intros Hpq. induction s as [|c s IH]; [done|]. cbn. rewrite !andb_true_iff. intros [Hc Hs]. eauto.
Qed.

Lemma has_byte_all p s : has_byte p s = negb (all_bytes (fun c => negb (p c)) s).
Proof. induction s as [|c s IH]; [done|]. cbn. rewrite IH. by destruct (p c). Qed.

Lemma has_byte_app p s t : has_byte p (s +:+ t) = has_byte p s || has_byte p t.
Proof. induction s as [|c s IH]; [done|]. cbn. by rewrite IH, orb_assoc. Qed.

Lemma hex_byte_bytes c : all_bytes escaped_byte (hex_byte c) = true.
Proof.
  destruct (code_hex c). unfold hex_byte, escaped_byte. cbn [all_bytes]. by rewrite !upper_hex_unreserved.
Qed.

Lemma escape_byte_bytes c : all_bytes escaped_byte (escape_byte c) = true.
Proof.
  unfold escape_byte. destruct (unreserved c) eqn:Hc; [cbn; unfold escaped_byte; by rewrite Hc|].
  case_decide; [done|]. apply hex_byte_bytes.
Qed.

Lemma PathEscape_bytes s : all_bytes escaped_byte (PathEscape s) = true.
Proof.
  induction s as [|c s IH]; [done|]. cbn [PathEscape]. rewrite all_bytes_app, IH, andb_true_r.
  destruct (unreserved c) eqn:Hc; [|apply hex_byte_bytes]. cbn. unfold escaped_byte. by rewrite Hc.
Qed.

Lemma QueryEscape_bytes s : all_bytes escaped_byte (QueryEscape s) = true.
Proof. induction s as [|c s IH]; [done|]. cbn [QueryEscape]. by rewrite all_bytes_app, escape_byte_bytes, IH. Qed.

(** A text without the separator is one piece. *)
Definition not_byte (sep c : ascii) : bool := negb (bool_decide (c = sep)).

Lemma Split_one sep s : all_bytes (not_byte sep) s = true -> Strings.Split sep s = [s].
Proof.
  induction s as [|c s IH]; [done|]. cbn [all_bytes Strings.Split]. unfold not_byte at 1.
  intros [Hc%negb_true_iff%bool_decide_eq_false Hs]%andb_true_iff.
  by rewrite decide_False, IH by done.
Qed.

Lemma Split_app sep s t :
  all_bytes (not_byte sep) s = true -> Strings.Split sep (s +:+ String sep t) = s :: Strings.Split sep t.
Proof.
  induction s as [|c s IH]; cbn [all_bytes Strings.Split String.append].
  - intros _. by rewrite decide_True.
  - unfold not_byte at 1. intros [Hc%negb_true_iff%bool_decide_eq_false Hs]%andb_true_iff.
    by rewrite decide_False, IH by done.
Qed.

Lemma cut_app sep s t : all_bytes (not_byte sep) s = true -> cut sep (s +:+ String sep t) = (s, Some t).
Proof.
  induction s as [|c s IH]; cbn [all_bytes cut String.append].
  - intros _. by rewrite decide_True.
  - unfold not_byte at 1. intros [Hc%negb_true_iff%bool_decide_eq_false Hs]%andb_true_iff.
    by rewrite decide_False, IH by done.
Qed.

Lemma cut_none sep s : all_bytes (not_byte sep) s = true -> cut sep s = (s, None).
Proof.
  induction s as [|c s IH]; [done|]. cbn [all_bytes cut]. unfold not_byte at 1.
  intros [Hc%negb_true_iff%bool_decide_eq_false Hs]%andb_true_iff. by rewrite decide_False, IH by done.
Qed.

(** ** Lemmas: queries *)

Lemma escaped_not sep s :
  escaped_byte sep = false -> all_bytes (not_byte sep) (QueryEscape s) = true.
Proof.
  intros Hsep. eapply all_bytes_impl; [|apply QueryEscape_bytes].
  intros c Hc. unfold not_byte. case_bool_decide; [|done]. congruence.
Qed.

Lemma parse_encode_pair p : parse_pair (encode_pair p) = Some p.
Proof.
  destruct p as [k v]. unfold parse_pair, encode_pair. cbn [fst snd]. rewrite decide_False.
  - rewrite cut_app by (by apply escaped_not). unfold default, from_option, id. by rewrite !unescape_QueryEscape.
  - by destruct (QueryEscape k).
Qed.

Lemma encode_pair_not sep p :
  escaped_byte sep = false -> sep <> "="%char -> all_bytes (not_byte sep) (encode_pair p) = true.
Proof.
  intros Hsep Heq. unfold encode_pair. rewrite all_bytes_app. cbn [all_bytes].
  rewrite !escaped_not by done. unfold not_byte. by rewrite bool_decide_false.
Qed.

Lemma Split_encode_query l : l <> [] -> Strings.Split "&"%char (encode_query l) = encode_pair <$> l.
Proof.
  induction l as [|p l IH]; [done|]. intros _. destruct l as [|p2 l].
  - cbn. by apply Split_one, encode_pair_not.
  - change (encode_query (p :: p2 :: l)) with (encode_pair p +:+ String "&"%char (encode_query (p2 :: l))).
    rewrite Split_app by (by apply encode_pair_not). by rewrite IH.
Qed.

Lemma pieces_semi l : (s ← encode_pair <$> l; Strings.Split ";"%char s) = encode_pair <$> l.
Proof.
  induction l as [|p l IH]; [done|]. cbn [fmap list_fmap]. rewrite bind_cons, IH.
  by rewrite Split_one by (by apply encode_pair_not).
Qed.

(** What a client encodes is what the server reads, before and after Go 1.17. *)
Lemma ParseQuery_encode semi l : ParseQuery semi (encode_query l) = l.
Proof.
  destruct l as [|p l]; [by destruct semi|]. unfold ParseQuery. rewrite Split_encode_query by done.
  assert (Hall : forall l0 : list (string * string), omap (read_pair semi) (encode_pair <$> l0) = l0).
  { induction l0 as [|q l0 IH]; [done|]. cbn [fmap list_fmap omap list_omap]. unfold read_pair at 1.
    assert (Hno : has_byte is_semicolon (encode_pair q) = false).
    { rewrite has_byte_all. apply negb_false_iff. by apply (encode_pair_not ";"%char). }
    rewrite Hno, andb_false_r, parse_encode_pair. by f_equal. }
  destruct semi; [rewrite pieces_semi|]; apply Hall.
Qed.

(** ** Lemmas: request targets *)

(** Bytes of an encoded query. *)
Definition query_byte (c : ascii) : bool := escaped_byte c || bool_decide (c ∈ ["="; "&"]%char).

Lemma encode_pair_bytes p : all_bytes query_byte (encode_pair p) = true.
Proof.
  assert (Hq : forall s, all_bytes query_byte (QueryEscape s) = true).
  { intros s. eapply all_bytes_impl; [|apply QueryEscape_bytes]. intros c Hc. unfold query_byte. by rewrite Hc. }
  unfold encode_pair. rewrite all_bytes_app. cbn [all_bytes]. by rewrite !Hq.
Qed.

Lemma encode_query_bytes l : all_bytes query_byte (encode_query l) = true.
Proof.
  induction l as [|p l IH]; [done|]. destruct l as [|p2 l]; [apply encode_pair_bytes|].
  change (encode_query (p :: p2 :: l)) with (encode_pair p +:+ String "&"%char (encode_query (p2 :: l))).
  rewrite all_bytes_app, encode_pair_bytes. cbn [all_bytes]. by rewrite IH.
Qed.

Lemma query_not_ctl c : query_byte c = true -> is_ctl c = false.
Proof. by destruct c as [[] [] [] [] [] [] [] []]. Qed.

Lemma no_ctl p s : (forall c, p c = true -> is_ctl c = false) -> all_bytes p s = true -> has_byte is_ctl s = false.
Proof.
  intros Hp Hs. rewrite has_byte_all. apply negb_false_iff. eapply all_bytes_impl; [|exact Hs].
  intros c Hc. by rewrite (Hp c Hc).
Qed.

Lemma encode_query_no_ctl l : has_byte is_ctl (encode_query l) = false.
Proof. apply (no_ctl query_byte); [apply query_not_ctl|apply encode_query_bytes]. Qed.

Lemma unescape_app_plain s t :
  all_bytes unreserved s = true -> unescape encodePath (s +:+ t) = String.append s <$> unescape encodePath t.
Proof.
  induction s as [|c s IH]; intros Hs; [cbn [String.append]; by destruct (unescape encodePath t)|].
  cbn [all_bytes] in Hs. apply andb_true_iff in Hs as [Hc Hs]. cbn [String.append].
  rewrite unescape_plain by (by intros ->). rewrite IH by done. by destruct (unescape encodePath t).
Qed.

Lemma unreserved_query c : unreserved c = true -> query_byte c = true.
Proof. intros Hc. unfold query_byte, escaped_byte. by rewrite Hc. Qed.

(** A page with a query. *)
Lemma parse_target_query a q :
  all_bytes unreserved a = true -> has_byte is_ctl q = false ->
  parse_target (String "/" a +:+ String "?" q) = Some (String "/" a, q).
Proof.
  intros Ha Hq. unfold parse_target.
  assert (Ha' : all_bytes query_byte a = true) by (eapply all_bytes_impl; [apply unreserved_query|done]).
  assert (Hctl : has_byte is_ctl (String "/" a +:+ String "?" q) = false).
  { rewrite has_byte_app. cbn [has_byte]. by rewrite Hq, (no_ctl query_byte) by (done || apply query_not_ctl). }
  rewrite Hctl, cut_app.
  - change (unescape encodePath (String "/" a)) with (String "/" <$> unescape encodePath a).
    assert (Hun : unescape encodePath a = Some a).
    { rewrite <- (app_nil_str a) at 1. rewrite unescape_app_plain by done. cbn. by rewrite app_nil_str. }
    by rewrite Hun.
  - cbn [all_bytes]. eapply all_bytes_impl; [|exact Ha]. intros c Hc. unfold not_byte. case_bool_decide; [by subst c|done].
Qed.

Definition path_byte (c : ascii) : bool := query_byte c || bool_decide (c = "/"%char).

(** The page of a key. *)
Lemma parse_target_key a k :
  all_bytes unreserved a = true ->
  parse_target (String "/" (a +:+ String "/" (PathEscape k))) = Some (String "/" (a +:+ String "/" k), "").
Proof.
  intros Ha. unfold parse_target.
  assert (Hb : all_bytes path_byte (String "/" (a +:+ String "/" (PathEscape k))) = true).
  { cbn [all_bytes]. rewrite all_bytes_app. cbn [all_bytes].
    rewrite (all_bytes_impl unreserved _ a) by (try done; intros c Hc; unfold path_byte; by rewrite unreserved_query).
    rewrite (all_bytes_impl escaped_byte _ (PathEscape k)); [done| |apply PathEscape_bytes].
    intros c Hc. unfold path_byte, query_byte. by rewrite Hc. }
  rewrite (no_ctl path_byte), cut_none; [| |by intros [[] [] [] [] [] [] [] []]|exact Hb].
  - change (unescape encodePath (String "/" ?t)) with (String "/" <$> unescape encodePath t).
    rewrite unescape_app_plain by done. change (unescape encodePath (String "/" ?t)) with (String "/" <$> unescape encodePath t).
    by rewrite unescape_PathEscape.
  - eapply all_bytes_impl; [|exact Hb]. by intros [[] [] [] [] [] [] [] []].
Qed.

(** ** Lemmas: text sent as it is *)

Lemma unescape_none mode s :
  all_bytes (not_byte "%"%char) s = true -> all_bytes (not_byte "+"%char) s = true -> unescape mode s = Some s.
Proof.
  induction s as [|c s IH]; intros Hp Hq; [done|]. cbn [all_bytes] in *. apply andb_true_iff in Hp as [Hp Hps], Hq as [Hq Hqs].
  rewrite unescape_plain by (intros ->; (by vm_compute in Hp) || (by vm_compute in Hq)). by rewrite IH.
Qed.

Lemma plain_not sep s :
  plain_authority sep = false -> all_bytes plain_authority s = true -> all_bytes (not_byte sep) s = true.
Proof.
  intros Hsep. apply all_bytes_impl. intros c Hc. unfold not_byte. case_bool_decide; [congruence|done].
Qed.

Lemma plain_no_ctl s : all_bytes plain_authority s = true -> has_byte is_ctl s = false.
Proof. apply no_ctl. by intros [[] [] [] [] [] [] [] []]. Qed.

(** One parameter whose value needs no escape. *)
Lemma ParseQuery_plain semi k v :
  all_bytes unreserved k = true -> all_bytes plain_authority v = true ->
  ParseQuery semi (k +:+ String "="%char v) = [(k, v)].
Proof.
  intros Hk Hv.
  assert (Hk' : all_bytes plain_authority k = true).
  { eapply all_bytes_impl; [|exact Hk]. intros c Hc. unfold plain_authority. by rewrite Hc. }
  assert (Hno : forall sep, plain_authority sep = false -> sep <> "="%char -> all_bytes (not_byte sep) (k +:+ String "="%char v) = true).
  { intros sep Hsep Hne. rewrite all_bytes_app. cbn [all_bytes]. rewrite !plain_not by done.
    unfold not_byte. by rewrite bool_decide_false. }
  assert (Hread : read_pair semi (k +:+ String "="%char v) = Some (k, v)).
  { unfold read_pair. rewrite has_byte_all. change (fun c => negb (is_semicolon c)) with (not_byte ";"%char).
    rewrite Hno by done. cbn [negb]. rewrite andb_false_r. unfold parse_pair. rewrite decide_False by (by destruct k).
    rewrite cut_app by (by apply plain_not). unfold default, from_option, id.
    by rewrite !unescape_none by (by apply plain_not). }
  unfold ParseQuery. rewrite Split_one by (by apply Hno). destruct semi; cbn [omap list_omap].
  - cbn [mbind list_bind]. rewrite Split_one, app_nil_r by (by apply Hno). cbn [omap list_omap]. by rewrite Hread.
  - by rewrite Hread.
Qed.

Lemma split_authority_app h t :
  all_bytes plain_authority h = true -> split_authority (h +:+ String "/"%char t) = (h, String "/"%char t).
Proof.
  induction h as [|c h IH]; intros Hh; [done|]. cbn [all_bytes] in Hh. apply andb_true_iff in Hh as [Hc Hh].
  cbn [String.append split_authority]. rewrite decide_False by (intros [-> | ->]; done). by rewrite IH.
Qed.

(** The URL of a plain host. *)
Lemma parse_http_plain h t :
  all_bytes plain_authority h = true -> h <> "" -> has_byte is_ctl t = false -> all_bytes (not_byte "#"%char) t = true ->
  parse_http ("http://" +:+ h +:+ String "/"%char t) = Some (h, String "/"%char t).
Proof.
  intros Hh Hne Ht Hf. unfold parse_http.
  assert (Hctl : has_byte is_ctl ("http://" +:+ h +:+ String "/"%char t) = false).
  { rewrite !has_byte_app. cbn [has_byte]. by rewrite plain_no_ctl, Ht. }
  rewrite Hctl, cut_none by (rewrite !all_bytes_app; cbn [all_bytes]; by rewrite plain_not, Hf). cbn [fst].
  change (Parse.strip_prefix "http://" ("http://" +:+ ?x)) with (Some x). cbn [mbind option_bind].
  rewrite split_authority_app by done. rewrite Hh, bool_decide_false by done. done.
Qed.

End Url.
