(* ===== verification/Mux.v ===== *)
(** * The router: gorilla/mux

    The part of the vendored router that the service uses (mux.go, route.go,
    regexp.go): path templates with variables, compiled to a regular
    expression, matched in the order of registration, after the path has been
    cleaned.  A route matches on its path alone: no host, method, query or
    middleware is configured, and strict slashes are off. *)

From Stdlib Require Import Ascii.
From S2P Require Import Prelude GoStd Json Url.

Module Mux.

(** ** Templates (regexp.go) *)

(** [braceIndices] from position [i], at [level], the open brace at [idx]:
    the positions of the first-level braces, or [None] when unbalanced. *)
Fixpoint braceIndices (s : string) (i : nat) (level : Z) (idx : nat) : option (list (nat * nat)) :=
  match s with
  | EmptyString => if level =? 0 then Some [] else None
  | String c s =>
      if decide (c = "{"%char) then
        braceIndices s (S i) (level + 1) (if level + 1 =? 1 then i else idx)
      else if decide (c = "}"%char) then
        if level - 1 =? 0 then cons (idx, S i) <$> braceIndices s (S i) (level - 1) idx
        else if level - 1 <? 0 then None
        else braceIndices s (S i) (level - 1) idx
      else braceIndices s (S i) level idx
  end.

(** The compiled expression: literal text and variables of the default pattern
    [[^/]+], anchored at both ends. *)
Inductive token : Type :=
| TLit (raw : string)
| TVar (name : string).

Definition defaultPattern : string := "[^/]+".

(** [tpl[from:to]]. *)
Definition slice (tpl : string) (from to : nat) : string := String.substring from (to - from) tpl.

(** The loop of [newRouteRegexp] over the braces.  A variable with a pattern of
    its own is not used by the service and is outside the model. *)
Fixpoint compile_braces (tpl : string) (idxs : list (nat * nat)) (from : nat) : option (list token) :=
  match idxs with
  | [] => Some [TLit (slice tpl from (String.length tpl))]
  | (i, j) :: idxs =>
      let raw := slice tpl from i in
      let '(name, patt) := Url.cut ":"%char (slice tpl (S i) (j - 1)) in
      if decide (name = "" \/ default defaultPattern patt <> defaultPattern) then None
      else (fun re => TLit raw :: TVar name :: re) <$> compile_braces tpl idxs j
  end.

Definition newRouteRegexp (tpl : string) : option (list token) :=
  idxs ← braceIndices tpl 0 0 0; compile_braces tpl idxs 0.

(** One or more bytes other than a slash, as many as the rest allows. *)
Fixpoint match_segment (rest : string -> option (list string)) (acc s : string) : option (list string) :=
  match s with
  | EmptyString => None
  | String c s =>
      if decide (c = "/"%char) then None else
      let acc := acc +:+ String c EmptyString in
      match match_segment rest acc s with
      | Some vs => Some vs
      | None => cons acc <$> rest s
      end
  end.

(** [FindStringSubmatch]: the texts of the variables. *)
Fixpoint match_tokens (re : list token) (s : string) : option (list string) :=
  match re with
  | [] => if decide (s = "") then Some [] else None
  | TLit raw :: re => s ← Parse.strip_prefix raw s; match_tokens re s
  | TVar _ :: re => match_segment (match_tokens re) "" s
  end.

Definition varsN (re : list token) : list string :=
  omap (fun t => match t with TVar name => Some name | TLit _ => None end) re.

(** [extractVars]: a name used twice keeps its last text. *)
Definition extractVars (names values : list string) : gmap string string :=
  fold_left (fun output nv => <[nv.1 := nv.2]> output) (zip names values) ∅.

(** ** Routes and the router (route.go, mux.go) *)

Section Router.

Context {H : Type}.

(** A route: its expression, [None] when building it failed, and its handler. *)
Record Route : Type := MkRoute { r_regexp : option (list token); r_handler : H }.

Definition Router : Type := list Route.

Definition NewRouter : Router := [].

(** [addRegexpMatcher]: a path starts with a slash. *)
Definition Path (tpl : string) : option (list token) :=
  match tpl with
  | EmptyString => newRouteRegexp tpl
  | String c _ => if decide (c = "/"%char) then newRouteRegexp tpl else None
  end.

Definition HandleFunc (r : Router) (tpl : string) (f : H) : Router := r ++ [MkRoute (Path tpl) f].

Definition Route_Match (r : Route) (path : string) : option (gmap string string) :=
  re ← r_regexp r; values ← match_tokens re path; Some (extractVars (varsN re) values).

(** [Router.Match]: the first route that matches, its handler and variables. *)
Fixpoint Match (r : Router) (path : string) : option (H * gmap string string) :=
  match r with
  | [] => None
  | route :: r =>
      match Route_Match route path with
      | Some vars => Some (r_handler route, vars)
      | None => Match r path
      end
  end.

Definition cleanPath (p : string) : string :=
  if decide (p = "") then "/" else
  let p := match p with String "/" _ => p | _ => String "/" p end in
  let np := Url.Clean p in
  if decide (String.get (String.length p - 1) p = Some "/"%char /\ np <> "/") then np +:+ "/" else np.

(** What [ServeHTTP] does with a request for a path. *)
Inductive dispatch : Type :=
| Redirect (path : string)
| NotFound
| Handle (h : H) (vars : gmap string string).

Definition ServeHTTP (r : Router) (path : string) : dispatch :=
  if decide (cleanPath path <> path) then Redirect (cleanPath path)
  else match Match r path with
       | Some (h, vars) => Handle h vars
       | None => NotFound
       end.

End Router.

Arguments Route : clear implicits.
Arguments Router : clear implicits.
Arguments dispatch : clear implicits.

(** ** Lemmas: what an expression matches *)

Abbreviation no_slash := (Url.all_bytes (Url.not_byte "/"%char)) (only parsing).

Lemma strip_prefix_spec p s : Parse.strip_prefix p s = None \/ exists r, Parse.strip_prefix p s = Some r /\ s = p +:+ r.
Proof.
  revert s. induction p as [|a p IH]; intros s; [right; by exists s|]. destruct s as [|b s]; [by left|].
  cbn [Parse.strip_prefix]. case_decide as Hab; [|by left]. subst b.
  destruct (IH s) as [->|(r & -> & ->)]; [by left|right; by exists r].
Qed.

Lemma strip_prefix_app p r : Parse.strip_prefix p (p +:+ r) = Some r.
Proof. induction p as [|a p IH]; [done|]. cbn [Parse.strip_prefix String.append]. by rewrite decide_True. Qed.

Lemma Split_not_nil sep s : Strings.Split sep s <> [].
Proof. destruct s as [|c s]; [done|]. cbn. by repeat case_match. Qed.

Lemma join_cons (e : string) l : l <> [] -> Url.join_slash (e :: l) = e +:+ String "/"%char (Url.join_slash l).
Proof. by destruct l. Qed.

(** The pieces of a path determine it. *)
Lemma join_Split p : Url.join_slash (Strings.Split "/"%char p) = p.
Proof.
  induction p as [|c p IH]; [done|]. cbn [Strings.Split]. case_decide as Hc.
  - subst c. rewrite join_cons by apply Split_not_nil. by rewrite IH.
  - pose proof (Split_not_nil "/"%char p). destruct (Strings.Split "/"%char p) as [|w ws]; [done|].
    destruct ws as [|w2 ws]; cbn in IH |- *; by rewrite IH.
Qed.

Lemma Split_pieces p : Forall (fun e => no_slash e = true) (Strings.Split "/"%char p).
Proof.
  induction p as [|c p IH]; [by constructor|]. cbn [Strings.Split]. case_decide as Hc; [by constructor|].
  destruct (Strings.Split "/"%char p) as [|w ws]; apply Forall_cons in IH as [Hw Hws] || idtac.
  - constructor; [|constructor]. cbn. unfold Url.not_byte. by rewrite bool_decide_false.
  - constructor; [|done]. cbn. unfold Url.not_byte at 1. by rewrite bool_decide_false.
Qed.

Lemma match_last acc s :
  match_segment (match_tokens [TLit ""]) acc s =
  if negb (bool_decide (s = "")) && no_slash s then Some [acc +:+ s] else None.
Proof.
  revert acc. induction s as [|c s IH]; intros acc; [done|].
  cbn [match_segment Url.all_bytes negb bool_decide]. rewrite bool_decide_false by done. cbn [negb andb].
  unfold Url.not_byte at 1. destruct (decide (c = "/"%char)) as [Hc|Hc]; [by rewrite bool_decide_true|].
  rewrite bool_decide_false by done. cbn [negb andb]. rewrite IH, app_assoc_str. cbn [String.append].
  destruct s as [|d s]; [done|]. rewrite bool_decide_false by done. cbn [negb andb].
  destruct (no_slash (String d s)); done.
Qed.

(** A literal template matches its own pieces. *)
Lemma match_plain a p :
  no_slash a = true ->
  match_tokens [TLit (String "/" a)] p = if decide (Strings.Split "/"%char p = [""; a]) then Some [] else None.
Proof.
  intros Ha. cbn [match_tokens]. case_decide as Hs.
  - rewrite <- (join_Split p), Hs. cbn [Url.join_slash String.append].
    rewrite <- (app_nil_str (String "/" a)) at 2. by rewrite strip_prefix_app.
  - destruct (strip_prefix_spec (String "/" a) p) as [-> | (r & -> & ->)]; [done|]. cbn [mbind option_bind].
    rewrite decide_False; [done|]. intros ->. apply Hs. rewrite app_nil_str.
    change (String "/" a) with ("" +:+ String "/" a). rewrite Url.Split_app by done. by rewrite Url.Split_one.
Qed.

(** A template that ends in a variable matches two pieces, the second not
    empty. *)
Lemma match_keyed a name p :
  no_slash a = true ->
  match_tokens [TLit (String "/" (a +:+ "/")); TVar name; TLit ""] p =
  match Strings.Split "/"%char p with
  | [e; b; v] => if decide (e = "" /\ b = a /\ v <> "") then Some [v] else None
  | _ => None
  end.
Proof.
  intros Ha. change (match_tokens [TLit (String "/" (a +:+ "/")); TVar name; TLit ""] p) with
    (s ← Parse.strip_prefix (String "/" (a +:+ "/")) p; match_segment (match_tokens [TLit ""]) "" s).
  destruct (strip_prefix_spec (String "/" (a +:+ "/")) p) as [Hn | (r & -> & ->)].
  - rewrite Hn. cbn [mbind option_bind]. destruct (Strings.Split "/"%char p) as [|e [|b [|v [|]]]] eqn:Hs; try done.
    case_decide as Hd; [|done]. destruct Hd as (-> & -> & Hv). rewrite <- (join_Split p), Hs in Hn.
    cbn [Url.join_slash String.append] in Hn.
    replace (a +:+ String "/" v) with ((a +:+ "/") +:+ v) in Hn by (by rewrite app_assoc_str).
    change (String "/" ((a +:+ "/") +:+ v)) with (String "/" (a +:+ "/") +:+ v) in Hn. by rewrite strip_prefix_app in Hn.
  - cbn [mbind option_bind]. rewrite match_last.
    cbn [String.append]. rewrite app_assoc_str. cbn [String.append].
    change (String "/" (a +:+ String "/" r)) with ("" +:+ String "/" (a +:+ String "/" r)).
    rewrite Url.Split_app, Url.Split_app by done. pose proof (Split_pieces r) as Hp.
    destruct (Strings.Split "/"%char r) as [|v [|v2 l]] eqn:Hr; [by apply Split_not_nil in Hr| |].
    + rewrite <- (join_Split r), Hr. cbn [Url.join_slash]. rewrite Forall_singleton in Hp. rewrite Hp, andb_true_r.
      case_decide as Hd; case_bool_decide as Hb; naive_solver.
    + destruct (no_slash r) eqn:Hno; [by rewrite Url.Split_one in Hr|]. by rewrite andb_false_r.
Qed.

(** ** Lemmas: clean paths *)

Definition good_elem (e : string) : Prop := e <> "" /\ e <> "." /\ e <> ".." /\ no_slash e = true.

Lemma clean_good es : forall stack,
  Forall (fun e => no_slash e = true) es -> Forall good_elem stack -> Forall good_elem (Url.clean es stack).
Proof.
  induction es as [|e es IH]; intros stack Hes Hst; cbn [Url.clean].
  - by apply Forall_rev.
  - apply Forall_cons in Hes as [He Hes]. case_decide as H1; [by apply IH|]. case_decide as H2.
    + apply IH; [done|]. destruct Hst; [by apply Forall_nil|done].
    + apply IH; [done|]. apply Forall_cons. split; [|done]. split_and!; naive_solver.
Qed.

Lemma clean_id es : forall stack, Forall good_elem es -> Url.clean es stack = rev stack ++ es.
Proof.
  induction es as [|e es IH]; intros stack Hes; cbn [Url.clean]; [by rewrite app_nil_r|].
  apply Forall_cons in Hes as [(H1 & H2 & H3 & _) Hes]. rewrite decide_False by naive_solver.
  rewrite decide_False by done. rewrite IH by done. cbn [rev]. by rewrite <- app_assoc.
Qed.

Lemma clean_app_empty es stack : Url.clean (es ++ [""]) stack = Url.clean es stack.
Proof.
  revert stack. induction es as [|e es IH]; intros stack; cbn [app Url.clean]; [by rewrite decide_True by auto|].
  by repeat case_decide.
Qed.

Lemma Split_join l : l <> [] -> Forall (fun e => no_slash e = true) l -> Strings.Split "/"%char (Url.join_slash l) = l.
Proof.
  induction l as [|e l IH]; [done|]. intros _ [He Hl]%Forall_cons. destruct l as [|e2 l]; [by apply Url.Split_one|].
  rewrite join_cons by done. by rewrite Url.Split_app, IH.
Qed.

(** The last byte of a path. *)
Definition ends_slash (p : string) : bool := bool_decide (String.get (String.length p - 1) p = Some "/"%char).

Lemma get_last s c : String.get (String.length (s +:+ String c "") - 1) (s +:+ String c "") = Some c.
Proof.
  rewrite length_app_str. cbn [String.length]. replace (String.length s + 1 - 1)%nat with (String.length s) by lia.
  by induction s.
Qed.

Lemma get_no_slash s i : no_slash s = true -> String.get i s <> Some "/"%char.
Proof.
  revert i. induction s as [|c s IH]; intros i; [by destruct i|]. cbn [Url.all_bytes].
  intros [Hc Hs]%andb_true_iff. destruct i as [|i]; [|by apply IH]. cbn. intros [= ->]. done.
Qed.

Lemma get_app s t i : String.get (String.length s + i) (s +:+ t) = String.get i t.
Proof. by induction s. Qed.

Lemma join_last es : es <> [] -> Forall good_elem es ->
  String.get (String.length (Url.join_slash es) - 1) (Url.join_slash es) <> Some "/"%char /\ Url.join_slash es <> "".
Proof.
  induction es as [|e es IH]; [done|]. intros _ [He Hes]%Forall_cons. destruct He as (He & _ & _ & Hns).
  destruct es as [|e2 es]; [split; [by apply get_no_slash|done]|].
  destruct (IH ltac:(done) Hes) as [Hl Hne]. rewrite join_cons by done. set (r := Url.join_slash (e2 :: es)) in *.
  split; [|by destruct e]. rewrite length_app_str. cbn [String.length].
  replace (String.length e + S (String.length r) - 1)%nat with (String.length e + String.length r)%nat by lia.
  rewrite get_app. destruct r as [|c r]; [done|]. cbn [String.length String.get] in *.
  by rewrite Nat.sub_succ, Nat.sub_0_r in Hl.
Qed.

(** A clean path: good elements, and a slash at the end or not. *)
Definition rooted (es : list string) (slash : bool) : string :=
  String "/" (Url.join_slash es) +:+ (if slash && negb (bool_decide (es = [])) then "/" else "").

Lemma Clean_rooted es slash : Forall good_elem es -> Url.Clean (rooted es slash) = String "/" (Url.join_slash es).
Proof.
  intros Hes. unfold Url.Clean, rooted. destruct es as [|e es]; [by rewrite andb_false_r|].
  assert (Hns : Forall (fun e => no_slash e = true) (e :: es)) by (eapply Forall_impl; [exact Hes|]; by intros ? (_ & _ & _ & ?)).
  rewrite bool_decide_false, andb_true_r by done. cbn [String.append].
  change (Strings.Split "/"%char (String "/" ?t)) with ("" :: Strings.Split "/"%char t).
  cbn [Url.clean]. rewrite decide_True by auto.
  f_equal. f_equal. destruct slash.
  - transitivity (Url.clean (e :: es) []); [|by apply (clean_id (e :: es) [])].
    rewrite <- (clean_app_empty (e :: es)). f_equal.
    replace (Url.join_slash (e :: es) +:+ "/") with (Url.join_slash ((e :: es) ++ [""])).
    + apply Split_join; [done|]. apply Forall_app. split; [done|]. by apply Forall_singleton.
    + clear. revert e. induction es as [|e2 es IH]; intros e; [done|]. cbn [app] in *.
      rewrite (join_cons e), (join_cons e (e2 :: es)) by done. rewrite IH. by rewrite app_assoc_str.
  - rewrite app_nil_str, Split_join by done. by apply (clean_id (e :: es) []).
Qed.

Lemma cleanPath_rooted es slash : Forall good_elem es -> cleanPath (rooted es slash) = rooted es slash.
Proof.
  intros Hes. unfold cleanPath. rewrite decide_False by done.
  change (match rooted es slash with String "/" _ => rooted es slash | _ => String "/" (rooted es slash) end) with (rooted es slash).
  rewrite Clean_rooted by done. unfold rooted. destruct es as [|e es]; [by destruct slash|].
  rewrite bool_decide_false, andb_true_r by done. destruct (join_last (e :: es) ltac:(done) Hes) as [Hl Hne].
  destruct slash.
  - rewrite decide_True; [done|]. split; [apply get_last|]. intros [= H]. done.
  - rewrite app_nil_str, decide_False; [done|]. intros [H _]. apply Hl.
    destruct (Url.join_slash (e :: es)) as [|c r]; [done|]. cbn [String.length String.get] in *.
    by rewrite Nat.sub_succ, Nat.sub_0_r in *.
Qed.

Lemma cleanPath_form p : exists es slash, cleanPath p = rooted es slash /\ Forall good_elem es.
Proof.
  unfold cleanPath. case_decide as Hp; [exists [], false; split; [done|by apply Forall_nil]|].
  set (q := match p with String "/" _ => p | _ => String "/" p end). set (es := Url.clean (Strings.Split "/"%char q) []).
  assert (Hes : Forall good_elem es) by (apply clean_good; [apply Split_pieces|by apply Forall_nil]).
  case_decide as Hd.
  - exists es, true. split; [|done]. unfold Url.Clean in *. fold es in Hd |- *. unfold rooted.
    rewrite bool_decide_false; [done|]. intros He. rewrite He in Hd. by destruct Hd as [_ []].
  - exists es, false. split; [|done]. unfold rooted. cbn [andb]. by rewrite app_nil_str.
Qed.

(** A cleaned path is clean: the client is redirected once. *)
Lemma cleanPath_idem p : cleanPath (cleanPath p) = cleanPath p.
Proof. destruct (cleanPath_form p) as (es & slash & -> & Hes). by apply cleanPath_rooted. Qed.

End Mux.
