(* ===== verification/Shell.v ===== *)
(** * Command output: shellCmd.go

    [trimOutput] and [traceOutput], with [strings.TrimSpace] and
    [bytes.TrimRight].  [ShellCmdTimeout] is with the detector, which calls it.
    [traceOutput] polls the growing output of a command once a second: one tick
    is a function of the rows counted so far and the output. *)

From Stdlib Require Import Ascii.
From S2P Require Import Prelude GoStd Json Url.

Module Shell.

Import Utf8.

(** [unicode.IsSpace]. *)
Definition is_space (c : chunk) : bool :=
  match c with
  | C1 a => byte_in 9 13 a || bool_decide (a = " "%char)
  | C2 a b => bool_decide (a = "194" /\ (b = "133" \/ b = "160"))%char
  | C3 a b c =>
      bool_decide ((a = "225" /\ b = "154" /\ c = "128") \/ (a = "227" /\ b = "128" /\ c = "128")
                   \/ (a = "226" /\ b = "129" /\ c = "159"))%char
      || (bool_decide (a = "226" /\ b = "128")%char
          && (byte_in 128 138 c || bool_decide (c ∈ ["168"; "169"; "175"]%char)))
  | _ => false
  end.

Fixpoint drop_spaces (cs : list chunk) : list chunk :=
  match cs with
  | [] => []
  | c :: cs' => if is_space c then drop_spaces cs' else cs
  end.

(** [strings.TrimSpace]; a space at the end is found from the end as it is from
    the front, since no other rune can take its first byte. *)
Definition TrimSpace (s : string) : string :=
  concat_map raw (rev (drop_spaces (rev (drop_spaces (chunks s))))).

(** [bytes.TrimRight(s, "\x00")]. *)
Fixpoint TrimRightNul (s : string) : string :=
  match s with
  | EmptyString => EmptyString
  | String c s =>
      match TrimRightNul s with
      | EmptyString => if decide (c = "000"%char) then EmptyString else String c EmptyString
      | t => String c t
      end
  end.

Definition trimOutput (buffer : string) : string := TrimSpace (TrimRightNul buffer).

(** [rows[lo:hi]], which panics unless [lo <= hi <= len rows]. *)
Definition slice {A : Type} (rows : list A) (lo hi : Z) : outcome (list A) :=
  if (0 <=? lo) && (lo <=? hi) && (hi <=? Z.of_nat (length rows))
  then Ret (take (Z.to_nat (hi - lo)) (drop (Z.to_nat lo) rows))
  else Panic IndexOutOfRange.

Definition last_byte (s : string) : option ascii := String.get (String.length s - 1) s.

(** One tick of [traceOutput]: the new offset. *)
Definition trace_tick (offset : Z) (out : string) : outcome Z :=
  let result := TrimRightNul out in
  let rows := Strings.Split Strings.newline (TrimSpace result) in
  let nRows := Z.of_nat (length rows) in
  newRows ← slice rows offset nRows;
  newRows ← (if (0 <? String.length result)%nat && negb (bool_decide (last_byte result = Some Strings.newline))
             then slice rows offset (nRows - 1) else Ret newRows);
  let n := Z.of_nat (length newRows) in
  if n <? offset then Ret offset else Ret (offset + n).

(** The loop on what the output was at each tick. *)
Definition traceOutput (outs : list string) : outcome Z := foldlM trace_tick 0 outs.

(** ** Lemmas *)

Definition space_free_ends (cs : list chunk) : Prop :=
  match head cs with Some c => is_space c = false | None => True end /\
  match last cs with Some c => is_space c = false | None => True end.

Lemma drop_spaces_split cs : exists pre, cs = pre ++ drop_spaces cs /\ forallb is_space pre = true.
Proof.
  induction cs as [|c cs (pre & Heq & Hp)]; [by exists []|]. cbn [drop_spaces].
  destruct (is_space c) eqn:Hc; [|by exists []]. exists (c :: pre). cbn. rewrite Hc, Hp. by rewrite Heq at 1.
Qed.

Lemma drop_spaces_head cs : match head (drop_spaces cs) with Some c => is_space c = false | None => True end.
Proof. induction cs as [|c cs IH]; [done|]. cbn [drop_spaces]. destruct (is_space c) eqn:Hc; [done|cbn; by rewrite Hc]. Qed.

Lemma concat_app l1 l2 : concat_map raw (l1 ++ l2) = concat_map raw l1 +:+ concat_map raw l2.
Proof. unfold concat_map. induction l1 as [|c l1 IH]; [done|]. cbn [app foldr]. rewrite IH. by rewrite app_assoc_str. Qed.

Lemma concat_chunks s : concat_map raw (chunks s) = s.
Proof. unfold chunks. by apply chunks_fuel_spec. Qed.

(** [TrimSpace] cuts spaces at both ends and nothing else. *)
Lemma TrimSpace_spec s :
  exists pre mid post, s = concat_map raw pre +:+ TrimSpace s +:+ concat_map raw post /\
    TrimSpace s = concat_map raw mid /\ chunks s = pre ++ mid ++ post /\
    forallb is_space pre = true /\ forallb is_space post = true /\ space_free_ends mid.
Proof.
  destruct (drop_spaces_split (chunks s)) as (pre & Hpre & Hps). set (r := drop_spaces (chunks s)) in *.
  destruct (drop_spaces_split (rev r)) as (post & Hpost & Hqs). set (m := drop_spaces (rev r)) in *.
  assert (Hr : r = rev m ++ rev post) by (rewrite <- rev_app_distr, <- Hpost; by rewrite rev_involutive).
  exists pre, (rev m), (rev post). assert (HT : TrimSpace s = concat_map raw (rev m)) by done.
  split_and!; [|done|by rewrite Hpre, Hr at 1|done|..].
  - rewrite HT, <- !concat_app, <- Hr, <- Hpre. symmetry. apply concat_chunks.
  - rewrite forallb_forall in *. intros c Hc. apply Hqs. by apply in_rev.
  - pose proof (drop_spaces_head (chunks s)) as Hh. fold r in Hh. rewrite Hr in Hh.
    pose proof (drop_spaces_head (rev r)) as Hl. fold m in Hl. split.
    + by destruct (rev m).
    + destruct m as [|c m]; [done|]. cbn [rev]. by rewrite last_snoc.
Qed.

(** The bytes cut from the end. *)
Lemma TrimRightNul_spec s : exists nuls, s = TrimRightNul s +:+ nuls /\ Url.all_bytes (fun c => bool_decide (c = "000"%char)) nuls = true.
Proof.
  induction s as [|c s (nuls & Heq & Hn)]; [by exists ""|]. cbn [TrimRightNul].
  destruct (TrimRightNul s) as [|a t]; [|exists nuls; split; [|done]; by rewrite Heq at 1].
  case_decide as Hc; [subst c|by exists nuls; rewrite Heq at 1].
  exists (String "000"%char nuls). split; [by rewrite Heq at 1|]. cbn. by rewrite Hn.
Qed.

(** A line without a newline is one row. *)
Lemma one_row s :
  Url.all_bytes (Url.not_byte Strings.newline) s = true -> Strings.Split Strings.newline (TrimSpace s) = [TrimSpace s].
Proof.
  intros Hs. apply Url.Split_one. destruct (TrimSpace_spec s) as (pre & mid & post & Heq & _).
  rewrite Heq, !Url.all_bytes_app in Hs. rewrite !andb_true_iff in Hs. tauto.
Qed.

(** ** Properties *)

(** [trimOutput] cuts exactly the NUL bytes at the end and then the spaces,
    by Unicode's notion, at both ends: what remains starts and ends with no
    space, and nothing else is lost. *)
Theorem trim_output_exact s :
  exists nuls pre mid post, s = concat_map raw pre +:+ trimOutput s +:+ concat_map raw post +:+ nuls /\
    Url.all_bytes (fun c => bool_decide (c = "000"%char)) nuls = true /\
    forallb is_space pre = true /\ forallb is_space post = true /\
    trimOutput s = concat_map raw mid /\ space_free_ends mid.
Proof.
  destruct (TrimRightNul_spec s) as (nuls & Hs & Hn).
  destruct (TrimSpace_spec (TrimRightNul s)) as (pre & mid & post & Heq & Hmid & _ & Hpre & Hpost & Hends).
  exists nuls, pre, mid, post. split_and!; try done. unfold trimOutput. by rewrite Hs at 1; rewrite Heq at 1; rewrite !app_assoc_str.
Qed.

(** [traceOutput] fails on slow commands: when nothing has been printed at
    the first tick, the empty output counts as a row, and a line still being
    written at the next tick is out of range.  It also loses count: rows are
    taken in only when at least as many are new as were counted before. *)
Theorem trace_output_faults :
  (forall line, TrimRightNul line = line -> line <> "" -> Url.all_bytes (Url.not_byte Strings.newline) line = true ->
     traceOutput [""; line] = Panic IndexOutOfRange) /\
  (let row a := a +:+ String Strings.newline "" in
   traceOutput [row "a"; row "a" +:+ row "b" +:+ row "c"; row "a" +:+ row "b" +:+ row "c" +:+ row "d"] = Ret 3).
Proof.
  split; [|vm_compute; reflexivity]. intros line Hn Hne Hl. unfold traceOutput. cbn [foldlM].
  change (trace_tick 0 "") with (Ret 1). cbn [mbind outcome_bind]. unfold trace_tick.
  rewrite Hn, one_row by done. cbn [length]. change (slice [TrimSpace line] 1 (Z.of_nat 1)) with (Ret (A := list string) []).
  cbn [mbind outcome_bind].
  assert (Hlast : last_byte line <> Some Strings.newline).
  { clear -Hl. unfold last_byte. generalize (String.length line - 1)%nat. induction line as [|c line IH]; intros n; [by destruct n|].
    cbn in Hl. apply andb_true_iff in Hl as [Hc Hl]. destruct n as [|n]; [|by apply IH]. cbn. intros [= ->]. done. }
  rewrite bool_decide_false by done. by destruct line.
Qed.

End Shell.
