(* ===== verification/Options.v ===== *)
(** * Command line: options.go on Go's flag package

    [flag.Parse] runs [parseOne] until the arguments end, a non-flag is met or
    the process exits with the usage.  [None] is that exit. *)

From Stdlib Require Import Ascii.
From S2P Require Import Prelude GoStd Json Url.

Record options : Type := Options {
  o_dataDir : string;
  o_httpAddress : string;
  o_raftTCPAddress : string;
  o_joinAddress : string;
  o_bootstrap : bool;
  o_gossipTCPAddress : string;
  o_gossipJoinAddress : string;
  o_gossipQuorum : Z;
  o_verificationScript : string;
  o_notificationScript : string;
  o_eventInterval : Z
}.

Module Flag.

(** ** Integers: strconv.ParseInt with base 0

    The prefix gives the base.  Underscores, which Go allows since 1.13, are
    outside the model. *)
Definition digit_in (base : Z) (c : ascii) : option Z :=
  n ← Lit.hex_value c; if Z.of_N n <? base then Some (Z.of_N n) else None.

Fixpoint parse_base (base : Z) (s : string) (v : Z) : option Z :=
  match s with
  | EmptyString => Some v
  | String c s => d ← digit_in base c; parse_base base s (v * base + d)
  end.

Definition parse_uint (s : string) : option Z :=
  match s with
  | EmptyString => None
  | String "0" (String c s') =>
      if decide (c ∈ ["x"; "X"]%char) then match s' with EmptyString => None | _ => parse_base 16 s' 0 end
      else if decide (c ∈ ["b"; "B"]%char) then match s' with EmptyString => None | _ => parse_base 2 s' 0 end
      else if decide (c ∈ ["o"; "O"]%char) then match s' with EmptyString => None | _ => parse_base 8 s' 0 end
      else parse_base 8 (String c s') 0
  | _ => parse_base 10 s 0
  end.

Definition parse_int (s : string) : option Z :=
  let '(neg, body) := match s with
                      | String "-" s' => (true, s')
                      | String "+" s' => (false, s')
                      | _ => (false, s)
                      end in
  v ← parse_uint body;
  if (neg : bool) then if two63 <? v then None else Some (- v)
  else if two63 <=? v then None else Some v.

(** ** The flags of the service *)

Inductive flag : Type :=
| node | http | raft | join | bootstrap | gossip | gossipJoin | gossipQuorum
| verificationScript | notificationScript | eventInterval.

#[global] Instance flag_eq_dec : EqDecision flag.
Proof. solve_decision. Defined.

Definition name_of (f : flag) : string :=
  match f with
  | node => "node" | http => "http" | raft => "raft" | join => "join" | bootstrap => "bootstrap"
  | gossip => "gossip" | gossipJoin => "gossipJoin" | gossipQuorum => "gossipQuorum"
  | verificationScript => "verificationScript" | notificationScript => "notificationScript"
  | eventInterval => "eventInterval"
  end.

Definition all_flags : list flag :=
  [node; http; raft; join; bootstrap; gossip; gossipJoin; gossipQuorum; verificationScript; notificationScript; eventInterval].

(** The lookup in [formal]. *)
Definition formal (name : string) : option flag := find (fun f => bool_decide (name_of f = name)) all_flags.

Definition IsBoolFlag (f : flag) : bool := bool_decide (f = bootstrap).

(** The variables behind the flags, with their defaults. *)
Record values : Type := Values {
  v_node : string; v_http : string; v_raft : string; v_join : string; v_bootstrap : bool;
  v_gossip : string; v_gossipJoin : string; v_gossipQuorum : Z;
  v_verificationScript : string; v_notificationScript : string; v_eventInterval : Z
}.

Definition defaults : values :=
  Values "node1" "127.0.0.1:6000" "127.0.0.1:7000" "" false "127.0.0.1:8000" "" 3
    "./verification_script" "./notification_script" 60.

(** [Value.Set]. *)
Definition set (f : flag) (s : string) (v : values) : option values :=
  let '(Values n h r j b g gj q vs ns ei) := v in
  match f with
  | node => Some (Values s h r j b g gj q vs ns ei)
  | http => Some (Values n s r j b g gj q vs ns ei)
  | raft => Some (Values n h s j b g gj q vs ns ei)
  | join => Some (Values n h r s b g gj q vs ns ei)
  | bootstrap => x ← Strconv.ParseBool s; Some (Values n h r j x g gj q vs ns ei)
  | gossip => Some (Values n h r j b s gj q vs ns ei)
  | gossipJoin => Some (Values n h r j b g s q vs ns ei)
  | gossipQuorum => x ← parse_int s; Some (Values n h r j b g gj x vs ns ei)
  | verificationScript => Some (Values n h r j b g gj q s ns ei)
  | notificationScript => Some (Values n h r j b g gj q vs s ei)
  | eventInterval => x ← parse_int s; Some (Values n h r j b g gj q vs ns x)
  end.

(** ** Parsing *)

(** What [parseOne] does with an argument: stop, or a flag with its name and its
    value after an equals sign, or an exit. *)
Inductive argument : Type :=
| Stop
| BadSyntax
| Flag (name : string) (value : option string).

(** The first equals sign, which cannot come first. *)
Definition split_name (name : string) : string * option string :=
  match name with
  | EmptyString => (EmptyString, None)
  | String c s => let '(a, b) := Url.cut "="%char s in (String c a, b)
  end.

Definition classify (s : string) : argument :=
  match s with
  | String "-" (String c rest) =>
      let name := if decide (c = "-"%char) then rest else String c rest in
      if decide (s = "--") then Stop
      else match name with
           | EmptyString => BadSyntax
           | String a _ =>
               if decide (a = "-"%char \/ a = "="%char) then BadSyntax
               else let '(n, v) := split_name name in Flag n v
           end
  | _ => Stop
  end.

(** [flag.Parse] on the arguments: the flag's own value, the next argument, or
    [true] for a boolean flag. *)
Fixpoint Parse (v : values) (args : list string) : option values :=
  match args with
  | [] => Some v
  | s :: args =>
      match classify s with
      | Stop => Some v
      | BadSyntax => None
      | Flag name value =>
          match formal name with
          | None => None
          | Some f =>
              match value with
              | Some x => v ← set f x v; Parse v args
              | None =>
                  if IsBoolFlag f then v ← set f "true" v; Parse v args
                  else match args with
                       | [] => None
                       | x :: args => v ← set f x v; Parse v args
                       end
              end
          end
      end
  end.

Definition to_options (v : values) : options :=
  Options ("./" +:+ v_node v) (v_http v) (v_raft v) (v_join v) (v_bootstrap v) (v_gossip v) (v_gossipJoin v)
    (v_gossipQuorum v) (v_verificationScript v) (v_notificationScript v) (v_eventInterval v).

(** [NewOptions] on [os.Args[1:]]. *)
Definition NewOptions (args : list string) : option options := to_options <$> Parse defaults args.

(** ** Specification: the options a command line asks for

    Written down from the usage of the service, by the names on the command
    line, and independent of the tables above. *)

(** The ways to write a setting. *)
Inductive form : Type := Dash | DashDash | Separate | DashSeparate | Alone | DashAlone.

Abbreviation setting := (form * string * string)%type (only parsing).

Definition write (s : setting) : list string :=
  let '(fm, name, x) := s in
  match fm with
  | Dash => ["-" +:+ name +:+ "=" +:+ x]
  | DashDash => ["--" +:+ name +:+ "=" +:+ x]
  | Separate => ["-" +:+ name; x]
  | DashSeparate => ["--" +:+ name; x]
  | Alone => ["-" +:+ name]
  | DashAlone => ["--" +:+ name]
  end.

(** A name of a flag, known or not. *)
Definition plain_name (name : string) : bool :=
  match name with
  | EmptyString => false
  | String c s => negb (bool_decide (c = "-"%char)) && negb (bool_decide (c = "="%char)) &&
                  Url.all_bytes (Url.not_byte "="%char) s
  end.

(** The boolean flag takes no next argument, and alone it means true; the other
    flags need a value. *)
Definition proper (s : setting) : Prop :=
  let '(fm, name, x) := s in
  plain_name name = true /\
  match fm with
  | Dash | DashDash => True
  | Separate | DashSeparate => name <> "bootstrap"
  | Alone | DashAlone => name = "bootstrap" /\ x = "true"
  end.

Definition readable (s : setting) : bool :=
  let name := s.1.2 in
  if decide (name ∈ ["node"; "http"; "raft"; "join"; "gossip"; "gossipJoin"; "verificationScript"; "notificationScript"])
  then true
  else if decide (name = "bootstrap") then bool_decide (is_Some (Strconv.ParseBool s.2))
  else if decide (name ∈ ["gossipQuorum"; "eventInterval"]) then bool_decide (is_Some (parse_int s.2))
  else false.

(** The value the last setting of a name gives, or the default. *)
Definition chosen {A : Type} (read : string -> option A) (name : string) (dflt : A) (l : list setting) : A :=
  fold_left (fun cur s => if decide (s.1.2 = name) then default cur (read s.2) else cur) l dflt.

Definition asked_for (l : list setting) : option options :=
  if forallb readable l then Some {|
    o_dataDir := "./" +:+ chosen Some "node" "node1" l;
    o_httpAddress := chosen Some "http" "127.0.0.1:6000" l;
    o_raftTCPAddress := chosen Some "raft" "127.0.0.1:7000" l;
    o_joinAddress := chosen Some "join" "" l;
    o_bootstrap := chosen Strconv.ParseBool "bootstrap" false l;
    o_gossipTCPAddress := chosen Some "gossip" "127.0.0.1:8000" l;
    o_gossipJoinAddress := chosen Some "gossipJoin" "" l;
    o_gossipQuorum := chosen parse_int "gossipQuorum" 3 l;
    o_verificationScript := chosen Some "verificationScript" "./verification_script" l;
    o_notificationScript := chosen Some "notificationScript" "./notification_script" l;
    o_eventInterval := chosen parse_int "eventInterval" 60 l
  |} else None.

(** An argument that ends the flags, and one that is neither a flag nor that. *)
Definition ends_flags (s : string) : bool :=
  match s with
  | String "-" (String _ _) => bool_decide (s = "--")
  | _ => true
  end.

Definition malformed (s : string) : bool :=
  match s with
  | String "-" (String "=" _) | String "-" (String "-" (String "-" _)) | String "-" (String "-" (String "=" _)) => true
  | _ => false
  end.

(** ** Lemmas: flags *)

Lemma formal_inv name f : formal name = Some f -> name = name_of f.
Proof. unfold formal. intros [_ H]%find_some. by apply bool_decide_eq_true in H. Qed.

Lemma readable_formal fm name x : readable (fm, name, x) = true -> is_Some (formal name).
Proof.
  unfold readable. cbn [fst snd]. case_decide as H1; [intros _|case_decide as H2; [intros _|case_decide as H3; [intros _|done]]].
  - set_unfold in H1. destruct_or! H1; subst; (try by eexists); done.
  - subst. by eexists.
  - set_unfold in H3. destruct_or! H3; subst; (try by eexists); done.
Qed.

(** Setting a flag succeeds when its value is readable. *)
Lemma set_readable fm f x v : is_Some (set f x v) <-> readable (fm, name_of f, x) = true.
Proof.
  destruct v. unfold readable. destruct f; cbn [name_of set fst snd];
    repeat (rewrite decide_True by set_solver || rewrite decide_False by set_solver);
    rewrite ?bool_decide_eq_true; try (split; [done|by eexists]).
  - destruct (Strconv.ParseBool x); cbn; split; intros Hx; try done; try (by eexists); try (by destruct Hx).
  - destruct (parse_int x); cbn; split; intros Hx; try done; try (by eexists); try (by destruct Hx).
  - destruct (parse_int x); cbn; split; intros Hx; try done; try (by eexists); try (by destruct Hx).
Qed.

Lemma split_plain name x : plain_name name = true ->
  split_name (name +:+ "=" +:+ x) = (name, Some x) /\ split_name name = (name, None).
Proof.
  destruct name as [|c s]; [done|]. cbn [plain_name String.append split_name]. rewrite !andb_true_iff. intros [_ Hs].
  rewrite Url.cut_app by done. split; [done|]. by rewrite Url.cut_none.
Qed.

Lemma classify_plain name r : plain_name name = true -> (r = "" \/ exists x, r = "=" +:+ x) ->
  classify ("-" +:+ name +:+ r) = (let '(n, v) := split_name (name +:+ r) in Flag n v) /\
  classify ("--" +:+ name +:+ r) = (let '(n, v) := split_name (name +:+ r) in Flag n v).
Proof.
  destruct name as [|c s]; [done|]. cbn [plain_name]. rewrite !andb_true_iff, !negb_true_iff, !bool_decide_eq_false.
  intros [[Hd He] _] _. unfold classify. cbn [String.append]. split.
  - rewrite (decide_False (P := String _ _ = "--")) by congruence. rewrite !(decide_False (P := c = "-"%char)) by done.
    by rewrite decide_False by tauto.
  - rewrite (decide_False (P := String _ _ = "--")) by done. rewrite !(decide_True (P := "-"%char = "-"%char)) by done.
    by rewrite decide_False by tauto.
Qed.

Lemma digit_in_10 c : digit_in 10 c = Strconv.digit_value c.
Proof. by destruct c as [[] [] [] [] [] [] [] []]; vm_compute. Qed.

Lemma parse_base_10 s : forall v, parse_base 10 s v = Strconv.parse_digits s v.
Proof.
  induction s as [|c s IH]; intros v; [done|]. cbn [parse_base Strconv.parse_digits]. rewrite digit_in_10.
  destruct (Strconv.digit_value c); [apply IH|done].
Qed.

(** A decimal without a leading zero is read in base 10. *)
Lemma parse_uint_decimal s : s <> "" -> (forall t, s <> String "0" t \/ t = "") -> parse_uint s = Strconv.parse_digits s 0.
Proof.
  intros Hne Hz. destruct s as [|c s]; [done|]. rewrite <- parse_base_10.
  destruct (decide (c = "0"%char)) as [-> | Hc].
  - destruct (Hz s) as [?| ->]; done.
  - unfold parse_uint. destruct c as [[] [] [] [] [] [] [] []]; done.
Qed.

Lemma parse_uint_format n : 0 <= n <= two63 -> parse_uint (Strconv.format_digits 18 n "") = Some n.
Proof.
  intros Hn. assert (Hp : Strconv.parse_digits (Strconv.format_digits 18 n "") 0 = Some n).
  { apply parse_format_digits. unfold two63 in Hn. cbn. lia. }
  rewrite parse_uint_decimal; [done| |].
  - by destruct (format_digits_head 18 n "") as (d & s & -> & _).
  - intros t. destruct (decide (n = 0)) as [-> | Hn0]; [|left].
    + cbn. destruct (decide (t = "")); [by right|left]. congruence.
    + destruct (format_digits_nonzero 18 n "") as (d & s & -> & Hd); [unfold two63 in Hn; cbn; lia|].
      intros [= Hd' _]. by apply (digit_not_zero d).
Qed.

Lemma parse_int_FormatInt n : in_int64 n -> parse_int (Strconv.FormatInt n) = Some n.
Proof.
  intros Hn. unfold Strconv.FormatInt, parse_int. destruct (Z.ltb_spec n 0).
  - rewrite parse_uint_format by solve_int. cbn [mbind option_bind]. destruct (Z.ltb_spec two63 (- n)); [solve_int|f_equal; lia].
  - destruct (format_digits_head 18 n "") as (d & s & Heq & Hd).
    assert (Hpos : match Strconv.format_digits 18 n "" with
      | String "-" s' => (true, s') | String "+" s' => (false, s') | _ => (false, Strconv.format_digits 18 n "") end
      = (false, Strconv.format_digits 18 n "")).
    { rewrite Heq. pattern (Strconv.digit d). by apply digit_cases. }
    rewrite Hpos, parse_uint_format by solve_int. cbn [mbind option_bind]. destruct (Z.leb_spec two63 n); [solve_int|done].
Qed.

(** One setting: the flag takes its value, or the process exits. *)
Lemma Parse_write fm name x v rest :
  proper (fm, name, x) ->
  Parse v (write (fm, name, x) ++ rest) =
  match formal name with None => None | Some f => v ← set f x v; Parse v rest end.
Proof.
  intros [Hn Hfm]. destruct (split_plain name x Hn) as [Heq Hal].
  assert (Hcl : classify ("-" +:+ name +:+ "=" +:+ x) = Flag name (Some x) /\
                classify ("--" +:+ name +:+ "=" +:+ x) = Flag name (Some x)).
  { destruct (classify_plain name ("=" +:+ x) Hn) as [-> ->]; [eauto|]. by rewrite Heq. }
  assert (Hca : classify ("-" +:+ name) = Flag name None /\ classify ("--" +:+ name) = Flag name None).
  { destruct (classify_plain name "" Hn) as [H1 H2]; [by left|]. rewrite app_nil_str in H1, H2. rewrite H1, H2.
    by rewrite Hal. }
  assert (Hbool : forall f, formal name = Some f -> name <> "bootstrap" -> IsBoolFlag f = false).
  { intros f Hf Hne. apply formal_inv in Hf. unfold IsBoolFlag. apply bool_decide_false. by intros ->. }
  destruct fm; cbn [write app Parse] in *; rewrite ?(proj1 Hcl), ?(proj2 Hcl), ?(proj1 Hca), ?(proj2 Hca);
    destruct (formal name) as [f|] eqn:Hf; try done; try by rewrite Hbool.
  all: destruct Hfm as [-> ->]; by injection Hf as <-.
Qed.

(** The options after settings, from any values of the variables. *)
Definition asked_from (v : values) (l : list setting) : options := {|
  o_dataDir := "./" +:+ chosen Some "node" (v_node v) l;
  o_httpAddress := chosen Some "http" (v_http v) l;
  o_raftTCPAddress := chosen Some "raft" (v_raft v) l;
  o_joinAddress := chosen Some "join" (v_join v) l;
  o_bootstrap := chosen Strconv.ParseBool "bootstrap" (v_bootstrap v) l;
  o_gossipTCPAddress := chosen Some "gossip" (v_gossip v) l;
  o_gossipJoinAddress := chosen Some "gossipJoin" (v_gossipJoin v) l;
  o_gossipQuorum := chosen parse_int "gossipQuorum" (v_gossipQuorum v) l;
  o_verificationScript := chosen Some "verificationScript" (v_verificationScript v) l;
  o_notificationScript := chosen Some "notificationScript" (v_notificationScript v) l;
  o_eventInterval := chosen parse_int "eventInterval" (v_eventInterval v) l |}.

Lemma asked_from_cons fm f x v v' l :
  set f x v = Some v' -> asked_from v ((fm, name_of f, x) :: l) = asked_from v' l.
Proof.
  destruct v. unfold asked_from, chosen. destruct f; cbn [set name_of fold_left fst snd]; intros Hs;
    repeat (rewrite decide_True by done || rewrite decide_False by done); try by injection Hs as <-.
  - destruct (Strconv.ParseBool x); [|done]. by injection Hs as <-.
  - destruct (parse_int x); [|done]. by injection Hs as <-.
  - destruct (parse_int x); [|done]. by injection Hs as <-.
Qed.

(** The settings first, then the rest from the values they leave. *)
Lemma Parse_settings l : forall v rest,
  Forall proper l ->
  if forallb readable l
  then exists v', Parse v (concat (write <$> l) ++ rest) = Parse v' rest /\ to_options v' = asked_from v l
  else Parse v (concat (write <$> l) ++ rest) = None.
Proof.
  induction l as [|[[fm name] x] l IH]; intros v rest Hl; [by exists v|]. apply Forall_cons in Hl as [Hs Hl].
  cbn [fmap list_fmap concat forallb]. rewrite <- app_assoc, (Parse_write fm name x) by done.
  destruct (readable (fm, name, x)) eqn:Hr; cbn [andb].
  - destruct (readable_formal fm name x Hr) as [f Hf]. rewrite Hf. apply formal_inv in Hf as ->.
    destruct (proj2 (set_readable fm f x v) Hr) as [v1 Hv1]. rewrite Hv1. cbn [mbind option_bind].
    specialize (IH v1 rest Hl). destruct (forallb readable l); [|done].
    destruct IH as (v' & Hp & Ho). exists v'. split; [done|]. by rewrite (asked_from_cons fm f x v v1 l Hv1).
  - destruct (formal name) as [f|] eqn:Hf; [|done]. apply formal_inv in Hf as ->.
    destruct (set f x v) as [v1|] eqn:Hv1; [|done].
    rewrite (proj1 (set_readable fm f x v)) in Hr; [done|]. by eexists.
Qed.

Lemma classify_ends s : ends_flags s = true -> classify s = Stop.
Proof.
  unfold ends_flags, classify. destruct s as [|[[] [] [] [] [] [] [] []] [|c r]]; try done.
  intros H%bool_decide_eq_true. by rewrite H.
Qed.

Lemma classify_malformed s : malformed s = true -> classify s = BadSyntax.
Proof.
  intros H. destruct s as [|a [|b s]]; [done| |].
  { by destruct a as [[] [] [] [] [] [] [] []]. }
  destruct (decide (a = "-"%char)) as [->|Ha]; [|by destruct a as [[] [] [] [] [] [] [] []]].
  destruct (decide (b = "="%char)) as [->|Hb]; [done|].
  destruct (decide (b = "-"%char)) as [->|Hb']; [|by destruct b as [[] [] [] [] [] [] [] []]].
  destruct s as [|c s]; [done|]. unfold classify. rewrite (decide_False (P := String _ _ = "--")) by done.
  rewrite !(decide_True (P := "-"%char = "-"%char)) by done.
  rewrite decide_True; [done|]. destruct c as [[] [] [] [] [] [] [] []]; try done; by auto.
Qed.

(** ** Properties *)

(** C32: the command line means what it asks for: written in any mix of the
    spellings (one dash or two, with an equals sign or the value as the next
    argument, the boolean flag also alone), the settings give the options of
    their names, the last setting of a name counts and the documented default
    stands for a name that is not set; a name that is no flag and a value that
    cannot be read exit with the usage.  The first argument that is no flag ends
    the options; an argument of bad syntax and a last flag without its value
    exit.  A decimal number of 64 bits is read as itself. *)
Theorem command_line_meaning l rest :
  Forall proper l ->
  (match rest with [] => True | s :: _ => ends_flags s = true end ->
   NewOptions (concat (write <$> l) ++ rest) = asked_for l) /\
  (forall s, malformed s = true -> NewOptions (concat (write <$> l) ++ s :: rest) = None) /\
  (forall name, plain_name name = true -> name <> "bootstrap" ->
     NewOptions (concat (write <$> l) ++ ["-" +:+ name]) = None) /\
  (forall n, in_int64 n -> parse_int (Strconv.FormatInt n) = Some n).
Proof.
  intros Hl. unfold NewOptions, asked_for. split_and!; [| | |exact parse_int_FormatInt].
  - intros Hrest. pose proof (Parse_settings l defaults rest Hl) as Hp. destruct (forallb readable l); [|by rewrite Hp].
    destruct Hp as (v & -> & Ho). replace (Parse v rest) with (Some v).
    + cbn. by rewrite Ho.
    + destruct rest as [|s rest]; [done|]. cbn. by rewrite classify_ends.
  - intros s Hs. pose proof (Parse_settings l defaults (s :: rest) Hl) as Hp. destruct (forallb readable l); [|by rewrite Hp].
    destruct Hp as (v & -> & _). cbn. by rewrite classify_malformed.
  - intros name Hn Hb. pose proof (Parse_settings l defaults ["-" +:+ name] Hl) as Hp.
    destruct (forallb readable l); [|by rewrite Hp]. destruct Hp as (v & -> & _). cbn [Parse].
    destruct (classify_plain name "" Hn) as [Hc _]; [by left|]. rewrite app_nil_str in Hc. rewrite Hc.
    rewrite (proj2 (split_plain name "" Hn)). destruct (formal name) as [f|] eqn:Hf; [|done].
    replace (IsBoolFlag f) with false; [done|]. symmetry. apply bool_decide_false. intros ->.
    by apply formal_inv in Hf.
Qed.

(** The command line of localhost/run.sh for the second node. *)
Definition demo_settings : list setting :=
  [(DashDash, "node", "node2"); (DashDash, "http", "127.0.0.1:6001"); (DashDash, "raft", "127.0.0.1:7001");
   (DashDash, "gossip", "127.0.0.1:8001"); (DashDash, "eventInterval", "0x3c"); (Separate, "join", "127.0.0.1:6000");
   (Alone, "bootstrap", "true")].

Lemma command_line_meaning_witness :
  NewOptions (concat (write <$> demo_settings) ++ ["--"; "--bootstrap=false"]) =
  Some (Options "./node2" "127.0.0.1:6001" "127.0.0.1:7001" "127.0.0.1:6000" true "127.0.0.1:8001" "" 3
          "./verification_script" "./notification_script" 60).
Proof.
  rewrite (proj1 (command_line_meaning demo_settings ["--"; "--bootstrap=false"]
    ltac:(repeat (apply Forall_cons; split; [by split_and!|]); by apply Forall_nil)) eq_refl). vm_compute. reflexivity.
Defined.

End Flag.
