(* ===== verification/KVCache.v ===== *)
(** * The replicated key-value table: cache.go

    [cacheManager] wraps a map from string to string behind a read-write lock.
    Each operation below is the critical section of the method of the same
    name ([Set_] for [Set]); the locking itself is the subject of Locks.v. *)

From S2P Require Import Prelude GoStd Json.

Record cacheManager : Type := CacheManager { cm_data : gomap string }.

Module KV.

Definition NewCacheManager : cacheManager := CacheManager gm_make.

Definition not_found (key : string) : string := "key " +:+ key +:+ " not found".

(** A missing key reads as the empty string. *)
Definition Get (c : cacheManager) (key : string) : string :=
  default EmptyString (gm_get (cm_data c) key).

Definition GetKey (c : cacheManager) (key : string) : string * error :=
  match gm_get (cm_data c) key with
  | Some value => (value, None)
  | None => (EmptyString, Some (not_found key))
  end.

Definition Set_ (c : cacheManager) (key value : string) : outcome (cacheManager * error) :=
  d ← gm_set (cm_data c) key value; Ret (CacheManager d, None).

Definition Del (c : cacheManager) (key : string) : cacheManager * error :=
  (CacheManager (gm_del (cm_data c) key), None).

(** [json.Marshal] of a map of strings does not fail. *)
Definition Marshal (c : cacheManager) : string * error :=
  (Encode.marshal_map (cm_data c), None).

Definition MarshalForKey (c : cacheManager) (key : string) : string * error :=
  match gm_get (cm_data c) key with
  | Some value => (Encode.marshal_map (Some {[ key := value ]}), None)
  | None => (EmptyString, Some (not_found key))
  end.

Definition decode_error : string := "json decode error".

(** The first JSON value of the stream replaces the table; on an error the
    table is kept. *)
Definition UnMarshal (c : cacheManager) (serialized : string) : cacheManager * error :=
  match Parse.parse_first serialized with
  | None => (c, Some decode_error)
  | Some j =>
      match Decode.into_map j with
      | None => (c, Some decode_error)
      | Some newData => (CacheManager newData, None)
      end
  end.

(** The loop of [Clone], visiting the entries in the order [ord]. *)
Definition Clone_loop (ord : list (string * string)) : gmap string string :=
  fold_left (fun (result : gmap string string) kv => <[kv.1 := kv.2]> result) ord ∅.

Definition Clone (c : cacheManager) : gmap string string := Clone_loop (gm_items (cm_data c)).

Definition Len (c : cacheManager) : Z := Z.of_nat (size (gm_tab (cm_data c))).

(** ** The abstract table

    What the component promises: a finite map, [set] and [delete] on it. *)

Inductive op : Type :=
| OpSet (k v : string)
| OpDel (k : string).

Definition spec_step (d : gmap string string) (o : op) : gmap string string :=
  match o with
  | OpSet k v => <[k := v]> d
  | OpDel k => delete k d
  end.

Definition impl_step (c : cacheManager) (o : op) : outcome cacheManager :=
  match o with
  | OpSet k v => r ← Set_ c k v; Ret r.1
  | OpDel k => Ret (Del c k).1
  end.

Definition run (c : cacheManager) (l : list op) : outcome cacheManager := foldlM impl_step c l.

Definition spec_run (d : gmap string string) (l : list op) : gmap string string :=
  fold_left spec_step l d.

(** The representation: the table is not nil and holds the abstract map. *)
Definition repr (c : cacheManager) (d : gmap string string) : Prop := cm_data c = Some d.

(** ** Lemmas *)

Lemma repr_new : repr NewCacheManager ∅.
Proof. done. Qed.

Lemma Get_repr c d k : repr c d -> Get c k = default EmptyString (d !! k).
Proof. unfold repr, Get. by intros ->. Qed.

Lemma Set_repr c d k v :
  repr c d -> exists c', Set_ c k v = Ret (c', None) /\ repr c' (<[k := v]> d).
Proof. unfold repr, Set_. intros ->. cbn. eauto. Qed.

Lemma Del_repr c d k : repr c d -> repr (Del c k).1 (delete k d).
Proof. unfold repr, Del. cbn. by intros ->. Qed.

Lemma impl_step_repr c d o :
  repr c d -> exists c', impl_step c o = Ret c' /\ repr c' (spec_step d o).
Proof.
  intros Hc. destruct o as [k v|k]; cbn.
  - destruct (Set_repr c d k v Hc) as (c' & -> & Hc'). by exists c'.
  - eexists. split; [done|]. by apply (Del_repr c d k).
Qed.

Lemma run_repr l : forall c d,
  repr c d -> exists c', run c l = Ret c' /\ repr c' (spec_run d l).
Proof.
  induction l as [|o l IH]; intros c d Hc; [by exists c|].
  destruct (impl_step_repr c d o Hc) as (c1 & H1 & Hc1).
  destruct (IH c1 (spec_step d o) Hc1) as (c2 & H2 & Hc2).
  exists c2. unfold run. cbn. by rewrite H1.
Qed.

Lemma Clone_loop_range c ord :
  range_of ord (cm_data c) -> Clone_loop ord = gm_tab (cm_data c).
Proof.
  intros H. unfold Clone_loop. rewrite <- (map_fmap_id (gm_tab (cm_data c))).
  by rewrite <- (fold_insert_range id ord).
Qed.

Lemma Clone_tab c : Clone c = gm_tab (cm_data c).
Proof. apply Clone_loop_range, gm_items_range. Qed.

Lemma UnMarshal_Marshal c c0 :
  utf8_map (gm_tab (cm_data c)) -> UnMarshal c0 (Marshal c).1 = (c, None).
Proof.
  intros H. destruct (marshal_map_roundtrip _ H) as (j & Hp & Hd).
  unfold UnMarshal. cbn. rewrite (parse_first_document _ _ Hp), Hd. by destruct c.
Qed.

(** The last write to a key decides what the table holds there. *)
Definition op_key (o : op) : string :=
  match o with OpSet k _ => k | OpDel k => k end.

Definition op_value (o : op) : option string :=
  match o with OpSet _ v => Some v | OpDel _ => None end.

Fixpoint last_write (l : list op) (k : string) : option op :=
  match l with
  | [] => None
  | o :: l =>
      match last_write l k with
      | Some o' => Some o'
      | None => if decide (op_key o = k) then Some o else None
      end
  end.

Lemma spec_run_lookup l k : forall d,
  spec_run d l !! k = match last_write l k with Some o => op_value o | None => d !! k end.
Proof.
  induction l as [|o l IH]; intros d; [done|].
  cbn. fold (spec_run (spec_step d o) l). rewrite IH.
  destruct (last_write l k); [done|].
  destruct o as [k' v|k']; cbn; rewrite ?lookup_insert, ?lookup_delete; by case_decide.
Qed.

Lemma last_write_app l1 l2 k :
  last_write (l1 ++ l2) k =
  match last_write l2 k with Some o => Some o | None => last_write l1 k end.
Proof.
  induction l1 as [|o l1 IH]; cbn; [by destruct (last_write l2 k)|].
  rewrite IH. by destruct (last_write l2 k).
Qed.

Lemma spec_run_app d l1 l2 : spec_run d (l1 ++ l2) = spec_run (spec_run d l1) l2.
Proof. apply fold_left_app. Qed.

(** Replaying operations on a table that already contains them changes
    nothing. *)
Lemma spec_run_replay d l2 l3 :
  spec_run (spec_run d l2) (l2 ++ l3) = spec_run d (l2 ++ l3).
Proof.
  apply map_eq. intros k. rewrite !spec_run_lookup, last_write_app.
  destruct (last_write l3 k); [done|]. by destruct (last_write l2 k).
Qed.

End KV.

(** ** Properties *)

(** C25: the key-value store of cache.go refines a finite map: from the new
    store, any sequence of writes and deletes runs without a panic, a read
    returns what the last write of the key left there, [GetKey] fails exactly
    on the keys that are absent, [Len] counts the keys, and [Clone] copies the
    table in whatever order its loop visits it. *)
Theorem cache_refines_map l :
  exists c, KV.run KV.NewCacheManager l = Ret c /\
    (forall k, KV.Get c k = default EmptyString (KV.last_write l k ≫= KV.op_value)) /\
    (forall k, KV.GetKey c k = match KV.last_write l k ≫= KV.op_value with
                               | Some v => (v, None)
                               | None => (EmptyString, Some (KV.not_found k))
                               end) /\
    KV.Len c = Z.of_nat (size (KV.spec_run ∅ l)) /\
    (forall ord, range_of ord (cm_data c) -> KV.Clone_loop ord = KV.spec_run ∅ l).
Proof.
  destruct (KV.run_repr l _ _ KV.repr_new) as (c & Hrun & Hc).
  assert (Hlook : forall k, KV.spec_run ∅ l !! k = KV.last_write l k ≫= KV.op_value).
  { intros k. rewrite KV.spec_run_lookup, lookup_empty. by destruct (KV.last_write l k). }
  exists c. split_and!; [done| | | |].
  - intros k. by rewrite (KV.Get_repr _ _ _ Hc), Hlook.
  - intros k. unfold KV.GetKey. rewrite Hc. cbn. rewrite Hlook. by case_match.
  - unfold KV.Len. by rewrite Hc.
  - intros ord Hord. rewrite (KV.Clone_loop_range _ _ Hord). by rewrite Hc.
Qed.

(** A snapshot of the store decodes to the store: whatever the node held
    before, [UnMarshal] of the bytes [Marshal] wrote restores every entry, for
    tables whose keys and values are UTF-8 text. *)
Theorem cache_snapshot_roundtrip c c0 :
  utf8_map (gm_tab (cm_data c)) -> KV.UnMarshal c0 (KV.Marshal c).1 = (c, None).
Proof. apply KV.UnMarshal_Marshal. Qed.

Lemma cache_snapshot_roundtrip_witness :
  let c := CacheManager (Some {["db" := "10.0.0.1"; "db2" := "caf\u00e9"]}) in
  KV.UnMarshal KV.NewCacheManager (KV.Marshal c).1 = (c, None).
Proof.
  apply cache_snapshot_roundtrip. apply map_Forall_insert_2; [split; reflexivity|].
  apply map_Forall_singleton. split; reflexivity.
Defined.

(** A snapshot that holds the JSON text [null] is accepted and leaves the
    store without a table: reads still work, the next write panics. *)
Theorem null_snapshot_panics c key value :
  exists c', KV.UnMarshal c "null" = (c', None) /\ KV.Get c' key = EmptyString /\
    KV.Set_ c' key value = Panic NilMapWrite.
Proof. exists (CacheManager None). split_and!; reflexivity. Qed.
