(* ===== verification/Queue.v ===== *)
(** * The broadcast queue: memberlist's queue.go

    [TransmitLimitedQueue] as the delegate uses it: its broadcasts are neither
    named nor unique, so every [QueueBroadcast] takes the path that asks
    [Invalidates], and the name table stays empty.  The B-tree is the list of
    its items in ascending order of [Less]. *)

From S2P Require Import Prelude GoStd.

(** The interface a message offers to the queue ([Finished] does nothing for
    the service's messages). *)
Class Broadcast (B : Type) : Type := {
  Invalidates : B -> B -> bool;
  Message : B -> string
}.

Module Queue.

Section Defs.

Context {B : Type} `{!Broadcast B}.

Record limitedBroadcast : Type := LB {
  lb_transmits : Z;
  lb_msgLen : Z;
  lb_id : Z;
  lb_b : B
}.

(** The B-tree key of an item: transmits, message length, id. *)
Definition lb_key (b : limitedBroadcast) : Z * Z * Z := (lb_transmits b, lb_msgLen b, lb_id b).

(** [limitedBroadcast.Less], on keys. *)
Definition Less_key (b o : Z * Z * Z) : bool :=
  let '(b_transmits, b_msgLen, b_id) := b in
  let '(o_transmits, o_msgLen, o_id) := o in
  if b_transmits <? o_transmits then true
  else if b_transmits >? o_transmits then false
  else if b_msgLen >? o_msgLen then true
  else if b_msgLen <? o_msgLen then false
  else b_id >? o_id.

Definition Less (b o : limitedBroadcast) : bool := Less_key (lb_key b) (lb_key o).

Record queue : Type := Q { q_tq : list limitedBroadcast; q_idGen : Z }.

Definition empty_queue : queue := Q [] 0.

(** [btree.ReplaceOrInsert]: an item equal up to [Less] is replaced. *)
Fixpoint tree_insert (x : limitedBroadcast) (l : list limitedBroadcast) : list limitedBroadcast :=
  match l with
  | [] => [x]
  | y :: l =>
      if Less x y then x :: y :: l
      else if Less y x then y :: tree_insert x l
      else x :: l
  end.

(** [btree.Delete]: removes the item equal up to [Less]. *)
Fixpoint tree_delete (x : limitedBroadcast) (l : list limitedBroadcast) : list limitedBroadcast :=
  match l with
  | [] => []
  | y :: l =>
      if Less x y then y :: l
      else if Less y x then y :: tree_delete x l
      else l
  end.

Definition deleteItem (q : queue) (cur : limitedBroadcast) : queue :=
  let tq := tree_delete cur (q_tq q) in
  Q tq (if (length tq =? 0)%nat then 0 else q_idGen q).

Definition addItem (q : queue) (cur : limitedBroadcast) : queue :=
  Q (tree_insert cur (q_tq q)) (q_idGen q).

Definition msg_len (b : B) : Z := Z.of_nat (String.length (Message b)).

Definition queueBroadcast (q : queue) (b : B) (initialTransmits : Z) : queue :=
  let id := if q_idGen q =? MaxInt64 then 1 else q_idGen q + 1 in
  let q := Q (q_tq q) id in
  let lb := LB initialTransmits (msg_len b) id b in
  let remove := filter (fun cur => Invalidates b (lb_b cur) = true) (q_tq q) in
  addItem (fold_left deleteItem remove q) lb.

Definition QueueBroadcast (q : queue) (b : B) : queue := queueBroadcast q b 0.

Definition getTransmitRange (q : queue) : Z * Z :=
  match q_tq q, last (q_tq q) with
  | minItem :: _, Some maxItem => (lb_transmits minItem, lb_transmits maxItem)
  | _, _ => (0, 0)
  end.

(** The item [AscendRange] keeps: the first at or above [ge] and below [lt]
    that fits into [free] bytes. *)
Definition find_fit (free : Z) (ge lt : Z * Z * Z) (l : list limitedBroadcast)
    : option limitedBroadcast :=
  snd <$> list_find (fun cur =>
    Less_key (lb_key cur) ge = false /\ Less_key (lb_key cur) lt = true /\
    msg_len (lb_b cur) <= free) l.

Record sending : Type := Sending {
  s_q : queue;
  s_bytesUsed : Z;
  s_toSend : list B;
  s_reinsert : list limitedBroadcast
}.

(** The loop of [GetBroadcasts] from tier [transmits] on.  Every turn either
    takes an item out of the queue or moves to the next tier. *)
Fixpoint send_loop (fuel : nat) (transmitLimit overhead limit maxTr transmits : Z) (st : sending)
    : sending :=
  match fuel with
  | O => st
  | S fuel =>
      if maxTr <? transmits then st else
      let free := limit - s_bytesUsed st - overhead in
      if free <=? 0 then st else
      match find_fit free (transmits, free, MaxInt64) (transmits + 1, MaxInt64, MaxInt64)
              (q_tq (s_q st)) with
      | None => send_loop fuel transmitLimit overhead limit maxTr (transmits + 1) st
      | Some keep =>
          let reinsert :=
            if transmitLimit <=? lb_transmits keep + 1 then s_reinsert st
            else s_reinsert st
                 ++ [LB (lb_transmits keep + 1) (lb_msgLen keep) (lb_id keep) (lb_b keep)] in
          send_loop fuel transmitLimit overhead limit maxTr transmits
            (Sending (deleteItem (s_q st) keep)
               (s_bytesUsed st + (overhead + msg_len (lb_b keep)))
               (s_toSend st ++ [lb_b keep]) reinsert)
      end
  end.

(** Enough turns: one per queued item, one per tier, one to leave. *)
Definition send_fuel (q : queue) : nat :=
  let '(minTr, maxTr) := getTransmitRange q in
  length (q_tq q) + Z.to_nat (maxTr - minTr + 1) + 1.

Definition GetBroadcasts (q : queue) (transmitLimit overhead limit : Z) : queue * list string :=
  match q_tq q with
  | [] => (q, [])
  | _ =>
      let '(minTr, maxTr) := getTransmitRange q in
      let st := send_loop (send_fuel q) transmitLimit overhead limit maxTr minTr
                  (Sending q 0 [] []) in
      (fold_left addItem (s_reinsert st) (s_q st), Message <$> s_toSend st)
  end.

(** The state of the queue: the tree is in strictly ascending order. *)
Definition sorted (q : queue) : Prop := StronglySorted (fun x y => Less x y = true) (q_tq q).

(** The ids handed out so far bound the ids of the items on tier [t]. *)
Definition ids_bounded (t : Z) (q : queue) : Prop :=
  Forall (fun x => lb_transmits x = t -> 1 <= lb_id x <= q_idGen q) (q_tq q) /\ 0 <= q_idGen q < MaxInt64.

(** What a packet holds: [overhead] and the bytes of each message. *)
Definition packet_size (overhead : Z) (msgs : list string) : Z :=
  foldr (fun m n => overhead + Z.of_nat (String.length m) + n) 0 msgs.

End Defs.

Arguments limitedBroadcast : clear implicits.
Arguments queue : clear implicits.
Arguments sending : clear implicits.

(** ** Lemmas *)

#[global] Arguments Less : simpl never.

Section Facts.

Context {B : Type} `{!Broadcast B}.

Implicit Types (x y z : limitedBroadcast B) (l : list (limitedBroadcast B)) (q : queue B).

Lemma Less_key_spec b o :
  Less_key b o = true <->
  b.1.1 < o.1.1 \/ (b.1.1 = o.1.1 /\ (o.1.2 < b.1.2 \/ (b.1.2 = o.1.2 /\ o.2 < b.2))).
Proof.
  destruct b as [[bt bm] bi], o as [[ot om] oi]. cbn.
  repeat (case_match; try done); rewrite ?Z.gtb_ltb in *; lia.
Qed.

Lemma Less_trans x y z : Less x y = true -> Less y z = true -> Less x z = true.
Proof. unfold Less. rewrite !Less_key_spec. lia. Qed.

Lemma Less_irrefl x : Less x x = false.
Proof. apply not_true_iff_false. unfold Less. rewrite Less_key_spec. lia. Qed.

Lemma Less_asym x y : Less x y = true -> Less y x = false.
Proof. intros H. apply not_true_iff_false. unfold Less in *. rewrite Less_key_spec in *. lia. Qed.

Lemma Less_total x y : Less x y = false -> Less y x = false -> lb_key x = lb_key y.
Proof.
  rewrite <- !not_true_iff_false. unfold Less. rewrite !Less_key_spec.
  destruct x as [xt xm xi xb], y as [yt ym yi yb]. unfold lb_key; cbn. intros. repeat f_equal; lia.
Qed.

Lemma tree_insert_elem x y l : y ∈ tree_insert x l -> y = x \/ y ∈ l.
Proof.
  induction l as [|z l IH]; cbn; [set_solver|].
  destruct (Less x z); [set_solver|]. destruct (Less z x); set_solver.
Qed.

Lemma tree_insert_in x l : x ∈ tree_insert x l.
Proof.
  induction l as [|z l IH]; cbn; [set_solver|].
  destruct (Less x z); [set_solver|]. destruct (Less z x); set_solver.
Qed.

(** An insertion keeps every item with another key. *)
Lemma tree_insert_keeps x y l : y ∈ l -> lb_key y <> lb_key x -> y ∈ tree_insert x l.
Proof.
  induction l as [|z l IH]; cbn; [set_solver|]. intros Hy Hk.
  destruct (Less x z) eqn:H1; [set_solver|]. destruct (Less z x) eqn:H2; [set_solver|].
  apply elem_of_cons in Hy as [-> | Hy]; [|set_solver].
  destruct Hk. by apply Less_total.
Qed.

Lemma tree_insert_sorted x l :
  StronglySorted (fun x y => Less x y = true) l ->
  StronglySorted (fun x y => Less x y = true) (tree_insert x l).
Proof.
  induction 1 as [|z l Hs IH HF]; cbn; [by repeat constructor|].
  rewrite Forall_forall in HF.
  destruct (Less x z) eqn:H1.
  - constructor; [by constructor; [done | apply Forall_forall]|].
    apply Forall_cons. split; [done|]. apply Forall_forall. eauto using Less_trans.
  - destruct (Less z x) eqn:H2; constructor; try done; apply Forall_forall; intros y Hy.
    + apply tree_insert_elem in Hy as [-> | Hy]; auto.
    + unfold Less in *. rewrite (Less_total x z H1 H2). auto.
Qed.

Lemma tree_delete_elem x y l : y ∈ tree_delete x l -> y ∈ l.
Proof.
  induction l as [|z l IH]; cbn; [done|].
  destruct (Less x z); [done|]. destruct (Less z x); set_solver.
Qed.

Lemma tree_delete_sorted x l :
  StronglySorted (fun x y => Less x y = true) l ->
  StronglySorted (fun x y => Less x y = true) (tree_delete x l).
Proof.
  induction 1 as [|z l Hs IH HF]; cbn; [constructor|].
  destruct (Less x z); [by constructor|]. destruct (Less z x); [|done].
  constructor; [done|]. rewrite Forall_forall in *. eauto using tree_delete_elem.
Qed.

(** In a sorted tree an item is determined by its key. *)
Lemma sorted_key_ne z l w :
  Forall (fun y => Less z y = true) l -> w ∈ l -> lb_key w <> lb_key z.
Proof.
  rewrite Forall_forall. intros HF Hw Heq. specialize (HF w Hw). unfold Less in HF.
  rewrite Heq in HF. change (Less z z = true) in HF. by rewrite Less_irrefl in HF.
Qed.

Lemma sorted_key_inj x y l :
  StronglySorted (fun x y => Less x y = true) l -> x ∈ l -> y ∈ l -> lb_key x = lb_key y -> x = y.
Proof.
  induction 1 as [|z l Hs IH HF]; [by inversion 1|]. rewrite !elem_of_cons.
  intros [-> | Hx] [-> | Hy] Heq; [done| | |auto].
  - by destruct (sorted_key_ne z l y HF Hy).
  - by destruct (sorted_key_ne z l x HF Hx).
Qed.

(** In a sorted tree a deletion removes exactly the item with the key. *)
Lemma tree_delete_spec x y l :
  StronglySorted (fun x y => Less x y = true) l ->
  y ∈ tree_delete x l <-> y ∈ l /\ lb_key y <> lb_key x.
Proof.
  induction 1 as [|z l Hs IH HF]; cbn; [set_solver|].
  pose proof HF as HF'. rewrite Forall_forall in HF'.
  destruct (Less x z) eqn:H1.
  - assert (Forall (fun y => Less x y = true) (z :: l)) as HFx.
    { constructor; [done|]. apply Forall_forall. eauto using Less_trans. }
    split; [|naive_solver]. intros Hy. split; [done|]. by eapply sorted_key_ne.
  - destruct (Less z x) eqn:H2.
    + rewrite !elem_of_cons, IH. split; [|naive_solver]. intros [-> | ?]; [|naive_solver].
      split; [by left|]. unfold Less in H2. intros Heq. rewrite Heq in H2.
      change (Less x x = true) in H2. by rewrite Less_irrefl in H2.
    + rewrite (Less_total x z H1 H2), elem_of_cons. split.
      * intros Hy. split; [by right | by eapply sorted_key_ne].
      * by intros [[-> | ?] ?].
Qed.

Lemma tree_delete_length x l :
  StronglySorted (fun x y => Less x y = true) l -> x ∈ l ->
  length l = S (length (tree_delete x l)).
Proof.
  induction 1 as [|z l Hs IH HF]; cbn; [set_solver|]. intros Hx.
  rewrite Forall_forall in HF. apply elem_of_cons in Hx as [-> | Hx].
  - by rewrite Less_irrefl.
  - rewrite (Less_asym z x), (HF x Hx) by auto. cbn. by rewrite <- IH.
Qed.

Lemma deleteItem_sorted q x : sorted q -> sorted (deleteItem q x).
Proof. apply tree_delete_sorted. Qed.

Lemma addItem_sorted q x : sorted q -> sorted (addItem q x).
Proof. apply tree_insert_sorted. Qed.

Lemma fold_addItem_sorted l q : sorted q -> sorted (fold_left addItem l q).
Proof. revert q. induction l as [|x l IH]; intros q Hq; cbn; auto using addItem_sorted. Qed.

Lemma deleteItems_spec l q y :
  sorted q ->
  sorted (fold_left deleteItem l q) /\
  (y ∈ q_tq (fold_left deleteItem l q) <-> y ∈ q_tq q /\ forall x, x ∈ l -> lb_key y <> lb_key x).
Proof.
  revert q. induction l as [|x l IH]; intros q Hq; cbn.
  { split; [done|]. setoid_rewrite elem_of_nil. naive_solver. }
  destruct (IH (deleteItem q x)) as [Hs ->]; [by apply deleteItem_sorted|].
  split; [done|]. cbn. rewrite tree_delete_spec by done.
  split.
  - intros [[Hy Hk] Hall]. split; [done|]. by intros z [-> | Hz]%elem_of_cons; auto.
  - intros [Hy Hall]. repeat split; [done | apply Hall; constructor |].
    intros z Hz. apply Hall. by constructor.
Qed.

Lemma queueBroadcast_contents q b t y :
  sorted q -> ids_bounded t q ->
  sorted (queueBroadcast q b t) /\
  (y ∈ q_tq (queueBroadcast q b t) <->
   y = LB t (msg_len b) (q_idGen q + 1) b \/ (y ∈ q_tq q /\ Invalidates b (lb_b y) = false)).
Proof.
  intros Hs [Hids Hgen]. unfold queueBroadcast.
  destruct (Z.eqb_spec (q_idGen q) MaxInt64) as [Heq|_]; [lia|].
  set (lb := LB t _ _ b). set (q0 := Q (q_tq q) (q_idGen q + 1)).
  set (rem := filter _ _).
  destruct (deleteItems_spec rem q0 y Hs) as [Hs' Hel]. split; [by apply addItem_sorted|].
  assert (Hold : y ∈ q_tq (fold_left deleteItem rem q0) <->
                 y ∈ q_tq q /\ Invalidates b (lb_b y) = false).
  { rewrite Hel. cbn. unfold rem. setoid_rewrite list_elem_of_filter. split.
    - intros [Hy Hn]. split; [done|]. destruct (Invalidates b (lb_b y)) eqn:E; [|done].
      by destruct (Hn y).
    - intros [Hy Hn]. split; [done|]. intros x [Hx Hxq] Heq.
      rewrite (sorted_key_inj y x (q_tq q)) in Hn by done. congruence. }
  cbn. split.
  - intros [-> | Hy]%tree_insert_elem; [by left|]. right. by apply Hold.
  - intros [-> | Hy]; [apply tree_insert_in|]. apply tree_insert_keeps; [by apply Hold|].
    destruct Hy as [Hy _]. rewrite Forall_forall in Hids. specialize (Hids y Hy).
    destruct y. cbn in *. intros [=]. specialize (Hids ltac:(done)). lia.
Qed.

Lemma find_fit_elem free ge lt l x :
  find_fit free ge lt l = Some x -> x ∈ l /\ msg_len (lb_b x) <= free.
Proof.
  unfold find_fit. intros H. destruct (list_find _ _) as [[i y]|] eqn:E; [|done].
  simplify_eq/=. apply list_find_Some in E as (Hi & (_ & _ & Hf) & _).
  split; [by eapply list_elem_of_lookup_2 | done].
Qed.

(** The turns left: one per item, one per tier. *)
Definition send_measure (maxTr transmits : Z) (st : sending B) : nat :=
  length (q_tq (s_q st)) + Z.to_nat (maxTr - transmits + 1).

Lemma send_loop_fuel fuel extra tl overhead limit maxTr transmits st :
  sorted (s_q st) -> (send_measure maxTr transmits st < fuel)%nat ->
  send_loop (fuel + extra) tl overhead limit maxTr transmits st =
  send_loop fuel tl overhead limit maxTr transmits st.
Proof.
  revert transmits st. induction fuel as [|fuel IH]; intros transmits st Hs Hm; [lia|].
  cbn. destruct (Z.ltb_spec maxTr transmits); [done|].
  destruct (limit - s_bytesUsed st - overhead <=? 0); [done|].
  destruct (find_fit _ _ _ _) as [keep|] eqn:Hf.
  - apply find_fit_elem in Hf as [Hin _]. apply IH.
    + by apply deleteItem_sorted.
    + unfold send_measure in *. cbn. pose proof (tree_delete_length keep _ Hs Hin). lia.
  - apply IH; [done|]. unfold send_measure in *. lia.
Qed.

Lemma packet_size_app overhead (l : list string) m :
  packet_size overhead (l ++ [m]) = packet_size overhead l + (overhead + Z.of_nat (String.length m)).
Proof. unfold packet_size. induction l as [|x l IH]; cbn; lia. Qed.

Lemma send_loop_bytes fuel tl overhead limit maxTr transmits st :
  packet_size overhead (Message <$> s_toSend st) = s_bytesUsed st ->
  s_bytesUsed st <= Z.max 0 limit ->
  let st' := send_loop fuel tl overhead limit maxTr transmits st in
  packet_size overhead (Message <$> s_toSend st') <= Z.max 0 limit.
Proof.
  revert transmits st. induction fuel as [|fuel IH]; intros transmits st Hp Hle; cbn; [lia|].
  destruct (maxTr <? transmits); [lia|].
  destruct (Z.leb_spec (limit - s_bytesUsed st - overhead) 0); [lia|].
  destruct (find_fit _ _ _ _) as [keep|] eqn:Hf; [|by apply IH].
  apply find_fit_elem in Hf as [_ Hfit]. apply IH; cbn [s_toSend s_bytesUsed].
  - rewrite fmap_app. change (Message <$> [lb_b keep]) with [Message (lb_b keep)].
    rewrite packet_size_app, Hp. unfold msg_len. lia.
  - lia.
Qed.

(** What is sent was queued. *)
Lemma send_loop_from fuel tl overhead limit maxTr transmits st (P : B -> Prop) :
  Forall P (lb_b <$> q_tq (s_q st)) -> Forall P (s_toSend st) ->
  Forall P (s_toSend (send_loop fuel tl overhead limit maxTr transmits st)).
Proof.
  revert transmits st. induction fuel as [|fuel IH]; intros transmits st Hq Hs; [done|]. cbn.
  repeat (case_match; [done|]). destruct (find_fit _ _ _ _) as [keep|] eqn:Hf; [|by apply IH].
  apply find_fit_elem in Hf as [Hin _]. apply IH; cbn [s_q s_toSend].
  - rewrite Forall_fmap, Forall_forall in *. intros x Hx. apply Hq. cbn in Hx.
    by apply tree_delete_elem in Hx.
  - apply Forall_app. split; [done|]. apply Forall_singleton.
    rewrite Forall_fmap, Forall_forall in Hq. by apply Hq.
Qed.

Lemma GetBroadcasts_from q tl overhead limit (P : B -> Prop) :
  Forall P (lb_b <$> q_tq q) ->
  exists bs, (GetBroadcasts q tl overhead limit).2 = Message <$> bs /\ Forall P bs.
Proof.
  intros HP. unfold GetBroadcasts. destruct (q_tq q) eqn:Hq; [by exists []|].
  destruct (getTransmitRange q) as [minTr maxTr]. cbn [snd]. eexists. split; [reflexivity|].
  apply send_loop_from; cbn; [by rewrite Hq|constructor].
Qed.

Lemma GetBroadcasts_bytes q tl overhead limit :
  packet_size overhead (GetBroadcasts q tl overhead limit).2 <= Z.max 0 limit.
Proof.
  unfold GetBroadcasts. destruct (q_tq q); [cbn; lia|]. destruct (getTransmitRange q) as [minTr maxTr].
  cbn [snd]. apply send_loop_bytes; cbn; lia.
Qed.

Lemma GetBroadcasts_sorted q tl overhead limit :
  sorted q -> sorted (GetBroadcasts q tl overhead limit).1.
Proof.
  intros Hs. unfold GetBroadcasts. destruct (q_tq q) eqn:Hq; [done|].
  destruct (getTransmitRange q) as [minTr maxTr]. cbn. apply fold_addItem_sorted.
  assert (Hgen : forall fuel tr st, sorted (s_q st) ->
            sorted (s_q (send_loop fuel tl overhead limit maxTr tr st))); [|by apply Hgen].
  induction fuel as [|fuel IH]; intros tr st Hst; [done|]. cbn.
  repeat case_match; try done; apply IH; cbn; auto using deleteItem_sorted.
Qed.

End Facts.

End Queue.

(** [retransmitLimit] of util.go; [ceil_log10] stands for the float
    computation [math.Ceil(math.Log10(float64(n)))]. *)
Definition retransmitLimit (ceil_log10 : Z -> Z) (retransmitMult n : Z) : Z :=
  retransmitMult * ceil_log10 (n + 1).

(** ** Properties *)

(** Messages to run the queue on: a message replaces those of its name. *)
Record note : Type := Note { note_name : string; note_text : string }.

#[global] Instance note_Broadcast : Broadcast note := {
  Invalidates a b := bool_decide (note_name a = note_name b);
  Message := note_text
}.

(** Queueing a broadcast replaces what it makes obsolete and nothing else:
    the tree stays sorted, and it holds the new item, with no transmissions,
    and exactly the old items the message does not invalidate. *)
Theorem queue_enqueue {B} `{!Broadcast B} (q : Queue.queue B) b y :
  Queue.sorted q -> Queue.ids_bounded 0 q ->
  Queue.sorted (Queue.QueueBroadcast q b) /\
  (y ∈ Queue.q_tq (Queue.QueueBroadcast q b) <->
   y = Queue.LB 0 (Queue.msg_len b) (Queue.q_idGen q + 1) b \/
   (y ∈ Queue.q_tq q /\ Invalidates b (Queue.lb_b y) = false)).
Proof. apply Queue.queueBroadcast_contents. Qed.

Lemma queue_enqueue_witness :
  let q := Queue.QueueBroadcast Queue.empty_queue (Note "a" "x") in
  let y := Queue.LB 0 1 1 (Note "a" "x") in
  Queue.sorted (Queue.QueueBroadcast q (Note "b" "yy")) /\
  (y ∈ Queue.q_tq (Queue.QueueBroadcast q (Note "b" "yy")) <->
   y = Queue.LB 0 (Queue.msg_len (Note "b" "yy")) (Queue.q_idGen q + 1) (Note "b" "yy") \/
   (y ∈ Queue.q_tq q /\ Invalidates (Note "b" "yy") (Queue.lb_b y) = false)).
Proof.
  apply (queue_enqueue (Queue.QueueBroadcast Queue.empty_queue (Note "a" "x")) (Note "b" "yy")
           (Queue.LB 0 1 1 (Note "a" "x"))).
  - repeat constructor.
  - split; [repeat constructor|]; vm_compute; try split; discriminate || reflexivity.
Defined.

(** C33: a packet fits: the messages [GetBroadcasts] returns, with their
    overhead, take at most [limit] bytes, every one of them was queued, and
    the tree stays sorted; the loop over the tiers ends (more turns than one
    per item and one per tier change nothing). *)
Theorem queue_send_bounded {B} `{!Broadcast B} (q : Queue.queue B) tl overhead limit :
  Queue.sorted q ->
  Queue.packet_size overhead (Queue.GetBroadcasts q tl overhead limit).2 <= Z.max 0 limit /\
  Queue.sorted (Queue.GetBroadcasts q tl overhead limit).1 /\
  (exists bs, (Queue.GetBroadcasts q tl overhead limit).2 = Message <$> bs /\
              Forall (fun b => b ∈ Queue.lb_b <$> Queue.q_tq q) bs) /\
  (let '(minTr, maxTr) := Queue.getTransmitRange q in
   forall extra, Queue.send_loop (Queue.send_fuel q + extra) tl overhead limit maxTr minTr
                   (Queue.Sending q 0 [] []) =
                 Queue.send_loop (Queue.send_fuel q) tl overhead limit maxTr minTr (Queue.Sending q 0 [] [])).
Proof.
  intros Hs. split_and!; [apply Queue.GetBroadcasts_bytes | by apply Queue.GetBroadcasts_sorted | |].
  - apply Queue.GetBroadcasts_from. by apply Forall_forall.
  - destruct (Queue.getTransmitRange q) as [minTr maxTr] eqn:Hr. intros extra.
    apply Queue.send_loop_fuel; [done|]. unfold Queue.send_measure, Queue.send_fuel. rewrite Hr. cbn. lia.
Qed.

Lemma queue_send_bounded_witness :
  let q := Queue.QueueBroadcast (Queue.QueueBroadcast Queue.empty_queue (Note "a" "x")) (Note "b" "yy") in
  Queue.packet_size 2 (Queue.GetBroadcasts q 3 2 5).2 <= Z.max 0 5 /\
  (Queue.GetBroadcasts q 3 2 5).2 = ["yy"%string].
Proof.
  split; [|vm_compute; reflexivity].
  apply (queue_send_bounded (Queue.QueueBroadcast (Queue.QueueBroadcast Queue.empty_queue
           (Note "a" "x")) (Note "b" "yy")) 3 2 5).
  apply Queue.addItem_sorted, Queue.addItem_sorted. constructor.
Defined.

(** Ids are reused while items are still queued: deleting the last item
    resets the id generator although the item is put back after sending, so a
    later message of the same length takes its place in the tree and the
    earlier one, which nothing invalidated, is sent no more. *)
Theorem queue_id_reuse_drops :
  let q := Queue.QueueBroadcast Queue.empty_queue (Note "a" "one") in
  let q := (Queue.GetBroadcasts q 4 2 100).1 in
  let q := Queue.QueueBroadcast q (Note "b" "two") in
  let q' := (Queue.GetBroadcasts q 4 2 6).1 in
  Invalidates (Note "b" "two") (Note "a" "one") = false /\
  Queue.lb_b <$> Queue.q_tq q = [Note "b" "two"; Note "a" "one"] /\
  Queue.lb_b <$> Queue.q_tq q' = [Note "b" "two"].
Proof. split_and!; vm_compute; reflexivity. Qed.
