(* ===== verification/Delegate.v ===== *)
(** * Gossip messages and the memberlist delegate: delegate.go

    [MyBroadcastMessage] with its JSON form and its [Invalidates] order, the
    delegate that queues outgoing and collects incoming messages, and the
    member counter of [MyEventDelegate].  The status constants are those of
    gossipCache.go. *)

From S2P Require Import Prelude GoStd Json Queue.

(** A status is a string type in the source: scripts may print any text. *)
Abbreviation gossipStatus := string (only parsing).

Definition GOSSIP_UP : gossipStatus := "UP".
Definition GOSSIP_DOWN : gossipStatus := "DOWN".
Definition GOSSIP_EMPTY : gossipStatus := "EMPTY".
Definition GOSSIP_LESS_THAN_MINSAMPLE : gossipStatus := "LESS_THAN_MINSAMPLE".
Definition GOSSIP_NOT_FILL_SAMPLES : gossipStatus := "NOT_FILL_SAMPLES".
Definition GOSSIP_NO_EMPTY_IN_SAMPLES : gossipStatus := "NO_EMPTY_IN_SAMPLES".
Definition GOSSIP_EMPTY_RECOVER : gossipStatus := "EMPTY_RECOVER".
Definition GOSSIP_KEY_NODE_NOT_EXISTS : gossipStatus := "KEY_NODE_NOT_EXISTS".

Record MyBroadcastMessage : Type := Msg {
  TimeStamp : Z;
  Node : string;
  Key : string;
  Value : string;
  Status : gossipStatus
}.

#[global] Instance MyBroadcastMessage_eq_dec : EqDecision MyBroadcastMessage.
Proof. solve_decision. Defined.

Module Delegate.

(** ** The message *)

Definition msg_Invalidates (m mb : MyBroadcastMessage) : bool :=
  bool_decide (Node m = Node mb) && bool_decide (Key m = Key mb) && (TimeStamp m >? TimeStamp mb).

(** [json.Marshal] of the struct; it cannot fail for these field types. *)
Definition msg_Message (m : MyBroadcastMessage) : string :=
  Encode.object [("timestamp", Strconv.FormatInt (TimeStamp m)); ("node", Lit.quote (Node m));
    ("key", Lit.quote (Key m)); ("value", Lit.quote (Value m)); ("status", Lit.quote (Status m))].

Definition zero_msg : MyBroadcastMessage := Msg 0 "" "" "" "".

Definition msg_fields : list (Decode.field MyBroadcastMessage) := [
  Decode.Field "timestamp" (Decode.store_int64 (fun n m => Msg n (Node m) (Key m) (Value m) (Status m)));
  Decode.Field "node" (Decode.store_string (fun s m => Msg (TimeStamp m) s (Key m) (Value m) (Status m)));
  Decode.Field "key" (Decode.store_string (fun s m => Msg (TimeStamp m) (Node m) s (Value m) (Status m)));
  Decode.Field "value" (Decode.store_string (fun s m => Msg (TimeStamp m) (Node m) (Key m) s (Status m)));
  Decode.Field "status" (Decode.store_string (fun s m => Msg (TimeStamp m) (Node m) (Key m) (Value m) s))
].

(** The decoder is given [&msg] with [msg] a pointer: JSON [null] sets the
    pointer to nil and is no error. *)
Definition ParseMyBroadcastMessage (data : string) : option MyBroadcastMessage * bool :=
  match Parse.parse_document data with
  | None => (None, false)
  | Some JNull => (None, true)
  | Some j =>
      match Decode.into_struct msg_fields zero_msg j with
      | Some m => (Some m, true)
      | None => (None, false)
      end
  end.

#[global] Instance MyBroadcastMessage_Broadcast : Broadcast MyBroadcastMessage := {
  Invalidates := msg_Invalidates;
  Message := msg_Message
}.

(** ** The delegate *)

Record MyDelegate : Type := MkDelegate {
  d_meta : string;
  d_state : string;
  d_remoteState : string;
  d_broadcasts : Queue.queue MyBroadcastMessage;
  d_msgs : list MyBroadcastMessage
}.

Definition setMeta (m : MyDelegate) (meta : string) : MyDelegate :=
  MkDelegate meta (d_state m) (d_remoteState m) (d_broadcasts m) (d_msgs m).

(** [m.meta[0:limit]] panics on a negative limit. *)
Definition NodeMeta (m : MyDelegate) (limit : Z) : outcome string :=
  if Z.of_nat (String.length (d_meta m)) >? limit then
    if limit <? 0 then Panic IndexOutOfRange
    else Ret (String.substring 0 (Z.to_nat limit) (d_meta m))
  else Ret (d_meta m).

Definition setState (m : MyDelegate) (state : string) : MyDelegate :=
  MkDelegate (d_meta m) state (d_remoteState m) (d_broadcasts m) (d_msgs m).

Definition LocalState (m : MyDelegate) (join : bool) : string := d_state m.

Definition setBroadcasts (m : MyDelegate) (broadcasts : list MyBroadcastMessage) : MyDelegate :=
  MkDelegate (d_meta m) (d_state m) (d_remoteState m)
    (fold_left Queue.QueueBroadcast broadcasts (d_broadcasts m)) (d_msgs m).

Definition GetBroadcasts (m : MyDelegate) (transmitLimit overhead limit : Z)
    : MyDelegate * list string :=
  let '(q, out) := Queue.GetBroadcasts (d_broadcasts m) transmitLimit overhead limit in
  (MkDelegate (d_meta m) (d_state m) (d_remoteState m) q (d_msgs m), out).

Definition getRemoteState (m : MyDelegate) : string := d_remoteState m.

Definition MergeRemoteState (m : MyDelegate) (buf : string) (join : bool) : MyDelegate :=
  MkDelegate (d_meta m) (d_state m) buf (d_broadcasts m) (d_msgs m).

Definition getMessages (m : MyDelegate) : MyDelegate * list MyBroadcastMessage :=
  (MkDelegate (d_meta m) (d_state m) (d_remoteState m) (d_broadcasts m) [], d_msgs m).

(** [m.msgs = append(m.msgs, *v)] dereferences the parsed pointer. *)
Definition NotifyMsg (m : MyDelegate) (msg : string) : outcome MyDelegate :=
  match ParseMyBroadcastMessage msg with
  | (_, false) => Ret m
  | (None, true) => Panic NilDeref
  | (Some v, true) =>
      Ret (MkDelegate (d_meta m) (d_state m) (d_remoteState m) (d_broadcasts m) (d_msgs m ++ [v]))
  end.

(** The delegate [NewGossipNode] builds: [setMeta(addr)] is followed by
    [d.meta = []byte{}]. *)
Definition new_delegate (addr : string) : MyDelegate :=
  let d := MkDelegate "" "" "" Queue.empty_queue [] in
  let d := setMeta d addr in
  MkDelegate "" "" "" (d_broadcasts d) (d_msgs d).

(** ** The event delegate: an [int] counts the members. *)

Definition NotifyJoin (Num : Z) : Z := wrap64 (Num + 1).
Definition NotifyLeave (Num : Z) : Z := wrap64 (Num - 1).
Definition NotifyUpdate (Num : Z) : Z := Num.

(** ** Lemmas *)

Lemma Invalidates_spec m mb :
  msg_Invalidates m mb = true <->
  Node m = Node mb /\ Key m = Key mb /\ TimeStamp mb < TimeStamp m.
Proof.
  unfold msg_Invalidates. rewrite !andb_true_iff, !bool_decide_eq_true, Z.gtb_lt. naive_solver.
Qed.

(** A message whose fields the JSON codec carries unchanged. *)
Definition msg_clean (m : MyBroadcastMessage) : Prop :=
  in_int64 (TimeStamp m) /\ Utf8.valid (Node m) = true /\ Utf8.valid (Key m) = true /\
  Utf8.valid (Value m) = true /\ Utf8.valid (Status m) = true.

Lemma Parse_Message m : msg_clean m -> ParseMyBroadcastMessage (msg_Message m) = (Some m, true).
Proof.
  intros (Ht & Hn & Hk & Hv & Hs). unfold ParseMyBroadcastMessage, msg_Message.
  rewrite (parse_document_object _ [("timestamp", JNum (Strconv.FormatInt (TimeStamp m)));
    ("node", JStr (Node m)); ("key", JStr (Key m)); ("value", JStr (Value m));
    ("status", JStr (Status m))]).
  - cbn [Decode.into_struct fold_left].
    erewrite store_member_hit;
      [| reflexivity | done | cbn [Decode.f_store Decode.store_int64]; by rewrite ParseInt_FormatInt].
    store_members. by destruct m.
  - constructor; [split; [done | by apply renders_int]|].
    repeat constructor; by apply member_quote.
Qed.

Lemma NotifyMsg_Message d m :
  msg_clean m ->
  NotifyMsg d (msg_Message m) =
  Ret (MkDelegate (d_meta d) (d_state d) (d_remoteState d) (d_broadcasts d) (d_msgs d ++ [m])).
Proof. intros Hm. unfold NotifyMsg. by rewrite Parse_Message. Qed.

(** Delivering a sequence of messages keeps their order behind what was
    already waiting. *)
Lemma NotifyMsg_all ms : forall d,
  Forall msg_clean ms ->
  foldlM NotifyMsg d (msg_Message <$> ms) =
  Ret (MkDelegate (d_meta d) (d_state d) (d_remoteState d) (d_broadcasts d) (d_msgs d ++ ms)).
Proof.
  induction ms as [|m ms IH]; intros d HF.
  - cbn. rewrite app_nil_r. by destruct d.
  - apply Forall_cons in HF as [Hm HF]. cbn [fmap list_fmap foldlM].
    rewrite NotifyMsg_Message by done. cbn [mbind outcome_bind].
    etrans; [apply IH; done|]. cbn. by rewrite <- app_assoc.
Qed.

End Delegate.

(** ** Properties *)

Definition demo_msg : MyBroadcastMessage := Msg 1700000000000000000 "10.0.0.1:8000" "db" "10.0.0.9:8091" GOSSIP_DOWN.

Lemma demo_msg_clean : Delegate.msg_clean demo_msg.
Proof. unfold Delegate.msg_clean, demo_msg. split_and!; first [reflexivity | cbn; solve_int]. Qed.

(** One hop of gossip loses and changes nothing that is sent: the packets
    the sender's delegate hands to memberlist, each delivered to a receiver,
    append messages to its inbox that are all from the sender's queue, in
    order, and collecting them leaves the inbox empty. *)
Theorem gossip_hop (d1 d2 : Delegate.MyDelegate) tl overhead limit :
  Forall Delegate.msg_clean (Queue.lb_b <$> Queue.q_tq (Delegate.d_broadcasts d1)) ->
  exists ms d2', foldlM Delegate.NotifyMsg d2 (Delegate.GetBroadcasts d1 tl overhead limit).2 = Ret d2' /\
    Forall (fun m => m ∈ Queue.lb_b <$> Queue.q_tq (Delegate.d_broadcasts d1)) ms /\
    (Delegate.GetBroadcasts d1 tl overhead limit).2 = Delegate.msg_Message <$> ms /\
    Delegate.getMessages d2' =
      (Delegate.MkDelegate (Delegate.d_meta d2) (Delegate.d_state d2) (Delegate.d_remoteState d2)
         (Delegate.d_broadcasts d2) [], Delegate.d_msgs d2 ++ ms).
Proof.
  intros Hcl. destruct (Queue.GetBroadcasts_from (Delegate.d_broadcasts d1) tl overhead limit
    (fun m => m ∈ Queue.lb_b <$> Queue.q_tq (Delegate.d_broadcasts d1))) as (ms & Hout & Hms).
  { by apply Forall_forall. }
  assert (Hout' : (Delegate.GetBroadcasts d1 tl overhead limit).2 = Delegate.msg_Message <$> ms).
  { unfold Delegate.GetBroadcasts.
    destruct (Queue.GetBroadcasts (Delegate.d_broadcasts d1) tl overhead limit). exact Hout. }
  exists ms. rewrite Hout', Delegate.NotifyMsg_all.
  - eexists. by split_and!.
  - rewrite Forall_forall in *. auto.
Qed.

Lemma gossip_hop_witness :
  let d1 := Delegate.setBroadcasts (Delegate.new_delegate "a:1") [demo_msg] in
  let d2 := Delegate.new_delegate "b:1" in
  exists ms d2', foldlM Delegate.NotifyMsg d2 (Delegate.GetBroadcasts d1 4 3 1400).2 = Ret d2' /\
    Forall (fun m => m ∈ Queue.lb_b <$> Queue.q_tq (Delegate.d_broadcasts d1)) ms /\
    (Delegate.GetBroadcasts d1 4 3 1400).2 = Delegate.msg_Message <$> ms /\
    Delegate.getMessages d2' =
      (Delegate.MkDelegate (Delegate.d_meta d2) (Delegate.d_state d2) (Delegate.d_remoteState d2)
         (Delegate.d_broadcasts d2) [], Delegate.d_msgs d2 ++ ms).
Proof.
  apply (gossip_hop (Delegate.setBroadcasts (Delegate.new_delegate "a:1") [demo_msg])).
  apply Forall_singleton, demo_msg_clean.
Defined.

(** The JSON form of a broadcast is decoded to the broadcast. *)
Theorem broadcast_roundtrip m :
  Delegate.msg_clean m -> Delegate.ParseMyBroadcastMessage (Delegate.msg_Message m) = (Some m, true).
Proof. apply Delegate.Parse_Message. Qed.

Lemma broadcast_roundtrip_witness :
  Delegate.ParseMyBroadcastMessage (Delegate.msg_Message demo_msg) = (Some demo_msg, true).
Proof. apply broadcast_roundtrip, demo_msg_clean. Defined.

(** C38: queueing a report replaces exactly the strictly older reports of the same
    node on the same key: afterwards the queue holds the new report, not yet
    sent, under the next id, and of the earlier items all and only those that
    are of another node, on another key, or not older; nothing else of the
    delegate changes.  The queue is in order and its ids are behind the
    generator. *)
Theorem report_replaces_older (d : Delegate.MyDelegate) m :
  let q := Delegate.d_broadcasts d in
  Queue.sorted q -> Queue.ids_bounded 0 q ->
  (forall y, y ∈ Queue.q_tq (Delegate.d_broadcasts (Delegate.setBroadcasts d [m])) <->
     y = Queue.LB 0 (Z.of_nat (String.length (Delegate.msg_Message m))) (Queue.q_idGen q + 1) m \/
     (y ∈ Queue.q_tq q /\
      ~ (Node (Queue.lb_b y) = Node m /\ Key (Queue.lb_b y) = Key m /\ TimeStamp (Queue.lb_b y) < TimeStamp m))) /\
  Delegate.d_msgs (Delegate.setBroadcasts d [m]) = Delegate.d_msgs d.
Proof.
  intros q Hs Hb. split; [|done]. intros y.
  change (Delegate.d_broadcasts (Delegate.setBroadcasts d [m])) with (Queue.queueBroadcast q m 0).
  rewrite (proj2 (Queue.queueBroadcast_contents q m 0 y Hs Hb)). change (Queue.msg_len m) with (Z.of_nat (String.length (Delegate.msg_Message m))).
  rewrite <- not_true_iff_false. change (Invalidates m (Queue.lb_b y)) with (Delegate.msg_Invalidates m (Queue.lb_b y)).
  rewrite Delegate.Invalidates_spec. naive_solver.
Qed.

(** Of three queued reports the new one replaces its older one only. *)
Definition busy_delegate : Delegate.MyDelegate :=
  Delegate.setBroadcasts (Delegate.new_delegate "n1:1")
    [Msg 5 "n1:1" "db" "h" GOSSIP_UP; Msg 6 "n2:1" "db" "h" GOSSIP_UP; Msg 9 "n1:1" "kv" "h" GOSSIP_UP].

Lemma report_replaces_older_witness :
  let m := Msg 8 "n1:1" "db" "h" GOSSIP_DOWN in
  length (Queue.q_tq (Delegate.d_broadcasts (Delegate.setBroadcasts busy_delegate [m]))) = 3%nat /\
  forall y, y ∈ Queue.q_tq (Delegate.d_broadcasts (Delegate.setBroadcasts busy_delegate [m])) <->
    y = Queue.LB 0 68 4 m \/
    (y ∈ Queue.q_tq (Delegate.d_broadcasts busy_delegate) /\
     ~ (Node (Queue.lb_b y) = "n1:1" /\ Key (Queue.lb_b y) = "db" /\ TimeStamp (Queue.lb_b y) < 8)).
Proof.
  split; [vm_compute; reflexivity|].
  apply (report_replaces_older busy_delegate (Msg 8 "n1:1" "db" "h" GOSSIP_DOWN)).
  - vm_compute. repeat constructor.
  - split; [|split; vm_compute; first [reflexivity | discriminate]].
    repeat (apply Forall_cons; split; [intros _; split; vm_compute; discriminate|]). by apply Forall_nil.
Defined.

(** A packet whose body is the JSON text [null] parses into a nil pointer,
    which [NotifyMsg] dereferences: any peer can stop the node with it. *)
Theorem null_packet_panics d : Delegate.NotifyMsg d "null" = Panic NilDeref.
Proof. reflexivity. Qed.
