(* ===== verification/QueueFlow.v ===== *)
(** * Runs of the broadcast queue: memberlist's queue.go over time

    What the queue does with a message between [QueueBroadcast] and the last
    packet that carries it: the number of transmissions is bounded in every
    interleaving of queueing and sending, and once nothing is queued any more
    every message that has not been sent yet goes out after a bounded number
    of packets. *)

From stdpp Require Import list_numbers.
From S2P Require Import Prelude GoStd Queue Delegate.

Module QueueFlow.

Import Queue.

Section Defs.

Context {B : Type} `{!Broadcast B}.

(** A call on the queue: a message, or the overhead and limit of a packet with
    the retransmission limit the cluster size gave at that moment. *)
Inductive op : Type :=
  | Enqueue (b : B)
  | Send (transmitLimit overhead limit : Z).

(** The state of [GetBroadcasts] when its loop has ended. *)
Definition packet (q : queue B) (tl overhead limit : Z) : sending B :=
  let '(minTr, maxTr) := getTransmitRange q in
  send_loop (send_fuel q) tl overhead limit maxTr minTr (Sending q 0 [] []).

(** [GetBroadcasts] with the messages themselves instead of their bytes. *)
Definition send (q : queue B) (tl overhead limit : Z) : queue B * list B :=
  match q_tq q with
  | [] => (q, [])
  | _ => let st := packet q tl overhead limit in
         (fold_left addItem (s_reinsert st) (s_q st), s_toSend st)
  end.

Definition run_op (x : queue B * list B) (o : op) : queue B * list B :=
  match o with
  | Enqueue b => (QueueBroadcast x.1 b, x.2)
  | Send tl overhead limit => let '(q, out) := send x.1 tl overhead limit in (q, x.2 ++ out)
  end.

(** The queue after the calls, and everything sent so far. *)
Definition run (ops : list op) (x : queue B * list B) : queue B * list B := fold_left run_op ops x.

(** ** Specification *)

(** An item as the queue keeps it under the retransmission limit [T]. *)
Definition item_ok (T : Z) (x : limitedBroadcast B) : Prop :=
  0 <= lb_transmits x < T /\ lb_msgLen x = msg_len (lb_b x) /\ lb_id x <= MaxInt64.

Definition flow_ok (T : Z) (q : queue B) : Prop :=
  sorted q /\ Forall (item_ok T) (q_tq q) /\ 0 <= q_idGen q <= MaxInt64.

(** The transmissions an item, and a list of items, may still cost, counting
    the messages [sel] selects. *)
Definition budget (T : Z) (sel : B -> bool) (x : limitedBroadcast B) : nat :=
  if sel (lb_b x) then Z.to_nat (T - lb_transmits x) else 0.

Definition budgets (T : Z) (sel : B -> bool) : list (limitedBroadcast B) -> nat :=
  sum_list_with (budget T sel).

Definition times (sel : B -> bool) (bs : list B) : nat := length (filter (fun b => sel b = true) bs).

Definition enqueued (ops : list op) : list B :=
  omap (fun o => match o with Enqueue b => Some b | Send _ _ _ => None end) ops.

(** The retransmission limits seen in a run are at most [T]. *)
Definition limits_within (T : Z) (ops : list op) : Prop :=
  Forall (fun o => match o with Enqueue _ => True | Send tl _ _ => tl <= T end) ops.

End Defs.

Arguments op : clear implicits.

(** ** Lemmas *)

Section Facts.

Context {B : Type} `{!Broadcast B}.

Implicit Types (x y : limitedBroadcast B) (l : list (limitedBroadcast B)) (q : queue B) (sel : B -> bool).

(** [GetBroadcasts] is [send], with the bytes of the messages. *)
Lemma GetBroadcasts_send q tl overhead limit :
  GetBroadcasts q tl overhead limit =
  ((send q tl overhead limit).1, Message <$> (send q tl overhead limit).2).
Proof.
  unfold GetBroadcasts, send, packet. destruct (q_tq q); [done|]. by destruct (getTransmitRange q).
Qed.

(** One turn of the loop that found an item. *)
Definition taken (tl overhead : Z) (st : sending B) (keep : limitedBroadcast B) : sending B :=
  Sending (deleteItem (s_q st) keep) (s_bytesUsed st + (overhead + msg_len (lb_b keep)))
    (s_toSend st ++ [lb_b keep])
    (if tl <=? lb_transmits keep + 1 then s_reinsert st
     else s_reinsert st ++ [LB (lb_transmits keep + 1) (lb_msgLen keep) (lb_id keep) (lb_b keep)]).

(** What every turn keeps, the loop keeps. *)
Lemma send_loop_ind (P : sending B -> Prop) tl overhead limit :
  (forall st keep, P st -> keep ∈ q_tq (s_q st) -> P (taken tl overhead st keep)) ->
  forall fuel maxTr transmits st, P st -> P (send_loop fuel tl overhead limit maxTr transmits st).
Proof.
  intros Hstep fuel maxTr. induction fuel as [|fuel IH]; intros transmits st Hst; [done|]. cbn.
  repeat (case_match; [done|]). destruct (find_fit _ _ _ _) as [keep|] eqn:Hf; [|by apply IH].
  apply find_fit_elem in Hf as [Hin _]. apply IH. by apply (Hstep st keep).
Qed.

Lemma packet_ind (P : sending B -> Prop) q tl overhead limit :
  (forall st keep, P st -> keep ∈ q_tq (s_q st) -> P (taken tl overhead st keep)) ->
  P (Sending q 0 [] []) -> P (packet q tl overhead limit).
Proof.
  intros Hstep H0. unfold packet. destruct (getTransmitRange q). by apply send_loop_ind.
Qed.

Lemma tree_delete_perm x l :
  StronglySorted (fun x y => Less x y = true) l -> x ∈ l -> l ≡ₚ x :: tree_delete x l.
Proof.
  induction 1 as [|z l Hs IH HF]; cbn; [set_solver|]. intros Hx.
  rewrite Forall_forall in HF. apply elem_of_cons in Hx as [-> | Hx].
  - by rewrite Less_irrefl.
  - rewrite (Less_asym z x), (HF x Hx) by auto. rewrite IH at 1 by done. constructor.
Qed.

Lemma budgets_delete T sel x l :
  StronglySorted (fun x y => Less x y = true) l -> x ∈ l ->
  budgets T sel l = (budget T sel x + budgets T sel (tree_delete x l))%nat.
Proof. intros Hs Hx. unfold budgets. by rewrite (tree_delete_perm x l Hs Hx) at 1. Qed.

Lemma budgets_delete_le T sel x l : (budgets T sel (tree_delete x l) <= budgets T sel l)%nat.
Proof.
  unfold budgets. induction l as [|y l IH]; cbn; [done|].
  destruct (Less x y); [done|]. destruct (Less y x); cbn; lia.
Qed.

Lemma budgets_delete_all T sel l q :
  (budgets T sel (q_tq (fold_left deleteItem l q)) <= budgets T sel (q_tq q))%nat.
Proof.
  revert q. induction l as [|x l IH]; intros q; cbn; [done|]. rewrite IH. apply budgets_delete_le.
Qed.

Lemma budgets_insert T sel x l :
  (budgets T sel (tree_insert x l) <= budget T sel x + budgets T sel l)%nat.
Proof.
  unfold budgets. induction l as [|y l IH]; cbn; [lia|].
  destruct (Less x y); [done|]. destruct (Less y x); cbn; lia.
Qed.

Lemma budgets_insert_all T sel r q :
  (budgets T sel (q_tq (fold_left addItem r q)) <= budgets T sel r + budgets T sel (q_tq q))%nat.
Proof.
  revert q. induction r as [|x r IH]; intros q; cbn; [done|]. rewrite IH. cbn.
  pose proof (budgets_insert T sel x (q_tq q)). unfold budgets in *. cbn. lia.
Qed.

Lemma times_app sel bs1 bs2 : times sel (bs1 ++ bs2) = (times sel bs1 + times sel bs2)%nat.
Proof. unfold times. by rewrite filter_app, length_app. Qed.

Lemma times_cons sel b bs : times sel (b :: bs) = (times sel [b] + times sel bs)%nat.
Proof. exact (times_app sel [b] bs). Qed.

Lemma times_one sel b : times sel [b] = if sel b then 1%nat else 0%nat.
Proof. unfold times. rewrite filter_cons. by destruct (sel b). Qed.

(** ** The invariant *)

Lemma deleteItem_flow T q x : flow_ok T q -> flow_ok T (deleteItem q x).
Proof.
  intros (Hs & HF & Hid). split_and!; [by apply deleteItem_sorted| |cbn; case_match; lia..].
  rewrite Forall_forall in *. intros y Hy. apply HF. by apply tree_delete_elem in Hy.
Qed.

Lemma deleteItems_flow T l q : flow_ok T q -> flow_ok T (fold_left deleteItem l q).
Proof.
  revert q. induction l as [|x l IH]; intros q Hq; cbn; [done|]. by apply IH, deleteItem_flow.
Qed.

Lemma addItem_flow T q x : item_ok T x -> flow_ok T q -> flow_ok T (addItem q x).
Proof.
  intros Hx (Hs & HF & Hid). split_and!; [by apply addItem_sorted| |apply Hid..].
  rewrite Forall_forall in *. intros y [-> | Hy]%tree_insert_elem; auto.
Qed.

Lemma addItems_flow T r q : Forall (item_ok T) r -> flow_ok T q -> flow_ok T (fold_left addItem r q).
Proof.
  intros Hr. revert q. induction Hr as [|x r Hx _ IH]; intros q Hq; cbn; [done|].
  by apply IH, addItem_flow.
Qed.

Lemma enqueue_flow T q b : 1 <= T -> flow_ok T q -> flow_ok T (QueueBroadcast q b).
Proof.
  intros HT (Hs & HF & Hid). unfold QueueBroadcast, queueBroadcast.
  set (id := if q_idGen q =? MaxInt64 then 1 else q_idGen q + 1).
  assert (Hb : 0 <= id <= MaxInt64).
  { subst id. destruct (Z.eqb_spec (q_idGen q) MaxInt64); solve_int. }
  apply addItem_flow; [split_and!; cbn; lia|].
  apply deleteItems_flow. by split_and!; try apply Hb.
Qed.

(** The loop keeps the invariant of the queue, and what waits to be put back
    has been sent at least once and may be sent again. *)
Lemma packet_flow T q tl overhead limit :
  tl <= T -> flow_ok T q ->
  let st := packet q tl overhead limit in
  flow_ok T (s_q st) /\ Forall (item_ok T) (s_reinsert st) /\
  Forall (fun x => 1 <= lb_transmits x) (s_reinsert st).
Proof.
  intros Htl Hq. apply packet_ind; [|by split_and!]. intros st keep (Hf & Hr & H1) Hin.
  split; [by apply deleteItem_flow|]. cbn. destruct Hf as (_ & HF & _).
  rewrite Forall_forall in HF. destruct (HF keep Hin) as ([Htr _] & Hlen & Hid).
  destruct (Z.leb_spec tl (lb_transmits keep + 1)); [done|].
  rewrite !Forall_app, !Forall_singleton. unfold item_ok. cbn. split_and!; first [done | lia].
Qed.

Lemma send_flow T q tl overhead limit :
  tl <= T -> flow_ok T q -> flow_ok T (send q tl overhead limit).1.
Proof.
  intros Htl Hq. unfold send. destruct (q_tq q); [done|].
  destruct (packet_flow T q tl overhead limit Htl Hq) as (Hf & Hr & _). by apply addItems_flow.
Qed.

(** ** What is sent is paid from the budget *)

Lemma packet_budget T sel q tl overhead limit :
  tl <= T -> flow_ok T q ->
  let st := packet q tl overhead limit in
  (times sel (s_toSend st) + budgets T sel (q_tq (s_q st)) + budgets T sel (s_reinsert st)
   <= budgets T sel (q_tq q))%nat.
Proof.
  intros Htl Hq.
  cut (let st := packet q tl overhead limit in flow_ok T (s_q st) /\
       (times sel (s_toSend st) + budgets T sel (q_tq (s_q st)) + budgets T sel (s_reinsert st)
        <= budgets T sel (q_tq q))%nat); [by intros [_ ?]|].
  apply packet_ind; [|split; [done|cbn; lia]]. intros st keep (Hf & Hle) Hin.
  split; [by apply deleteItem_flow|]. cbn [taken s_q s_toSend s_reinsert deleteItem q_tq]. destruct Hf as (Hs & HF & _).
  rewrite Forall_forall in HF. destruct (HF keep Hin) as ([Htr HT] & _).
  rewrite (budgets_delete T sel keep _ Hs Hin) in Hle. rewrite times_app.
  assert (Hpay : (times sel [lb_b keep] + budget T sel (LB (lb_transmits keep + 1) (lb_msgLen keep)
    (lb_id keep) (lb_b keep)) <= budget T sel keep)%nat).
  { rewrite times_one. unfold budget. cbn. destruct (sel (lb_b keep)); lia. }
  destruct (tl <=? lb_transmits keep + 1); [lia|].
  unfold budgets in *. rewrite sum_list_with_app. cbn [sum_list_with]. lia.
Qed.

Lemma send_budget T sel q tl overhead limit :
  tl <= T -> flow_ok T q ->
  (times sel (send q tl overhead limit).2 + budgets T sel (q_tq (send q tl overhead limit).1)
   <= budgets T sel (q_tq q))%nat.
Proof.
  intros Htl Hq. unfold send. destruct (q_tq q) eqn:Heq; [cbn; by rewrite Heq|]. rewrite <- Heq.
  pose proof (packet_budget T sel q tl overhead limit Htl Hq). cbn [fst snd] in *.
  pose proof (budgets_insert_all T sel (s_reinsert (packet q tl overhead limit))
    (s_q (packet q tl overhead limit))). lia.
Qed.

Lemma enqueue_budget T sel q b :
  (budgets T sel (q_tq (QueueBroadcast q b)) <=
   times sel [b] * Z.to_nat T + budgets T sel (q_tq q))%nat.
Proof.
  unfold QueueBroadcast, queueBroadcast. set (id := if q_idGen q =? _ then _ else _). cbn [addItem q_tq].
  rewrite budgets_insert. apply Nat.add_le_mono.
  - rewrite times_one. unfold budget. cbn. destruct (sel b); lia.
  - exact (budgets_delete_all T sel _ (Q (q_tq q) id)).
Qed.

Lemma run_budget T sel (ops : list (op B)) (x : queue B * list B) :
  1 <= T -> limits_within T ops -> flow_ok T x.1 ->
  flow_ok T (run ops x).1 /\
  (times sel (run ops x).2 + budgets T sel (q_tq (run ops x).1) <=
   times sel x.2 + budgets T sel (q_tq x.1) + times sel (enqueued ops) * Z.to_nat T)%nat.
Proof.
  intros HT Hlim. revert x. induction Hlim as [|o ops Ho _ IH]; intros x Hx.
  { split; [done|]. cbn. lia. }
  unfold run in *. cbn [fold_left].
  assert (Hflow : flow_ok T (run_op x o).1).
  { destruct o; cbn [run_op]; [by apply enqueue_flow|].
    pose proof (send_flow T x.1 transmitLimit overhead limit Ho Hx). by destruct (send _ _ _ _). }
  destruct (IH _ Hflow) as [Hok Hle]. split; [done|]. rewrite Hle.
  destruct o as [b|tl overhead limit]; cbn [run_op fst snd].
  - pose proof (enqueue_budget T sel x.1 b). unfold enqueued. cbn [omap list_omap].
    rewrite (times_cons sel b). unfold enqueued in *. lia.
  - pose proof (send_budget T sel x.1 tl overhead limit Ho Hx).
    destruct (send x.1 tl overhead limit) as [q' out]. cbn [fst snd] in *. rewrite times_app.
    unfold enqueued in *. cbn [omap list_omap]. lia.
Qed.

(** ** Sending alone empties the queue *)

(** Every message fits into a packet of its own. *)
Definition fits (overhead limit : Z) (q : queue B) : Prop :=
  overhead < limit /\ Forall (fun x => overhead + msg_len (lb_b x) <= limit) (q_tq q).

Lemma packet_nonempty T q tl overhead limit :
  flow_ok T q -> q_tq q <> [] -> fits overhead limit q -> s_toSend (packet q tl overhead limit) <> [].
Proof.
  intros (Hs & HF & _) Hne [Hlim Hfit]. unfold packet, send_fuel, getTransmitRange.
  destruct (q_tq q) as [|y l] eqn:Hq; [done|]. destruct (last (y :: l)) as [z|] eqn:Hz;
    [|by apply last_None in Hz].
  rewrite Nat.add_1_r. cbn [send_loop s_bytesUsed s_q]. rewrite Hq.
  apply Forall_cons in Hfit as [Hy _]. apply Forall_cons in HF as [(Htr & Hlen & Hid) HF'].
  assert (Hrange : lb_transmits y <= lb_transmits z).
  { apply last_Some_elem_of in Hz as [-> | Hz]%elem_of_cons; [done|].
    unfold sorted in Hs. rewrite Hq in Hs. apply StronglySorted_inv in Hs as [_ HL].
    rewrite Forall_forall in HL. specialize (HL z Hz). unfold Less in HL. apply Less_key_spec in HL.
    cbn in HL. lia. }
  destruct (Z.ltb_spec (lb_transmits z) (lb_transmits y)); [lia|].
  destruct (Z.leb_spec (limit - 0 - overhead) 0); [lia|].
  assert (Hk : is_Some (find_fit (limit - 0 - overhead) (lb_transmits y, limit - 0 - overhead, MaxInt64)
    (lb_transmits y + 1, MaxInt64, MaxInt64) (y :: l))).
  { unfold find_fit. apply fmap_is_Some, (list_find_elem_of _ _ y); [constructor|].
    rewrite <- not_true_iff_false, !Less_key_spec. cbn. unfold lb_key. cbn. lia. }
  destruct Hk as [keep ->].
  refine (send_loop_ind (fun st => s_toSend st <> []) _ _ _ _ _ _ _ _ _); [|by intros []%app_nil].
  intros st k _ _. cbn. by intros []%app_nil.
Qed.

Definition all (_ : B) : bool := true.

Lemma times_all bs : times all bs = length bs.
Proof. induction bs as [|b bs IH]; [done|]. rewrite times_cons, times_one, IH. done. Qed.

(** A queue whose budget is spent is empty. *)
Lemma budgets_empty T q : flow_ok T q -> budgets T all (q_tq q) = 0%nat -> q_tq q = [].
Proof.
  intros (_ & HF & _) H0. destruct (q_tq q) as [|x l]; [done|]. apply Forall_cons in HF as [[Ht _] _].
  unfold budgets, budget in H0. cbn in H0. lia.
Qed.

(** Queue and packet hold only what was queued. *)
Lemma send_forall (P : B -> Prop) q tl overhead limit :
  Forall P (lb_b <$> q_tq q) ->
  Forall P (lb_b <$> q_tq (send q tl overhead limit).1) /\ Forall P (send q tl overhead limit).2.
Proof.
  intros HP. unfold send. destruct (q_tq q) eqn:Hq; [cbn; by rewrite Hq|]. rewrite <- Hq in HP. clear Hq.
  cbn [fst snd]. rewrite Forall_fmap in *. set (P' := P ∘ lb_b) in *.
  assert (Hst : let st := packet q tl overhead limit in
            Forall P' (q_tq (s_q st)) /\ Forall P' (s_reinsert st) /\ Forall P (s_toSend st)).
  { apply packet_ind; [|by split_and!; [|apply Forall_nil|apply Forall_nil]].
    intros st keep (Hq & Hr & Ht) Hin. cbn. rewrite !Forall_forall in *.
    split_and!; [intros x Hx%tree_delete_elem; auto| |];
      [|intros x [Hx | ->%list_elem_of_singleton]%elem_of_app; [auto|exact (Hq keep Hin)]].
    case_match; [done|].
    intros x [Hx | ->%list_elem_of_singleton]%elem_of_app; [auto|exact (Hq keep Hin)]. }
  destruct Hst as (H1 & H2 & H3). split; [|done]. revert H1. generalize (s_q (packet q tl overhead limit)) as q0.
  induction H2 as [|x r Hx _ IH]; intros q0 H1; cbn; [done|]. apply IH. cbn.
  rewrite Forall_forall in *. intros y [-> | Hy]%tree_insert_elem; auto.
Qed.

Lemma enqueue_forall (P : B -> Prop) q b :
  P b -> Forall P (lb_b <$> q_tq q) -> Forall P (lb_b <$> q_tq (QueueBroadcast q b)).
Proof.
  intros Hb HP. rewrite Forall_fmap, Forall_forall in *. unfold QueueBroadcast, queueBroadcast.
  set (id := if q_idGen q =? _ then _ else _). intros y [-> | Hy]%tree_insert_elem; [done|]. apply HP.
  revert Hy. generalize (filter (fun cur : limitedBroadcast B => Invalidates b (lb_b cur) = true)
    (q_tq (Q (q_tq q) id))) as r. change (q_tq q) with (q_tq (Q (q_tq q) id)) at 2.
  intros r. revert r. generalize (Q (q_tq q) id) as q0. intros q0 r. revert q0.
  induction r as [|x r IH]; intros q0 Hy; [done|]. apply IH in Hy. by apply tree_delete_elem in Hy.
Qed.

Lemma enqueue_elem q b : exists y, y ∈ q_tq (QueueBroadcast q b) /\ lb_transmits y = 0 /\ lb_b y = b.
Proof. eexists. split; [apply tree_insert_in|done]. Qed.

Lemma send_fits overhead limit q tl overhead' limit' :
  fits overhead limit q -> fits overhead limit (send q tl overhead' limit').1.
Proof.
  intros [Hlim Hfit]. split; [done|].
  apply (Forall_fmap lb_b (fun b => overhead + msg_len b <= limit)), send_forall.
  by apply (Forall_fmap lb_b (fun b => overhead + msg_len b <= limit)).
Qed.

(** An item that was never sent stays in the queue or goes into the packet. *)
Lemma send_keeps q tl overhead limit y :
  sorted q -> Forall (fun x => 1 <= lb_transmits x) (s_reinsert (packet q tl overhead limit)) ->
  y ∈ q_tq q -> lb_transmits y = 0 ->
  y ∈ q_tq (send q tl overhead limit).1 \/ lb_b y ∈ (send q tl overhead limit).2.
Proof.
  intros Hq Hre Hy H0. unfold send. destruct (q_tq q) eqn:Heq; [by apply elem_of_nil in Hy|].
  rewrite <- Heq in Hy. clear Heq. cbn [fst snd].
  assert (Hst : let st := packet q tl overhead limit in
            sorted (s_q st) /\ (y ∈ q_tq (s_q st) \/ lb_b y ∈ s_toSend st)).
  { apply packet_ind; [|split; [done|by left]]. intros st keep [Hs Hor] Hin.
    split; [by apply deleteItem_sorted|]. cbn. rewrite tree_delete_spec, elem_of_app by done.
    destruct Hor as [Hor | Hor]; [|tauto]. destruct (decide (lb_key y = lb_key keep)) as [Hk|Hk]; [|tauto].
    rewrite (sorted_key_inj y keep _ Hs Hor Hin Hk). right. right. constructor. }
  destruct Hst as [_ [Hin | Hin]]; [left | by right]. revert Hin.
  generalize (s_q (packet q tl overhead limit)) as q0.
  induction Hre as [|x r Hx _ IH]; intros q0 Hin; cbn; [done|]. apply IH, tree_insert_keeps; [done|].
  unfold lb_key. intros [=]. lia.
Qed.

Lemma send_keeps_unsent T q tl overhead limit y :
  tl <= T -> flow_ok T q -> y ∈ q_tq q -> lb_transmits y = 0 ->
  y ∈ q_tq (send q tl overhead limit).1 \/ lb_b y ∈ (send q tl overhead limit).2.
Proof.
  intros Htl Hq. apply send_keeps; [apply Hq|].
  by destruct (packet_flow T q tl overhead limit Htl Hq) as (_ & _ & Hre).
Qed.

(** The packets of a list of calls. *)
Definition sends (calls : list (Z * Z * Z)) : list (op B) :=
  (fun c => Send c.1.1 c.1.2 c.2) <$> calls.

Lemma sends_forall (P : B -> Prop) calls : forall q out,
  Forall P (lb_b <$> q_tq q) -> Forall P out -> Forall P (run (sends calls) (q, out)).2.
Proof.
  unfold sends, run. induction calls as [|[[tl ov] li] calls IH]; intros q out Hq Hout; [done|].
  cbn [fmap list_fmap fold_left run_op fst snd]. destruct (send_forall P q tl ov li Hq) as [Hq' Hs].
  destruct (send q tl ov li) as [q' sent]. apply IH; [done|]. by apply Forall_app.
Qed.

Lemma sends_drain T calls : forall q out,
  flow_ok T q -> Forall (fun c => c.1.1 <= T /\ fits c.1.2 c.2 q) calls ->
  (budgets T all (q_tq q) <= length calls)%nat ->
  q_tq (run (sends calls) (q, out)).1 = [] /\
  (forall b, b ∈ out -> b ∈ (run (sends calls) (q, out)).2) /\
  (forall y, y ∈ q_tq q -> lb_transmits y = 0 -> lb_b y ∈ (run (sends calls) (q, out)).2).
Proof.
  induction calls as [|[[tl ov] li] calls IH]; intros q out Hq Hc Hb; cbn [length] in Hb.
  { assert (He : q_tq q = []) by (apply (budgets_empty T); [done|lia]).
    split_and!; [done|done|]. rewrite He. by intros y ?%elem_of_nil. }
  apply Forall_cons in Hc as [[Htl Hfit] Hc]. unfold sends, run in *. cbn [fmap list_fmap fold_left run_op fst snd] in *.
  pose proof (send_flow T q tl ov li Htl Hq) as Hq'. pose proof (send_budget T all q tl ov li Htl Hq) as Hb'.
  pose proof (fun y => send_keeps_unsent T q tl ov li y Htl Hq) as Hkeep.
  assert (Hc' : Forall (fun c => c.1.1 <= T /\ fits c.1.2 c.2 (send q tl ov li).1) calls).
  { eapply Forall_impl; [exact Hc|]. intros c [? ?]. split; [done|]. by apply send_fits. }
  assert (Hdec : (budgets T all (q_tq (send q tl ov li).1) <= length calls)%nat).
  { destruct (q_tq q) as [|x l] eqn:He.
    - unfold send. rewrite He. cbn. rewrite He. cbn. lia.
    - assert (Hne : (send q tl ov li).2 <> []).
      { unfold send. rewrite He. cbn [snd]. apply (packet_nonempty T); [done|by rewrite He|done]. }
      rewrite times_all in Hb'. destruct (send q tl ov li).2; [done|]. cbn [length] in Hb'. lia. }
  destruct (send q tl ov li) as [q' sent]. cbn [fst snd] in *.
  destruct (IH q' (out ++ sent) Hq' Hc' Hdec) as (He & Hout & Hun). split_and!; [done| |].
  - intros b Hin. apply Hout. set_solver.
  - intros y Hy H0. destruct (Hkeep y Hy H0) as [Hin | Hin]; [by apply Hun|]. apply Hout. set_solver.
Qed.

End Facts.

End QueueFlow.

(** ** Properties *)

Section Claims.

Import Queue QueueFlow.

(** C34: gossip does not flood: in every interleaving of queueing and sending on
    a queue whose items keep their invariant, the invariant is kept, and the
    messages of any class are sent at most [T] times for each time one was
    queued, where [T] bounds the retransmission limits seen in the run. *)
Theorem queue_transmit_bound {B} `{!Broadcast B} T (sel : B -> bool) (ops : list (op B)) :
  1 <= T -> limits_within T ops ->
  flow_ok T (run ops (empty_queue, [])).1 /\
  (times sel (run ops (empty_queue, [])).2 <= times sel (enqueued ops) * Z.to_nat T)%nat.
Proof.
  intros HT Hlim. destruct (run_budget T sel ops (empty_queue, []) HT Hlim) as [Hok Hle].
  - split_and!; [constructor|by apply Forall_nil|cbn; solve_int..].
  - split; [done|]. cbn [fst snd empty_queue q_tq] in Hle. cbn in Hle |- *. lia.
Qed.

Definition demo_ops : list (op note) :=
  [Enqueue (Note "a" "one"); Send 2 2 100; Enqueue (Note "b" "three"); Send 3 2 100; Send 3 2 100; Send 3 2 100].

Lemma queue_transmit_bound_witness :
  flow_ok 3 (run demo_ops (empty_queue, [])).1 /\
  (times all (run demo_ops (empty_queue, [])).2 <= times all (enqueued demo_ops) * 3)%nat /\
  (run demo_ops (empty_queue, [])).2 =
    [Note "a" "one"; Note "b" "three"; Note "a" "one"; Note "b" "three"; Note "a" "one"; Note "b" "three"].
Proof.
  destruct (queue_transmit_bound 3 all demo_ops) as [H1 H2]; [lia| |].
  - unfold limits_within, demo_ops. repeat (apply Forall_cons; split; [cbn; try lia; exact I|]). by apply Forall_nil.
  - split_and!; [exact H1|exact H2|vm_compute; reflexivity].
Defined.

(** C35: nothing waits for ever: when no message is queued any more, a number of
    packets equal to the transmissions left, each large enough for every
    message alone, empties the queue, and every message that had not been sent
    is in one of them. *)
Theorem queue_drains {B} `{!Broadcast B} T (q : queue B) calls :
  flow_ok T q -> Forall (fun c => c.1.1 <= T /\ fits c.1.2 c.2 q) calls ->
  (budgets T all (q_tq q) <= length calls)%nat ->
  q_tq (run (sends calls) (q, [])).1 = [] /\
  forall y, y ∈ q_tq q -> lb_transmits y = 0 -> lb_b y ∈ (run (sends calls) (q, [])).2.
Proof. intros Hq Hc Hb. by destruct (sends_drain T calls q [] Hq Hc Hb) as (? & _ & ?). Qed.

Definition demo_queue : queue note :=
  (run [Enqueue (Note "a" "one"); Enqueue (Note "b" "three")] (empty_queue, [])).1.

Lemma queue_drains_witness :
  q_tq (run (sends (repeat (2, 2, 7) 4)) (demo_queue, [])).1 = [] /\
  forall y, y ∈ q_tq demo_queue -> lb_transmits y = 0 ->
            lb_b y ∈ (run (sends (repeat (2, 2, 7) 4)) (demo_queue, [])).2.
Proof.
  apply (queue_drains 2).
  - split_and!.
    + vm_compute. repeat constructor.
    + repeat (apply Forall_cons; split; [split_and!; vm_compute; first [done | discriminate]|]). by apply Forall_nil.
    + vm_compute. discriminate.
    + vm_compute. discriminate.
  - assert (Hfit : fits 2 7 demo_queue).
    { split; [lia|]. repeat (apply Forall_cons; split; [vm_compute; discriminate|]). by apply Forall_nil. }
    repeat (apply Forall_cons; split; [split; [cbn; lia|exact Hfit]|]). by apply Forall_nil.
  - vm_compute. lia.
Defined.

(** A report can be lost before it is ever sent: queueing it deletes the
    report it replaces, which empties the tree and resets the id generator
    after the id of the new item was drawn; the second report queued after
    that, of the same length, then has the same key and takes its place. *)
Theorem queue_unsent_lost :
  let report t n k := Msg t n k "10.0.0.9:8091" GOSSIP_UP in
  let ops := [Enqueue (report 11 "n1:1" "db"); Enqueue (report 12 "n1:1" "db");
              Enqueue (report 13 "n1:1" "kv"); Enqueue (report 14 "n2:1" "kv")] in
  let '(q, out) := run ops (empty_queue, []) in
  out = [] /\ Forall (fun b => Invalidates b (report 12 "n1:1" "db") = false) (lb_b <$> q_tq q) /\
  lb_b <$> q_tq q = [report 14 "n2:1" "kv"; report 13 "n1:1" "kv"].
Proof. vm_compute. split_and!; [done| |done]. repeat constructor. Qed.

End Claims.
