(* ===== verification/QueueSafe.v ===== *)
(** * When the broadcast queue loses nothing: memberlist's queue.go

    [QueueFlow.queue_unsent_lost] shows that a message can disappear from the
    queue before it was ever sent, when a message that replaces all queued ones
    resets the id generator.  Here is the converse: as long as no message
    replaces everything that is queued, no unsent message is lost. *)

From S2P Require Import Prelude GoStd Queue QueueFlow.

Module QueueSafe.

Import Queue QueueFlow.

Section Defs.

Context {B : Type} `{!Broadcast B}.

(** Queueing [b] leaves an item behind, or there was none. *)
Definition leaves_one (q : queue B) (b : B) : bool :=
  match q_tq q with
  | [] => true
  | l => existsb (fun x => negb (Invalidates b (lb_b x))) l
  end.

(** Every message of the run leaves an item behind. *)
Fixpoint orderly (x : queue B * list B) (ops : list (op B)) : bool :=
  match ops with
  | [] => true
  | o :: ops =>
      match o with Enqueue b => leaves_one x.1 b | Send _ _ _ => true end && orderly (run_op x o) ops
  end.

(** The ids of the unsent items are at most the last one drawn, of [n] draws. *)
Definition tidy (n : Z) (q : queue B) : Prop :=
  sorted q /\ Forall (fun x => 0 <= lb_transmits x /\ (lb_transmits x = 0 -> 1 <= lb_id x <= q_idGen q)) (q_tq q) /\
  0 <= q_idGen q <= n.

(** [b] is queued and was not sent yet. *)
Definition unsent (q : queue B) (b : B) : Prop := exists y, y ∈ q_tq q /\ lb_transmits y = 0 /\ lb_b y = b.

End Defs.

(** ** Lemmas *)

Section Facts.

Context {B : Type} `{!Broadcast B}.

Implicit Types (x y : limitedBroadcast B) (q : queue B) (b : B).

(** The id generator is reset only when nothing is left. *)
Lemma deleteItems_idGen l q y :
  sorted q -> y ∈ q_tq q -> (forall x, x ∈ l -> lb_key y <> lb_key x) ->
  q_idGen (fold_left deleteItem l q) = q_idGen q.
Proof.
  revert q. induction l as [|x l IH]; intros q Hs Hy Hk; cbn; [done|].
  assert (Hy' : y ∈ q_tq (deleteItem q x)).
  { apply tree_delete_spec; [done|]. split; [done|]. apply Hk. constructor. }
  rewrite IH; [|by apply deleteItem_sorted|done|intros z Hz; apply Hk; by constructor].
  cbn. cbn in Hy'. destruct (tree_delete x (q_tq q)); [by apply elem_of_nil in Hy'|done].
Qed.

Lemma leaves_one_spec q b :
  leaves_one q b = true -> q_tq q = [] \/ exists y, y ∈ q_tq q /\ Invalidates b (lb_b y) = false.
Proof.
  unfold leaves_one. destruct (q_tq q) as [|x l]; [by left|]. intros H. right.
  apply existsb_exists in H as (y & Hy & Hn). exists y. split; [by apply list_elem_of_In|].
  by apply negb_true_iff.
Qed.

Lemma tidy_bounded n q : tidy n q -> n < MaxInt64 -> ids_bounded 0 q.
Proof.
  intros (_ & HF & Hid) Hn. split; [|lia]. eapply Forall_impl; [exact HF|]. cbn. naive_solver.
Qed.

(** After queueing, the generator stands at the id of the new item. *)
Lemma enqueue_idGen n q b :
  tidy n q -> n < MaxInt64 -> leaves_one q b = true -> q_idGen (QueueBroadcast q b) = q_idGen q + 1.
Proof.
  intros (Hs & HF & Hid) Hn Hl. unfold QueueBroadcast, queueBroadcast.
  destruct (Z.eqb_spec (q_idGen q) MaxInt64); [lia|]. cbn [addItem q_idGen].
  apply leaves_one_spec in Hl as [Hnil | (y & Hy & Hnot)]; [cbn; by rewrite Hnil|].
  rewrite (deleteItems_idGen _ _ y); [done|done|done|].
  intros x [Hx Hxq]%list_elem_of_filter Heq. cbn in Hxq.
  rewrite (sorted_key_inj y x (q_tq q)) in Hnot by done. congruence.
Qed.

Lemma enqueue_tidy n q b :
  tidy n q -> n < MaxInt64 -> leaves_one q b = true -> tidy (n + 1) (QueueBroadcast q b).
Proof.
  intros Ht Hn Hl. pose proof (enqueue_idGen n q b Ht Hn Hl) as Hg.
  pose proof (tidy_bounded n q Ht Hn) as Hb. destruct Ht as (Hs & HF & Hid).
  split_and!; [| |lia..].
  - apply (queueBroadcast_contents q b 0 (LB 0 0 0 b) Hs Hb).
  - apply Forall_forall. intros y Hy. rewrite Hg.
    apply (queueBroadcast_contents q b 0 y Hs Hb) in Hy as [-> | [Hy _]]; [cbn; lia|].
    rewrite Forall_forall in HF. specialize (HF y Hy). lia.
Qed.

Lemma enqueue_keeps n q b y :
  tidy n q -> n < MaxInt64 -> y ∈ q_tq q -> Invalidates b (lb_b y) = false -> y ∈ q_tq (QueueBroadcast q b).
Proof.
  intros Ht Hn Hy Hi. apply (queueBroadcast_contents q b 0 y (proj1 Ht) (tidy_bounded n q Ht Hn)). by right.
Qed.

Lemma deleteItem_tidy n q x : tidy n q -> tidy n (deleteItem q x).
Proof.
  intros (Hs & HF & Hid). split_and!; [by apply deleteItem_sorted| |cbn; case_match; lia..].
  rewrite Forall_forall in *. intros y Hy. specialize (HF y (tree_delete_elem _ _ _ Hy)).
  cbn in Hy |- *. destruct (tree_delete x (q_tq q)); [by apply elem_of_nil in Hy|]. cbn. done.
Qed.

(** Items that were sent can be put back whatever their ids. *)
Lemma addItems_tidy n r q :
  Forall (fun x => 1 <= lb_transmits x) r -> tidy n q -> tidy n (fold_left addItem r q).
Proof.
  intros Hr. revert q. induction Hr as [|x r Hx _ IH]; intros q (Hs & HF & Hid); cbn; [done|].
  apply IH. split_and!; [by apply addItem_sorted| |apply Hid..].
  rewrite Forall_forall in *. intros y [-> | Hy]%tree_insert_elem; [lia|by apply HF].
Qed.

Lemma packet_tidy n q tl overhead limit :
  tidy n q -> let st := packet q tl overhead limit in
  tidy n (s_q st) /\ Forall (fun x => 1 <= lb_transmits x) (s_reinsert st).
Proof.
  intros Ht. apply packet_ind; [|by split; [|apply Forall_nil]]. intros st keep [Hq Hr] Hin.
  split; [by apply deleteItem_tidy|]. cbn. destruct Hq as (_ & HF & _). rewrite Forall_forall in HF.
  specialize (HF keep Hin). case_match; [done|]. rewrite Forall_app, Forall_singleton. cbn. split; [done|lia].
Qed.

Lemma send_tidy n q tl overhead limit : tidy n q -> tidy n (send q tl overhead limit).1.
Proof.
  intros Ht. unfold send. destruct (q_tq q); [done|].
  destruct (packet_tidy n q tl overhead limit Ht) as [Hq Hr]. by apply addItems_tidy.
Qed.

Lemma run_out_incl ops : forall (x : queue B * list B) b, b ∈ x.2 -> b ∈ (run ops x).2.
Proof.
  unfold run. induction ops as [|o ops IH]; intros x b Hb; [done|]. cbn [fold_left]. apply IH.
  destruct o; cbn [run_op]; [done|]. destruct (send _ _ _ _). set_solver.
Qed.

(** An unsent item stays until it is sent or replaced. *)
Lemma run_keeps ops : forall n (x : queue B * list B) y,
  tidy n x.1 -> orderly x ops = true -> n + Z.of_nat (length ops) < MaxInt64 ->
  y ∈ q_tq x.1 -> lb_transmits y = 0 ->
  lb_b y ∈ (run ops x).2 \/ y ∈ q_tq (run ops x).1 \/
  exists b, b ∈ enqueued ops /\ Invalidates b (lb_b y) = true.
Proof.
  unfold run. induction ops as [|o ops IH]; intros n x y Ht Ho Hn Hy H0; [auto|].
  cbn [orderly fold_left length] in *. apply andb_true_iff in Ho as [Ho1 Ho]. destruct o as [b|tl ov li].
  - destruct (Invalidates b (lb_b y)) eqn:Hi; [right; right; exists b; split; [constructor|done]|].
    destruct (IH (n + 1) (run_op x (Enqueue b)) y) as [Hs | [Hs | (b' & Hb & Hi')]]; [| |lia| |done|auto|auto|].
    + apply enqueue_tidy; [done|lia|done].
    + done.
    + apply (enqueue_keeps n); [done|lia|done|done].
    + right. right. exists b'. split; [by constructor|done].
  - destruct (packet_tidy n x.1 tl ov li Ht) as [_ Hre].
    pose proof (send_keeps x.1 tl ov li y (proj1 Ht) Hre Hy H0) as Hk.
    pose proof (send_tidy n x.1 tl ov li Ht) as Ht'. cbn [run_op] in *.
    destruct (send x.1 tl ov li) as [q' sent]. cbn [fst snd] in *.
    destruct Hk as [Hk | Hk]; [by apply (IH n (q', x.2 ++ sent) y); [..|lia| |]|].
    left. apply run_out_incl. set_solver.
Qed.

Lemma run_tidy ops : forall n (x : queue B * list B),
  tidy n x.1 -> orderly x ops = true -> n + Z.of_nat (length ops) < MaxInt64 ->
  tidy (n + Z.of_nat (length ops)) (run ops x).1.
Proof.
  unfold run. induction ops as [|o ops IH]; intros n x Ht Ho Hn; [cbn; by rewrite Z.add_0_r|].
  cbn [orderly fold_left length] in *. apply andb_true_iff in Ho as [Ho1 Ho].
  replace (n + Z.of_nat (S (length ops))) with (n + 1 + Z.of_nat (length ops)) by lia.
  apply IH; [|done|lia]. destruct o as [b|tl ov li].
  - apply enqueue_tidy; [done|lia|done].
  - pose proof (send_tidy n x.1 tl ov li Ht) as (? & ? & ?). cbn [run_op].
    destruct (send x.1 tl ov li) as [q' sent]. cbn [fst] in *. split_and!; [done|done|lia|lia].
Qed.

Lemma orderly_app ops1 : forall (x : queue B * list B) ops2,
  orderly x (ops1 ++ ops2) = orderly x ops1 && orderly (run ops1 x) ops2.
Proof.
  unfold run. induction ops1 as [|o ops1 IH]; intros x ops2; [done|]. cbn [app orderly fold_left].
  by rewrite IH, andb_assoc.
Qed.

End Facts.

End QueueSafe.

(** ** Properties *)

Section Claims.

Import Queue QueueFlow QueueSafe.

(** C36: no unsent message is lost in an orderly run: whatever is queued and sent
    in between, when no message replaces everything in the queue at once, a
    queued message has been sent at least once, or is still in the queue, or a
    later message has made it obsolete. *)
Theorem queue_keeps_unsent {B} `{!Broadcast B} (ops1 ops2 : list (op B)) b :
  let ops := ops1 ++ Enqueue b :: ops2 in
  orderly (empty_queue, []) ops = true -> Z.of_nat (length ops) < MaxInt64 ->
  b ∈ (run ops (empty_queue, [])).2 \/ unsent (run ops (empty_queue, [])).1 b \/
  exists b', b' ∈ enqueued ops2 /\ Invalidates b' b = true.
Proof.
  intros ops Ho Hn. subst ops. rewrite orderly_app in Ho. apply andb_true_iff in Ho as [Ho1 Ho2].
  cbn [orderly] in Ho2. apply andb_true_iff in Ho2 as [Hl Ho2]. rewrite length_app in Hn. cbn [length] in Hn.
  assert (Ht0 : tidy 0 (empty_queue : queue B)).
  { split_and!; [constructor|by apply Forall_nil|cbn; lia..]. }
  pose proof (run_tidy ops1 0 (empty_queue, []) Ht0 Ho1 ltac:(lia)) as Ht1.
  set (x := run ops1 (empty_queue, [])) in *.
  pose proof (enqueue_tidy _ _ b Ht1 ltac:(lia) Hl) as Ht2.
  destruct (enqueue_elem x.1 b) as (y & Hy & H0 & Hb).
  assert (Hfin : run (ops1 ++ Enqueue b :: ops2) (empty_queue, []) = run ops2 (run_op x (Enqueue b))).
  { unfold run. by rewrite fold_left_app. }
  pose proof (run_keeps ops2 _ (run_op x (Enqueue b)) y Ht2 Ho2 ltac:(lia) Hy H0) as Hs.
  rewrite <- Hfin, Hb in Hs. destruct Hs as [Hs | [Hs | Hs]]; [by left| |by right; right].
  right. left. by exists y.
Qed.

Lemma queue_keeps_unsent_witness :
  let ops := [Enqueue (Note "a" "one")] ++ Enqueue (Note "b" "two") ::
             [Enqueue (Note "a" "six"); Send 3 2 6; Enqueue (Note "c" "ten"); Send 3 2 6] in
  Note "b" "two" ∈ (run ops (empty_queue, [])).2 \/ unsent (run ops (empty_queue, [])).1 (Note "b" "two") \/
  exists b', b' ∈ enqueued [Enqueue (Note "a" "six"); Send 3 2 6; Enqueue (Note "c" "ten"); Send 3 2 6] /\
             Invalidates b' (Note "b" "two") = true.
Proof.
  apply (queue_keeps_unsent [Enqueue (Note "a" "one")]
           [Enqueue (Note "a" "six"); Send 3 2 6; Enqueue (Note "c" "ten"); Send 3 2 6] (Note "b" "two")).
  - vm_compute. reflexivity.
  - vm_compute. reflexivity.
Defined.

End Claims.
