(* ===== verification/Gossip.v ===== *)
(** * The gossip node: gossip.go

    The Go interface [GossipNode] as a class of operations on a node state,
    with the laws the rest of the service relies on, and [gossipNode], the
    implementation over memberlist and the delegate.  Memberlist's view of the
    cluster is third-party state: a type [ML] with its three operations. *)

From Stdlib Require Import Ascii.
From S2P Require Import Prelude GoStd Json Queue Delegate.

(** [interface GossipNode]. *)
Class GossipNode (N : Type) : Type := {
  Addr : N -> string;
  Members : N -> list string;
  SetBroadcasts : N -> list MyBroadcastMessage -> N;
  GetMessages : N -> N * list MyBroadcastMessage;
  Join : N -> list string -> N * (Z * error);
  Leave : N -> Time.Duration -> N * error
}.

(** What the clients of the interface rely on: broadcasting touches neither
    the address nor the members nor the incoming messages, and collecting the
    messages empties the inbox and nothing else. *)
Class GossipNodeLaws (N : Type) `{!GossipNode N} : Prop := {
  SetBroadcasts_Addr n l : Addr (SetBroadcasts n l) = Addr n;
  SetBroadcasts_Members n l : Members (SetBroadcasts n l) = Members n;
  SetBroadcasts_messages n l : (GetMessages (SetBroadcasts n l)).2 = (GetMessages n).2;
  SetBroadcasts_app n l1 l2 : SetBroadcasts n (l1 ++ l2) = SetBroadcasts (SetBroadcasts n l1) l2;
  GetMessages_Addr n : Addr (GetMessages n).1 = Addr n;
  GetMessages_Members n : Members (GetMessages n).1 = Members n;
  GetMessages_drains n : (GetMessages (GetMessages n).1).2 = []
}.

(** Memberlist, as far as [gossipNode] calls it. *)
Class Memberlist (ML : Type) : Type := {
  ml_Members : ML -> list string;
  ml_Join : ML -> list string -> ML * (Z * error);
  ml_Leave : ML -> Time.Duration -> ML * error
}.

Module GNode.

Section Impl.

Context {ML : Type} `{!Memberlist ML}.

Record gossipNode : Type := MkNode {
  gn_addr : string;
  gn_memberlist : ML;
  gn_delegate : Delegate.MyDelegate
}.

Definition node_Addr (n : gossipNode) : string := gn_addr n.

(** [v.String()] of a memberlist node is its name, the gossip address. *)
Definition node_Members (n : gossipNode) : list string := ml_Members (gn_memberlist n).

Definition node_SetBroadcasts (n : gossipNode) (data : list MyBroadcastMessage) : gossipNode :=
  MkNode (gn_addr n) (gn_memberlist n) (Delegate.setBroadcasts (gn_delegate n) data).

Definition node_GetMessages (n : gossipNode) : gossipNode * list MyBroadcastMessage :=
  let '(d, out) := Delegate.getMessages (gn_delegate n) in
  (MkNode (gn_addr n) (gn_memberlist n) d, out).

Definition node_Join (n : gossipNode) (peers : list string) : gossipNode * (Z * error) :=
  let '(ml, r) := ml_Join (gn_memberlist n) peers in
  (MkNode (gn_addr n) ml (gn_delegate n), r).

Definition node_Leave (n : gossipNode) (timeout : Time.Duration) : gossipNode * error :=
  let '(ml, r) := ml_Leave (gn_memberlist n) timeout in
  (MkNode (gn_addr n) ml (gn_delegate n), r).

#[global] Instance gossipNode_GossipNode : GossipNode gossipNode := {
  Addr := node_Addr;
  Members := node_Members;
  SetBroadcasts := node_SetBroadcasts;
  GetMessages := node_GetMessages;
  Join := node_Join;
  Leave := node_Leave
}.

(** [NewGossipNode]: the bind address and port come from the two halves of
    [addr]; [create] is [memberlist.Create] with name, address and port. *)
Definition NewGossipNode (create : string -> string -> Z -> ML + string) (addr cluster : string)
    : outcome (gossipNode + string) :=
  let d := Delegate.new_delegate addr in
  let parts := Strings.Split ":"%char addr in
  match parts !! 0%nat, parts !! 1%nat with
  | Some bindAddr, Some portText =>
      match Strconv.ParseInt portText with
      | None => Ret (inr "Atoi: invalid port"%string)
      | Some port =>
          match create addr bindAddr port with
          | inr err => Ret (inr err)
          | inl l =>
              let cluster := if decide (cluster = ""%string) then addr else cluster in
              let '(l, (_, err)) := ml_Join l [cluster] in
              match err with
              | Some e => Ret (inr e)
              | None => Ret (inl (MkNode addr l d))
              end
          end
      end
  | _, _ => Panic IndexOutOfRange
  end.

(** ** Lemmas *)

#[global] Instance gossipNode_laws : GossipNodeLaws gossipNode.
Proof.
  split; try done. intros n l1 l2. cbn. unfold node_SetBroadcasts, Delegate.setBroadcasts. cbn.
  by rewrite fold_left_app.
Qed.

(** Without a colon in the address the node cannot be built. *)
Lemma Split_no_sep sep s :
  ~ (exists s1 s2, s = s1 +:+ String sep s2) -> Strings.Split sep s = [s].
Proof.
  induction s as [|c s IH]; intros Hno; cbn; [done|]. case_decide as Hc.
  - subst. destruct Hno. by exists EmptyString, s.
  - rewrite IH; [done|]. intros (s1 & s2 & ->). destruct Hno. by exists (String c s1), s2.
Qed.

Lemma NewGossipNode_no_port create addr cluster :
  ~ (exists s1 s2, addr = s1 +:+ String ":"%char s2) ->
  NewGossipNode create addr cluster = Panic IndexOutOfRange.
Proof. intros H. unfold NewGossipNode. by rewrite Split_no_sep. Qed.

End Impl.

Arguments gossipNode : clear implicits.

(** A cluster of fixed members, to run the model on. *)
#[global] Instance static_Memberlist : Memberlist (list string) := {
  ml_Members := id;
  ml_Join ml peers := (ml ++ peers, (Z.of_nat (length peers), None));
  ml_Leave ml _ := ([], None)
}.

Abbreviation static_node := (gossipNode (list string)).

Definition static_start (addr : string) (members : list string) : static_node :=
  MkNode addr members (Delegate.new_delegate addr).

End GNode.

(** ** Properties *)

(** The node over memberlist keeps the interface's promises: broadcasting
    leaves the address, the members and the incoming messages alone and takes
    its messages one by one, and collecting the messages empties the inbox and
    nothing else. *)
Theorem gossip_node_contract {ML} `{!Memberlist ML} : GossipNodeLaws (GNode.gossipNode ML).
Proof. apply _. Qed.

(** An address without a port cannot be used: [NewGossipNode] splits it at
    the colon and takes the second part, which panics. *)
Theorem gossip_address_needs_port {ML} `{!Memberlist ML} create addr cluster :
  ~ (exists s1 s2, addr = s1 +:+ String ":"%char s2) ->
  GNode.NewGossipNode (ML := ML) create addr cluster = Panic IndexOutOfRange.
Proof. apply GNode.NewGossipNode_no_port. Qed.

Lemma gossip_address_needs_port_witness :
  GNode.NewGossipNode (fun _ _ _ => inl ([] : list string)) "localhost" "" = Panic IndexOutOfRange.
Proof.
  apply gossip_address_needs_port. intros (s1 & s2 & Heq).
  do 9 (destruct s1 as [|? s1]; [discriminate Heq|]; injection Heq as _ Heq).
  destruct s1; discriminate.
Defined.
