(* ===== verification/GossipCache.v ===== *)
(** * The gossip cache: gossipCache.go

    Per key, what every node last reported about it (status and time stamp)
    and the replicated record of the last consensus.  The entries are pointers
    in the source, but no pointer of the table escapes it ([Clone] copies), so
    a table of values models them.  The node reports live in a Go map that is
    nil until a report creates it. *)

From S2P Require Import Prelude GoStd Delegate Gossip.

Record gossipStatusAndTimeStamp : Type := Report {
  r_status : gossipStatus;
  r_timeStamp : Z
}.

Record gossipConsensus : Type := Consensus {
  prevEventTime : Time.t;
  prevConsensus : gossipStatus;
  empty : bool;
  emptyTime : Time.t;
  consensus : gomap gossipStatusAndTimeStamp
}.

(** The composite literal with no field set. *)
Definition zero_consensus : gossipConsensus := Consensus Time.zero "" false Time.zero None.

Definition with_consensus (v : gossipConsensus) (m : gomap gossipStatusAndTimeStamp) : gossipConsensus :=
  Consensus (prevEventTime v) (prevConsensus v) (empty v) (emptyTime v) m.
Definition with_prevConsensus (v : gossipConsensus) (s : gossipStatus) : gossipConsensus :=
  Consensus (prevEventTime v) s (empty v) (emptyTime v) (consensus v).
Definition with_prevEventTime (v : gossipConsensus) (t : Time.t) : gossipConsensus :=
  Consensus t (prevConsensus v) (empty v) (emptyTime v) (consensus v).
Definition with_empty (v : gossipConsensus) (b : bool) : gossipConsensus :=
  Consensus (prevEventTime v) (prevConsensus v) b (emptyTime v) (consensus v).
Definition with_emptyTime (v : gossipConsensus) (t : Time.t) : gossipConsensus :=
  Consensus (prevEventTime v) (prevConsensus v) (empty v) t (consensus v).

Module GCM.

Section Ops.

Context {N : Type} `{!GossipNode N}.

Record gossipCacheManager : Type := Gcm {
  gcm_data : gmap string gossipConsensus;
  gcm_gnode : N
}.

Definition NewGossipCacheManager (gnode : N) : gossipCacheManager := Gcm ∅ gnode.

(** The last assignment of the source is unconditional. *)
Definition GetKeyNode (c : gossipCacheManager) (key nodeAddr : string) : gossipStatus :=
  let ret : gossipStatus :=
    match gcm_data c !! key with
    | Some v =>
        match gm_get (consensus v) nodeAddr with
        | Some r => r_status r
        | None => ""
        end
    | None => ""
    end in
  let ret := GOSSIP_KEY_NODE_NOT_EXISTS in
  ret.

(** Store a report of [nodeAddr] and hand it on. *)
Definition put_report (c : gossipCacheManager) (v : gossipConsensus) (key value nodeAddr : string)
    (timestamp : Z) (status : gossipStatus) : outcome gossipCacheManager :=
  m ← gm_set (consensus v) nodeAddr (Report status timestamp);
  Ret (Gcm (<[key := with_consensus v m]> (gcm_data c))
           (SetBroadcasts (gcm_gnode c) [Msg timestamp nodeAddr key value status])).

Definition Set_ (c : gossipCacheManager) (key value nodeAddr : string) (timestamp : Z)
    (status : gossipStatus) : outcome gossipCacheManager :=
  match gcm_data c !! key with
  | Some v =>
      match gm_get (consensus v) nodeAddr with
      | Some old =>
          if timestamp >? r_timeStamp old
          then put_report c v key value nodeAddr timestamp status
          else Ret c
      | None => put_report c v key value nodeAddr timestamp status
      end
  | None =>
      Ret (Gcm (<[key := with_consensus zero_consensus (Some {[nodeAddr := Report status timestamp]})]>
                  (gcm_data c))
               (SetBroadcasts (gcm_gnode c) [Msg timestamp nodeAddr key value status]))
  end.

(** The setters of one field share their shape: update the entry, or create
    one with only this field set. *)
Definition update (c : gossipCacheManager) (key : string) (f : gossipConsensus -> gossipConsensus)
    : gossipCacheManager :=
  match gcm_data c !! key with
  | Some v => Gcm (<[key := f v]> (gcm_data c)) (gcm_gnode c)
  | None => Gcm (<[key := f zero_consensus]> (gcm_data c)) (gcm_gnode c)
  end.

Definition SetPreviousConsensus (c : gossipCacheManager) (key : string) (status : gossipStatus)
    : gossipCacheManager * error :=
  (update c key (fun v => with_prevConsensus v status), None).

Definition GetPreviousConsensus (c : gossipCacheManager) (key : string) : gossipStatus * bool :=
  match gcm_data c !! key with
  | Some v => (prevConsensus v, true)
  | None => (GOSSIP_KEY_NODE_NOT_EXISTS, false)
  end.

Definition SetPreviousEventTime (c : gossipCacheManager) (key : string) (eventTime : Time.t)
    : gossipCacheManager * error :=
  (update c key (fun v => with_prevEventTime v eventTime), None).

Definition GetEmpty (c : gossipCacheManager) (key : string) : bool * bool :=
  match gcm_data c !! key with
  | Some v => (empty v, true)
  | None => (false, false)
  end.

Definition SetEmpty (c : gossipCacheManager) (key : string) (b : bool) : gossipCacheManager * error :=
  (update c key (fun v => with_empty v b), None).

Definition setEmptyTime (c : gossipCacheManager) (key : string) (t : Time.t)
    : gossipCacheManager * error :=
  (update c key (fun v => with_emptyTime v t), None).

Definition DelNodeAddr (c : gossipCacheManager) (key nodeAddr : string) : gossipCacheManager :=
  match gcm_data c !! key with
  | Some v => Gcm (<[key := with_consensus v (gm_del (consensus v) nodeAddr)]> (gcm_data c)) (gcm_gnode c)
  | None => c
  end.

Definition DelKey (c : gossipCacheManager) (key : string) : gossipCacheManager :=
  Gcm (delete key (gcm_data c)) (gcm_gnode c).

(** The copy [Clone] makes of one entry: the reports go to a fresh map. *)
Definition clone_entry (v : gossipConsensus) : gossipConsensus :=
  with_consensus v (Some (fold_left (fun (m : gmap string gossipStatusAndTimeStamp) kv =>
    <[kv.1 := kv.2]> m) (gm_items (consensus v)) ∅)).

Definition Clone (c : gossipCacheManager) : gmap string gossipConsensus :=
  fold_left (fun (result : gmap string gossipConsensus) kv => <[kv.1 := clone_entry kv.2]> result)
    (map_to_list (gcm_data c)) ∅.

(** The exported view of an entry, for the status pages; [format] is
    [Time.Format] with the layout of the source. *)
Record tempGossipStatusAndTimeStamp : Type := TempReport { t_status : gossipStatus; t_time : string }.

Record tempGossipConsensus : Type := TempConsensus {
  t_prevEventTime : Time.t;
  t_prevConsensus : gossipStatus;
  t_empty : bool;
  t_emptyTime : Time.t;
  t_consensus : gmap string tempGossipStatusAndTimeStamp
}.

Definition export_entry (format : Time.t -> string) (v : gossipConsensus) : tempGossipConsensus :=
  TempConsensus (prevEventTime v) (prevConsensus v) (empty v) (emptyTime v)
    (fold_left (fun (m : gmap string tempGossipStatusAndTimeStamp) kv =>
       <[kv.1 := TempReport (r_status kv.2) (format (Time.of_stamp (r_timeStamp kv.2)))]> m)
       (gm_items (consensus v)) ∅).

(** The table [Marshal] hands to [json.Marshal]. *)
Definition Marshal_table (format : Time.t -> string) (c : gossipCacheManager)
    : gmap string tempGossipConsensus :=
  fold_left (fun (result : gmap string tempGossipConsensus) kv =>
    <[kv.1 := export_entry format kv.2]> result) (map_to_list (gcm_data c)) ∅.

Definition GetKey (format : Time.t -> string) (c : gossipCacheManager) (key : string)
    : tempGossipConsensus * error :=
  match gcm_data c !! key with
  | Some v => (export_entry format v, None)
  | None => (TempConsensus Time.zero "" false Time.zero ∅, Some ("key " +:+ key +:+ " not found"))
  end.

(** ** Views

    What a reader of the cache can tell: the report of a node about a key, and
    the replicated record of a key, zero when there is no entry. *)

Definition report (c : gossipCacheManager) (key nodeAddr : string) : option gossipStatusAndTimeStamp :=
  match gcm_data c !! key with
  | Some v => gm_get (consensus v) nodeAddr
  | None => None
  end.

Definition meta_of (v : gossipConsensus) : Time.t * gossipStatus * bool * Time.t :=
  (prevEventTime v, prevConsensus v, empty v, emptyTime v).

Definition meta (c : gossipCacheManager) (key : string) : Time.t * gossipStatus * bool * Time.t :=
  meta_of (default zero_consensus (gcm_data c !! key)).

(** Every entry can take a report: its map is not nil. *)
Definition writable (c : gossipCacheManager) : Prop :=
  map_Forall (fun _ v => is_Some (consensus v)) (gcm_data c).

(** Delivering a message is [Set] with its fields. *)
Definition deliver (c : gossipCacheManager) (m : MyBroadcastMessage) : outcome gossipCacheManager :=
  Set_ c (Key m) (Value m) (Node m) (TimeStamp m) (Status m).

Definition deliver_all (c : gossipCacheManager) (ms : list MyBroadcastMessage)
    : outcome gossipCacheManager :=
  foldlM deliver c ms.

(** ** The abstract merge: the newest report wins, the first among equals. *)

Definition msg_report (m : MyBroadcastMessage) : gossipStatusAndTimeStamp :=
  Report (Status m) (TimeStamp m).

Definition accepts (old : option gossipStatusAndTimeStamp) (m : MyBroadcastMessage) : bool :=
  match old with
  | None => true
  | Some r => TimeStamp m >? r_timeStamp r
  end.

Definition newer (old : option gossipStatusAndTimeStamp) (m : MyBroadcastMessage)
    : option gossipStatusAndTimeStamp :=
  if accepts old m then Some (msg_report m) else old.

Definition about (key nodeAddr : string) (m : MyBroadcastMessage) : Prop :=
  Key m = key /\ Node m = nodeAddr.

#[global] Instance about_dec key nodeAddr m : Decision (about key nodeAddr m).
Proof. unfold about. apply _. Defined.

(** The newest report of [nodeAddr] on [key] among [ms], after [old]. *)
Definition latest (old : option gossipStatusAndTimeStamp) (key nodeAddr : string)
    (ms : list MyBroadcastMessage) : option gossipStatusAndTimeStamp :=
  fold_left newer (filter (about key nodeAddr) ms) old.

(** A node never stamps two different reports on a key alike. *)
Definition consistent (ms : list MyBroadcastMessage) : Prop :=
  forall m1 m2, m1 ∈ ms -> m2 ∈ ms -> Key m1 = Key m2 -> Node m1 = Node m2 ->
    TimeStamp m1 = TimeStamp m2 -> Status m1 = Status m2.

End Ops.

Arguments gossipCacheManager : clear implicits.

(** ** Lemmas *)

Section Facts.

Context {N : Type} `{!GossipNode N}.

Implicit Types (c : gossipCacheManager N) (m : MyBroadcastMessage) (ms : list MyBroadcastMessage).

(** The cache after a report has been stored and handed on. *)
Definition stored c m : gossipCacheManager N :=
  let v := default zero_consensus (gcm_data c !! Key m) in
  Gcm (<[Key m := with_consensus v (Some (<[Node m := msg_report m]> (gm_tab (consensus v))))]>
         (gcm_data c))
      (SetBroadcasts (gcm_gnode c) [m]).

Lemma deliver_stored c m :
  writable c ->
  deliver c m = Ret (if accepts (report c (Key m) (Node m)) m then stored c m else c).
Proof.
  intros Hw. unfold deliver, Set_, report, stored, put_report.
  destruct (gcm_data c !! Key m) as [v|] eqn:Hv; cbn.
  - destruct (Hw _ _ Hv) as [t Ht]. rewrite Ht. cbn.
    destruct (t !! Node m) as [old|]; cbn; [destruct (TimeStamp m >? r_timeStamp old)|];
      by destruct m.
  - by destruct m.
Qed.

Lemma stored_report c m k n :
  report (stored c m) k n = if decide (about k n m) then Some (msg_report m) else report c k n.
Proof.
  unfold report, stored. cbn. rewrite lookup_insert. destruct (decide (about k n m)) as [[<- <-]|Hab].
  - rewrite decide_True by done. apply lookup_insert_eq.
  - case_decide as Hk; [|done]. subst k. cbn.
    rewrite lookup_insert_ne by (intros <-; by destruct Hab).
    destruct (gcm_data c !! Key m) as [v|]; cbn; [by rewrite gm_get_tab | apply lookup_empty].
Qed.

Lemma stored_meta c m k : meta (stored c m) k = meta c k.
Proof.
  unfold meta, stored. cbn. rewrite lookup_insert. case_decide as Hk; [|done]. by subst k.
Qed.

Lemma stored_writable c m : writable c -> writable (stored c m).
Proof. intros Hw. by apply map_Forall_insert_2. Qed.

(** What one delivery does, when the entries can take reports: the report is
    merged, and nothing else of the cache changes. *)
Lemma deliver_spec c m :
  writable c ->
  exists c', deliver c m = Ret c' /\ writable c' /\
    (forall k n, report c' k n = if decide (about k n m) then newer (report c k n) m else report c k n) /\
    (forall k, meta c' k = meta c k) /\
    gcm_gnode c' = (if accepts (report c (Key m) (Node m)) m
                    then SetBroadcasts (gcm_gnode c) [m] else gcm_gnode c).
Proof.
  intros Hw. rewrite deliver_stored by done. eexists. split; [done|].
  destruct (accepts (report c (Key m) (Node m)) m) eqn:Ha.
  - split_and!; [by apply stored_writable | | by apply stored_meta | done].
    intros k n. rewrite stored_report. case_decide as Hab; [|done].
    destruct Hab as [<- <-]. unfold newer. by rewrite Ha.
  - split_and!; try done. intros k n. case_decide as Hab; [|done].
    destruct Hab as [<- <-]. unfold newer. by rewrite Ha.
Qed.

Lemma deliver_all_spec ms : forall c,
  writable c ->
  exists c', deliver_all c ms = Ret c' /\ writable c' /\
    (forall k n, report c' k n = latest (report c k n) k n ms) /\
    (forall k, meta c' k = meta c k).
Proof.
  induction ms as [|m ms IH]; intros c Hw; [by exists c|].
  destruct (deliver_spec c m Hw) as (c1 & H1 & Hw1 & Hr1 & Hm1 & _).
  destruct (IH c1 Hw1) as (c2 & H2 & Hw2 & Hr2 & Hm2).
  exists c2. unfold deliver_all in *. cbn [foldlM]. rewrite H1. split_and!; [done|done| |].
  - intros k n. rewrite Hr2, Hr1. unfold latest. rewrite filter_cons. by case_decide.
  - intros k. by rewrite Hm2, Hm1.
Qed.

(** ** The merge is a maximum *)

Definition stamp (o : option gossipStatusAndTimeStamp) (z : Z) : Z :=
  match o with Some r => r_timeStamp r | None => z end.

Lemma fold_newer_max ms : forall old,
  let r := fold_left newer ms old in
  (r = old \/ exists m, m ∈ ms /\ r = Some (msg_report m)) /\
  (forall m, m ∈ ms -> exists s, r = Some s /\ TimeStamp m <= r_timeStamp s) /\
  (forall s0, old = Some s0 -> exists s, r = Some s /\ r_timeStamp s0 <= r_timeStamp s).
Proof.
  induction ms as [|m ms IH]; intros old; cbn.
  { split_and!; [by left | by inversion 1 | eauto with lia]. }
  destruct (IH (newer old m)) as (Hin & Hmax & Hold).
  assert (Hm : exists s, newer old m = Some s /\ TimeStamp m <= r_timeStamp s /\
                 forall s0, old = Some s0 -> r_timeStamp s0 <= r_timeStamp s).
  { unfold newer. destruct old as [r|]; cbn; [|naive_solver lia].
    destruct (Z.gtb_spec (TimeStamp m) (r_timeStamp r)); naive_solver lia. }
  destruct Hm as (s1 & Hs1 & Hts & Hs0). destruct (Hold s1 Hs1) as (s & Hs & Hle).
  split_and!.
  - destruct Hin as [Hin | (m' & Hm' & Hin)].
    + rewrite Hin. unfold newer. destruct (accepts old m); [right | by left].
      exists m. split; [constructor | done].
    + right. exists m'. split; [by constructor | done].
  - intros m' [-> | Hm']%elem_of_cons; [|by apply Hmax]. exists s. split; [done | lia].
  - intros s0 H0. exists s. split; [done|]. specialize (Hs0 s0 H0). lia.
Qed.

(** From a fresh cache, the newest report is determined by which messages have
    arrived: their order and their number do not matter. *)
Lemma latest_set ms1 ms2 k n :
  consistent ms1 -> (forall m, m ∈ ms1 <-> m ∈ ms2) -> latest None k n ms1 = latest None k n ms2.
Proof.
  intros Hc Heq. unfold latest.
  destruct (fold_newer_max (filter (about k n) ms1) None) as (Hin1 & Hmax1 & _).
  destruct (fold_newer_max (filter (about k n) ms2) None) as (Hin2 & Hmax2 & _).
  setoid_rewrite list_elem_of_filter in Hin1. setoid_rewrite list_elem_of_filter in Hin2.
  setoid_rewrite list_elem_of_filter in Hmax1. setoid_rewrite list_elem_of_filter in Hmax2.
  destruct Hin1 as [H1 | (m1 & [Ha1 Hm1] & H1)], Hin2 as [H2 | (m2 & [Ha2 Hm2] & H2)].
  - congruence.
  - destruct (Hmax1 m2) as (s & Hs & _); [by rewrite Heq|]. congruence.
  - destruct (Hmax2 m1) as (s & Hs & _); [by rewrite <- Heq|]. congruence.
  - destruct (Hmax1 m2) as (s1 & Hs1 & Hle1); [by rewrite Heq|].
    destruct (Hmax2 m1) as (s2 & Hs2 & Hle2); [by rewrite <- Heq|].
    rewrite H1 in Hs1. rewrite H2 in Hs2. simplify_eq. cbn in Hle1, Hle2.
    rewrite H1, H2. f_equal. destruct Ha1, Ha2. unfold msg_report. f_equal; [|lia].
    apply Hc; [done | by apply Heq | congruence | congruence | lia].
Qed.

(** A message newer than all else on its node and key is the newest report. *)
Lemma latest_newest old k n ms m :
  m ∈ ms -> about k n m -> (forall r, old = Some r -> r_timeStamp r < TimeStamp m) ->
  (forall m', m' ∈ ms -> about k n m' -> m' = m \/ TimeStamp m' < TimeStamp m) ->
  latest old k n ms = Some (msg_report m).
Proof.
  intros Hin Hab Hold Hms. unfold latest.
  destruct (fold_newer_max (filter (about k n) ms) old) as (Hor & Hmax & _).
  destruct (Hmax m) as (r & Hr & Hle); [by apply list_elem_of_filter|]. rewrite Hr in *.
  destruct Hor as [Heq | (m' & [Hab' Hm']%list_elem_of_filter & Heq)].
  - symmetry in Heq. apply Hold in Heq. lia.
  - rewrite Heq. injection Heq as ->. cbn in Hle.
    destruct (Hms m' Hm' Hab') as [-> | ?]; [done | lia].
Qed.

Lemma writable_new (g : N) : writable (NewGossipCacheManager g).
Proof. intros k v H. cbn in H. by rewrite lookup_empty in H. Qed.

(** ** The setters of the replicated record *)

Lemma update_meta c key f k :
  meta (update c key f) k = if decide (key = k) then meta_of (f (default zero_consensus (gcm_data c !! key)))
                            else meta c k.
Proof.
  unfold meta, update. destruct (gcm_data c !! key) as [v|] eqn:Hv; cbn;
    rewrite lookup_insert; by case_decide.
Qed.

Lemma update_report c key f k n :
  (forall v, consensus (f v) = consensus v) -> report (update c key f) k n = report c k n.
Proof.
  intros Hf. unfold report, update. destruct (gcm_data c !! key) as [v|] eqn:Hv; cbn;
    rewrite lookup_insert; case_decide; subst; try done; rewrite Hf; [by rewrite Hv |].
  by rewrite Hv.
Qed.

Lemma update_gnode c key f : gcm_gnode (update c key f) = gcm_gnode c.
Proof. unfold update. by destruct (gcm_data c !! key). Qed.

(** An entry a setter creates has a nil report map. *)
Lemma update_absent c key f :
  (forall v, consensus (f v) = consensus v) -> gcm_data c !! key = None ->
  exists v, gcm_data (update c key f) !! key = Some v /\ consensus v = None.
Proof.
  intros Hf Hk. unfold update. rewrite Hk. cbn. eexists. split; [apply lookup_insert_eq|].
  by rewrite Hf.
Qed.

Lemma deliver_nil_map c m v :
  gcm_data c !! Key m = Some v -> consensus v = None -> deliver c m = Panic NilMapWrite.
Proof. intros Hv Hn. unfold deliver, Set_, put_report. rewrite Hv. cbn. by rewrite Hn. Qed.

(** A delivery that returns leaves the records alone. *)
Lemma deliver_meta c c' m k : deliver c m = Ret c' -> meta c' k = meta c k.
Proof.
  unfold deliver, Set_, put_report, meta.
  destruct (gcm_data c !! Key m) as [v|] eqn:Hv;
    [destruct (gm_get (consensus v) (Node m)); [case_match|]|]; intros Hs.
  1, 3: destruct (consensus v); cbn in Hs; simplify_eq; cbn; rewrite lookup_insert;
    case_decide as Hk; [subst k; by rewrite Hv | done].
  - by simplify_eq.
  - simplify_eq. cbn. rewrite lookup_insert. case_decide as Hk; [subst k; by rewrite Hv | done].
Qed.

Lemma DelKey_meta c key k :
  meta (DelKey c key) k = if decide (key = k) then meta_of zero_consensus else meta c k.
Proof. unfold meta. cbn. rewrite lookup_delete. by case_decide. Qed.

Lemma DelNodeAddr_meta c key nodeAddr k : meta (DelNodeAddr c key nodeAddr) k = meta c k.
Proof.
  unfold meta, DelNodeAddr. destruct (gcm_data c !! key) as [v|] eqn:Hv; [|done]. cbn.
  rewrite lookup_insert. case_decide as Hk; [subst k; by rewrite Hv | done].
Qed.

Lemma DelKey_lookup c key k :
  gcm_data (DelKey c key) !! k = if decide (key = k) then None else gcm_data c !! k.
Proof. cbn. apply lookup_delete. Qed.

Lemma DelNodeAddr_report c key nodeAddr k n :
  report (DelNodeAddr c key nodeAddr) k n =
  if decide (key = k /\ nodeAddr = n) then None else report c k n.
Proof.
  unfold report, DelNodeAddr. destruct (gcm_data c !! key) as [v|] eqn:Hv; cbn.
  - rewrite lookup_insert. destruct (decide (key = k)) as [<-|Hk]; cbn.
    + rewrite gm_get_tab, gm_del_tab, lookup_delete, Hv, gm_get_tab.
      repeat case_decide; naive_solver.
    + by rewrite decide_False by tauto.
  - case_decide as Hd; [|done]. destruct Hd as [<- _]. by rewrite Hv.
Qed.

Lemma clone_entry_spec v :
  clone_entry v = with_consensus v (Some (gm_tab (consensus v))).
Proof.
  unfold clone_entry. do 2 f_equal. rewrite <- (map_fmap_id (gm_tab (consensus v))).
  exact (fold_insert_range id _ _ (gm_items_range _)).
Qed.

Lemma Clone_spec c : Clone c = (fun v => with_consensus v (Some (gm_tab (consensus v)))) <$> gcm_data c.
Proof.
  unfold Clone. rewrite (fold_insert_range clone_entry (map_to_list (gcm_data c)) (Some (gcm_data c)))
    by (unfold range_of; reflexivity).
  apply map_fmap_ext. intros. apply clone_entry_spec.
Qed.

End Facts.

End GCM.

(** ** Properties *)

Definition demo_reports : list MyBroadcastMessage :=
  [Msg 10 "n1" "db" "v" GOSSIP_UP; Msg 30 "n1" "db" "v" GOSSIP_DOWN; Msg 20 "n2" "db" "v" GOSSIP_UP].

(** C11: gossip converges: two nodes that have received the same set of reports,
    in any order and with any repetitions, hold the same report of every node
    on every key, provided no node stamps two different reports alike. *)
Theorem gossip_converges {N} `{!GossipNode N} (g1 g2 : N) ms1 ms2 :
  GCM.consistent ms1 -> (forall m, m ∈ ms1 <-> m ∈ ms2) ->
  exists c1 c2, GCM.deliver_all (GCM.NewGossipCacheManager g1) ms1 = Ret c1 /\
    GCM.deliver_all (GCM.NewGossipCacheManager g2) ms2 = Ret c2 /\
    forall k n, GCM.report c1 k n = GCM.report c2 k n.
Proof.
  intros Hc Heq.
  destruct (GCM.deliver_all_spec ms1 _ (GCM.writable_new g1)) as (c1 & H1 & _ & Hr1 & _).
  destruct (GCM.deliver_all_spec ms2 _ (GCM.writable_new g2)) as (c2 & H2 & _ & Hr2 & _).
  exists c1, c2. split_and!; [done|done|]. intros k n. rewrite Hr1, Hr2.
  by apply GCM.latest_set.
Qed.

Lemma gossip_converges_witness :
  let g := GNode.static_start "n1:1" [] in
  exists c1 c2, GCM.deliver_all (GCM.NewGossipCacheManager g) demo_reports = Ret c1 /\
    GCM.deliver_all (GCM.NewGossipCacheManager g) (demo_reports ++ reverse demo_reports) = Ret c2 /\
    forall k n, GCM.report c1 k n = GCM.report c2 k n.
Proof.
  apply (gossip_converges (GNode.static_start "n1:1" []) (GNode.static_start "n1:1" [])).
  - unfold GCM.consistent, demo_reports. intros m1 m2 H1 H2. set_unfold.
    destruct H1 as [-> | [-> | [-> | []]]], H2 as [-> | [-> | [-> | []]]]; done.
  - intros m. rewrite elem_of_app, elem_of_reverse. tauto.
Defined.

(** One report: it is stored, and handed on to the other nodes, exactly when
    it is newer than what the cache holds of its node on its key; no other
    report and no consensus record changes, stored stamps never go back, and
    delivering the report again has no effect. *)
Theorem gossip_delivery {N} `{!GossipNode N} (c : GCM.gossipCacheManager N) m :
  GCM.writable c ->
  exists c', GCM.deliver c m = Ret c' /\ GCM.writable c' /\
    (forall k n, GCM.report c' k n =
       if decide (GCM.about k n m) then GCM.newer (GCM.report c k n) m else GCM.report c k n) /\
    (forall k, GCM.meta c' k = GCM.meta c k) /\
    GCM.gcm_gnode c' = (if GCM.accepts (GCM.report c (Key m) (Node m)) m
                        then SetBroadcasts (GCM.gcm_gnode c) [m] else GCM.gcm_gnode c) /\
    (forall k n r, GCM.report c k n = Some r ->
       exists r', GCM.report c' k n = Some r' /\ r_timeStamp r <= r_timeStamp r') /\
    GCM.deliver c' m = Ret c'.
Proof.
  intros Hw. destruct (GCM.deliver_spec c m Hw) as (c' & Hd & Hw' & Hr & Hm & Hg).
  exists c'. split_and!; try done.
  - intros k n r Hk. rewrite Hr, Hk. unfold GCM.newer. cbn.
    destruct (decide (GCM.about k n m)); [|by exists r].
    destruct (Z.gtb_spec (TimeStamp m) (r_timeStamp r)); eexists; (split; [reflexivity|cbn; lia]).
  - rewrite GCM.deliver_stored by done. rewrite Hr, decide_True by done.
    replace (GCM.accepts _ m) with false; [done|]. symmetry. unfold GCM.newer.
    destruct (GCM.report c (Key m) (Node m)) as [r|]; cbn; [|lia].
    destruct (Z.gtb_spec (TimeStamp m) (r_timeStamp r)); cbn; lia.
Qed.

Lemma gossip_delivery_witness :
  let c := GCM.NewGossipCacheManager (GNode.static_start "n1:1" []) in
  exists c', GCM.deliver c demo_msg = Ret c' /\ GCM.deliver c' demo_msg = Ret c'.
Proof.
  destruct (gossip_delivery (GCM.NewGossipCacheManager (GNode.static_start "n1:1" [])) demo_msg)
    as (c' & H1 & _ & _ & _ & _ & _ & H2); [apply GCM.writable_new|].
  by exists c'.
Defined.
