(* ===== verification/Detector.v ===== *)
(** * The failure detector: commonDetector.go (and shellCmd.go)

    [Windowed] is a ring buffer of the last samples of a key; [Detector] keeps
    one per key.  [Ping] runs the verification script and pushes what it
    printed, [Phi] turns the last samples into a status.  Running a command is
    the environment's: [exec] gives what it wrote to stdout and stderr until
    it ended or was killed. *)

From S2P Require Import Prelude GoStd Base Delegate.

(** ** shellCmd.go *)

(** [ShellCmdTimeout]: the named result [e] is set for an empty command
    only. *)
Definition ShellCmdTimeout (exec : Z -> string -> list string -> string * string)
    (timeout : Z) (cmd : string) (args : list string) : string * string * error :=
  if (String.length cmd =? 0)%nat then ("", "", Some "cannot run a empty command")
  else let '(out, err) := exec timeout cmd args in (out, err, None).

Record verifyInput : Type := VerifyInput { vi_key : string; vi_value : string }.

(** [fmt.Sprintf("%s %s %s", script, key, value)]. *)
Definition verification_cmd (script key value : string) : string :=
  script +:+ " " +:+ key +:+ " " +:+ value.

Record StatusAndTime : Type := Sample { sa_Status : string; sa_Time : Time.t }.

Definition zero_sample : StatusAndTime := Sample "" Time.zero.

(** ** The ring buffer *)

Record Windowed : Type := Window {
  w_data : list StatusAndTime;
  w_head : Z;
  w_length : Z
}.

Module Windowed.

(** A slice access; an index out of range panics. *)
Definition index {A : Type} (l : list A) (i : Z) : outcome A :=
  if i <? 0 then Panic IndexOutOfRange
  else match l !! Z.to_nat i with Some x => Ret x | None => Panic IndexOutOfRange end.

Definition NewWindowed (capacity : Z) : outcome Windowed :=
  if capacity <? 0 then Panic IndexOutOfRange
  else Ret (Window (replicate (Z.to_nat capacity) zero_sample) 0 0).

Definition cap (w : Windowed) : Z := Z.of_nat (length (w_data w)).

Definition Push (w : Windowed) (n : StatusAndTime) : outcome (Windowed * StatusAndTime) :=
  old ← index (w_data w) (w_head w);
  let len := wrap64 (w_length w + 1) in
  let data := <[Z.to_nat (w_head w) := n]> (w_data w) in
  let head := w_head w + 1 in
  let head := if head >=? Z.of_nat (length data) then 0 else head in
  Ret (Window data head len, old).

Definition Len (w : Windowed) : Z :=
  if w_length w <? cap w then w_length w else cap w.

(** The loop of [LastNSamples] from [i] on, with [todo] turns left. *)
Fixpoint LastN_loop (w : Windowed) (samples len : Z) (todo : nat) (i : Z) (ret : list StatusAndTime)
    : outcome (list StatusAndTime) :=
  match todo with
  | O => Ret ret
  | S todo =>
      if len =? 0 then Panic DivideByZero else
      x ← index (w_data w) (Z.rem (w_head w - 1 - i + len) len);
      LastN_loop w samples len todo (i + 1) (<[Z.to_nat (samples - 1 - i) := x]> ret)
  end.

Definition LastNSamples (w : Windowed) (samples : Z) : outcome (list StatusAndTime) :=
  if samples <? 0 then Panic IndexOutOfRange
  else LastN_loop w samples (Len w) (Z.to_nat samples) 0 (replicate (Z.to_nat samples) zero_sample).

(** [Set] copies the new data and starts over at its first element. *)
Definition Set_ (w : Windowed) (data : list StatusAndTime) : Windowed :=
  Window data 0 (Z.of_nat (length data)).

End Windowed.

(** ** The detector *)

Record Detector : Type := MkDetector {
  d_w : gmap string Windowed;
  d_windowSize : Z;
  d_minSamples : Z
}.

Module Detector.

Definition NewDetector (windowSize minSamples : Z) : Detector :=
  MkDetector ∅ windowSize minSamples.

(** The slices of the copy share their arrays with the windows. *)
Definition Clone (d : Detector) : gmap string (list StatusAndTime) := w_data <$> d_w d.

Definition Get (d : Detector) (key : string) : list StatusAndTime * error :=
  match d_w d !! key with
  | Some v => (w_data v, None)
  | None => ([], Some ("key " +:+ key +:+ " not found"))
  end.

Definition DelKey (d : Detector) (key : string) : Detector :=
  MkDetector (delete key (d_w d)) (d_windowSize d) (d_minSamples d).

(** What is pushed for a script that printed [stdout]. *)
Definition sample_text (stdout : string) : string :=
  let stdout := Strings.TrimSuffixNL stdout in
  if decide (stdout = "") then "EMPTY" else stdout.

(** The critical section of [Ping]: push a sample taken at [now]. *)
Definition record_sample (d : Detector) (key text : string) (now : Time.t) : outcome Detector :=
  w ← match d_w d !! key with
      | Some w => Ret w
      | None => Windowed.NewWindowed (d_windowSize d)
      end;
  r ← Windowed.Push w (Sample text now);
  Ret (MkDetector (<[key := r.1]> (d_w d)) (d_windowSize d) (d_minSamples d)).

Definition Ping (exec : Z -> string -> list string -> string * string) (d : Detector)
    (verificationScript : string) (input : verifyInput) (now : Time.t) : outcome Detector :=
  let key := vi_key input in
  let cmd := verification_cmd verificationScript key (vi_value input) in
  let '(stdout, stderr, err) := ShellCmdTimeout exec verificationScriptTimeoiut "sh" ["-c"; cmd] in
  record_sample d key (sample_text stdout) now.

(** [Phi], with the counting map visited in the order [ord] gives. *)
Definition Phi_ord (ord : gmap string Z -> list (string * Z)) (d : Detector) (key : string)
    : outcome gossipStatus :=
  match d_w d !! key with
  | None => Panic NilDeref
  | Some w =>
      if Windowed.Len w <? d_minSamples d then Ret GOSSIP_LESS_THAN_MINSAMPLE else
      samples ← Windowed.LastNSamples w (d_minSamples d);
      let countMap := count_all (sa_Status <$> samples) in
      match first_with (fun count => count =? d_minSamples d) (ord countMap) with
      | Some status => Ret status
      | None =>
          if default 0 (countMap !! GOSSIP_EMPTY) =? 0 then Ret GOSSIP_NO_EMPTY_IN_SAMPLES
          else Ret GOSSIP_NOT_FILL_SAMPLES
      end
  end.

Definition Phi (d : Detector) (key : string) : outcome gossipStatus := Phi_ord map_to_list d key.

(** ** Specification: verdicts on histories *)

(** The verdict on the samples of a key, oldest first. *)
Definition verdict (minSamples : nat) (h : list string) : gossipStatus :=
  if (length h <? minSamples)%nat then GOSSIP_LESS_THAN_MINSAMPLE else
  let recent := drop (length h - minSamples) h in
  match recent with
  | [] => GOSSIP_NO_EMPTY_IN_SAMPLES
  | s :: rest =>
      if decide (Forall (eq s) rest) then s
      else if decide (GOSSIP_EMPTY ∈ recent) then GOSSIP_NOT_FILL_SAMPLES
      else GOSSIP_NO_EMPTY_IN_SAMPLES
  end.

End Detector.

(** A window of capacity [cap] that has seen the samples [h], oldest first. *)
Record window_of (cap : nat) (h : list StatusAndTime) (w : Windowed) : Prop := {
  wo_cap : length (w_data w) = cap;
  wo_len : w_length w = Z.of_nat (length h);
  wo_head : w_head w = Z.of_nat (length h) mod Z.of_nat cap;
  wo_data : forall p, (p < length h)%nat -> (length h <= p + cap)%nat ->
    w_data w !! Z.to_nat (Z.of_nat p mod Z.of_nat cap) = h !! p
}.

(** A detector that has recorded the samples [hist] of every key. *)
Record detector_of (cap : nat) (hist : gmap string (list StatusAndTime)) (d : Detector) : Prop := {
  do_size : d_windowSize d = Z.of_nat cap;
  do_cap : (0 < cap)%nat;
  do_keys : forall k, d_w d !! k = None <-> hist !! k = None;
  do_windows : forall k w h, d_w d !! k = Some w -> hist !! k = Some h -> window_of cap h w
}.

(** ** Lemmas *)

Module DetectorFacts.

Import Windowed.

Lemma window_of_new cap :
  exists w, NewWindowed (Z.of_nat cap) = Ret w /\ window_of cap [] w.
Proof.
  unfold NewWindowed. destruct (Z.ltb_spec (Z.of_nat cap) 0); [lia|].
  eexists. split; [done|]. split; cbn; [|done| |lia].
  - rewrite length_replicate. lia.
  - by rewrite Zmod_0_l.
Qed.

Lemma index_Some {A : Type} (l : list A) i x :
  l !! i = Some x -> index l (Z.of_nat i) = Ret x.
Proof.
  intros H. unfold index. destruct (Z.ltb_spec (Z.of_nat i) 0); [lia|]. by rewrite Nat2Z.id, H.
Qed.

Lemma mod_succ L c :
  0 < c -> (if L mod c + 1 >=? c then 0 else L mod c + 1) = (L + 1) mod c.
Proof.
  intros Hc. pose proof (Z.mod_pos_bound L c Hc). pose proof (Z.div_mod L c).
  destruct (Z.geb_spec (L mod c + 1) c).
  - apply (Z.mod_unique _ _ (L / c + 1)); nia.
  - apply (Z.mod_unique _ _ (L / c)); nia.
Qed.

Lemma mod_inj_near p L c : p < L -> L < p + c -> p mod c <> L mod c.
Proof.
  intros H1 H2 Heq. pose proof (Z.div_mod p c ltac:(lia)) as Hp.
  pose proof (Z.div_mod L c ltac:(lia)) as HL. rewrite Heq in Hp.
  assert (L - p = c * (L / c - p / c)) by lia.
  destruct (Z.le_gt_cases (L / c - p / c) 0); nia.
Qed.

Lemma window_push cap h w n :
  (0 < cap)%nat -> Z.of_nat (length h) < MaxInt64 -> window_of cap h w ->
  exists w' old, Push w n = Ret (w', old) /\ window_of cap (h ++ [n]) w'.
Proof.
  intros Hcap Hmax [Hc Hl Hh Hd]. unfold Push.
  pose proof (Z.mod_pos_bound (Z.of_nat (length h)) (Z.of_nat cap) ltac:(lia)) as Hb.
  destruct (lookup_lt_is_Some_2 (w_data w) (Z.to_nat (w_head w))) as [old Hold]; [lia|].
  apply index_Some in Hold. rewrite Z2Nat.id in Hold by lia. rewrite Hold. cbn.
  eexists _, _. split; [done|]. split; cbn.
  - by rewrite length_insert.
  - rewrite Hl, length_app, wrap64_id by solve_int. cbn. lia.
  - rewrite length_insert, Hc, Hh, mod_succ, length_app by lia. f_equal. cbn. lia.
  - rewrite length_app. cbn [length]. intros p Hp Hpc. destruct (decide (p = length h)) as [->|Hne].
    + rewrite Hh, list_lookup_insert_eq by (rewrite Hc; lia).
      rewrite lookup_app_r, Nat.sub_diag by lia. done.
    + pose proof (Z.mod_pos_bound (Z.of_nat p) (Z.of_nat cap) ltac:(lia)).
      pose proof (mod_inj_near (Z.of_nat p) (Z.of_nat (length h)) (Z.of_nat cap)).
      rewrite list_lookup_insert_ne by lia. rewrite Hd by lia. by rewrite lookup_app_l by lia.
Qed.

Lemma Len_window cap h w :
  window_of cap h w -> Len w = Z.min (Z.of_nat (length h)) (Z.of_nat cap).
Proof. intros [Hc Hl _ _]. unfold Len, Windowed.cap. rewrite Hc, Hl. case_match; lia. Qed.

(** The slot [LastNSamples] reads for its [i]-th newest sample. *)
Lemma window_index cap h w i :
  window_of cap h w -> 0 <= i < Len w ->
  exists x, h !! Z.to_nat (Z.of_nat (length h) - 1 - i) = Some x /\
    index (w_data w) (Z.rem (w_head w - 1 - i + Len w) (Len w)) = Ret x.
Proof.
  intros Hw Hi. rewrite (Len_window cap h w Hw) in *. destruct Hw as [Hc Hl Hh Hd].
  set (L := Z.of_nat (length h)) in *. set (p := Z.to_nat (L - 1 - i)).
  destruct (lookup_lt_is_Some_2 h p) as [x Hx]; [lia|]. exists x. split; [done|].
  assert (Hpm : Z.rem (w_head w - 1 - i + Z.min L (Z.of_nat cap)) (Z.min L (Z.of_nat cap)) =
                Z.of_nat p mod Z.of_nat cap).
  { pose proof (Z.mod_pos_bound L (Z.of_nat cap) ltac:(lia)).
    pose proof (Z.div_mod L (Z.of_nat cap) ltac:(lia)).
    rewrite Z.rem_mod_nonneg by lia.
    replace (Z.of_nat p) with (L - 1 - i) by lia. rewrite Hh.
    destruct (Z.min_spec L (Z.of_nat cap)) as [[Hlt ->]|[Hge ->]].
    - rewrite (Z.mod_small L), !(Z.mod_small (L - 1 - i)) by lia.
      symmetry. apply (Z.mod_unique _ _ 1); lia.
    - replace (L mod Z.of_nat cap - 1 - i + Z.of_nat cap)
        with ((L - 1 - i) + (1 - L / Z.of_nat cap) * Z.of_nat cap) by nia.
      apply Z.mod_add. lia. }
  rewrite Hpm. pose proof (Z.mod_pos_bound (Z.of_nat p) (Z.of_nat cap) ltac:(lia)).
  rewrite <- (Z2Nat.id (Z.of_nat p mod Z.of_nat cap)) by lia.
  apply index_Some. rewrite Hd; [done|lia|lia].
Qed.

Lemma LastN_loop_spec cap h w samples todo : forall i ret,
  window_of cap h w -> (samples <= Z.to_nat (Len w))%nat ->
  (i + todo = samples)%nat -> length ret = samples ->
  (forall j, (j < i)%nat -> ret !! (samples - 1 - j)%nat = h !! (length h - 1 - j)%nat) ->
  exists ret', LastN_loop w (Z.of_nat samples) (Len w) todo (Z.of_nat i) ret = Ret ret' /\
    length ret' = samples /\
    (forall j, (j < samples)%nat -> ret' !! (samples - 1 - j)%nat = h !! (length h - 1 - j)%nat).
Proof.
  induction todo as [|todo IH]; intros i ret Hw Hs Hi Hlen Hret.
  { exists ret. split_and!; [done..|]. intros j Hj. apply Hret. lia. }
  destruct (window_index cap h w (Z.of_nat i) Hw) as (x & Hx & Hidx); [lia|].
  cbn. destruct (Z.eqb_spec (Len w) 0); [lia|]. rewrite Hidx. cbn.
  replace (Z.of_nat i + 1) with (Z.of_nat (S i)) by lia.
  apply IH; [done|done|lia|by rewrite length_insert|].
  intros j Hj. replace (Z.to_nat (Z.of_nat samples - 1 - Z.of_nat i)) with (samples - 1 - i)%nat by lia.
  destruct (decide (j = i)) as [->|Hne].
  - rewrite list_lookup_insert_eq by lia. rewrite <- Hx. f_equal. lia.
  - rewrite list_lookup_insert_ne by lia. apply Hret. lia.
Qed.

(** [LastNSamples] returns the last samples pushed, oldest first. *)
Lemma LastNSamples_window cap h w samples :
  window_of cap h w -> (samples <= length h)%nat -> (samples <= cap)%nat ->
  LastNSamples w (Z.of_nat samples) = Ret (drop (length h - samples) h).
Proof.
  intros Hw Hh Hc. pose proof (Len_window cap h w Hw) as HLen. unfold LastNSamples.
  destruct (Z.ltb_spec (Z.of_nat samples) 0); [lia|]. rewrite Nat2Z.id.
  destruct (LastN_loop_spec cap h w samples samples 0 (replicate samples zero_sample) Hw)
    as (ret & Hrun & Hlen & Hret); [lia|lia|apply length_replicate|lia|].
  change 0 with (Z.of_nat 0). rewrite Hrun. f_equal. apply list_eq. intros q.
  rewrite lookup_drop. destruct (decide (q < samples)%nat).
  - replace q with (samples - 1 - (samples - 1 - q))%nat at 1 by lia.
    rewrite Hret by lia. f_equal. lia.
  - rewrite (lookup_ge_None_2 ret) by lia. rewrite lookup_ge_None_2; [done|lia].
Qed.

Lemma new_detector cap minSamples :
  (0 < cap)%nat -> detector_of cap ∅ (Detector.NewDetector (Z.of_nat cap) minSamples).
Proof. intros Hc. split; cbn; [done|done| |]; intros *; rewrite !lookup_empty; done. Qed.

(** Recording a sample extends the history of its key and of no other. *)
Lemma record_sample_spec cap hist d key text now :
  detector_of cap hist d -> Z.of_nat (length (default [] (hist !! key))) < MaxInt64 ->
  exists d', Detector.record_sample d key text now = Ret d' /\
    detector_of cap (<[key := default [] (hist !! key) ++ [Sample text now]]> hist) d' /\
    d_minSamples d' = d_minSamples d.
Proof.
  intros [Hsz Hcap Hkeys Hwin] Hmax. unfold Detector.record_sample.
  assert (Hw : exists w, match d_w d !! key with
                         | Some w => Ret w | None => NewWindowed (d_windowSize d) end = Ret w /\
                         window_of cap (default [] (hist !! key)) w).
  { destruct (d_w d !! key) as [w|] eqn:Hk.
    - destruct (hist !! key) as [h|] eqn:Hh; [eauto|]. apply Hkeys in Hh. congruence.
    - rewrite Hsz. apply Hkeys in Hk as ->. apply window_of_new. }
  destruct Hw as (w & -> & Hw). cbn.
  destruct (window_push cap _ w (Sample text now) Hcap Hmax Hw) as (w' & old & -> & Hw').
  eexists. split; [done|]. split; [|done]. split; cbn; [done|done| |].
  - intros k. rewrite !lookup_insert. case_decide; [done | apply Hkeys].
  - intros k w0 h0. rewrite !lookup_insert. case_decide; [by intros; simplify_eq | eauto].
Qed.

Lemma DelKey_spec cap hist d key :
  detector_of cap hist d -> detector_of cap (delete key hist) (Detector.DelKey d key).
Proof.
  intros [Hsz Hcap Hkeys Hwin]. split; cbn; [done|done| |].
  - intros k. rewrite !lookup_delete. case_decide; [done | apply Hkeys].
  - intros k w0 h0. rewrite !lookup_delete. case_decide; [done | eauto].
Qed.

(** The decision [Phi] takes on the recent samples, in any iteration order. *)
Lemma decide_recent ord recent m :
  recent <> [] -> m = Z.of_nat (length recent) -> ord ≡ₚ map_to_list (count_all recent) ->
  match first_with (fun count => count =? m) ord with
  | Some status => Ret status
  | None =>
      if default 0 (count_all recent !! GOSSIP_EMPTY) =? 0
      then Ret GOSSIP_NO_EMPTY_IN_SAMPLES else Ret GOSSIP_NOT_FILL_SAMPLES
  end =
  Ret match recent with
      | [] => GOSSIP_NO_EMPTY_IN_SAMPLES
      | s :: rest =>
          if decide (Forall (eq s) rest) then s
          else if decide (GOSSIP_EMPTY ∈ recent) then GOSSIP_NOT_FILL_SAMPLES
          else GOSSIP_NO_EMPTY_IN_SAMPLES
      end.
Proof.
  intros Hne -> Hord.
  assert (Hfw : forall s, first_with (fun count => count =? Z.of_nat (length recent)) ord = Some s <->
                          Forall (eq s) recent).
  { intros s. rewrite (first_with_unique _ (count_all recent)); [|done|].
    2: { intros s1 s2 n1 n2 [-> _]%count_all_lookup [-> ?]%count_all_lookup H1%Z.eqb_eq H2%Z.eqb_eq.
         destruct (decide (s1 = s2)) as [|Hs]; [done|]. pose proof (occurs_two s1 s2 recent Hs). lia. }
    rewrite <- occurs_full. setoid_rewrite count_all_lookup. setoid_rewrite Z.eqb_eq.
    split; [naive_solver|]. intros Ho. exists (Z.of_nat (length recent)).
    split_and!; [done | | done]. destruct recent; [done | cbn; lia]. }
  destruct recent as [|s rest]; [done|].
  destruct (first_with _ ord) as [s'|].
  - destruct (proj1 (Forall_cons _ _ _) (proj1 (Hfw s') eq_refl)) as [<- Hr].
    by rewrite decide_True.
  - rewrite (decide_False (P := Forall (eq s) rest)).
    + rewrite count_all_default. destruct (Z.eqb_spec (occurs GOSSIP_EMPTY (s :: rest)) 0) as [H0|H0].
      * apply occurs_zero in H0. by rewrite decide_False.
      * rewrite decide_True; [done|]. destruct (decide (GOSSIP_EMPTY ∈ s :: rest)) as [|Hn]; [done|].
        by apply occurs_zero in Hn.
    + intros Hr. assert (None = Some s) as Habs; [|done]. apply Hfw. by constructor.
Qed.

Lemma Phi_ord_spec cap hist d key h m ord :
  detector_of cap hist d -> hist !! key = Some h ->
  d_minSamples d = Z.of_nat m -> (1 <= m <= cap)%nat ->
  (forall c, ord c ≡ₚ map_to_list c) ->
  Detector.Phi_ord ord d key = Ret (Detector.verdict m (sa_Status <$> h)).
Proof.
  intros [Hsz Hcap Hkeys Hwin] Hh Hm Hmc Hord. unfold Detector.Phi_ord, Detector.verdict.
  destruct (d_w d !! key) as [w|] eqn:Hk; [|apply Hkeys in Hk; congruence].
  pose proof (Hwin key w h Hk Hh) as Hw. rewrite (Len_window cap h w Hw), Hm, length_fmap.
  destruct (Nat.ltb_spec (length h) m) as [Hlt|Hge].
  { destruct (Z.ltb_spec (Z.min (Z.of_nat (length h)) (Z.of_nat cap)) (Z.of_nat m)); [done|lia]. }
  destruct (Z.ltb_spec (Z.min (Z.of_nat (length h)) (Z.of_nat cap)) (Z.of_nat m)); [lia|].
  rewrite (LastNSamples_window cap h w m Hw) by lia. cbn [mbind outcome_bind].
  rewrite fmap_drop. apply decide_recent; [|rewrite length_drop, length_fmap; lia|apply Hord].
  intros Hnil. apply (f_equal length) in Hnil. rewrite length_drop, length_fmap in Hnil. cbn in Hnil. lia.
Qed.

Lemma Phi_missing ord d key : d_w d !! key = None -> Detector.Phi_ord ord d key = Panic NilDeref.
Proof. intros H. unfold Detector.Phi_ord. by rewrite H. Qed.

End DetectorFacts.

(** ** Properties *)

(** The detector after a sequence of samples: key, text, time. *)
Definition record_all (d : Detector) (l : list (string * string * Time.t)) : outcome Detector :=
  foldlM (fun d x => Detector.record_sample d x.1.1 x.1.2 x.2) d l.

(** The samples of [key] in the sequence. *)
Definition samples_of (key : string) (l : list (string * string * Time.t)) : list StatusAndTime :=
  omap (fun x => if decide (x.1.1 = key) then Some (Sample x.1.2 x.2) else None) l.

Lemma record_all_spec cap l : forall hist d,
  detector_of cap hist d -> (forall k, Z.of_nat (length (default [] (hist !! k)) + length l) < MaxInt64) ->
  exists hist' d', record_all d l = Ret d' /\ detector_of cap hist' d' /\ d_minSamples d' = d_minSamples d /\
    forall k, default [] (hist' !! k) = default [] (hist !! k) ++ samples_of k l /\
              (is_Some (hist' !! k) <-> is_Some (hist !! k) \/ samples_of k l <> []).
Proof.
  induction l as [|[[key text] now] l IH]; intros hist d Hd Hmax.
  { exists hist, d. split_and!; [done..|]. intros k. rewrite app_nil_r. naive_solver. }
  destruct (DetectorFacts.record_sample_spec cap hist d key text now Hd) as (d1 & H1 & Hd1 & Hm1).
  { specialize (Hmax key). cbn [length] in Hmax. lia. }
  destruct (IH _ d1 Hd1) as (hist' & d' & H2 & Hd' & Hm' & Hk).
  { intros k. specialize (Hmax k). cbn [length] in Hmax. rewrite lookup_insert.
    case_decide; subst; cbn; rewrite ?length_app; cbn [length]; lia. }
  exists hist', d'. unfold record_all in *. cbn [foldlM fst snd]. rewrite H1. split_and!; [done|done|congruence|].
  intros k. specialize (Hk k). rewrite lookup_insert in Hk. unfold samples_of in *. cbn [omap list_omap fst snd].
  destruct (decide (key = k)) as [->|Hne]; cbn in Hk |- *; [|done].
  rewrite <- app_assoc in Hk. naive_solver.
Qed.

(** The ring buffer keeps the most recent samples: after any sequence of
    samples on any keys, [LastNSamples] of a key returns its last [n] samples,
    oldest first, for every [n] up to the window size. *)
Theorem window_keeps_recent cap minSamples l key n d w :
  (0 < cap)%nat -> Z.of_nat (length l) < MaxInt64 ->
  record_all (Detector.NewDetector (Z.of_nat cap) minSamples) l = Ret d -> d_w d !! key = Some w ->
  (n <= cap)%nat -> (n <= length (samples_of key l))%nat ->
  Windowed.LastNSamples w (Z.of_nat n) =
  Ret (drop (length (samples_of key l) - n) (samples_of key l)).
Proof.
  intros Hcap Hmax Hrun Hw Hn Hl.
  destruct (record_all_spec cap l ∅ _ (DetectorFacts.new_detector cap minSamples Hcap))
    as (hist & d' & Hrun' & Hd & _ & Hk).
  { intros k. rewrite lookup_empty. exact Hmax. }
  rewrite Hrun in Hrun'. injection Hrun' as <-. destruct (Hk key) as [Hh _].
  rewrite lookup_empty in Hh. cbn in Hh.
  destruct (hist !! key) as [h|] eqn:Hkey; [|apply (do_keys _ _ _ Hd) in Hkey; congruence].
  cbn in Hh. subst h. apply DetectorFacts.LastNSamples_window with cap; [|done|done].
  by eapply (do_windows _ _ _ Hd).
Qed.

Lemma window_keeps_recent_witness :
  let l := [("db", "UP", 1); ("x", "UP", 2); ("db", "UP", 3); ("db", "DOWN", 4); ("db", "EMPTY", 5)] in
  exists d w, record_all (Detector.NewDetector 2 2) l = Ret d /\ d_w d !! "db" = Some w /\
    Windowed.LastNSamples w 2 = Ret [Sample "DOWN" 4; Sample "EMPTY" 5].
Proof.
  eexists _, _. split_and!; [vm_compute; reflexivity|vm_compute; reflexivity|].
  eapply (window_keeps_recent 2 2 [("db", "UP", 1); ("x", "UP", 2); ("db", "UP", 3); ("db", "DOWN", 4);
            ("db", "EMPTY", 5)] "db" 2); vm_compute; try reflexivity; lia.
Defined.

(** C17: the verdict of [Phi] is a function of the samples: after any sequence of
    samples, in every iteration order of the counting map, it is
    LESS_THAN_MINSAMPLE below the minimum, the common text of the last
    [minSamples] samples when they agree, and otherwise tells whether EMPTY is
    among them. *)
Theorem phi_verdict cap m l key ord :
  (1 <= m <= cap)%nat -> Z.of_nat (length l) < MaxInt64 -> samples_of key l <> [] ->
  (forall c, ord c ≡ₚ map_to_list c) ->
  exists d, record_all (Detector.NewDetector (Z.of_nat cap) (Z.of_nat m)) l = Ret d /\
    Detector.Phi_ord ord d key = Ret (Detector.verdict m (sa_Status <$> samples_of key l)).
Proof.
  intros Hm Hmax Hne Hord. assert (Hcap : (0 < cap)%nat) by lia.
  destruct (record_all_spec cap l ∅ _ (DetectorFacts.new_detector cap (Z.of_nat m) Hcap))
    as (hist & d & Hrun & Hd & Hmin & Hk).
  { intros k. rewrite lookup_empty. exact Hmax. }
  exists d. split; [done|]. destruct (Hk key) as [Hh Hs]. rewrite lookup_empty in Hh, Hs. cbn in Hh.
  destruct (proj2 Hs (or_intror Hne)) as [h Hkey]. rewrite Hkey in Hh. cbn in Hh. subst h.
  by eapply DetectorFacts.Phi_ord_spec.
Qed.

Lemma phi_verdict_witness :
  let l := [("db", "UP", 1); ("db", "DOWN", 2); ("db", "DOWN", 3)] in
  exists d, record_all (Detector.NewDetector 3 2) l = Ret d /\
    Detector.Phi_ord map_to_list d "db" = Ret (Detector.verdict 2 (sa_Status <$> samples_of "db" l)) /\
    Detector.verdict 2 (sa_Status <$> samples_of "db" l) = GOSSIP_DOWN.
Proof.
  destruct (phi_verdict 3 2 [("db", "UP", 1); ("db", "DOWN", 2); ("db", "DOWN", 3)] "db" map_to_list)
    as (d & H1 & H2); [lia|vm_compute; reflexivity|discriminate|reflexivity|].
  exists d. split_and!; [exact H1|exact H2|vm_compute; reflexivity].
Defined.
