(* ===== verification/Bridge.v ===== *)
(** * Probing and gossip: bridge.go, commonVerifier.go, scavenger.go

    [makeGossip1] feeds every key of the table to the verifier, whose workers
    probe it and hand the verdict to [makeGossip2], which stamps it and puts it
    into the gossip cache; [consumeGossip] adds what other nodes sent;
    [scavenge] drops what no longer has a key or a member.  The bridge and the
    gossip cache hold the same gossip node, so its state lives in the cache. *)

From S2P Require Import Prelude GoStd Base KVCache Delegate Gossip GossipCache Detector.

Record verifyOutput : Type := VerifyOutput {
  vo_key : string;
  vo_value : string;
  vo_status : gossipStatus
}.

Module Bridge.

(** What the executor of a shell command answers. *)
Abbreviation executor := (Z -> string -> list string -> string * string) (only parsing).

Section Ops.

Context {N : Type} `{!GossipNode N}.

(** The state the bridge, the verifier and the scavenger work on. *)
Record bridge : Type := MkBridge {
  b_cm : cacheManager;
  b_gcm : GCM.gossipCacheManager N;
  b_detector : Detector;
  b_lastTimeStamp : Z
}.

Definition with_gcm (b : bridge) (g : GCM.gossipCacheManager N) : bridge :=
  MkBridge (b_cm b) g (b_detector b) (b_lastTimeStamp b).
Definition with_detector (b : bridge) (d : Detector) : bridge :=
  MkBridge (b_cm b) (b_gcm b) d (b_lastTimeStamp b).

(** [NewCommonVerifier]: windows of five samples, three of them needed. *)
Definition new_detector : Detector := Detector.NewDetector 5 3.

(** The inputs [makeGossip1] sends, in the order [ord] of the copied table. *)
Definition makeGossip1 (ord : list (string * string)) : list verifyInput :=
  (fun kv => VerifyInput kv.1 kv.2) <$> ord.

(** One worker of [verify]: [Ping] and [Phi] are two critical sections. *)
Definition verify_ping (exec : executor) (script : string) (b : bridge) (input : verifyInput)
    (now : Time.t) : outcome bridge :=
  d ← Detector.Ping exec (b_detector b) script input now; Ret (with_detector b d).

Definition verify_phi (ord : gmap string Z -> list (string * Z)) (b : bridge) (input : verifyInput)
    : outcome verifyOutput :=
  status ← Detector.Phi_ord ord (b_detector b) (vi_key input);
  Ret (VerifyOutput (vi_key input) (vi_value input) status).

(** The two remarks [makeGossip2] may log. *)
Definition may_event (b : bridge) (output : verifyOutput) : bool :=
  let '(prevConsensus, ok) := GCM.GetPreviousConsensus (b_gcm b) (vo_key output) in
  ok && ((bool_decide (prevConsensus = GOSSIP_DOWN) && bool_decide (vo_status output = GOSSIP_UP))
         || (bool_decide (prevConsensus = GOSSIP_UP) && bool_decide (vo_status output = GOSSIP_DOWN))).

Definition may_empty (b : bridge) (output : verifyOutput) : bool :=
  let '(prevEmpty, ok) := GCM.GetEmpty (b_gcm b) (vo_key output) in
  let status := vo_status output in
  ok && ((prevEmpty && bool_decide (status <> GOSSIP_LESS_THAN_MINSAMPLE)
          && bool_decide (status <> GOSSIP_NOT_FILL_SAMPLES) && bool_decide (status <> GOSSIP_EMPTY))
         || (negb prevEmpty && bool_decide (status = GOSSIP_EMPTY))).

(** One output: the stamp is past the clock and past the last stamp. *)
Definition next_stamp (b : bridge) (now : Time.t) : Z :=
  wrap64 (Max (Time.UnixNano now) (b_lastTimeStamp b) + 1).

Definition makeGossip2 (b : bridge) (output : verifyOutput) (now : Time.t)
    : outcome (bridge * (bool * bool)) :=
  let node := Addr (GCM.gcm_gnode (b_gcm b)) in
  let timeStamp := next_stamp b now in
  let remarks := (may_event b output, may_empty b output) in
  g ← GCM.Set_ (b_gcm b) (vo_key output) (vo_value output) node timeStamp (vo_status output);
  Ret (MkBridge (b_cm b) g (b_detector b) timeStamp, remarks).

Definition consumeGossip (b : bridge) : outcome bridge :=
  let '(gnode, msgs) := GetMessages (GCM.gcm_gnode (b_gcm b)) in
  g ← foldlM (fun g msg => GCM.Set_ g (Key msg) (Value msg) (Node msg) (TimeStamp msg) (Status msg))
        (GCM.Gcm (GCM.gcm_data (b_gcm b)) gnode) msgs;
  Ret (with_gcm b g).

(** ** The scavenger *)

(** One entry of the copied cache; [ordn] is the order of its reports. *)
Definition scavenge_entry (data : gmap string string) (members : list string)
    (ordn : gomap gossipStatusAndTimeStamp -> list (string * gossipStatusAndTimeStamp))
    (g : GCM.gossipCacheManager N) (kv : string * gossipConsensus) : GCM.gossipCacheManager N :=
  match data !! kv.1 with
  | None => GCM.DelKey g kv.1
  | Some _ =>
      fold_left (fun g nr => if Exists members nr.1 then g else GCM.DelNodeAddr g kv.1 nr.1)
        (ordn (consensus kv.2)) g
  end.

Definition scavenge_window (data : gmap string string) (d : Detector)
    (kw : string * list StatusAndTime) : Detector :=
  match data !! kw.1 with
  | None => Detector.DelKey d kw.1
  | Some _ => d
  end.

(** [ordg] and [ordd] are the orders of the two copies that are visited. *)
Definition scavenge
    (ordg : gmap string gossipConsensus -> list (string * gossipConsensus))
    (ordn : gomap gossipStatusAndTimeStamp -> list (string * gossipStatusAndTimeStamp))
    (ordd : gmap string (list StatusAndTime) -> list (string * list StatusAndTime))
    (b : bridge) : bridge :=
  let data := KV.Clone (b_cm b) in
  let members := Members (GCM.gcm_gnode (b_gcm b)) in
  let g := fold_left (scavenge_entry data members ordn) (ordg (GCM.Clone (b_gcm b))) (b_gcm b) in
  let d := fold_left (scavenge_window data) (ordd (Detector.Clone (b_detector b))) (b_detector b) in
  MkBridge (b_cm b) g d (b_lastTimeStamp b).

(** ** A probing round: every input is probed and its verdict gossiped; [nows]
    gives the clock readings of the probe and of the stamp. *)

Definition probe (exec : executor) (script : string) (ord : gmap string Z -> list (string * Z))
    (now : string -> Time.t * Time.t) (b : bridge) (input : verifyInput) : outcome bridge :=
  b ← verify_ping exec script b input (now (vi_key input)).1;
  output ← verify_phi ord b input;
  r ← makeGossip2 b output (now (vi_key input)).2;
  Ret r.1.

Definition probe_round (exec : executor) (script : string) (ord : gmap string Z -> list (string * Z))
    (now : string -> Time.t * Time.t) (ordc : list (string * string)) (b : bridge) : outcome bridge :=
  foldlM (probe exec script ord now) b (makeGossip1 ordc).

End Ops.

Arguments bridge : clear implicits.

(** ** Lemmas: stamps *)

Section Facts.

Context {N : Type} `{!GossipNode N}.

Implicit Types (b : bridge N) (output : verifyOutput).

Lemma next_stamp_past b now :
  Time.UnixNano now < MaxInt64 -> b_lastTimeStamp b < MaxInt64 -> MinInt64 <= b_lastTimeStamp b ->
  b_lastTimeStamp b < next_stamp b now /\ Time.UnixNano now < next_stamp b now /\
  next_stamp b now = Z.max (Time.UnixNano now) (b_lastTimeStamp b) + 1.
Proof.
  intros Hn Hl Hm. unfold next_stamp. rewrite Max_max. pose proof (wrap64_range now) as Hr.
  change (wrap64 now) with (Time.UnixNano now) in Hr. rewrite wrap64_id by solve_int. lia.
Qed.

(** The node's own reports are not ahead of its last stamp. *)
Definition own_behind b : Prop :=
  forall k r, GCM.report (b_gcm b) k (Addr (GCM.gcm_gnode (b_gcm b))) = Some r ->
    r_timeStamp r <= b_lastTimeStamp b.

Definition output_msg b output (now : Time.t) : MyBroadcastMessage :=
  Msg (next_stamp b now) (Addr (GCM.gcm_gnode (b_gcm b))) (vo_key output) (vo_value output) (vo_status output).

Definition stamps_left b (now : Time.t) : Prop :=
  Time.UnixNano now < MaxInt64 /\ MinInt64 <= b_lastTimeStamp b < MaxInt64.

(** A verdict is always taken: its stamp is past the node's own report. *)
Lemma makeGossip2_spec b output now :
  GCM.writable (b_gcm b) -> own_behind b -> stamps_left b now ->
  makeGossip2 b output now =
  Ret (MkBridge (b_cm b) (GCM.stored (b_gcm b) (output_msg b output now)) (b_detector b) (next_stamp b now),
       (may_event b output, may_empty b output)).
Proof.
  intros Hw Hown (Hn & Hm & Hl). destruct (next_stamp_past b now Hn Hl Hm) as (Hlast & _ & _).
  unfold makeGossip2. pose proof (GCM.deliver_stored (b_gcm b) (output_msg b output now) Hw) as Hd.
  unfold GCM.deliver in Hd. cbn in Hd. rewrite Hd. cbn [mbind outcome_bind].
  replace (GCM.accepts _ _) with true; [done|]. symmetry. unfold GCM.accepts.
  destruct (GCM.report (b_gcm b) (vo_key output) _) as [r|] eqn:Hr; [|done]. apply Hown in Hr. cbn. lia.
Qed.

End Facts.

Section Laws.

Context {N : Type} `{!GossipNode N, !GossipNodeLaws N}.

Implicit Types (b : bridge N) (output : verifyOutput).

(** After one output: the verdict is the node's report on the key, the other
    reports and the records stay, and the stamps keep their order. *)
Lemma makeGossip2_effect b output now :
  GCM.writable (b_gcm b) -> own_behind b -> stamps_left b now ->
  exists b', makeGossip2 b output now = Ret (b', (may_event b output, may_empty b output)) /\
    b_cm b' = b_cm b /\ b_detector b' = b_detector b /\
    b_lastTimeStamp b' = Z.max (Time.UnixNano now) (b_lastTimeStamp b) + 1 /\
    GCM.writable (b_gcm b') /\ own_behind b' /\
    Addr (GCM.gcm_gnode (b_gcm b')) = Addr (GCM.gcm_gnode (b_gcm b)) /\
    (forall k n, GCM.report (b_gcm b') k n =
       if decide (GCM.about k n (output_msg b output now)) then Some (GCM.msg_report (output_msg b output now))
       else GCM.report (b_gcm b) k n) /\
    (forall k, GCM.meta (b_gcm b') k = GCM.meta (b_gcm b) k).
Proof.
  intros Hw Hown Hs. rewrite makeGossip2_spec by done. eexists. split; [reflexivity|].
  destruct Hs as (Hn & Hm & Hl). destruct (next_stamp_past b now Hn Hl Hm) as (Hlast & _ & Heq).
  assert (Haddr : Addr (GCM.gcm_gnode (GCM.stored (b_gcm b) (output_msg b output now))) =
                  Addr (GCM.gcm_gnode (b_gcm b))) by apply SetBroadcasts_Addr.
  split_and!; try done.
  - by apply GCM.stored_writable.
  - intros k r. cbn [b_gcm b_lastTimeStamp]. rewrite Haddr, GCM.stored_report. case_decide as Hab.
    + intros [= <-]. cbn. lia.
    + intros Hr. apply Hown in Hr. lia.
  - intros k n. apply GCM.stored_report.
  - intros k. apply GCM.stored_meta.
Qed.

(** A sequence of outputs, each with the clock reading of its stamp. *)
Definition gossip_outputs b (l : list (verifyOutput * Time.t)) : outcome (bridge N) :=
  foldlM (fun b x => r ← makeGossip2 b x.1 x.2; Ret r.1) b l.

(** The last verdict on a key. *)
Definition last_verdict (key : string) (l : list (verifyOutput * Time.t)) (old : option gossipStatus)
    : option gossipStatus :=
  fold_left (fun old x => if decide (vo_key x.1 = key) then Some (vo_status x.1) else old) l old.

Lemma gossip_outputs_spec M l : forall b,
  GCM.writable (b_gcm b) -> own_behind b -> MinInt64 <= b_lastTimeStamp b <= M ->
  Forall (fun x => Time.UnixNano x.2 <= M) l -> M + Z.of_nat (length l) < MaxInt64 ->
  exists b', gossip_outputs b l = Ret b' /\ own_behind b' /\ GCM.writable (b_gcm b') /\
    b_lastTimeStamp b + Z.of_nat (length l) <= b_lastTimeStamp b' /\
    Addr (GCM.gcm_gnode (b_gcm b')) = Addr (GCM.gcm_gnode (b_gcm b)) /\
    forall k, r_status <$> GCM.report (b_gcm b') k (Addr (GCM.gcm_gnode (b_gcm b))) =
      last_verdict k l (r_status <$> GCM.report (b_gcm b) k (Addr (GCM.gcm_gnode (b_gcm b)))).
Proof.
  revert M. unfold gossip_outputs. induction l as [|[output now] l IH]; intros M b Hw Hown Hlast HF Hmax.
  { exists b. split_and!; try done. cbn. lia. }
  apply Forall_cons in HF as [Hnow HF]. cbn [length snd] in *.
  destruct (makeGossip2_effect b output now Hw Hown) as (b1 & H1 & _ & _ & Hl1 & Hw1 & Ho1 & Ha1 & Hr1 & _).
  { unfold stamps_left. lia. }
  destruct (IH (M + 1) b1) as (b2 & H2 & Ho2 & Hw2 & Hl2 & Ha2 & Hr2); [done|done|lia| |lia|].
  { eapply Forall_impl; [exact HF|]. cbn. intros. lia. }
  exists b2. cbn [foldlM fst snd]. rewrite H1. cbn [mbind outcome_bind fst].
  split_and!; [done|done|done|lia|congruence|]. intros k. rewrite <- Ha1, Hr2. unfold last_verdict.
  cbn [fold_left fst]. f_equal. rewrite Ha1, Hr1. unfold GCM.about, output_msg. cbn.
  repeat case_decide; naive_solver.
Qed.

(** ** Lemmas: incoming gossip *)

Lemma deliver_all_messages (g g' : GCM.gossipCacheManager N) ms :
  GCM.writable g -> GCM.deliver_all g ms = Ret g' ->
  (GetMessages (GCM.gcm_gnode g')).2 = (GetMessages (GCM.gcm_gnode g)).2 /\
  Addr (GCM.gcm_gnode g') = Addr (GCM.gcm_gnode g) /\
  Members (GCM.gcm_gnode g') = Members (GCM.gcm_gnode g).
Proof.
  revert g. induction ms as [|m ms IH]; intros g Hw Hrun; [by injection Hrun as <-|].
  unfold GCM.deliver_all in Hrun. cbn [foldlM] in Hrun. apply bind_Ret_inv in Hrun as (g1 & H1 & Hrun).
  destruct (GCM.deliver_spec g m Hw) as (g1' & H1' & Hw1 & _ & _ & Hg1).
  rewrite H1 in H1'. injection H1' as <-. destruct (IH g1 Hw1 Hrun) as (-> & -> & ->). rewrite Hg1.
  case_match; [|done].
  by rewrite SetBroadcasts_messages, SetBroadcasts_Addr, SetBroadcasts_Members.
Qed.

Lemma consumeGossip_spec b :
  GCM.writable (b_gcm b) ->
  exists b', consumeGossip b = Ret b' /\ GCM.writable (b_gcm b') /\
    (GetMessages (GCM.gcm_gnode (b_gcm b'))).2 = [] /\
    (forall k n, GCM.report (b_gcm b') k n =
       GCM.latest (GCM.report (b_gcm b) k n) k n (GetMessages (GCM.gcm_gnode (b_gcm b))).2) /\
    (forall k, GCM.meta (b_gcm b') k = GCM.meta (b_gcm b) k) /\
    Addr (GCM.gcm_gnode (b_gcm b')) = Addr (GCM.gcm_gnode (b_gcm b)) /\
    b_cm b' = b_cm b /\ b_detector b' = b_detector b /\ b_lastTimeStamp b' = b_lastTimeStamp b.
Proof.
  intros Hw. unfold consumeGossip.
  pose proof (GetMessages_drains (GCM.gcm_gnode (b_gcm b))) as Hdr.
  pose proof (GetMessages_Addr (GCM.gcm_gnode (b_gcm b))) as Had.
  destruct (GetMessages (GCM.gcm_gnode (b_gcm b))) as [gnode msgs]. cbn in Hdr, Had |- *.
  destruct (GCM.deliver_all_spec msgs (GCM.Gcm (GCM.gcm_data (b_gcm b)) gnode) Hw)
    as (g & Hrun & Hwg & Hr & Hm).
  destruct (deliver_all_messages (GCM.Gcm (GCM.gcm_data (b_gcm b)) gnode) g msgs Hw Hrun) as (Hmsg & Ha & _).
  change (foldlM _ _ _) with (GCM.deliver_all (GCM.Gcm (GCM.gcm_data (b_gcm b)) gnode) msgs).
  rewrite Hrun. eexists. split; [reflexivity|]. cbn [b_gcm with_gcm].
  split_and!; try done; [by rewrite Hmsg | by rewrite Ha].
Qed.

End Laws.

(** ** Lemmas: the scavenger *)

Section Scavenge.

Context {N : Type} `{!GossipNode N}.

Implicit Types (b : bridge N) (g : GCM.gossipCacheManager N).

(** The reports of members. *)
Definition keep_members (members : list string) (m : gomap gossipStatusAndTimeStamp)
    : gomap gossipStatusAndTimeStamp :=
  filter (fun nr => nr.1 ∈ members) <$> m.

(** What the scavenger leaves of an entry. *)
Definition scavenged (data : gmap string string) (members : list string) (k : string)
    (o : option gossipConsensus) : option gossipConsensus :=
  match data !! k with
  | None => None
  | Some _ => (fun v => with_consensus v (keep_members members (consensus v))) <$> o
  end.

(** Deleting node reports one by one, on the report map alone. *)
Definition drop_nodes (members : list string) (l : list (string * gossipStatusAndTimeStamp))
    (m : gomap gossipStatusAndTimeStamp) : gomap gossipStatusAndTimeStamp :=
  fold_left (fun m nr => if Exists members nr.1 then m else gm_del m nr.1) l m.

Lemma drop_nodes_tab members l : forall t,
  exists t', drop_nodes members l (Some t) = Some t' /\
    forall n, t' !! n = if decide (n ∈ l.*1 /\ n ∉ members) then None else t !! n.
Proof.
  unfold drop_nodes. induction l as [|[n0 r0] l IH]; intros t; cbn [fold_left fst].
  { exists t. split; [done|]. intros n. rewrite decide_False; [done|]. set_solver. }
  destruct (Exists members n0) eqn:He.
  - apply Exists_elem in He. destruct (IH t) as (t' & Ht & Hl). exists t'. split; [done|].
    intros n. rewrite Hl. apply decide_ext. cbn. set_solver.
  - apply Exists_not_elem in He. destruct (IH (delete n0 t)) as (t' & Ht & Hl). exists t'. split; [done|].
    intros n. rewrite Hl, lookup_delete. cbn [fmap list_fmap fst]. repeat case_decide; set_solver.
Qed.

Lemma drop_nodes_range members l t :
  range_of l (Some t) -> drop_nodes members l (Some t) = keep_members members (Some t).
Proof.
  intros Hl. destruct (drop_nodes_tab members l t) as (t' & -> & Hn). cbn. f_equal. apply map_eq.
  intros n. rewrite Hn. destruct (t !! n) as [r|] eqn:Ht.
  - assert (Hin : n ∈ l.*1).
    { apply list_elem_of_fmap. exists (n, r). split; [done|]. by apply (range_of_elem l (Some t)). }
    destruct (decide (n ∈ members)).
    + rewrite decide_False by tauto. symmetry. by apply map_lookup_filter_Some.
    + rewrite decide_True by done. symmetry. apply map_lookup_filter_None. right. naive_solver.
  - transitivity (None : option gossipStatusAndTimeStamp); [by case_decide|].
    symmetry. apply map_lookup_filter_None. by left.
Qed.

Lemma DelNodeAddr_entry g key n k :
  GCM.gcm_data (GCM.DelNodeAddr g key n) !! k =
  if decide (key = k) then (fun v => with_consensus v (gm_del (consensus v) n)) <$> GCM.gcm_data g !! k
  else GCM.gcm_data g !! k.
Proof.
  unfold GCM.DelNodeAddr. destruct (GCM.gcm_data g !! key) as [v|] eqn:Hv; cbn.
  - rewrite lookup_insert. case_decide; [subst; by rewrite Hv | done].
  - case_decide; [subst; by rewrite Hv | done].
Qed.

Lemma drop_nodes_entry members key l k : forall g,
  GCM.gcm_data (fold_left (fun g nr => if Exists members nr.1 then g else GCM.DelNodeAddr g key nr.1) l g) !! k =
  if decide (key = k) then (fun v => with_consensus v (drop_nodes members l (consensus v))) <$> GCM.gcm_data g !! k
  else GCM.gcm_data g !! k.
Proof.
  induction l as [|[n r] l IH]; intros g; cbn [fold_left fst].
  { case_decide; [|done]. destruct (GCM.gcm_data g !! k) as [[]|]; done. }
  unfold drop_nodes in *. cbn [fold_left fst]. rewrite IH. destruct (Exists members n); [done|].
  rewrite DelNodeAddr_entry. case_decide; [|done]. by destruct (GCM.gcm_data g !! k).
Qed.

Lemma scavenge_entry_lookup data members ordn g key v k :
  GCM.gcm_data (scavenge_entry data members ordn g (key, v)) !! k =
  if decide (key = k) then
    match data !! k with
    | None => None
    | Some _ => (fun w => with_consensus w (drop_nodes members (ordn (consensus v)) (consensus w)))
                <$> GCM.gcm_data g !! k
    end
  else GCM.gcm_data g !! k.
Proof.
  unfold scavenge_entry. cbn [fst snd]. destruct (data !! key) as [x|] eqn:Hd.
  - rewrite drop_nodes_entry. case_decide; [subst; by rewrite Hd | done].
  - rewrite GCM.DelKey_lookup. case_decide; [subst; by rewrite Hd | done].
Qed.

Lemma scavenge_entries_lookup data members ordn L k : forall g,
  NoDup L.*1 ->
  GCM.gcm_data (fold_left (scavenge_entry data members ordn) L g) !! k =
  match (list_to_map L : gmap string gossipConsensus) !! k with
  | None => GCM.gcm_data g !! k
  | Some v =>
      match data !! k with
      | None => None
      | Some _ => (fun w => with_consensus w (drop_nodes members (ordn (consensus v)) (consensus w)))
                  <$> GCM.gcm_data g !! k
      end
  end.
Proof.
  induction L as [|[key v] L IH]; intros g Hnd; cbn [fold_left];
    [by rewrite list_to_map_nil, lookup_empty|].
  apply NoDup_cons in Hnd as [Hk Hnd]. rewrite IH by done.
  rewrite list_to_map_cons, lookup_insert, scavenge_entry_lookup. destruct (decide (key = k)) as [<-|Hne]; [|done].
  by rewrite not_elem_of_list_to_map_1.
Qed.

Lemma scavenge_gcm ordg ordn ordd b k :
  (forall m, ordg m ≡ₚ map_to_list m) -> (forall m, range_of (ordn m) m) ->
  GCM.writable (b_gcm b) ->
  GCM.gcm_data (b_gcm (scavenge ordg ordn ordd b)) !! k =
  scavenged (gm_tab (cm_data (b_cm b))) (Members (GCM.gcm_gnode (b_gcm b))) k (GCM.gcm_data (b_gcm b) !! k).
Proof.
  intros Hg Hn Hw. unfold scavenge. cbn [b_gcm]. rewrite KV.Clone_tab.
  rewrite scavenge_entries_lookup by (rewrite Hg; apply NoDup_fst_map_to_list).
  rewrite (list_to_map_proper _ (map_to_list (GCM.Clone (b_gcm b)))), list_to_map_to_list;
    [|rewrite Hg; apply NoDup_fst_map_to_list|apply Hg].
  rewrite GCM.Clone_spec, lookup_fmap. unfold scavenged.
  destruct (GCM.gcm_data (b_gcm b) !! k) as [v|] eqn:Hv; cbn; [|by destruct (gm_tab (cm_data (b_cm b)) !! k)].
  destruct (gm_tab (cm_data (b_cm b)) !! k); [|done]. destruct (Hw k v Hv) as [t Ht]. rewrite Ht. cbn [gm_tab].
  by rewrite drop_nodes_range.
Qed.

Lemma scavenge_windows_lookup data L k : forall d,
  NoDup L.*1 ->
  d_w (fold_left (scavenge_window data) L d) !! k =
  if decide (k ∈ L.*1 /\ data !! k = None) then None else d_w d !! k.
Proof.
  induction L as [|[key w] L IH]; intros d Hnd; cbn [fold_left].
  { rewrite decide_False; [done|]. set_solver. }
  apply NoDup_cons in Hnd as [Hk Hnd]. rewrite IH by done. unfold scavenge_window. cbn [fst fmap list_fmap].
  destruct (data !! key) as [x|] eqn:Hd; cbn [d_w Detector.DelKey].
  - apply decide_ext. rewrite elem_of_cons. split; [naive_solver|]. intros [[->|?] ?]; [congruence|done].
  - rewrite lookup_delete. repeat case_decide; set_solver.
Qed.

Lemma scavenge_detector ordg ordn ordd b k :
  (forall m, ordd m ≡ₚ map_to_list m) ->
  d_w (b_detector (scavenge ordg ordn ordd b)) !! k =
  match gm_tab (cm_data (b_cm b)) !! k with
  | None => None
  | Some _ => d_w (b_detector b) !! k
  end.
Proof.
  intros Hd. unfold scavenge. cbn [b_detector]. rewrite KV.Clone_tab.
  assert (Hnd : NoDup (ordd (Detector.Clone (b_detector b))).*1) by (rewrite Hd; apply NoDup_fst_map_to_list).
  rewrite scavenge_windows_lookup by done.
  destruct (gm_tab (cm_data (b_cm b)) !! k) as [x|]; [by rewrite decide_False by naive_solver|].
  case_decide as Hin; [done|]. destruct (d_w (b_detector b) !! k) as [w|] eqn:Hw; [|done].
  destruct Hin. split; [|done]. rewrite Hd. apply list_elem_of_fmap. exists (k, w_data w). split; [done|].
  apply elem_of_map_to_list. unfold Detector.Clone. by rewrite lookup_fmap, Hw.
Qed.

End Scavenge.

(** ** Lemmas: a probing round *)

Section Round.

Context {N : Type} `{!GossipNode N, !GossipNodeLaws N}.
Context (exec : executor) (script : string) (ord : gmap string Z -> list (string * Z)).
Context (now : string -> Time.t * Time.t) (cap m : nat).
Hypothesis Hord : forall c, ord c ≡ₚ map_to_list c.
Hypothesis Hm : (1 <= m <= cap)%nat.

Implicit Types (b : bridge N).

(** The sample the probe of a key takes. *)
Definition probe_sample (key value : string) : StatusAndTime :=
  Sample (Detector.sample_text
            (exec verificationScriptTimeoiut "sh" ["-c"; verification_cmd script key value]).1) (now key).1.

(** The state a round works on: detector, cache, stamps below [M]. *)
Definition probing (M : Z) (hist : gmap string (list StatusAndTime)) b : Prop :=
  detector_of cap hist (b_detector b) /\ d_minSamples (b_detector b) = Z.of_nat m /\
  GCM.writable (b_gcm b) /\ own_behind b /\ MinInt64 <= b_lastTimeStamp b <= M.

Definition own_status b (k : string) : option gossipStatus :=
  r_status <$> GCM.report (b_gcm b) k (Addr (GCM.gcm_gnode (b_gcm b))).

(** The three steps of a probe: the sample, the verdict, the report. *)
Lemma ping_effect M hist b key value t :
  probing M hist b -> Z.of_nat (length (default [] (hist !! key))) < MaxInt64 ->
  let x := Sample (sa_Status (probe_sample key value)) t in
  exists d', verify_ping exec script b (VerifyInput key value) t = Ret (with_detector b d') /\
    probing M (<[key := default [] (hist !! key) ++ [x]]> hist) (with_detector b d').
Proof.
  intros (Hd & Hmin & Hw & Hown & Hlast) Hlen x.
  destruct (DetectorFacts.record_sample_spec cap hist (b_detector b) key (sa_Status (probe_sample key value))
              t Hd Hlen) as (d' & Hrec & Hd' & Hmin').
  exists d'. split; [|unfold probing; cbn [with_detector b_detector b_gcm b_lastTimeStamp];
    split_and!; [exact Hd'|congruence|done|done|lia|lia]].
  unfold verify_ping, Detector.Ping, ShellCmdTimeout. cbn [vi_key vi_value String.length Nat.eqb].
  unfold probe_sample in Hrec. cbn [sa_Status] in Hrec. destruct (exec _ _ _) as [out err].
  cbn [fst] in Hrec. by rewrite Hrec.
Qed.

Lemma phi_effect M hist b key value h :
  probing M hist b -> hist !! key = Some h ->
  verify_phi ord b (VerifyInput key value) = Ret (VerifyOutput key value (Detector.verdict m (sa_Status <$> h))).
Proof.
  intros (Hd & Hmin & _) Hh. unfold verify_phi. cbn [vi_key vi_value].
  by rewrite (DetectorFacts.Phi_ord_spec cap _ (b_detector b) key h m ord Hd).
Qed.

Lemma gossip_effect M hist b output t :
  probing M hist b -> Time.UnixNano t <= M -> M < MaxInt64 ->
  exists b' remarks, makeGossip2 b output t = Ret (b', remarks) /\ probing (M + 1) hist b' /\ b_cm b' = b_cm b /\
    forall k, own_status b' k = if decide (vo_key output = k) then Some (vo_status output) else own_status b k.
Proof.
  intros (Hd & Hmin & Hw & Hown & Hlast) Ht HM.
  destruct (makeGossip2_effect b output t) as (b' & Hg & Hcm & Hdet & Hl & Hw' & Hown' & Haddr & Hrep & _); [done|done| |].
  { unfold stamps_left. lia. }
  exists b'. eexists. split_and!; [exact Hg| |done|].
  - unfold probing. rewrite Hdet. split_and!; [done..|lia|lia].
  - intros k. unfold own_status. rewrite Haddr, Hrep. unfold GCM.about, output_msg. cbn.
    repeat case_decide; naive_solver.
Qed.

Lemma probe_spec M hist b key value :
  probing M hist b -> Time.UnixNano (now key).2 <= M -> M + 1 < MaxInt64 ->
  Z.of_nat (length (default [] (hist !! key))) < MaxInt64 ->
  let h := default [] (hist !! key) ++ [probe_sample key value] in
  exists b', probe exec script ord now b (VerifyInput key value) = Ret b' /\
    probing (M + 1) (<[key := h]> hist) b' /\ b_cm b' = b_cm b /\
    forall k, own_status b' k =
      if decide (key = k) then Some (Detector.verdict m (sa_Status <$> h)) else own_status b k.
Proof.
  intros Hb Hnow HM Hlen h. destruct (ping_effect M hist b key value (now key).1 Hb Hlen) as (d' & Hping & Hb1).
  change (Sample _ (now key).1) with (probe_sample key value) in Hb1. fold h in Hb1.
  pose proof (phi_effect M _ _ key value h Hb1 (lookup_insert_eq _ _ _)) as Hphi.
  destruct (gossip_effect M _ _ (VerifyOutput key value (Detector.verdict m (sa_Status <$> h))) (now key).2 Hb1)
    as (b' & rem & Hg & Hb' & Hcm & Hown); [done|lia|].
  exists b'. unfold probe. cbn [vi_key]. rewrite Hping. cbn [mbind outcome_bind]. rewrite Hphi.
  cbn [mbind outcome_bind]. by rewrite Hg.
Qed.

Lemma probe_round_spec ordc : forall M hist b,
  NoDup ordc.*1 -> probing M hist b -> (forall k, Time.UnixNano (now k).2 <= M) ->
  M + Z.of_nat (length ordc) < MaxInt64 ->
  (forall k, k ∈ ordc.*1 -> Z.of_nat (length (default [] (hist !! k))) < MaxInt64) ->
  exists b', probe_round exec script ord now ordc b = Ret b' /\ b_cm b' = b_cm b /\
    (forall k v, (k, v) ∈ ordc ->
       own_status b' k =
       Some (Detector.verdict m (sa_Status <$> default [] (hist !! k) ++ [probe_sample k v]))) /\
    (forall k, k ∉ ordc.*1 -> own_status b' k = own_status b k).
Proof.
  unfold probe_round, makeGossip1. induction ordc as [|[key value] ordc IH]; intros M hist b Hnd Hb Hnow HM Hlen.
  { exists b. split_and!; try done. intros k v Hin. by apply elem_of_nil in Hin. }
  apply NoDup_cons in Hnd as [Hk Hnd]. cbn [length] in HM.
  destruct (probe_spec M hist b key value Hb) as (b1 & H1 & Hb1 & Hc1 & Ho1); [done|lia| |].
  { apply Hlen. constructor. }
  set (h := default [] (hist !! key) ++ [probe_sample key value]) in *.
  assert (Hrest : forall k, k ∈ ordc.*1 -> (<[key := h]> hist) !! k = hist !! k).
  { intros k Hin. apply lookup_insert_ne. intros ->. done. }
  destruct (IH (M + 1) (<[key := h]> hist) b1) as (b2 & H2 & Hc2 & Ho2 & Hn2); [done|done| |lia| |].
  { intros k. specialize (Hnow k). lia. }
  { intros k Hin. rewrite Hrest by done. apply Hlen. by constructor. }
  exists b2. cbn [fmap list_fmap foldlM fst snd]. rewrite H1. cbn [mbind outcome_bind].
  split_and!; [done|congruence| |].
  - intros k v [[= -> ->]|Hin]%elem_of_cons.
    + rewrite Hn2 by done. rewrite Ho1, decide_True by done. done.
    + rewrite (Ho2 k v Hin), Hrest; [done|]. apply list_elem_of_fmap. by exists (k, v).
  - intros k [Hne Hni]%not_elem_of_cons. rewrite Hn2 by done. rewrite Ho1, decide_False; [done|].
    intros ->. by apply Hne.
Qed.

End Round.

End Bridge.

(** ** Properties *)

Module BridgeClaims.

Import Bridge.

Definition demo_bridge : bridge GNode.static_node :=
  MkBridge (CacheManager (Some {["db" := "10.0.0.9"]}))
    (GCM.NewGossipCacheManager (GNode.static_start "n1:1" ["n1:1"])) new_detector 0.

Lemma demo_own_behind : own_behind demo_bridge.
Proof. intros k r Hr. unfold GCM.report in Hr. cbn in Hr. by rewrite lookup_empty in Hr. Qed.

(** The node's own reports are always taken: stamps grow by one or more with
    every verdict, also when the clock stands still or goes back, so after any
    sequence of verdicts the cache holds, for every key, the last one as the
    node's report. *)
Theorem own_reports_current {N} `{!GossipNode N, !GossipNodeLaws N} M l (b : bridge N) :
  GCM.writable (b_gcm b) -> own_behind b -> MinInt64 <= b_lastTimeStamp b <= M ->
  Forall (fun x => Time.UnixNano x.2 <= M) l -> M + Z.of_nat (length l) < MaxInt64 ->
  exists b', gossip_outputs b l = Ret b' /\ own_behind b' /\
    b_lastTimeStamp b + Z.of_nat (length l) <= b_lastTimeStamp b' /\
    forall k, r_status <$> GCM.report (b_gcm b') k (Addr (GCM.gcm_gnode (b_gcm b))) =
      last_verdict k l (r_status <$> GCM.report (b_gcm b) k (Addr (GCM.gcm_gnode (b_gcm b)))).
Proof.
  intros Hw Ho Hl HF HM. destruct (gossip_outputs_spec M l b Hw Ho Hl HF HM) as (b' & Hrun & Ho' & _ & Hl' & _ & Hr).
  by exists b'.
Qed.

Lemma own_reports_current_witness :
  let l := [(VerifyOutput "db" "h" GOSSIP_UP, 50); (VerifyOutput "db" "h" GOSSIP_DOWN, 20)] in
  exists b', gossip_outputs demo_bridge l = Ret b' /\ own_behind b' /\
    b_lastTimeStamp demo_bridge + Z.of_nat (length l) <= b_lastTimeStamp b' /\
    forall k, r_status <$> GCM.report (b_gcm b') k (Addr (GCM.gcm_gnode (b_gcm demo_bridge))) =
      last_verdict k l (r_status <$> GCM.report (b_gcm demo_bridge) k (Addr (GCM.gcm_gnode (b_gcm demo_bridge)))).
Proof.
  apply (own_reports_current 100 [(VerifyOutput "db" "h" GOSSIP_UP, 50); (VerifyOutput "db" "h" GOSSIP_DOWN, 20)]
           demo_bridge).
  - apply GCM.writable_new.
  - apply demo_own_behind.
  - cbn. solve_int.
  - repeat (apply Forall_cons; split); [vm_compute; discriminate..|by apply Forall_nil].
  - cbn. solve_int.
Defined.

(** [consumeGossip] merges the whole inbox: it returns, every report in it
    is merged by stamp, the records stay, and the inbox is empty afterwards,
    although merging broadcasts through the same node. *)
Theorem consume_merges_inbox {N} `{!GossipNode N, !GossipNodeLaws N} (b : bridge N) :
  GCM.writable (b_gcm b) ->
  exists b', consumeGossip b = Ret b' /\ (GetMessages (GCM.gcm_gnode (b_gcm b'))).2 = [] /\
    (forall k n, GCM.report (b_gcm b') k n =
       GCM.latest (GCM.report (b_gcm b) k n) k n (GetMessages (GCM.gcm_gnode (b_gcm b))).2) /\
    (forall k, GCM.meta (b_gcm b') k = GCM.meta (b_gcm b) k).
Proof.
  intros Hw. destruct (consumeGossip_spec b Hw) as (b' & Hrun & _ & Hm & Hr & Hmeta & _). by exists b'.
Qed.

Lemma consume_merges_inbox_witness :
  exists b', consumeGossip demo_bridge = Ret b' /\ (GetMessages (GCM.gcm_gnode (b_gcm b'))).2 = [] /\
    (forall k n, GCM.report (b_gcm b') k n = GCM.latest (GCM.report (b_gcm demo_bridge) k n) k n
       (GetMessages (GCM.gcm_gnode (b_gcm demo_bridge))).2) /\
    (forall k, GCM.meta (b_gcm b') k = GCM.meta (b_gcm demo_bridge) k).
Proof. apply (consume_merges_inbox demo_bridge). apply GCM.writable_new. Defined.

(** C24: the scavenger removes exactly what it means to: in every iteration
    order, the entries of keys that left the table go from the gossip cache
    and from the detector, the reports of nodes that left the cluster go from
    the remaining entries, and everything else stays. *)
Theorem scavenge_exact {N} `{!GossipNode N} ordg ordn ordd (b : bridge N) k :
  (forall m, ordg m ≡ₚ map_to_list m) -> (forall m, range_of (ordn m) m) ->
  (forall m, ordd m ≡ₚ map_to_list m) -> GCM.writable (b_gcm b) ->
  let b' := scavenge ordg ordn ordd b in
  GCM.gcm_data (b_gcm b') !! k =
    scavenged (gm_tab (cm_data (b_cm b))) (Members (GCM.gcm_gnode (b_gcm b))) k (GCM.gcm_data (b_gcm b) !! k) /\
  d_w (b_detector b') !! k =
    match gm_tab (cm_data (b_cm b)) !! k with None => None | Some _ => d_w (b_detector b) !! k end /\
  b_cm b' = b_cm b /\ b_lastTimeStamp b' = b_lastTimeStamp b.
Proof.
  intros Hg Hn Hd Hw b'. split_and!; [by apply scavenge_gcm | by apply scavenge_detector | done | done].
Qed.

Lemma scavenge_exact_witness :
  let b := MkBridge (CacheManager (Some {["db" := "h"]}))
             (GCM.Gcm {["db" := Consensus 0 GOSSIP_UP false 0 (Some {["n1:1" := Report GOSSIP_UP 5; "n9:1" := Report GOSSIP_UP 6]});
                        "old" := Consensus 0 GOSSIP_UP false 0 (Some ∅)]}
                (GNode.static_start "n1:1" ["n1:1"])) new_detector 0 in
  let b' := scavenge map_to_list gm_items map_to_list b in
  GCM.gcm_data (b_gcm b') !! "db" = Some (Consensus 0 GOSSIP_UP false 0 (Some {["n1:1" := Report GOSSIP_UP 5]})) /\
  GCM.gcm_data (b_gcm b') !! "old" = None.
Proof.
  intros b b'.
  assert (Hw : GCM.writable (b_gcm b)).
  { apply map_Forall_insert_2; [by eexists|]. apply map_Forall_singleton. by eexists. }
  split.
  - transitivity (scavenged (gm_tab (cm_data (b_cm b))) (Members (GCM.gcm_gnode (b_gcm b))) "db"
                    (GCM.gcm_data (b_gcm b) !! "db")); [|vm_compute; reflexivity].
    apply (scavenge_exact map_to_list gm_items map_to_list b "db"); [done|apply gm_items_range|done|done].
  - vm_compute. reflexivity.
Defined.

(** A probe that races with the scavenger stops the node: [Ping] and [Phi]
    are two critical sections; when the key has left the table and the
    scavenger runs between them, it deletes the window and [Phi] dereferences
    nil, in every iteration order. *)
Theorem scavenge_during_verify_panics {N} `{!GossipNode N} exec script (b b1 : bridge N) input now
    ordg ordn ordd ord :
  (forall m, ordd m ≡ₚ map_to_list m) ->
  verify_ping exec script b input now = Ret b1 -> gm_get (cm_data (b_cm b)) (vi_key input) = None ->
  verify_phi ord (scavenge ordg ordn ordd b1) input = Panic NilDeref.
Proof.
  intros Hd Hping Hgone. unfold verify_ping in Hping. apply bind_Ret_inv in Hping as (d & _ & [= <-]).
  unfold verify_phi. rewrite DetectorFacts.Phi_missing; [done|].
  rewrite scavenge_detector by done. cbn [with_detector b_cm]. by rewrite gm_get_tab in Hgone; rewrite Hgone.
Qed.

Lemma scavenge_during_verify_panics_witness :
  exists b1, verify_ping (fun _ _ _ => ("UP", "")) "./v" demo_bridge (VerifyInput "gone" "h") 7 = Ret b1 /\
    verify_phi map_to_list (scavenge map_to_list gm_items map_to_list b1) (VerifyInput "gone" "h") = Panic NilDeref.
Proof.
  eexists. split; [vm_compute; reflexivity|].
  eapply (scavenge_during_verify_panics (fun _ _ _ => ("UP", "")) "./v" demo_bridge _ (VerifyInput "gone" "h") 7);
    [done|vm_compute; reflexivity|reflexivity].
Defined.

(** A probing round reports on every key: in every order of the table, each
    key is probed once, and afterwards the node's report on it is the verdict
    on its samples up to the one just taken; the reports on other keys and the
    table stay. *)
Theorem probe_round_reports {N} `{!GossipNode N, !GossipNodeLaws N} exec script ord now cap m M hist ordc
    (b : bridge N) :
  (forall c, ord c ≡ₚ map_to_list c) -> (1 <= m <= cap)%nat ->
  range_of ordc (cm_data (b_cm b)) -> probing cap m M hist b ->
  (forall k, Time.UnixNano (now k).2 <= M) -> M + Z.of_nat (length ordc) < MaxInt64 ->
  (forall k, Z.of_nat (length (default [] (hist !! k))) < MaxInt64) ->
  exists b', probe_round exec script ord now ordc b = Ret b' /\ b_cm b' = b_cm b /\
    forall k, own_status b' k =
      match gm_get (cm_data (b_cm b)) k with
      | Some v => Some (Detector.verdict m (sa_Status <$> default [] (hist !! k) ++ [probe_sample exec script now k v]))
      | None => own_status b k
      end.
Proof.
  intros Hord Hm Hrange Hb Hnow HM Hlen.
  destruct (probe_round_spec exec script ord now cap m Hord Hm ordc M hist b) as (b' & Hrun & Hcm & Hin & Hout);
    [by eapply range_of_NoDup|done|done|done|auto|].
  exists b'. split_and!; [done|done|]. intros k. destruct (gm_get (cm_data (b_cm b)) k) as [v|] eqn:Hk.
  - apply Hin. by apply (range_of_elem _ _ _ _ Hrange).
  - apply Hout. intros ([k' v] & Heq & Hel)%list_elem_of_fmap. cbn in Heq. subst k'.
    apply (range_of_elem _ _ _ _ Hrange) in Hel. congruence.
Qed.

Lemma probe_round_reports_witness :
  let exec := fun _ _ _ => ("UP", "") in
  exists b', probe_round exec "./v" map_to_list (fun _ => (7, 8)) [("db", "10.0.0.9")] demo_bridge = Ret b' /\
    b_cm b' = b_cm demo_bridge /\
    forall k, own_status b' k =
      match gm_get (cm_data (b_cm demo_bridge)) k with
      | Some v => Some (Detector.verdict 3 (sa_Status <$> default [] ((∅ : gmap string (list StatusAndTime)) !! k)
                          ++ [probe_sample exec "./v" (fun _ => (7, 8)) k v]))
      | None => own_status demo_bridge k
      end.
Proof.
  apply (probe_round_reports (fun _ _ _ => ("UP", "")) "./v" map_to_list (fun _ => (7, 8)) 5 3 100 ∅
           [("db", "10.0.0.9")] demo_bridge).
  - done.
  - lia.
  - unfold range_of; cbn [demo_bridge b_cm cm_data gm_tab]; by rewrite map_to_list_singleton.
  - split_and!; [apply (DetectorFacts.new_detector 5 3); lia|done|apply GCM.writable_new|apply demo_own_behind|
                 cbn; solve_int|cbn; solve_int].
  - intros k. vm_compute. discriminate.
  - cbn. solve_int.
  - intros k. rewrite lookup_empty. cbn. solve_int.
Defined.

End BridgeClaims.
