(* ===== verification/Rounds.v ===== *)
(** * Concurrent probing: bridge.go and commonVerifier.go on the pipeline

    A probing round as it runs: [makeGossip1] sends the keys of the copied table
    on [inputCh], [verify] starts a worker per key, up to a hundred at a time,
    the workers probe in any interleaving on the one detector, and
    [makeGossip2] takes their verdicts from [outputCh] as they come.  Clock
    readings and map orders are free. *)

From S2P Require Import Prelude GoStd Base KVCache Delegate Gossip GossipCache Detector Pool Pipeline Bridge.

Module Rounds.

Import Bridge.

Section Verify.

Context {N : Type} `{!GossipNode N}.
Context (exec : executor) (script : string) (M : Z).

(** [Ping], [Phi] with the send, and one turn of [makeGossip2]; the clock of a
    stamp shows at most [M]. *)
Definition work (b : bridge N) (x : verifyInput) (b' : bridge N) : Prop :=
  exists t, verify_ping exec script b x t = Ret b'.

Definition emit (b : bridge N) (x : verifyInput) (o : option verifyOutput) : Prop :=
  exists ord y, (forall c, ord c ≡ₚ map_to_list c) /\ verify_phi ord b x = Ret y /\ o = Some y.

Definition take (b : bridge N) (y : verifyOutput) (b' : bridge N) : Prop :=
  exists t remarks, Time.UnixNano t <= M /\ makeGossip2 b y t = Ret (b', remarks).

Abbreviation net := (Pipeline.net (bridge N) verifyInput verifyOutput).

Definition step : net -> net -> Prop := Pipeline.step work emit take.

(** A round over the copy of the table, with the pool of [verify]. *)
Definition start (b : bridge N) (ordc : list (string * string)) : net := Pipeline.start 100 b (makeGossip1 ordc).

End Verify.

(** ** The invariant of a round *)

Section Round.

Context {N : Type} `{!GossipNode N, !GossipNodeLaws N}.
Context (exec : executor) (script : string) (cap m : nat) (M : Z).
Context (hist : gmap string (list StatusAndTime)) (b0 : bridge N) (l : list verifyInput).
Hypothesis Hm : (1 <= m <= cap)%nat.
Hypothesis Hb0 : probing cap m M hist b0.
Hypothesis Hkeys : NoDup (vi_key <$> l).
Hypothesis HM : M + Z.of_nat (length l) < MaxInt64.
Hypothesis Hlen : forall k, Z.of_nat (length (default [] (hist !! k))) < MaxInt64.

Implicit Types (b : bridge N) (x : verifyInput).

(** What the probe of a key answers, and the verdict with it. *)
Definition answer (key value : string) : gossipStatus :=
  Detector.sample_text (exec verificationScriptTimeoiut "sh" ["-c"; verification_cmd script key value]).1.

Definition new_verdict (key value : string) : gossipStatus :=
  Detector.verdict m ((sa_Status <$> default [] (hist !! key)) ++ [answer key value]).

Definition output x : verifyOutput := VerifyOutput (vi_key x) (vi_value x) (new_verdict (vi_key x) (vi_value x)).

(** [P]: not yet probed, [S]: probed, [sd]: at their send, [d]: done. *)
Definition data_ok b (P S : list verifyInput) (sd : list (verifyInput * verifyOutput))
    (d : list (verifyInput * option verifyOutput)) : Prop :=
  exists hist', probing cap m (M + Z.of_nat (length d)) hist' b /\ b_cm b = b_cm b0 /\
    (forall x, x ∈ P -> hist' !! vi_key x = hist !! vi_key x) /\
    (forall x, x ∈ S -> exists h, hist' !! vi_key x = Some h /\
       sa_Status <$> h = (sa_Status <$> default [] (hist !! vi_key x)) ++ [answer (vi_key x) (vi_value x)]) /\
    (forall x y, (x, y) ∈ sd -> y = output x) /\
    (forall x o, (x, o) ∈ d -> o = Some (output x)) /\
    (forall x, x ∈ d.*1 -> own_status b (vi_key x) = Some (new_verdict (vi_key x) (vi_value x))) /\
    (forall k, k ∉ vi_key <$> d.*1 -> own_status b k = own_status b0 k) /\
    (forall k, k ∉ vi_key <$> l -> hist' !! k = hist !! k).

Definition round_ok (n : Pipeline.net (bridge N) verifyInput verifyOutput) : Prop :=
  data_ok (Pipeline.n_state n) (Pipeline.pending n) (Pipeline.started n) (Pipeline.n_sending n) (Pipeline.n_done n).

Lemma data_ok_weaken b P P' S S' sd sd' d :
  P' ⊆ P -> S' ⊆ S -> sd' ⊆ sd -> data_ok b P S sd d -> data_ok b P' S' sd' d.
Proof.
  intros HP HS Hsd (hist' & Hb & Hcm & H1 & H2 & H3 & H4). exists hist'. split_and!; [done|done|..]; try apply H4.
  - intros x Hx. by apply H1, HP.
  - intros x Hx. by apply H2, HS.
  - intros x y Hx. by apply H3, Hsd.
Qed.

Lemma round_ok_start : round_ok (Pipeline.start 100 b0 l).
Proof.
  exists hist. cbn. rewrite Z.add_0_r. split_and!; try done; set_solver.
Qed.

(** A probe of [x] leaves the windows of the others. *)
Lemma data_ok_work b P1 x P2 S sd d b' :
  vi_key x ∈ vi_key <$> l -> NoDup (vi_key <$> (P1 ++ x :: P2) ++ S) -> data_ok b (P1 ++ x :: P2) S sd d -> work exec script b x b' ->
  data_ok b' (P1 ++ P2) (x :: S) sd d.
Proof.
  intros Hxl Hnd (hist' & Hb & Hcm & H1 & H2 & H3 & H4 & H5 & H6 & H7) [t Hping].
  assert (Hx : hist' !! vi_key x = hist !! vi_key x) by (apply H1; set_solver).
  destruct (ping_effect exec script (fun _ => (t, t)) cap m Hm _ hist' b (vi_key x) (vi_value x) t Hb)
    as (d' & Hp & Hb'); [by rewrite Hx|].
  destruct x as [key value]. cbn [vi_key vi_value] in *. rewrite Hp in Hping. injection Hping as <-.
  assert (Hother : forall x', x' ∈ P1 ++ P2 ++ S -> key <> vi_key x').
  { intros x' Hin ->. rewrite <- app_assoc, fmap_app in Hnd. cbn in Hnd. apply NoDup_app in Hnd as (_ & Hd & [Hn _]%NoDup_cons).
    rewrite !elem_of_app in Hin. destruct Hin as [Hin|Hin].
    - apply (Hd (vi_key x')); [by apply list_elem_of_fmap_2|constructor].
    - apply Hn. rewrite fmap_app. apply elem_of_app. destruct Hin; [left|right]; by apply list_elem_of_fmap_2. }
  exists (<[key := default [] (hist' !! key) ++ [Sample (answer key value) t]]> hist').
  split_and!; [exact Hb'|done|..]; try done.
  - intros x' Hin. rewrite lookup_insert_ne by (apply Hother; set_solver). apply H1. set_solver.
  - intros x' [->|Hin]%elem_of_cons; cbn [vi_key vi_value].
    + rewrite lookup_insert_eq. eexists. split; [done|]. by rewrite fmap_app, Hx.
    + rewrite lookup_insert_ne by (apply Hother; set_solver). by apply H2.
  - intros k Hk. rewrite lookup_insert_ne by (intros <-; by apply Hk). by apply H7.
Qed.

(** The verdict of a probed key does not depend on the map orders. *)
Lemma data_ok_emit b P S sd d x o :
  data_ok b P S sd d -> x ∈ S -> emit b x o -> o = Some (output x).
Proof.
  intros (hist' & Hb & _ & _ & H2 & _) Hx (ord & y & Hord & Hphi & ->). destruct (H2 x Hx) as (h & Hh & Hst).
  destruct x as [key value].
  rewrite (phi_effect ord cap m Hord Hm _ hist' b key value h Hb Hh) in Hphi. injection Hphi as <-.
  unfold output, new_verdict. cbn [vi_key vi_value] in *. by rewrite Hst.
Qed.

(** A verdict that is taken becomes the node's report. *)
Lemma data_ok_take b P S sd1 x y sd2 d b' :
  vi_key x ∉ vi_key <$> d.*1 -> Z.of_nat (length d) < Z.of_nat (length l) ->
  data_ok b P S (sd1 ++ (x, y) :: sd2) d -> take M b y b' -> data_ok b' P S (sd1 ++ sd2) (d ++ [(x, Some y)]).
Proof.
  intros Hx Hld (hist' & Hb & Hcm & H1 & H2 & H3 & H4 & H5 & H6 & H7) (t & rem & Ht & Hg).
  assert (y = output x) as -> by (apply H3; set_solver).
  destruct (gossip_effect exec (fun _ => (t, t)) cap m Hm _ hist' b (output x) t Hb) as (b1 & rem1 & Hg1 & Hb1 & Hcm1 & Hown); [lia|lia|].
  rewrite Hg1 in Hg. injection Hg as -> _. exists hist'.
  split_and!; [|congruence|done|done|..].
  - rewrite length_app. cbn [length]. replace (M + Z.of_nat (length d + 1)) with (M + Z.of_nat (length d) + 1) by lia. done.
  - intros x' y' Hin. apply H3. set_solver.
  - intros x' o [Hin|Hin]%elem_of_app; [by apply H4|]. apply list_elem_of_singleton in Hin. by injection Hin as -> ->.
  - intros x' Hin. rewrite Hown. cbn [vo_key output]. rewrite fmap_app in Hin. cbn in Hin.
    apply elem_of_app in Hin as [Hin|Hin].
    + rewrite decide_False; [by apply H5|]. intros Heq. apply Hx. rewrite Heq. by apply list_elem_of_fmap_2.
    + apply list_elem_of_singleton in Hin as ->. by rewrite decide_True.
  - intros k Hk. rewrite !fmap_app in Hk. cbn in Hk. rewrite Hown. cbn [vo_key output].
    rewrite decide_False by set_solver. apply H6. set_solver.
  - exact H7.
Qed.

Lemma NoDup_all size (n : Pipeline.net (bridge N) verifyInput verifyOutput) :
  Pipeline.net_ok size l n -> NoDup (vi_key <$> Pipeline.pending n ++ Pipeline.started n).
Proof. intros (Hp & _). by rewrite Hp. Qed.

Lemma round_ok_step n n' :
  Pipeline.net_ok 100 l n -> round_ok n -> step exec script M n n' -> round_ok n'.
Proof.
  intros Hok Hr Hstep. pose proof (NoDup_all 100 n Hok) as Hnd.
  pose proof Hok as (Hperm & _ & _ & _ & _ & Hk & _). unfold round_ok in *.
  destruct Hstep; unfold Pipeline.pending, Pipeline.started in *; cbn in *; try done;
    rewrite ?app_nil_r in *; try (eapply data_ok_weaken; [..|exact Hr]; set_solver).
  - eapply (data_ok_weaken _ ((todo ++ Pipeline.held ds ++ r1) ++ r2) _ (x :: w ++ sd.*1 ++ d.*1) _ sd);
      [set_solver|set_solver|done|].
    eapply (data_ok_work s); [| |by rewrite <- !app_assoc|done]; [|by rewrite <- !app_assoc in *].
    apply list_elem_of_fmap_2. rewrite <- Hperm. set_solver.
  - assert (Some y = Some (output x)) as [= ->] by (eapply data_ok_emit; [exact Hr|set_solver|done]).
    rewrite fmap_app. cbn. destruct Hr as (hist' & Hb & Hcm & H1 & H2 & H3 & H4). exists hist'.
    split_and!; try done; try apply H4; [intros x' Hx'; apply H2; set_solver|].
    intros x' y' [Hin|Hin]%elem_of_app; [by apply H3|]. apply list_elem_of_singleton in Hin. by injection Hin as -> ->.
  - exfalso. assert (None = Some (output x)) by (eapply data_ok_emit; [exact Hr|set_solver|done]). done.
  - rewrite fmap_app in *. cbn in *.
    eapply (data_ok_weaken _ _ _ (w ++ (sd1.*1 ++ x :: sd2.*1) ++ d.*1) _ (sd1 ++ sd2)); [done| |done|].
    + rewrite !fmap_app. cbn. set_solver.
    + eapply data_ok_take; [| |exact Hr|done].
      * rewrite !fmap_app, !NoDup_app in Hnd. destruct Hnd as (_ & _ & _ & _ & _ & Hd & _). apply Hd.
        apply elem_of_app. right. constructor.
      * rewrite <- (length_fmap fst d). apply Permutation_length in Hperm. rewrite !length_app in Hperm. cbn in Hperm. lia.
Qed.

(** No worker can fail: windows stay while no scavenger runs. *)
Lemma round_ok_enabled n :
  Pipeline.net_ok 100 l n -> round_ok n -> Pipeline.enabled (work exec script) emit (take M) n.
Proof.
  intros (Hperm & _) (hist' & Hb & _ & H1 & H2 & H3 & _). split_and!.
  - intros [key value] Hx.
    destruct (ping_effect exec script (fun _ => (0, 0)) cap m Hm _ hist' _ key value 0 Hb) as (d' & Hp & _).
    { pose proof (H1 (VerifyInput key value)) as Hk. cbn in Hk. rewrite Hk; [apply Hlen|]. unfold Pipeline.pending. set_solver. }
    eexists. by exists 0.
  - intros [key value] Hx. destruct (H2 (VerifyInput key value)) as (h & Hh & _); [unfold Pipeline.started; set_solver|].
    eexists. exists map_to_list. eexists. split_and!; [done| |done]. by eapply phi_effect.
  - intros x y Hin. assert (Hld : Z.of_nat (length (Pipeline.n_done n)) < Z.of_nat (length l)).
    { apply Permutation_length in Hperm. unfold Pipeline.started in Hperm. rewrite !length_app, !length_fmap in Hperm.
      destruct (Pipeline.n_sending n); [by apply not_elem_of_nil in Hin|cbn in Hperm; lia]. }
    assert (Ht : Time.UnixNano (Z.min M 0) <= M).
    { destruct Hb0 as (_ & _ & _ & _ & Hl1 & Hl2). unfold Time.UnixNano. rewrite wrap64_id by solve_int. lia. }
    destruct (gossip_effect exec (fun _ => (0, 0)) cap m Hm _ hist' _ y (Z.min M 0) Hb) as (b1 & rem & Hg & _); [lia|lia|].
    by exists b1, (Z.min M 0), rem.
Qed.

Lemma round_bounded k n : nsteps (step exec script M) k (Pipeline.start 100 b0 l) n ->
  Pipeline.net_ok 100 l n /\ round_ok n /\ (k <= 8 * length l)%nat /\
  ((exists n', step exec script M n n') \/ Pipeline.finished n).
Proof.
  apply Pipeline.run_bounded; [apply round_ok_start|apply round_ok_step|apply round_ok_enabled].
Qed.

Lemma round_finishes : exists n, rtc (step exec script M) (Pipeline.start 100 b0 l) n /\ Pipeline.finished n.
Proof.
  eapply (Pipeline.run_finishes _ _ _ 100 l round_ok);
    [apply round_ok_step|apply round_ok_enabled|apply Pipeline.net_ok_start|apply round_ok_start].
Qed.

(** At the end of the round every key has its verdict. *)
Lemma round_end n : Pipeline.net_ok 100 l n -> round_ok n -> Pipeline.finished n ->
  b_cm (Pipeline.n_state n) = b_cm b0 /\
  (forall x, x ∈ l -> own_status (Pipeline.n_state n) (vi_key x) = Some (new_verdict (vi_key x) (vi_value x))) /\
  (forall k, k ∉ vi_key <$> l -> own_status (Pipeline.n_state n) k = own_status b0 k).
Proof.
  intros Hok (hist' & _ & Hcm & _ & _ & _ & _ & H5 & H6 & _) Hf. pose proof (Pipeline.finished_done _ _ _ Hok Hf) as Hd.
  split_and!; [done| |].
  - intros x Hx. apply H5. by rewrite Hd.
  - intros k Hk. apply H6. by rewrite Hd.
Qed.

(** ... and the windows have taken one sample of each. *)
Lemma round_next n : Pipeline.net_ok 100 l n -> round_ok n -> Pipeline.finished n ->
  exists hist', probing cap m (M + Z.of_nat (length l)) hist' (Pipeline.n_state n) /\
    (forall x, x ∈ l -> sa_Status <$> default [] (hist' !! vi_key x) =
       (sa_Status <$> default [] (hist !! vi_key x)) ++ [answer (vi_key x) (vi_value x)]) /\
    (forall k, k ∉ vi_key <$> l -> hist' !! k = hist !! k).
Proof.
  intros Hok (hist' & Hb & _ & _ & H2 & _ & _ & _ & _ & H7) Hf.
  pose proof (Pipeline.finished_done _ _ _ Hok Hf) as Hd. exists hist'. split_and!; [| |done].
  - by rewrite <- Hd, length_fmap.
  - intros x Hx. destruct (H2 x) as (h & -> & Hst); [|done]. unfold Pipeline.started.
    rewrite !elem_of_app, Hd. auto.
Qed.

End Round.

(** ** Properties *)

(** C7: a concurrent probing round: however the feeder, the dispatch loop, up to
    a hundred workers on the one detector and the consumer interleave, and
    whatever the clocks and map orders, the round never blocks or panics, takes
    at most eight steps per key, and ends; the pool never holds more than a
    hundred workers; and at the end the node's report on every key of the table
    is the verdict on its samples with the one just taken, exactly as if the
    keys had been probed one after the other, while other reports and the table
    stay. *)
Theorem concurrent_round {N} `{!GossipNode N, !GossipNodeLaws N} exec script cap m M hist ordc (b : bridge N) :
  (1 <= m <= cap)%nat -> range_of ordc (cm_data (b_cm b)) -> probing cap m M hist b ->
  M + Z.of_nat (length ordc) < MaxInt64 ->
  (forall k, Z.of_nat (length (default [] (hist !! k))) < MaxInt64) ->
  (exists n, rtc (step exec script M) (start b ordc) n /\ Pipeline.finished n) /\
  (forall i n, nsteps (step exec script M) i (start b ordc) n ->
     (i <= 8 * length ordc)%nat /\ (Pipeline.workers n <= 100)%nat /\
     ((exists n', step exec script M n n') \/ Pipeline.finished n) /\
     (Pipeline.finished n ->
        b_cm (Pipeline.n_state n) = b_cm b /\
        forall k, own_status (Pipeline.n_state n) k =
          match gm_get (cm_data (b_cm b)) k with
          | Some v => Some (new_verdict exec script m hist k v)
          | None => own_status b k
          end)).
Proof.
  intros Hm Hrange Hb HM Hlen. set (l := makeGossip1 ordc).
  assert (Hl : length l = length ordc) by apply length_fmap.
  assert (Hkeys : vi_key <$> l = ordc.*1) by (unfold l, makeGossip1; by rewrite <- list_fmap_compose).
  assert (Hnd : NoDup (vi_key <$> l)) by (rewrite Hkeys; by eapply range_of_NoDup).
  rewrite <- Hl in HM. split; [by apply (round_finishes exec script cap m M hist)|]. intros i n Hn.
  destruct (round_bounded exec script cap m M hist b l Hm Hb Hnd HM Hlen i n Hn) as (Hok & Hr & Hi & Hprog).
  split_and!; [lia| |done|].
  - destruct Hok as (_ & _ & Hq & Hqueue & _). destruct (Pipeline.n_disp n); lia.
  - intros Hf. destruct (round_end exec script cap m M hist b l n Hok Hr Hf) as (Hcm & Hin & Hout).
    split; [done|]. intros k. destruct (gm_get (cm_data (b_cm b)) k) as [v|] eqn:Hk.
    + apply (Hin (VerifyInput k v)). apply (range_of_elem _ _ _ _ Hrange) in Hk.
      apply (list_elem_of_fmap_2 (fun kv => VerifyInput kv.1 kv.2) _ _ Hk).
    + apply Hout. rewrite Hkeys. intros ([k' v] & Heq & Hel)%list_elem_of_fmap. cbn in Heq. subst k'.
      apply (range_of_elem _ _ _ _ Hrange) in Hel. congruence.
Qed.

Lemma concurrent_round_witness :
  let exec := fun _ _ _ => ("UP", "") in
  exists n, rtc (step exec "./v" 100) (start BridgeClaims.demo_bridge [("db", "10.0.0.9")]) n /\ Pipeline.finished n /\
    own_status (Pipeline.n_state n) "db" = Some GOSSIP_LESS_THAN_MINSAMPLE.
Proof.
  intros exec.
  destruct (concurrent_round exec "./v" 5 3 100 ∅ [("db", "10.0.0.9")] BridgeClaims.demo_bridge)
    as [(n & Hn & Hf) Hall].
  - lia.
  - unfold range_of. cbn [BridgeClaims.demo_bridge b_cm cm_data gm_tab]. by rewrite map_to_list_singleton.
  - split_and!; [apply (DetectorFacts.new_detector 5 3); lia|done|apply GCM.writable_new|apply BridgeClaims.demo_own_behind|
                 cbn; solve_int|cbn; solve_int].
  - cbn. solve_int.
  - intros k. rewrite lookup_empty. cbn. solve_int.
  - exists n. split_and!; [exact Hn|exact Hf|]. apply rtc_nsteps in Hn as (i & Hi).
    destruct (Hall i n Hi) as (_ & _ & _ & Hend). destruct (Hend Hf) as [_ Hs]. rewrite Hs. vm_compute. reflexivity.
Defined.

End Rounds.
