(* ===== verification/Detection.v ===== *)
(** * Detecting an outage: probing rounds one after the other

    [GoRoutineInTimeScale] of base.go calls [makeGossip1] again and again; this
    file strings concurrent rounds together.  The table may change between two
    rounds, the scripts may answer differently in each.  It also shows what can
    happen when a round starts before the workers of the last one are done. *)

From S2P Require Import Prelude GoStd Base KVCache Delegate Gossip GossipCache Detector Bridge Pool Pipeline Rounds.

Module Detection.

Import Bridge Rounds.

(** One round: what the scripts print, the table it reads, and a bound on the
    clock readings of its stamps. *)
Record round : Type := MkRound {
  rd_exec : executor;
  rd_table : cacheManager;
  rd_clock : Z
}.

Section Sequence.

Context {N : Type} `{!GossipNode N}.

Definition with_table (b : bridge N) (cm : cacheManager) : bridge N :=
  MkBridge cm (b_gcm b) (b_detector b) (b_lastTimeStamp b).

(** Rounds one after the other, each run to its end in any interleaving. *)
Inductive rounds (script : string) : list round -> bridge N -> bridge N -> Prop :=
| rounds_none b : rounds script [] b b
| rounds_next r rs b ordc n b' :
    range_of ordc (cm_data (rd_table r)) ->
    rtc (step (rd_exec r) script (rd_clock r)) (start (with_table b (rd_table r)) ordc) n ->
    Pipeline.finished n -> rounds script rs (Pipeline.n_state n) b' ->
    rounds script (r :: rs) b b'.

(** What the probes of [key] answered in these rounds. *)
Definition answers (script : string) (key : string) (rs : list round) : list gossipStatus :=
  omap (fun r => answer (rd_exec r) script key <$> gm_get (cm_data (rd_table r)) key) rs.

(** The clocks do not go back by more than the stamps already given. *)
Fixpoint clocks_ok (M : Z) (rs : list round) : Prop :=
  match rs with
  | [] => True
  | r :: rs =>
      let n := Z.of_nat (size (gm_tab (cm_data (rd_table r)))) in
      M <= rd_clock r /\ rd_clock r + n < MaxInt64 /\ clocks_ok (rd_clock r + n) rs
  end.

End Sequence.

(** ** Lemmas *)

Section Facts.

Context {N : Type} `{!GossipNode N, !GossipNodeLaws N}.
Context (script : string) (cap m : nat) (Hm : (1 <= m <= cap)%nat).

Implicit Types (b : bridge N) (r : round) (rs : list round).

Definition statuses (hist : gmap string (list StatusAndTime)) (key : string) : list gossipStatus :=
  sa_Status <$> default [] (hist !! key).

Lemma probing_table M M' hist b cm :
  M <= M' -> probing cap m M hist b -> probing cap m M' hist (with_table b cm).
Proof. intros HM (Hd & Hmin & Hw & Hown & Hl). unfold probing. cbn. split_and!; [done|done|done|exact Hown|lia|lia]. Qed.

Lemma range_length {V} (ord : list (string * V)) (t : gomap V) : range_of ord t -> length ord = size (gm_tab t).
Proof. intros Hr. unfold range_of in Hr. by rewrite Hr, length_map_to_list. Qed.

(** One round: it can be run to an end, and every end has taken one sample of
    every key of the table. *)
Lemma round_spec M hist b r ordc :
  probing cap m M hist b -> range_of ordc (cm_data (rd_table r)) -> M <= rd_clock r ->
  rd_clock r + Z.of_nat (length ordc) < MaxInt64 ->
  (forall k, Z.of_nat (length (statuses hist k)) < MaxInt64) ->
  (exists n, rtc (step (rd_exec r) script (rd_clock r)) (start (with_table b (rd_table r)) ordc) n /\ Pipeline.finished n) /\
  forall n, rtc (step (rd_exec r) script (rd_clock r)) (start (with_table b (rd_table r)) ordc) n -> Pipeline.finished n ->
  exists hist', probing cap m (rd_clock r + Z.of_nat (length ordc)) hist' (Pipeline.n_state n) /\
    (forall k, statuses hist' k = statuses hist k ++ answers script k [r]) /\
    (forall k, is_Some (gm_get (cm_data (rd_table r)) k) ->
       own_status (Pipeline.n_state n) k = Some (Detector.verdict m (statuses hist' k))).
Proof.
  intros Hb Hrange HM Hmax Hlen. set (b1 := with_table b (rd_table r)). set (l := makeGossip1 ordc).
  assert (Hb1 : probing cap m (rd_clock r) hist b1) by (by apply (probing_table M)).
  assert (Hl : length l = length ordc) by apply length_fmap.
  assert (Hkeys : vi_key <$> l = ordc.*1) by (unfold l, makeGossip1; by rewrite <- list_fmap_compose).
  assert (Hnd : NoDup (vi_key <$> l)) by (rewrite Hkeys; by eapply range_of_NoDup).
  assert (Hlen' : forall k, Z.of_nat (length (default [] (hist !! k))) < MaxInt64).
  { intros k. specialize (Hlen k). unfold statuses in Hlen. by rewrite length_fmap in Hlen. }
  rewrite <- Hl in *. split; [by apply (round_finishes (rd_exec r) script cap m (rd_clock r) hist)|].
  intros n [i Hi]%rtc_nsteps Hf.
  destruct (round_bounded (rd_exec r) script cap m (rd_clock r) hist b1 l Hm Hb1 Hnd Hmax Hlen' i n Hi) as (Hok & Hr & _).
  destruct (round_end _ _ _ _ _ _ _ _ n Hok Hr Hf) as (_ & Hown & _).
  destruct (round_next _ _ _ _ _ _ _ _ n Hok Hr Hf) as (hist' & Hb' & Hin & Hout).
  assert (Hk : forall k v, gm_get (cm_data (rd_table r)) k = Some v -> VerifyInput k v ∈ l).
  { intros k v Hk. apply (range_of_elem _ _ _ _ Hrange) in Hk.
    apply (list_elem_of_fmap_2 (fun kv => VerifyInput kv.1 kv.2) _ _ Hk). }
  exists hist'. split_and!; [done| |].
  - intros k. unfold statuses, answers. cbn [omap list_omap].
    destruct (gm_get (cm_data (rd_table r)) k) as [v|] eqn:Hv; cbn [fmap option_fmap option_map].
    + exact (Hin _ (Hk k v Hv)).
    + rewrite Hout, app_nil_r; [done|]. rewrite Hkeys. intros ([k' v] & Heq & Hel)%list_elem_of_fmap.
      cbn in Heq. subst k'. apply (range_of_elem _ _ _ _ Hrange) in Hel. congruence.
  - intros k [v Hv]. pose proof (Hown _ (Hk k v Hv)) as Ho. cbn [vi_key vi_value] in Ho. rewrite Ho.
    unfold new_verdict. do 2 f_equal. symmetry. exact (Hin _ (Hk k v Hv)).
Qed.

Lemma answers_app key rs1 rs2 : answers script key (rs1 ++ rs2) = answers script key rs1 ++ answers script key rs2.
Proof. apply omap_app. Qed.

Lemma answers_length key rs : (length (answers script key rs) <= length rs)%nat.
Proof. unfold answers. induction rs as [|r rs IH]; cbn; [done|]. case_match; cbn; lia. Qed.

Lemma rounds_spec rs : forall M hist b,
  probing cap m M hist b -> clocks_ok M rs ->
  (forall k, Z.of_nat (length (statuses hist k) + length rs) < MaxInt64) ->
  (exists b', rounds script rs b b') /\
  forall b', rounds script rs b b' ->
    exists hist', (forall k, statuses hist' k = statuses hist k ++ answers script k rs) /\
      forall r k, last rs = Some r -> is_Some (gm_get (cm_data (rd_table r)) k) ->
        own_status b' k = Some (Detector.verdict m (statuses hist' k)).
Proof.
  induction rs as [|r rs IH]; intros M hist b Hb Hc Hlen.
  { split; [exists b; constructor|]. intros b' H. inversion H; subst. exists hist. split; [|done].
    intros k. by rewrite app_nil_r. }
  destruct Hc as (HM & Hmax & Hc). cbn [length] in Hlen.
  assert (Hone : forall ordc, range_of ordc (cm_data (rd_table r)) ->
            rd_clock r + Z.of_nat (length ordc) < MaxInt64) by (intros ordc H; by rewrite (range_length _ _ H)).
  assert (Hlen1 : forall k, Z.of_nat (length (statuses hist k)) < MaxInt64) by (intros k; specialize (Hlen k); lia).
  assert (Hnext : forall ordc hist', range_of ordc (cm_data (rd_table r)) ->
    (forall k, statuses hist' k = statuses hist k ++ answers script k [r]) ->
    clocks_ok (rd_clock r + Z.of_nat (length ordc)) rs /\
    forall k, Z.of_nat (length (statuses hist' k) + length rs) < MaxInt64).
  { intros ordc hist' H Hst. rewrite (range_length _ _ H). split; [done|]. intros k. rewrite Hst, length_app.
    specialize (Hlen k). pose proof (answers_length k [r]). cbn [length] in *. lia. }
  split.
  - pose proof (gm_items_range (cm_data (rd_table r))) as Hrange.
    destruct (round_spec M hist b r _ Hb Hrange HM (Hone _ Hrange) Hlen1) as [(n & Hn & Hf) Hend].
    destruct (Hend n Hn Hf) as (hist' & Hb' & Hst & _). destruct (Hnext _ hist' Hrange Hst) as [Hc' Hl'].
    destruct (IH _ hist' _ Hb' Hc' Hl') as [(b' & Hb2) _]. exists b'. by econstructor.
  - intros b' H. inversion H as [|r' rs' b0 ordc n b1 Hrange Hn Hf Hrest]; subst.
    destruct (round_spec M hist b r _ Hb Hrange HM (Hone _ Hrange) Hlen1) as [_ Hend].
    destruct (Hend n Hn Hf) as (hist' & Hb' & Hst & Hown). destruct (Hnext _ hist' Hrange Hst) as [Hc' Hl'].
    destruct (IH _ hist' _ Hb' Hc' Hl') as [_ Hall]. destruct (Hall b' Hrest) as (hist2 & Hst2 & Hown2).
    exists hist2. split.
    + intros k. rewrite Hst2, Hst, <- app_assoc. f_equal. exact (eq_sym (answers_app k [r] rs)).
    + intros r' k Hlast Hk. destruct rs as [|r2 rs]; [|by apply (Hown2 r')].
      injection Hlast as <-. inversion Hrest; subst. rewrite (Hown k Hk). do 2 f_equal.
      rewrite Hst2. apply (eq_sym (app_nil_r _)).
Qed.

(** As many equal answers as the verdict looks at decide it. *)
Lemma verdict_unanimous (h : list gossipStatus) st : Detector.verdict m (h ++ replicate m st) = st.
Proof.
  unfold Detector.verdict. rewrite length_app, length_replicate.
  destruct (Nat.ltb_spec (length h + m) m); [lia|].
  replace (length h + m - m)%nat with (length h) by lia. rewrite drop_app_length.
  destruct m as [|m']; [lia|]. cbn [replicate]. rewrite decide_True; [done|].
  apply Forall_forall. by intros x [-> _]%elem_of_replicate.
Qed.

Lemma answers_unanimous key st rs :
  Forall (fun r => exists v, gm_get (cm_data (rd_table r)) key = Some v /\ answer (rd_exec r) script key v = st) rs ->
  answers script key rs = replicate (length rs) st.
Proof.
  unfold answers. induction 1 as [|r rs (v & Hv & Ha) _ IH]; [done|]. cbn. rewrite Hv. cbn. by rewrite Ha, IH.
Qed.

End Facts.

(** ** Properties *)

(** C8: an outage is detected: however the goroutines of the rounds interleave
    and whatever happened before, the rounds can be run to their end, and after
    as many rounds as the detector needs samples (three in the service), in
    which the probe of a key answered the same status each time, this status is
    the node's own report on the key. *)
Theorem outage_detected {N} `{!GossipNode N, !GossipNodeLaws N} script cap m M hist (b : bridge N) rs1 rs2 key st :
  (1 <= m <= cap)%nat -> probing cap m M hist b -> clocks_ok M (rs1 ++ rs2) -> length rs2 = m ->
  (forall k, Z.of_nat (length (statuses hist k) + length (rs1 ++ rs2)) < MaxInt64) ->
  Forall (fun r => exists v, gm_get (cm_data (rd_table r)) key = Some v /\ answer (rd_exec r) script key v = st) rs2 ->
  (exists b', rounds script (rs1 ++ rs2) b b') /\
  forall b', rounds script (rs1 ++ rs2) b b' -> own_status b' key = Some st.
Proof.
  intros Hm Hb Hc Hrs2 Hlen Hst. destruct (rounds_spec script cap m Hm _ M hist b Hb Hc Hlen) as [Hex Hall].
  split; [done|]. intros b' Hb'. destruct (Hall b' Hb') as (hist' & Hh & Hown).
  destruct (last rs2) as [r|] eqn:Hlast; [|apply last_None in Hlast; subst; cbn in *; lia].
  rewrite (Hown r key).
  - by rewrite Hh, answers_app, (answers_unanimous script key st rs2 Hst), Hrs2, app_assoc, (verdict_unanimous cap m Hm).
  - by rewrite last_app, Hlast.
  - apply last_Some_elem_of in Hlast. rewrite Forall_forall in Hst. destruct (Hst r Hlast) as (v & -> & _). by eexists.
Qed.

Definition down_round (clock : Z) : round :=
  MkRound (fun _ _ _ => ("DOWN", "")) (CacheManager (Some {["db" := "10.0.0.9"]})) clock.

Lemma outage_detected_witness :
  let rs := [down_round 100; down_round 200; down_round 300] in
  (exists b', rounds "./v" ([] ++ rs) BridgeClaims.demo_bridge b') /\
  forall b', rounds "./v" ([] ++ rs) BridgeClaims.demo_bridge b' -> own_status b' "db" = Some GOSSIP_DOWN.
Proof.
  apply (outage_detected "./v" 5 3 100 ∅ BridgeClaims.demo_bridge [] [down_round 100; down_round 200; down_round 300]
           "db" GOSSIP_DOWN).
  - lia.
  - split_and!; [apply (DetectorFacts.new_detector 5 3); lia|done|apply GCM.writable_new|apply BridgeClaims.demo_own_behind|
                 cbn; solve_int|cbn; solve_int].
  - vm_compute. split_and!; first [done | discriminate].
  - done.
  - intros k. unfold statuses. rewrite lookup_empty. cbn. solve_int.
  - repeat (apply Forall_cons; split; [exists "10.0.0.9"; split; vm_compute; reflexivity|]). by apply Forall_nil.
Defined.

(** ** Overlapping rounds

    The pause between two rounds can be shorter than a probe takes, so two
    workers may probe the same key.  Stamps are given when a verdict is taken,
    not when it is found: the verdict found first may be taken last. *)

(** C40: a stale verdict can win: when two rounds overlap on a key, there is a run
    in which both probes are recorded and both verdicts taken, but the node's
    report is the verdict from before the second probe, with the newest stamp. *)
Theorem stale_verdict_wins {N} `{!GossipNode N, !GossipNodeLaws N} exec script cap m M hist (b : bridge N) key value :
  (1 <= m <= cap)%nat -> probing cap m M hist b -> M + 2 < MaxInt64 ->
  Z.of_nat (length (statuses hist key)) + 2 < MaxInt64 ->
  let a := answer exec script key value in
  let x := VerifyInput key value in
  exists n, rtc (step exec script M) (Pipeline.start 100 b [x; x]) n /\ Pipeline.finished n /\
    own_status (Pipeline.n_state n) key = Some (Detector.verdict m (statuses hist key ++ [a])) /\
    exists y, verify_phi map_to_list (Pipeline.n_state n) x = Ret y /\
      vo_status y = Detector.verdict m (statuses hist key ++ [a; a]).
Proof.
  intros Hm Hb HM Hlen a x. unfold statuses in Hlen |- *. rewrite length_fmap in Hlen.
  set (h := default [] (hist !! key)) in *.
  set (now := fun _ : string => (0, 0) : Time.t * Time.t).
  destruct (ping_effect exec script now cap m Hm M hist b key value 0 Hb) as (d1 & Hp1 & Hb1); [fold h; lia|].
  fold h in Hb1. set (b1 := with_detector b d1) in *. set (s := Sample _ 0) in Hb1.
  pose proof (phi_effect map_to_list cap m (fun _ => reflexivity _) Hm M _ b1 key value _ Hb1 (lookup_insert_eq _ _ _)) as Hy1.
  destruct (ping_effect exec script now cap m Hm M _ b1 key value 0 Hb1) as (d2 & Hp2 & Hb2).
  { rewrite lookup_insert_eq. cbn. rewrite length_app. cbn. lia. }
  rewrite insert_insert_eq, lookup_insert_eq in Hb2. cbn [default] in Hb2. set (b2 := with_detector b1 d2) in *.
  pose proof (phi_effect map_to_list cap m (fun _ => reflexivity _) Hm M _ b2 key value _ Hb2 (lookup_insert_eq _ _ _)) as Hy2.
  set (y1 := VerifyOutput key value (Detector.verdict m (sa_Status <$> h ++ [s]))) in *.
  set (y2 := VerifyOutput key value _) in Hy2.
  assert (Ht : Time.UnixNano (Z.min M 0) <= M).
  { destruct Hb as (_ & _ & _ & _ & Hl1 & Hl2). unfold Time.UnixNano. rewrite wrap64_id by solve_int. lia. }
  destruct (gossip_effect exec now cap m Hm M _ b2 y2 (Z.min M 0) Hb2 Ht) as (b3 & rem3 & Hg3 & Hb3 & _); [lia|].
  destruct (gossip_effect exec now cap m Hm (M + 1) _ b3 y1 (Z.min M 0) Hb3) as (b4 & rem4 & Hg4 & Hb4 & _ & Ho4); [lia|lia|].
  destruct (Pipeline.overtaking (work exec script) emit (take M) 100 b b1 b2 b3 b4 x x y1 y2) as (n & Hn & Hf & Hs);
    [lia|by exists 0|by exists map_to_list, y1|by exists 0|by exists map_to_list, y2|by exists (Z.min M 0), rem3
    |by exists (Z.min M 0), rem4|].
  exists n. rewrite Hs. split_and!; [exact Hn|done| |].
  - rewrite Ho4, decide_True by done. cbn. by rewrite fmap_app.
  - eexists. split; [exact (phi_effect map_to_list cap m (fun _ => reflexivity _) Hm _ _ b4 key value _ Hb4 (lookup_insert_eq _ _ _))|].
    cbn. by rewrite !fmap_app, <- app_assoc.
Qed.

Lemma stale_verdict_wins_witness :
  let exec := fun _ _ _ => ("DOWN", "") in
  let x := VerifyInput "db" "h" in
  exists b n, rtc (step exec "./v" 100) (Pipeline.start 100 b [x; x]) n /\ Pipeline.finished n /\
    own_status (Pipeline.n_state n) "db" = Some GOSSIP_LESS_THAN_MINSAMPLE /\
    exists y, verify_phi map_to_list (Pipeline.n_state n) x = Ret y /\ vo_status y = GOSSIP_DOWN.
Proof.
  intros exec x. pose (d0 := BridgeClaims.demo_bridge).
  assert (Hd0 : probing 5 3 100 ∅ d0).
  { split_and!; [apply (DetectorFacts.new_detector 5 3); lia|done|apply GCM.writable_new|apply BridgeClaims.demo_own_behind|
                 cbn; solve_int|cbn; solve_int]. }
  destruct (ping_effect exec "./v" (fun _ => (0, 0)) 5 3 ltac:(lia) 100 ∅ d0 "db" "h" 5 Hd0) as (d1 & _ & Hb1).
  { rewrite lookup_empty. cbn. solve_int. }
  destruct (stale_verdict_wins exec "./v" 5 3 100 _ (with_detector d0 d1) "db" "h" ltac:(lia) Hb1)
    as (n & Hn & Hf & Hs & y & Hy & Hst); [solve_int|unfold statuses; rewrite lookup_insert_eq, lookup_empty; cbn; solve_int|].
  unfold statuses in Hs, Hst. rewrite lookup_insert_eq, lookup_empty in Hs, Hst.
  exists (with_detector d0 d1), n. split_and!; [exact Hn|exact Hf| |exists y; split; [exact Hy|]].
  - rewrite Hs. vm_compute. reflexivity.
  - rewrite Hst. vm_compute. reflexivity.
Defined.

End Detection.
