(* ===== verification/Fsm.v ===== *)
(** * The replicated state machine: fsm.go and snapshot.go

    Raft hands every committed entry to [Apply] on every node.  An entry
    changes the key-value table or the consensus record of a key; the node
    also receives gossip between entries.  Snapshots persist the key-value
    table. *)

From S2P Require Import Prelude GoStd Json KVCache Delegate Gossip GossipCache.

(** ** Commands and entries (http.go, fsm.go) *)

Abbreviation command := string (only parsing).

Definition CMD_SET : command := "SET".
Definition CMD_DELETE : command := "DELETE".
Definition CMD_NOTIFY_STATUS : command := "NOTIFY_STATUS".
Definition CMD_NOTIFY_TIME : command := "NOTIFY_TIME".
Definition CMD_NOTIFY_EMPTY_TIME : command := "NOTIFY_EMPTY_TIME".
Definition CMD_NOTIFY_EMPTY : command := "NOTIFY_EMPTY".

Record logEntryData : Type := Entry {
  le_Cmd : command;
  le_Key : string;
  le_Value : string
}.

#[global] Instance logEntryData_eq_dec : EqDecision logEntryData.
Proof. solve_decision. Defined.

(** A snapshot sink, as raft passes it to [Persist]. *)
Class SnapshotSink (S : Type) : Type := {
  sink_Write : S -> string -> S * error;
  sink_Close : S -> S * error;
  sink_Cancel : S -> S
}.

Module Fsm.

(** ** Entries on the wire *)

Definition marshal_entry (e : logEntryData) : string :=
  Encode.object [("Cmd", Lit.quote (le_Cmd e)); ("Key", Lit.quote (le_Key e));
                 ("Value", Lit.quote (le_Value e))].

Definition entry_fields : list (Decode.field logEntryData) := [
  Decode.Field "Cmd" (Decode.store_string (fun s e => Entry s (le_Key e) (le_Value e)));
  Decode.Field "Key" (Decode.store_string (fun s e => Entry (le_Cmd e) s (le_Value e)));
  Decode.Field "Value" (Decode.store_string (fun s e => Entry (le_Cmd e) (le_Key e) s))
].

(** [json.Unmarshal(data, &e)] into the zero struct. *)
Definition unmarshal_entry (data : string) : option logEntryData :=
  match Parse.parse_document data with
  | None => None
  | Some j => Decode.into_struct entry_fields (Entry "" "" "") j
  end.

Section Machine.

Context {N : Type} `{!GossipNode N}.

(** What the state machine works on: the table and the gossip cache of the
    node. *)
Record fsm_state : Type := FsmState {
  f_cm : cacheManager;
  f_gcm : GCM.gossipCacheManager N
}.

(** The switch of [Apply]. *)
Definition apply_entry (f : fsm_state) (e : logEntryData) : outcome (fsm_state * error) :=
  if decide (le_Cmd e = CMD_SET) then
    r ← KV.Set_ (f_cm f) (le_Key e) (le_Value e); Ret (FsmState r.1 (f_gcm f), r.2)
  else if decide (le_Cmd e = CMD_DELETE) then
    let r := KV.Del (f_cm f) (le_Key e) in Ret (FsmState r.1 (f_gcm f), r.2)
  else if decide (le_Cmd e = CMD_NOTIFY_STATUS) then
    let r := GCM.SetPreviousConsensus (f_gcm f) (le_Key e) (le_Value e) in
    Ret (FsmState (f_cm f) r.1, r.2)
  else if decide (le_Cmd e = CMD_NOTIFY_TIME) then
    match Strconv.ParseInt (le_Value e) with
    | None => Ret (f, None)
    | Some timeStamp =>
        let r := GCM.SetPreviousEventTime (f_gcm f) (le_Key e) (Time.of_stamp timeStamp) in
        Ret (FsmState (f_cm f) r.1, r.2)
    end
  else if decide (le_Cmd e = CMD_NOTIFY_EMPTY) then
    match Strconv.ParseBool (le_Value e) with
    | None => Ret (f, None)
    | Some empty =>
        let r := GCM.SetEmpty (f_gcm f) (le_Key e) empty in Ret (FsmState (f_cm f) r.1, r.2)
    end
  else if decide (le_Cmd e = CMD_NOTIFY_EMPTY_TIME) then
    match Strconv.ParseInt (le_Value e) with
    | None => Ret (f, None)
    | Some timeStamp =>
        let r := GCM.setEmptyTime (f_gcm f) (le_Key e) (Time.of_stamp timeStamp) in
        Ret (FsmState (f_cm f) r.1, r.2)
    end
  else Ret (f, None).

Definition Apply (f : fsm_state) (data : string) : outcome (fsm_state * error) :=
  match unmarshal_entry data with
  | None => Panic (Explicit "Failed unmarshaling Raft log entry. This is a bug.")
  | Some e => apply_entry f e
  end.

(** ** Snapshots *)

(** [Snapshot] only captures the pointer to the table: [Persist] marshals what
    the table holds when it runs. *)
Definition Persist {S : Type} `{!SnapshotSink S} (cm : cacheManager) (sink : S) : S * error :=
  let '(snapshotBytes, err) := KV.Marshal cm in
  match err with
  | Some e => (sink, Some e)
  | None =>
      let '(sink, err) := sink_Write sink snapshotBytes in
      match err with
      | Some e => (sink_Cancel sink, Some e)
      | None =>
          let '(sink, err) := sink_Close sink in
          match err with
          | Some e => (sink_Cancel sink, Some e)
          | None => (sink, None)
          end
      end
  end.

Definition Restore (f : fsm_state) (serialized : string) : fsm_state * error :=
  let r := KV.UnMarshal (f_cm f) serialized in (FsmState r.1 (f_gcm f), r.2).

(** ** A node's history: committed entries and gossip, interleaved *)

Inductive node_event : Type :=
| Committed (e : logEntryData)
| Gossiped (m : MyBroadcastMessage).

Definition run_event (f : fsm_state) (ev : node_event) : outcome fsm_state :=
  match ev with
  | Committed e => r ← Apply f (marshal_entry e); Ret r.1
  | Gossiped m => g ← GCM.deliver (f_gcm f) m; Ret (FsmState (f_cm f) g)
  end.

Definition run_events (f : fsm_state) (evs : list node_event) : outcome fsm_state :=
  foldlM run_event f evs.

Definition log_of (evs : list node_event) : list logEntryData :=
  omap (fun ev => match ev with Committed e => Some e | Gossiped _ => None end) evs.

Definition gossip_of (evs : list node_event) : list MyBroadcastMessage :=
  omap (fun ev => match ev with Committed _ => None | Gossiped m => Some m end) evs.

Definition replay (f : fsm_state) (l : list logEntryData) : outcome fsm_state :=
  run_events f (Committed <$> l).

(** ** Specification *)

(** The table operation of an entry. *)
Definition kv_op (e : logEntryData) : option KV.op :=
  if decide (le_Cmd e = CMD_SET) then Some (KV.OpSet (le_Key e) (le_Value e))
  else if decide (le_Cmd e = CMD_DELETE) then Some (KV.OpDel (le_Key e))
  else None.

(** The effect of an entry on the consensus record of its key. *)
Definition meta_op (e : logEntryData) (x : Time.t * gossipStatus * bool * Time.t)
    : Time.t * gossipStatus * bool * Time.t :=
  let '(pt, pc, em, et) := x in
  if decide (le_Cmd e = CMD_NOTIFY_STATUS) then (pt, le_Value e, em, et)
  else if decide (le_Cmd e = CMD_NOTIFY_TIME) then
    match Strconv.ParseInt (le_Value e) with Some ts => (ts, pc, em, et) | None => x end
  else if decide (le_Cmd e = CMD_NOTIFY_EMPTY) then
    match Strconv.ParseBool (le_Value e) with Some b => (pt, pc, b, et) | None => x end
  else if decide (le_Cmd e = CMD_NOTIFY_EMPTY_TIME) then
    match Strconv.ParseInt (le_Value e) with Some ts => (pt, pc, em, ts) | None => x end
  else x.

#[global] Arguments meta_op : simpl never.

Definition kv_log (l : list logEntryData) : list KV.op := omap kv_op l.

Definition meta_log (k : string) (l : list logEntryData) (x : Time.t * gossipStatus * bool * Time.t)
    : Time.t * gossipStatus * bool * Time.t :=
  fold_left (fun x e => if decide (le_Key e = k) then meta_op e x else x) l x.

(** Whether an entry writes a consensus record. *)
Definition notifies (e : logEntryData) : Prop :=
  le_Cmd e ∈ [CMD_NOTIFY_STATUS; CMD_NOTIFY_TIME; CMD_NOTIFY_EMPTY; CMD_NOTIFY_EMPTY_TIME].

(** An entry whose text survives the JSON codec. *)
Definition entry_clean (e : logEntryData) : Prop :=
  Utf8.valid (le_Cmd e) = true /\ Utf8.valid (le_Key e) = true /\ Utf8.valid (le_Value e) = true.

(** Whether every notification of a history comes after a report on its key, the
    keys of [ks] reported before it. *)
Fixpoint heard (ks : gset string) (evs : list node_event) : bool :=
  match evs with
  | [] => true
  | Gossiped m :: evs => heard ({[Key m]} ∪ ks) evs
  | Committed e :: evs => bool_decide (notifies e -> le_Key e ∈ ks) && heard ks evs
  end.

(** Every key an entry notifies about has an entry in the gossip cache. *)
Definition known (f : fsm_state) (e : logEntryData) : Prop :=
  notifies e -> is_Some (GCM.gcm_data (f_gcm f) !! le_Key e).

End Machine.

Arguments fsm_state : clear implicits.

(** ** Lemmas *)

(** The entry as it comes back from the wire. *)
Definition coerce_entry (e : logEntryData) : logEntryData :=
  Entry (Utf8.coerce (le_Cmd e)) (Utf8.coerce (le_Key e)) (Utf8.coerce (le_Value e)).

Lemma coerce_entry_clean e : entry_clean e -> coerce_entry e = e.
Proof. intros (Hc & Hk & Hv). unfold coerce_entry. rewrite !coerce_valid by done. by destruct e. Qed.

Lemma unmarshal_marshal e : unmarshal_entry (marshal_entry e) = Some (coerce_entry e).
Proof.
  unfold unmarshal_entry, marshal_entry.
  rewrite (parse_document_object _ [("Cmd", JStr (Utf8.coerce (le_Cmd e)));
    ("Key", JStr (Utf8.coerce (le_Key e))); ("Value", JStr (Utf8.coerce (le_Value e)))]).
  - cbn [Decode.into_struct fold_left]. by store_members.
  - repeat constructor; by apply member_quote_coerce.
Qed.

(** The setter an entry runs on the record of its key, if any. *)
Definition setter (e : logEntryData) : option (gossipConsensus -> gossipConsensus) :=
  if decide (le_Cmd e = CMD_NOTIFY_STATUS) then Some (fun v => with_prevConsensus v (le_Value e))
  else if decide (le_Cmd e = CMD_NOTIFY_TIME) then
    (fun ts v => with_prevEventTime v (Time.of_stamp ts)) <$> Strconv.ParseInt (le_Value e)
  else if decide (le_Cmd e = CMD_NOTIFY_EMPTY) then
    (fun b v => with_empty v b) <$> Strconv.ParseBool (le_Value e)
  else if decide (le_Cmd e = CMD_NOTIFY_EMPTY_TIME) then
    (fun ts v => with_emptyTime v (Time.of_stamp ts)) <$> Strconv.ParseInt (le_Value e)
  else None.

Ltac commands :=
  unfold CMD_SET, CMD_DELETE, CMD_NOTIFY_STATUS, CMD_NOTIFY_TIME, CMD_NOTIFY_EMPTY,
    CMD_NOTIFY_EMPTY_TIME in *.

Lemma setter_spec e fn v :
  setter e = Some fn ->
  notifies e /\ kv_op e = None /\ consensus (fn v) = consensus v /\
  GCM.meta_of (fn v) = meta_op e (GCM.meta_of v).
Proof.
  unfold setter, notifies, kv_op, meta_op, GCM.meta_of.
  destruct (decide (le_Cmd e = CMD_NOTIFY_STATUS)) as [->|H1];
  [|destruct (decide (le_Cmd e = CMD_NOTIFY_TIME)) as [->|H2];
  [|destruct (decide (le_Cmd e = CMD_NOTIFY_EMPTY)) as [->|H3];
  [|destruct (decide (le_Cmd e = CMD_NOTIFY_EMPTY_TIME)) as [->|H4]]]]; intros Hs; [..|done].
  - simplify_eq/=. split_and!; [set_solver|done..].
  - destruct (Strconv.ParseInt (le_Value e)); simplify_eq/=. rewrite of_stamp_id.
    split_and!; [set_solver|done..].
  - destruct (Strconv.ParseBool (le_Value e)); simplify_eq/=. split_and!; [set_solver|done..].
  - destruct (Strconv.ParseInt (le_Value e)); simplify_eq/=. rewrite of_stamp_id.
    split_and!; [set_solver|done..].
Qed.

Lemma setter_None e x : setter e = None -> meta_op e x = x.
Proof.
  destruct x as [[[pt pc] em] et]. unfold setter, meta_op. intros Hs.
  repeat case_decide; try done; by destruct (Strconv.ParseInt (le_Value e)), (Strconv.ParseBool (le_Value e)).
Qed.

Lemma setter_kv e : kv_op e <> None -> setter e = None.
Proof.
  intros H. destruct (setter e) as [fn|] eqn:Hs; [|done].
  by destruct (setter_spec e fn zero_consensus Hs) as (_ & ? & _).
Qed.

Section Facts.

Context {N : Type} `{!GossipNode N}.

Implicit Types (f : fsm_state N) (e : logEntryData) (l : list logEntryData).

(** One entry: the table operation on the table, the setter on the gossip
    cache; it never panics while the table is allocated. *)
Lemma apply_entry_spec f e d :
  KV.repr (f_cm f) d ->
  exists f', apply_entry f e = Ret (f', None) /\
    KV.repr (f_cm f') (default d (KV.spec_step d <$> kv_op e)) /\
    f_gcm f' = default (f_gcm f) (GCM.update (f_gcm f) (le_Key e) <$> setter e).
Proof.
  intros Hd. destruct (kv_op e) as [o|] eqn:Ho.
  - rewrite (setter_kv e) by congruence. unfold kv_op, apply_entry in *.
    destruct (decide (le_Cmd e = CMD_SET)); simplify_eq.
    + destruct (KV.Set_repr _ _ (le_Key e) (le_Value e) Hd) as (c' & -> & Hc). cbn. eauto.
    + destruct (decide (le_Cmd e = CMD_DELETE)); simplify_eq.
      eexists. split; [done|]. split; [by apply KV.Del_repr | done].
  - unfold apply_entry, setter, kv_op in *.
    destruct (decide (le_Cmd e = CMD_SET)), (decide (le_Cmd e = CMD_DELETE)); try done.
    repeat case_decide; try (by eauto);
      destruct (Strconv.ParseInt (le_Value e)), (Strconv.ParseBool (le_Value e)); by eauto.
Qed.

Lemma update_writable (c : GCM.gossipCacheManager N) key fn :
  (forall v, consensus (fn v) = consensus v) -> is_Some (GCM.gcm_data c !! key) ->
  GCM.writable c -> GCM.writable (GCM.update c key fn).
Proof.
  intros Hf [v Hv] Hw. unfold GCM.update. rewrite Hv. apply map_Forall_insert_2; [|done].
  rewrite Hf. by apply (Hw key).
Qed.

(** Steps keep the entries of the gossip cache. *)
Lemma update_dom (c : GCM.gossipCacheManager N) key fn k :
  is_Some (GCM.gcm_data c !! k) -> is_Some (GCM.gcm_data (GCM.update c key fn) !! k).
Proof.
  intros Hk. unfold GCM.update. destruct (GCM.gcm_data c !! key); cbn;
    rewrite lookup_insert; case_decide; eauto.
Qed.

Lemma deliver_dom (c c' : GCM.gossipCacheManager N) m k :
  GCM.writable c -> GCM.deliver c m = Ret c' ->
  k = Key m \/ is_Some (GCM.gcm_data c !! k) -> is_Some (GCM.gcm_data c' !! k).
Proof.
  intros Hw. rewrite GCM.deliver_stored by done. intros [= <-] Hk. case_match eqn:Hacc.
  - cbn. rewrite lookup_insert. case_decide; naive_solver.
  - destruct Hk as [->|?]; [|done]. unfold GCM.report in Hacc.
    destruct (GCM.gcm_data c !! Key m); [by eexists|done].
Qed.

(** What a run of entries and gossip leaves: the table of the log, the records
    of the log, the newest reports. *)
Definition outcome_of f d (evs : list node_event) f' : Prop :=
  KV.repr (f_cm f') (KV.spec_run d (kv_log (log_of evs))) /\
  (forall k, GCM.meta (f_gcm f') k = meta_log k (log_of evs) (GCM.meta (f_gcm f) k)) /\
  (forall k n, GCM.report (f_gcm f') k n =
               GCM.latest (GCM.report (f_gcm f) k n) k n (gossip_of evs)).

(** One committed entry, whatever its text: it takes effect as it comes back
    from the wire. *)
Lemma committed_coerce f d e0 :
  KV.repr (f_cm f) d ->
  let e := coerce_entry e0 in
  exists f', run_event f (Committed e0) = Ret f' /\
    KV.repr (f_cm f') (default d (KV.spec_step d <$> kv_op e)) /\
    (forall k, GCM.meta (f_gcm f') k =
               if decide (le_Key e = k) then meta_op e (GCM.meta (f_gcm f) k) else GCM.meta (f_gcm f) k) /\
    (forall k n, GCM.report (f_gcm f') k n = GCM.report (f_gcm f) k n) /\
    (forall k, is_Some (GCM.gcm_data (f_gcm f) !! k) -> is_Some (GCM.gcm_data (f_gcm f') !! k)) /\
    (GCM.writable (f_gcm f) -> known f e -> GCM.writable (f_gcm f')).
Proof.
  intros Hd e. destruct (apply_entry_spec f e d Hd) as (f' & Hf & Hd' & Hg).
  exists f'. cbn [run_event]. unfold Apply. rewrite unmarshal_marshal. fold e. rewrite Hf, Hg.
  destruct (setter e) as [fn|] eqn:Hs; cbn.
  - assert (Hcons : forall v, consensus (fn v) = consensus v).
    { intros v. by destruct (setter_spec e fn v Hs) as (_ & _ & ? & _). }
    split_and!; [done|done| | | |].
    + intros k. rewrite GCM.update_meta. case_decide as Hk; [|done]. subst k.
      by destruct (setter_spec e fn (default zero_consensus (GCM.gcm_data (f_gcm f) !! le_Key e)) Hs)
        as (_ & _ & _ & ?).
    + intros k n. by apply GCM.update_report.
    + intros k. apply update_dom.
    + intros Hw Hk. apply update_writable; [done| |done]. apply Hk.
      by destruct (setter_spec e fn zero_consensus Hs).
  - split_and!; [done|done| |done|done|done]. intros k. case_decide; [|done].
    symmetry. by apply setter_None.
Qed.

Lemma committed_spec f d e :
  KV.repr (f_cm f) d -> entry_clean e ->
  exists f', run_event f (Committed e) = Ret f' /\
    KV.repr (f_cm f') (default d (KV.spec_step d <$> kv_op e)) /\
    (forall k, GCM.meta (f_gcm f') k =
               if decide (le_Key e = k) then meta_op e (GCM.meta (f_gcm f) k) else GCM.meta (f_gcm f) k) /\
    (forall k n, GCM.report (f_gcm f') k n = GCM.report (f_gcm f) k n) /\
    (forall k, is_Some (GCM.gcm_data (f_gcm f) !! k) -> is_Some (GCM.gcm_data (f_gcm f') !! k)) /\
    (GCM.writable (f_gcm f) -> known f e -> GCM.writable (f_gcm f')).
Proof. intros Hd He. pose proof (committed_coerce f d e Hd) as H. by rewrite coerce_entry_clean in H. Qed.

(** A run in which every notification comes after a report on its key never
    panics, and its result is the one the log and the messages determine. *)
Lemma run_events_spec evs : forall f d ks,
  KV.repr (f_cm f) d -> GCM.writable (f_gcm f) ->
  (forall k, k ∈ ks -> is_Some (GCM.gcm_data (f_gcm f) !! k)) ->
  Forall entry_clean (log_of evs) -> heard ks evs = true ->
  exists f', run_events f evs = Ret f' /\ GCM.writable (f_gcm f') /\ outcome_of f d evs f'.
Proof.
  unfold outcome_of. induction evs as [|ev evs IH]; intros f d ks Hd Hw Hks Hcl Hh; [by exists f|].
  unfold run_events. cbn [foldlM]. destruct ev as [e|m]; cbn in Hcl, Hh.
  - apply Forall_cons in Hcl as [He Hcl]. apply andb_true_iff in Hh as [Hk%bool_decide_eq_true Hh].
    destruct (committed_spec f d e Hd He) as (f1 & -> & Hd1 & Hm1 & Hr1 & Hdom1 & Hw1). cbn [mbind outcome_bind].
    assert (Hw1' : GCM.writable (f_gcm f1)) by (apply Hw1; [done|intros Hn; by apply Hks, Hk]).
    destruct (IH f1 _ ks Hd1 Hw1') as (f2 & Hrun & Hw2 & Hd2 & Hm2 & Hr2); [by auto|done|done|].
    exists f2. split_and!; [done|done| | |].
    + unfold kv_log in *. cbn. by destruct (kv_op e).
    + intros k. rewrite Hm2, Hm1. unfold meta_log. cbn. by case_decide.
    + intros k n. by rewrite Hr2, Hr1.
  - destruct (GCM.deliver_spec (f_gcm f) m Hw) as (g & Hg & Hwg & Hrg & Hmg & _).
    cbn [run_event]. rewrite Hg. cbn [mbind outcome_bind].
    destruct (IH (FsmState (f_cm f) g) d ({[Key m]} ∪ ks) Hd Hwg) as (f2 & Hrun & Hw2 & Hd2 & Hm2 & Hr2); [|done|done|].
    { intros k Hk. apply (deliver_dom _ _ _ _ Hw Hg). set_solver. }
    exists f2. split_and!; [done|done|done| |].
    + intros k. rewrite Hm2. cbn. by rewrite Hmg.
    + intros k n. rewrite Hr2. cbn [f_gcm]. rewrite Hrg. unfold GCM.latest.
      change (gossip_of (Gossiped m :: evs)) with (m :: gossip_of evs). rewrite filter_cons.
      by case_decide.
Qed.

(** The table after replaying a log is a function of the log alone. *)
Lemma replay_spec l : forall f d,
  KV.repr (f_cm f) d -> Forall entry_clean l ->
  exists f', replay f l = Ret f' /\ KV.repr (f_cm f') (KV.spec_run d (kv_log l)) /\
    (forall k, GCM.meta (f_gcm f') k = meta_log k l (GCM.meta (f_gcm f) k)) /\
    (forall k n, GCM.report (f_gcm f') k n = GCM.report (f_gcm f) k n).
Proof.
  unfold replay, run_events. induction l as [|e l IH]; intros f d Hd Hcl; [by exists f|].
  apply Forall_cons in Hcl as [He Hcl].
  destruct (committed_spec f d e Hd He) as (f1 & Hf1 & Hd1 & Hm1 & Hr1 & _).
  destruct (IH f1 _ Hd1 Hcl) as (f2 & Hrun & Hd2 & Hm2 & Hr2).
  exists f2. cbn [fmap list_fmap foldlM]. rewrite Hf1. split_and!; [done| | |].
  - unfold kv_log in *. cbn. by destruct (kv_op e).
  - intros k. rewrite Hm2, Hm1. unfold meta_log. cbn. by case_decide.
  - intros k n. by rewrite Hr2, Hr1.
Qed.

Lemma kv_log_app l1 l2 : kv_log (l1 ++ l2) = kv_log l1 ++ kv_log l2.
Proof. apply omap_app. Qed.

(** Tables built from clean entries stay UTF-8. *)
Lemma spec_run_utf8 l : forall d,
  utf8_map d -> Forall entry_clean l -> utf8_map (KV.spec_run d (kv_log l)).
Proof.
  induction l as [|e l IH]; intros d Hd Hcl; [done|].
  apply Forall_cons in Hcl as [(Hc & Hk & Hv) Hcl].
  assert (utf8_map (default d (KV.spec_step d <$> kv_op e))) as Hd'.
  { unfold kv_op. repeat case_decide; cbn; [by apply map_Forall_insert_2| |done].
    by apply map_Forall_delete. }
  specialize (IH _ Hd' Hcl). unfold kv_log in *. cbn. by destruct (kv_op e).
Qed.

End Facts.

End Fsm.

(** ** Properties *)

Definition demo_node : Fsm.fsm_state GNode.static_node :=
  Fsm.FsmState KV.NewCacheManager
    (GCM.Gcm {["db" := with_consensus zero_consensus (Some ∅)]} (GNode.static_start "n1:1" [])).

Definition demo_log : list logEntryData :=
  [Entry CMD_SET "db" "10.0.0.9"; Entry CMD_NOTIFY_TIME "db" "17"; Entry CMD_NOTIFY_STATUS "db" GOSSIP_DOWN].

Lemma demo_log_clean : Forall Fsm.entry_clean demo_log.
Proof. repeat (apply Forall_cons; split); [by split_and!..|by apply Forall_nil]. Qed.

(** C10: replicas agree: two nodes that start with an empty gossip cache and the
    same table (empty, or restored from a snapshot) and apply the same committed
    entries, each interleaved with its own gossip, return without a panic with
    the same table and the same consensus records, those of the log; if they
    have received the same reports, in any order and any number of times, and no
    sender stamped two different reports alike, they hold the same reports too.
    On each node every notification comes after a first report on its key: a
    node that is notified first panics at that report. *)
Theorem replicas_agree {N} `{!GossipNode N} (g1 g2 : N) cm1 cm2 d evs1 evs2 :
  let f1 := Fsm.FsmState cm1 (GCM.NewGossipCacheManager g1) in
  let f2 := Fsm.FsmState cm2 (GCM.NewGossipCacheManager g2) in
  KV.repr cm1 d -> KV.repr cm2 d ->
  Fsm.log_of evs1 = Fsm.log_of evs2 -> Forall Fsm.entry_clean (Fsm.log_of evs1) ->
  Fsm.heard ∅ evs1 = true -> Fsm.heard ∅ evs2 = true ->
  exists f1' f2', Fsm.run_events f1 evs1 = Ret f1' /\ Fsm.run_events f2 evs2 = Ret f2' /\
    KV.repr (Fsm.f_cm f1') (KV.spec_run d (Fsm.kv_log (Fsm.log_of evs1))) /\
    cm_data (Fsm.f_cm f1') = cm_data (Fsm.f_cm f2') /\
    (forall k, GCM.meta (Fsm.f_gcm f1') k = GCM.meta (Fsm.f_gcm f2') k /\
               GCM.meta (Fsm.f_gcm f1') k = Fsm.meta_log k (Fsm.log_of evs1) (GCM.meta_of zero_consensus)) /\
    (GCM.consistent (Fsm.gossip_of evs1) ->
     (forall m, m ∈ Fsm.gossip_of evs1 <-> m ∈ Fsm.gossip_of evs2) ->
     forall k n, GCM.report (Fsm.f_gcm f1') k n = GCM.report (Fsm.f_gcm f2') k n).
Proof.
  intros f1 f2 Hd1 Hd2 Hlog Hcl Hh1 Hh2.
  destruct (Fsm.run_events_spec evs1 f1 d ∅) as (f1' & H1 & _ & Hc1 & Hm1 & Hr1);
    [done|apply map_Forall_empty|set_solver|done|done|].
  rewrite Hlog in Hcl.
  destruct (Fsm.run_events_spec evs2 f2 d ∅) as (f2' & H2 & _ & Hc2 & Hm2 & Hr2);
    [done|apply map_Forall_empty|set_solver|done|done|].
  exists f1', f2'. split_and!; [done|done|done| | |].
  - unfold KV.repr in *. by rewrite Hc1, Hc2, Hlog.
  - intros k. by rewrite Hm1, Hm2, Hlog.
  - intros Hcons Hset k n. rewrite Hr1, Hr2. by apply GCM.latest_set.
Qed.

(** Two fresh nodes, a report on the key before the notifications. *)
Lemma replicas_agree_witness :
  let n1 := GNode.static_start "n1:1" [] in
  let n2 := GNode.static_start "n2:1" [] in
  let f1 := Fsm.FsmState KV.NewCacheManager (GCM.NewGossipCacheManager n1) in
  let f2 := Fsm.FsmState KV.NewCacheManager (GCM.NewGossipCacheManager n2) in
  let ma := Msg 10 "n2" "db" "v" GOSSIP_DOWN in
  let mb := Msg 12 "n3" "db" "v" GOSSIP_DOWN in
  let evs1 := Fsm.Gossiped ma :: (Fsm.Committed <$> demo_log) ++ [Fsm.Gossiped mb] in
  let evs2 := Fsm.Gossiped mb :: Fsm.Gossiped ma :: Fsm.Gossiped mb :: (Fsm.Committed <$> demo_log) in
  exists f1' f2', Fsm.run_events f1 evs1 = Ret f1' /\ Fsm.run_events f2 evs2 = Ret f2' /\
    KV.repr (Fsm.f_cm f1') (KV.spec_run ∅ (Fsm.kv_log (Fsm.log_of evs1))) /\
    cm_data (Fsm.f_cm f1') = cm_data (Fsm.f_cm f2') /\
    (forall k, GCM.meta (Fsm.f_gcm f1') k = GCM.meta (Fsm.f_gcm f2') k /\
               GCM.meta (Fsm.f_gcm f1') k = Fsm.meta_log k (Fsm.log_of evs1) (GCM.meta_of zero_consensus)) /\
    (GCM.consistent (Fsm.gossip_of evs1) ->
     (forall m, m ∈ Fsm.gossip_of evs1 <-> m ∈ Fsm.gossip_of evs2) ->
     forall k n, GCM.report (Fsm.f_gcm f1') k n = GCM.report (Fsm.f_gcm f2') k n).
Proof.
  intros n1 n2 f1 f2 ma mb evs1 evs2.
  exact (replicas_agree n1 n2 KV.NewCacheManager KV.NewCacheManager ∅ evs1 evs2 eq_refl eq_refl eq_refl
           demo_log_clean ltac:(vm_compute; reflexivity) ltac:(vm_compute; reflexivity)).
Defined.

(** C12: a late snapshot is harmless for the table: raft asks for a snapshot
    after [l1], but [Persist] marshals what the table holds when it runs, after
    [l2] has been applied too.  A node that restores it and replays [l2] and
    [l3] ends with the table of the node that wrote it. *)
Theorem snapshot_replay_agrees {N} `{!GossipNode N} (f g : Fsm.fsm_state N) d l1 l2 l3 :
  KV.repr (Fsm.f_cm f) d -> utf8_map d -> Forall Fsm.entry_clean (l1 ++ l2 ++ l3) ->
  exists f1 f2 g1 g2,
    Fsm.replay f (l1 ++ l2) = Ret f1 /\ Fsm.replay f1 l3 = Ret f2 /\
    Fsm.Restore g (KV.Marshal (Fsm.f_cm f1)).1 = (g1, None) /\ Fsm.replay g1 (l2 ++ l3) = Ret g2 /\
    cm_data (Fsm.f_cm g2) = cm_data (Fsm.f_cm f2).
Proof.
  intros Hd Hu [Hcl1 [Hcl2 Hcl3]%Forall_app]%Forall_app.
  assert (Hcl12 : Forall Fsm.entry_clean (l1 ++ l2)) by (by apply Forall_app).
  destruct (Fsm.replay_spec (l1 ++ l2) f d Hd Hcl12) as (f1 & Hf1 & Hd1 & _).
  destruct (Fsm.replay_spec l3 f1 _ Hd1 Hcl3) as (f2 & Hf2 & Hd2 & _).
  pose proof (Fsm.spec_run_utf8 (l1 ++ l2) d Hu Hcl12) as Hu1.
  assert (Hres : Fsm.Restore g (KV.Marshal (Fsm.f_cm f1)).1 =
                 (Fsm.FsmState (Fsm.f_cm f1) (Fsm.f_gcm g), None)).
  { unfold Fsm.Restore. by rewrite KV.UnMarshal_Marshal by (by rewrite Hd1). }
  destruct (Fsm.replay_spec (l2 ++ l3) (Fsm.FsmState (Fsm.f_cm f1) (Fsm.f_gcm g)) _ Hd1)
    as (g2 & Hg2 & Hd3 & _); [by apply Forall_app|].
  exists f1, f2, (Fsm.FsmState (Fsm.f_cm f1) (Fsm.f_gcm g)), g2. split_and!; try done.
  unfold KV.repr in *. rewrite Hd2, Hd3. f_equal.
  rewrite !Fsm.kv_log_app, (KV.spec_run_app d), KV.spec_run_replay. apply KV.spec_run_app.
Qed.

Lemma snapshot_replay_agrees_witness :
  exists f1 f2 g1 g2,
    Fsm.replay demo_node ([Entry CMD_SET "a" "1"] ++ [Entry CMD_DELETE "a" ""]) = Ret f1 /\
    Fsm.replay f1 [Entry CMD_SET "b" "2"] = Ret f2 /\
    Fsm.Restore demo_node (KV.Marshal (Fsm.f_cm f1)).1 = (g1, None) /\
    Fsm.replay g1 ([Entry CMD_DELETE "a" ""] ++ [Entry CMD_SET "b" "2"]) = Ret g2 /\
    cm_data (Fsm.f_cm g2) = cm_data (Fsm.f_cm f2).
Proof.
  apply (snapshot_replay_agrees demo_node demo_node ∅); [done|apply map_Forall_empty|].
  repeat (apply Forall_cons; split); [by split_and!..|by apply Forall_nil].
Defined.

(** A snapshot forgets the consensus records: it holds the table only, so a
    node that starts from it has the zero record for every key, whatever the
    records of the node that wrote it. *)
Theorem snapshot_forgets_records {N} `{!GossipNode N} (f : Fsm.fsm_state N) (gnode : N) d :
  KV.repr (Fsm.f_cm f) d -> utf8_map d ->
  exists g, Fsm.Restore (Fsm.FsmState KV.NewCacheManager (GCM.NewGossipCacheManager gnode))
              (KV.Marshal (Fsm.f_cm f)).1 = (g, None) /\
    KV.repr (Fsm.f_cm g) d /\ forall k, GCM.meta (Fsm.f_gcm g) k = GCM.meta_of zero_consensus.
Proof.
  intros Hd Hu. unfold Fsm.Restore. rewrite KV.UnMarshal_Marshal by (by rewrite Hd).
  eexists. split_and!; [reflexivity|done|]. intros k. unfold GCM.meta. cbn. by rewrite lookup_empty.
Qed.

Lemma snapshot_forgets_records_witness :
  exists g, Fsm.Restore (Fsm.FsmState KV.NewCacheManager
                (GCM.NewGossipCacheManager (GNode.static_start "n1:1" [])))
              (KV.Marshal (Fsm.f_cm demo_node)).1 = (g, None) /\
    KV.repr (Fsm.f_cm g) ∅ /\ forall k, GCM.meta (Fsm.f_gcm g) k = GCM.meta_of zero_consensus.
Proof. apply (snapshot_forgets_records demo_node); [done|apply map_Forall_empty]. Defined.

(** Applying an entry is total: raft's log only holds what [json.Marshal]
    wrote, and on such bytes [Apply] never panics and reports no error while
    the table is allocated; the entry takes effect as it comes back from the
    codec, invalid UTF-8 replaced, on the table or on one consensus record. *)
Theorem apply_total {N} `{!GossipNode N} (f : Fsm.fsm_state N) d e0 :
  KV.repr (Fsm.f_cm f) d ->
  let e := Fsm.coerce_entry e0 in
  exists f', Fsm.Apply f (Fsm.marshal_entry e0) = Ret (f', None) /\
    KV.repr (Fsm.f_cm f') (default d (KV.spec_step d <$> Fsm.kv_op e)) /\
    (forall k, GCM.meta (Fsm.f_gcm f') k =
       if decide (le_Key e = k) then Fsm.meta_op e (GCM.meta (Fsm.f_gcm f) k)
       else GCM.meta (Fsm.f_gcm f) k) /\
    (forall k n, GCM.report (Fsm.f_gcm f') k n = GCM.report (Fsm.f_gcm f) k n).
Proof.
  intros Hd e. destruct (Fsm.committed_coerce f d e0 Hd) as (f' & Hrun & Hd' & Hm & Hr & _).
  exists f'. split_and!; try done. cbn [Fsm.run_event] in Hrun. unfold Fsm.Apply in *.
  rewrite Fsm.unmarshal_marshal in *.
  destruct (Fsm.apply_entry_spec f (Fsm.coerce_entry e0) d Hd) as (f1 & Hf1 & _).
  rewrite Hf1 in *. cbn in Hrun. by injection Hrun as ->.
Qed.

Lemma apply_total_witness :
  let e := Fsm.coerce_entry (Entry CMD_SET "db" "10.0.0.9") in
  exists f', Fsm.Apply demo_node (Fsm.marshal_entry (Entry CMD_SET "db" "10.0.0.9")) = Ret (f', None) /\
    KV.repr (Fsm.f_cm f') (default ∅ (KV.spec_step ∅ <$> Fsm.kv_op e)) /\
    (forall k, GCM.meta (Fsm.f_gcm f') k =
       if decide (le_Key e = k) then Fsm.meta_op e (GCM.meta (Fsm.f_gcm demo_node) k)
       else GCM.meta (Fsm.f_gcm demo_node) k) /\
    (forall k n, GCM.report (Fsm.f_gcm f') k n = GCM.report (Fsm.f_gcm demo_node) k n).
Proof. apply (apply_total demo_node ∅ (Entry CMD_SET "db" "10.0.0.9")). done. Defined.

(** C39: a record that arrives before the first report stops the node: on a node
    with no entry for the key (a restarted or a scavenged one) a committed
    NOTIFY entry creates one with a nil report map, and the next gossip report
    on the key panics. *)
Theorem notify_before_gossip_panics {N} `{!GossipNode N} (f : Fsm.fsm_state N) d e m :
  KV.repr (Fsm.f_cm f) d -> Fsm.entry_clean e -> is_Some (Fsm.setter e) ->
  GCM.gcm_data (Fsm.f_gcm f) !! le_Key e = None -> Key m = le_Key e ->
  Fsm.run_events f [Fsm.Committed e; Fsm.Gossiped m] = Panic NilMapWrite.
Proof.
  intros Hd He [fn Hs] Hnone Hk. unfold Fsm.run_events. cbn [foldlM Fsm.run_event].
  unfold Fsm.Apply. rewrite Fsm.unmarshal_marshal, Fsm.coerce_entry_clean by done.
  destruct (Fsm.apply_entry_spec f e d Hd) as (f1 & -> & _ & Hg). rewrite Hs in Hg. cbn in Hg |- *.
  destruct (GCM.update_absent (Fsm.f_gcm f) (le_Key e) fn) as (v & Hv & Hnil); [|done|].
  { intros w. by destruct (Fsm.setter_spec e fn w Hs) as (_ & _ & ? & _). }
  rewrite <- Hg, <- Hk in Hv. by rewrite (GCM.deliver_nil_map _ _ _ Hv Hnil).
Qed.

Lemma notify_before_gossip_panics_witness :
  Fsm.run_events (Fsm.FsmState KV.NewCacheManager (GCM.NewGossipCacheManager (GNode.static_start "n1:1" [])))
    [Fsm.Committed (Entry CMD_NOTIFY_STATUS "db" GOSSIP_UP); Fsm.Gossiped (Msg 10 "n2" "db" "v" GOSSIP_UP)] =
  Panic NilMapWrite.
Proof.
  apply (notify_before_gossip_panics (Fsm.FsmState KV.NewCacheManager (GCM.NewGossipCacheManager
           (GNode.static_start "n1:1" []))) ∅); [done|by split_and!|by eexists|done|done].
Defined.
