(* ===== verification/Quorum.v ===== *)
(** * The quorum checker: quorum.go

    On the leader, a periodic check compares what the nodes gossip about each
    key with the replicated record of the key, commits what it finds through
    raft and runs the notification script.

    The environment answers each step: whether the node still is the leader
    when the write flag is read, what raft replies to an entry, what the clock
    shows.  A loop over reports reads the clock once per report, so a reading
    is a function of the reporting node. *)

From S2P Require Import Prelude GoStd Base Json KVCache Delegate Gossip GossipCache Detector Fsm.

(** What raft answers to [Apply]: the entry was applied on this node, or an
    error, in which case the entry may have been applied all the same. *)
Inductive raft_reply : Type :=
| RaftOk
| RaftErr (err : string) (applied : bool).

Record timeoutShellCmd : Type := ShellCmd {
  tsc_key : string;
  tsc_status : gossipStatus;
  tsc_timeout : Z;
  tsc_cmd : string
}.

Record shellCmdResult : Type := ShellResult {
  scr_key : string;
  scr_status : gossipStatus;
  scr_stdout : string;
  scr_stderr : string;
  scr_err : error
}.

(** The clock as one check sees it: the reading of the interval guard, the
    reading taken at the report of each node, the reading that is committed. *)
Record times : Type := Times {
  t_guard : Time.t;
  t_votes : string -> Time.t;
  t_stamp : Time.t
}.

(** The iteration orders of one check: of the reports of an entry, of the
    counting map, of the cloned cache.  The language leaves them open. *)
Record orders : Type := Orders {
  o_reports : gomap gossipStatusAndTimeStamp -> list (string * gossipStatusAndTimeStamp);
  o_counts : gmap string Z -> list (string * Z);
  o_data : gmap string gossipConsensus -> list (string * gossipConsensus)
}.

Record valid_orders (o : orders) : Prop := {
  vo_reports m : range_of (o_reports o m) m;
  vo_counts m : o_counts o m ≡ₚ map_to_list m;
  vo_data m : o_data o m ≡ₚ map_to_list m
}.

(** The orders the model runs with. *)
Definition plain_orders : orders := Orders gm_items map_to_list map_to_list.

Lemma plain_orders_valid : valid_orders plain_orders.
Proof. split; intros; unfold range_of; reflexivity. Qed.

Module Quorum.

(** The configuration of a [quorumChecker]. *)
Record config : Type := Config {
  q_quorum : Z;
  q_notificationScript : string;
  q_eventInterval : Z
}.

(** ** Counting votes *)

(** A report counts if it is newer than [since] and not stale. *)
Definition fresh (since : Time.t) (now : Time.t) (r : gossipStatusAndTimeStamp) : bool :=
  if r_timeStamp r <=? Time.UnixNano since then false
  else negb (Time.Since now (Time.of_stamp (r_timeStamp r))
             >? Time.Second * STALE_INFO_INTERVAL_IN_SECONDS).

(** The statuses counted, visiting the reports in the order [ord]. *)
Definition votes (since : Time.t) (now : string -> Time.t)
    (ord : list (string * gossipStatusAndTimeStamp)) : list gossipStatus :=
  omap (fun kv => if fresh since (now kv.1) kv.2 then Some (r_status kv.2) else None) ord.

(** [statusNow]: the first status with a quorum, in the order [ordc] of the
    counting map; the zero value when there is none. *)
Definition status_now (quorum : Z) (ordc : gmap string Z -> list (string * Z)) (vs : list gossipStatus)
    : gossipStatus :=
  default "" (first_with (fun count => count >=? quorum) (ordc (count_all vs))).

(** [hasEvent], from [statusNow] on: hasEvent, pending, status. *)
Definition judge (prev statusNow : gossipStatus) : bool * bool * gossipStatus :=
  if decide (statusNow = GOSSIP_DOWN /\ prev = GOSSIP_UP) then (true, false, GOSSIP_DOWN)
  else if decide (statusNow = GOSSIP_DOWN /\ prev <> GOSSIP_DOWN) then (false, true, GOSSIP_DOWN)
  else if decide (statusNow = GOSSIP_UP /\ prev = GOSSIP_DOWN) then (true, false, GOSSIP_UP)
  else if decide (statusNow = GOSSIP_UP /\ prev <> GOSSIP_UP) then (false, true, GOSSIP_UP)
  else (false, false, statusNow).

Definition hasEvent (q : config) (o : orders) (now : string -> Time.t) (v : gossipConsensus)
    : bool * bool * gossipStatus :=
  let vs := votes (prevEventTime v) now (o_reports o (consensus v)) in
  judge (prevConsensus v) (status_now (q_quorum q) (o_counts o) vs).

(** A report that speaks against an empty answer. *)
Definition recovered (s : gossipStatus) : bool :=
  bool_decide (s <> GOSSIP_LESS_THAN_MINSAMPLE) && bool_decide (s <> GOSSIP_NOT_FILL_SAMPLES)
  && bool_decide (s <> GOSSIP_EMPTY).

Definition emptyRecover (q : config) (o : orders) (now : string -> Time.t) (v : gossipConsensus)
    : bool * gossipStatus :=
  let vs := votes (emptyTime v) now (o_reports o (consensus v)) in
  let recoverCount := Z.of_nat (length (filter (fun s => recovered s = true) vs)) in
  let statusNow := status_now (q_quorum q) (o_counts o) vs in
  if decide (statusNow = GOSSIP_EMPTY) then (false, statusNow)
  else if recoverCount >=? q_quorum q then (true, statusNow)
  else (false, statusNow).

(** ** The leader's state *)

Section Checker.

Context {N : Type} `{!GossipNode N}.

(** The node, the answers of the environment still to come ([env] from index
    [step] on: the write flag and raft's reply), the entries applied so far,
    and the commands sent to the shell worker. *)
Record state : Type := State {
  s_fsm : Fsm.fsm_state N;
  s_env : nat -> bool * raft_reply;
  s_step : nat;
  s_applied : list logEntryData;
  s_cmds : list timeoutShellCmd
}.

Definition M (A : Type) : Type := state -> outcome (state * A).

#[global] Instance M_ret : MRet M := fun A a s => Ret (s, a).
#[global] Instance M_bind : MBind M := fun A B f m s =>
  match m s with
  | Ret (s', a) => f a s'
  | Panic p => Panic p
  end.

(** Run the entry through the local state machine. *)
Definition apply_locally (event : logEntryData) : M unit := fun s =>
  r ← Fsm.Apply (s_fsm s) (Fsm.marshal_entry event);
  Ret (State r.1 (s_env s) (s_step s) (s_applied s ++ [event]) (s_cmds s), tt).

Definition next_env : M (bool * raft_reply) := fun s =>
  Ret (State (s_fsm s) (s_env s) (S (s_step s)) (s_applied s) (s_cmds s), s_env s (s_step s)).

Definition notifyFollower (event : logEntryData) : M error :=
  answer ← next_env;
  if negb answer.1 then mret (Some "nofity follower can only be performed on leader")
  else match answer.2 with
       | RaftOk => _ ← apply_locally event; mret None
       | RaftErr err true => _ ← apply_locally event; mret (Some err)
       | RaftErr err false => mret (Some err)
       end.

(** [q.cmdCh <- cmd]: the worker takes it. *)
Definition send_cmd (cmd : timeoutShellCmd) : M unit := fun s =>
  Ret (State (s_fsm s) (s_env s) (s_step s) (s_applied s) (s_cmds s ++ [cmd]), tt).

Definition lookup_value (key : string) : M string := fun s => Ret (s, KV.Get (Fsm.f_cm (s_fsm s)) key).

Definition skip : M unit := mret tt.

(** [fmt.Sprintf("%s %s %s %s", script, key, value, status)]. *)
Definition notification_cmd (script key value status : string) : string :=
  script +:+ " " +:+ key +:+ " " +:+ value +:+ " " +:+ status.

Definition interval (q : config) : Time.Duration := wrap64 (Time.Second * q_eventInterval q).

Definition stamp_entry (cmd key : string) (now : Time.t) : logEntryData :=
  Entry cmd key (Strconv.FormatInt (Time.UnixNano now)).

(** Send the notification command for [status] on [key]. *)
Definition send_notification (q : config) (key : string) (status : gossipStatus) : M unit :=
  value ← lookup_value key;
  send_cmd (ShellCmd key status notificationScriptTimeout
              (notification_cmd (q_notificationScript q) key value status)).

Definition checkEvent (q : config) (o : orders) (t : times) (key : string) (v : gossipConsensus)
    : M unit :=
  if Time.Since (t_guard t) (prevEventTime v) <? interval q then skip else
  let '(event, pending, status) := hasEvent q o (t_votes t) v in
  _ ← (if pending then
         _ ← notifyFollower (stamp_entry CMD_NOTIFY_TIME key (t_stamp t));
         _ ← notifyFollower (Entry CMD_NOTIFY_STATUS key status);
         skip
       else skip);
  if event then
    _ ← notifyFollower (stamp_entry CMD_NOTIFY_TIME key (t_stamp t));
    send_notification q key status
  else skip.

Definition checkEmpty (q : config) (o : orders) (t : times) (key : string) (v : gossipConsensus)
    : M unit :=
  if Time.Since (t_guard t) (emptyTime v) <? interval q then skip else
  let '(recover, status) := emptyRecover q o (t_votes t) v in
  _ ← (if decide (status = GOSSIP_EMPTY) then
         if negb (empty v) then
           _ ← notifyFollower (stamp_entry CMD_NOTIFY_EMPTY_TIME key (t_stamp t));
           send_notification q key status
         else skip
       else skip);
  if recover then
    if empty v then
      _ ← notifyFollower (stamp_entry CMD_NOTIFY_EMPTY_TIME key (t_stamp t));
      send_notification q key GOSSIP_EMPTY_RECOVER
    else skip
  else skip.

(** The loop over the cloned cache; [clock] gives the readings of the two
    checks of a key. *)
Fixpoint check_keys (q : config) (o : orders) (clock : string -> times * times)
    (data : list (string * gossipConsensus)) : M unit :=
  match data with
  | [] => skip
  | (key, v) :: data =>
      _ ← checkEvent q o (clock key).1 key v;
      _ ← checkEmpty q o (clock key).2 key v;
      check_keys q o clock data
  end.

(** [barrier] is the reply of [raft.Barrier]. *)
Definition quorumCheck1 (q : config) (o : orders) (clock : string -> times * times) (barrier : error)
    : M unit :=
  answer ← next_env;
  if negb answer.1 then skip
  else match barrier with
       | Some _ => skip
       | None => fun s => check_keys q o clock (o_data o (GCM.Clone (Fsm.f_gcm (s_fsm s)))) s
       end.

(** One turn of [quorumCheck2]: the entry that follows a finished command. *)
Definition result_entry (output : shellCmdResult) : logEntryData :=
  if decide (scr_status output = GOSSIP_EMPTY) then
    Entry CMD_NOTIFY_EMPTY (scr_key output) (Strconv.FormatBool true)
  else if decide (scr_status output = GOSSIP_EMPTY_RECOVER) then
    Entry CMD_NOTIFY_EMPTY (scr_key output) (Strconv.FormatBool false)
  else Entry CMD_NOTIFY_STATUS (scr_key output) (scr_status output).

Definition quorumCheck2 (output : shellCmdResult) : M unit :=
  _ ← notifyFollower (result_entry output); skip.

(** One worker of [doTimeoutShellCmd]: it gives up when the node is no longer
    the leader, else it runs the command and reports. *)
Definition doTimeoutShellCmd (exec : Z -> string -> list string -> string * string)
    (leader : bool) (tsc : timeoutShellCmd) : option shellCmdResult :=
  if negb leader then None
  else let '(stdout, stderr, err) := ShellCmdTimeout exec (tsc_timeout tsc) "sh" ["-c"; tsc_cmd tsc] in
       Some (ShellResult (tsc_key tsc) (tsc_status tsc) stdout stderr err).

End Checker.

Arguments state : clear implicits.

(** ** Lemmas: votes *)

(** The nodes whose fresh report carries [s]. *)
Definition supporters (since : Time.t) (now : string -> Time.t)
    (m : gomap gossipStatusAndTimeStamp) (s : gossipStatus) : gmap string gossipStatusAndTimeStamp :=
  filter (fun kv => fresh since (now kv.1) kv.2 = true /\ r_status kv.2 = s) (gm_tab m).

(** The nodes whose report is fresh. *)
Definition voters (since : Time.t) (now : string -> Time.t) (m : gomap gossipStatusAndTimeStamp)
    : gmap string gossipStatusAndTimeStamp :=
  filter (fun kv => fresh since (now kv.1) kv.2 = true) (gm_tab m).

Lemma size_filter_list (P : string * gossipStatusAndTimeStamp -> Prop) `{!forall x, Decision (P x)}
    (tab : gmap string gossipStatusAndTimeStamp) :
  size (filter P tab) = length (filter P (map_to_list tab)).
Proof.
  rewrite map_filter_alt, map_size_list_to_map; [done|].
  apply NoDup_fst_filter, NoDup_fst_map_to_list.
Qed.

Lemma votes_perm since now ord1 ord2 : ord1 ≡ₚ ord2 -> votes since now ord1 ≡ₚ votes since now ord2.
Proof. intros H. unfold votes. by rewrite H. Qed.

Lemma occurs_votes since now s ord :
  occurs s (votes since now ord) =
  Z.of_nat (length (filter (fun kv => fresh since (now kv.1) kv.2 = true /\ r_status kv.2 = s) ord)).
Proof.
  induction ord as [|[n r] ord IH]; [done|]. unfold votes. cbn [omap list_omap].
  fold (votes since now ord). rewrite filter_cons. cbn [fst snd].
  destruct (fresh since (now n) r) eqn:Hf.
  - rewrite occurs_cons, IH. repeat case_decide; subst; cbn [length]; naive_solver lia.
  - rewrite decide_False by naive_solver. exact IH.
Qed.

Lemma length_votes since now ord :
  length (votes since now ord) =
  length (filter (fun kv => fresh since (now kv.1) kv.2 = true) ord).
Proof.
  induction ord as [|[n r] ord IH]; [done|]. unfold votes. cbn [omap list_omap].
  fold (votes since now ord). rewrite filter_cons. cbn [fst snd].
  destruct (fresh since (now n) r); cbn [length]; case_decide; cbn [length]; congruence.
Qed.

(** In any order, a status is counted once per supporting node. *)
Lemma occurs_supporters since now s ord m :
  range_of ord m -> occurs s (votes since now ord) = Z.of_nat (size (supporters since now m s)).
Proof.
  intros H. rewrite (occurs_perm s _ _ (votes_perm since now _ _ H)), occurs_votes.
  unfold supporters. by rewrite size_filter_list.
Qed.

Lemma length_voters since now ord m :
  range_of ord m -> length (votes since now ord) = size (voters since now m).
Proof.
  intros H. rewrite (votes_perm since now _ _ H), length_votes. unfold voters.
  by rewrite size_filter_list.
Qed.

Lemma status_now_sound quorum ordc vs s :
  (forall m, ordc m ≡ₚ map_to_list m) -> status_now quorum ordc vs = s -> s <> "" ->
  quorum <= occurs s vs.
Proof.
  intros Hord Hs Hne. unfold status_now in Hs.
  destruct (first_with _ _) as [s'|] eqn:E; cbn in Hs; [subst s'|congruence].
  apply first_with_Some in E as (n & Hin & Hn). rewrite Hord, elem_of_map_to_list in Hin.
  apply count_all_lookup in Hin as [-> _]. rewrite Z.geb_leb in Hn. lia.
Qed.

(** With a majority quorum the status does not depend on the order. *)
Lemma status_now_majority quorum ordc vs s :
  (forall m, ordc m ≡ₚ map_to_list m) -> 1 <= quorum -> Z.of_nat (length vs) < 2 * quorum ->
  s <> "" -> status_now quorum ordc vs = s <-> quorum <= occurs s vs.
Proof.
  intros Hord Hq Hmaj Hne. split; [intros Hs; by eapply status_now_sound|]. intros Hs.
  unfold status_now. replace (first_with _ _) with (Some s); [done|]. symmetry.
  apply (first_with_unique _ (count_all vs)); [apply Hord| |].
  - intros s1 s2 n1 n2 [-> _]%count_all_lookup [-> _]%count_all_lookup H1 H2.
    rewrite Z.geb_leb in H1, H2. destruct (decide (s1 = s2)) as [|Hd]; [done|].
    pose proof (occurs_two s1 s2 vs Hd). lia.
  - exists (occurs s vs). rewrite count_all_lookup, Z.geb_leb. split_and!; [done|lia|lia].
Qed.

Lemma judge_event prev statusNow pending st :
  judge prev statusNow = (true, pending, st) ->
  pending = false /\ st = statusNow /\
  ((st = GOSSIP_DOWN /\ prev = GOSSIP_UP) \/ (st = GOSSIP_UP /\ prev = GOSSIP_DOWN)).
Proof. unfold judge. repeat case_decide; naive_solver. Qed.

Lemma judge_pending prev statusNow event st :
  judge prev statusNow = (event, true, st) ->
  event = false /\ st = statusNow /\ (st = GOSSIP_DOWN \/ st = GOSSIP_UP) /\
  prev <> GOSSIP_UP /\ prev <> GOSSIP_DOWN.
Proof. unfold judge. repeat case_decide; naive_solver. Qed.

Lemma judge_status prev statusNow event pending st :
  judge prev statusNow = (event, pending, st) -> st = statusNow.
Proof. unfold judge. repeat case_decide; naive_solver. Qed.

Lemma votes_none since now ord :
  (forall n r, (n, r) ∈ ord -> fresh since (now n) r = false) -> votes since now ord = [].
Proof.
  induction ord as [|[n r] ord IH]; intros H; [done|]. unfold votes. cbn [omap list_omap fst snd].
  rewrite (H n r) by constructor. apply IH. intros. apply H. by constructor.
Qed.

Lemma status_now_nil quorum ordc :
  (forall m, ordc m ≡ₚ map_to_list m) -> status_now quorum ordc [] = "".
Proof.
  intros Hord. unfold status_now. change (count_all []) with (∅ : gmap string Z).
  specialize (Hord ∅). rewrite map_to_list_empty in Hord. apply Permutation_nil_r in Hord.
  by rewrite Hord.
Qed.

End Quorum.
