(* ===== verification/Http.v ===== *)
(** * The HTTP interface: http.go, and the node around it: stCached.go

    The handlers, each as a function from the server's state, the request and
    the answers of raft to the new state and the response.  Raft's cluster
    configuration is third-party state: a type [R] with its operations.  What
    a handler writes to the log is left out. *)

From Stdlib Require Import Ascii.
From S2P Require Import Prelude GoStd Base Json KVCache Delegate Gossip GossipCache Detector Fsm Quorum.

(** Raft's configuration, as far as the handlers use it. *)
Class RaftConfig (R : Type) : Type := {
  raft_Leader : R -> string;
  raft_AddVoter : R -> string -> R * error;
  raft_RemoveServer : R -> string -> R * error;
  raft_Servers : R -> list string + string
}.

Record response : Type := Response { rs_code : Z; rs_body : string }.

Module Http.

Definition ENABLE_WRITE_TRUE : Z := 1.
Definition ENABLE_WRITE_FALSE : Z := 0.

Definition StatusInternalServerError : Z := 500.

Definition nl : string := String Strings.newline EmptyString.

(** A response with the default code. *)
Definition reply (body : string) : response := Response 200 body.
Definition internal_error : response := reply ("internal error" +:+ nl).
Definition ok : response := reply ("ok" +:+ nl).

(** [json.Marshal] of a slice of strings, and [%v] of one. *)
Fixpoint join (sep : string) (l : list string) : string :=
  match l with
  | [] => ""
  | [x] => x
  | x :: l => x +:+ sep +:+ join sep l
  end.

Definition marshal_strings (l : list string) : string := "[" +:+ join "," (Lit.quote <$> l) +:+ "]".
Definition format_strings (l : list string) : string := "[" +:+ join " " l +:+ "]".

(** [sort.Strings]. *)
Definition sort_strings (l : list string) : list string := merge_sort String.le l.

(** ** Addresses (stCached.go) *)

(** [getIP]: the host parts of the addresses of the form host:port. *)
Fixpoint getIP (nodes : list string) : list string :=
  match nodes with
  | [] => []
  | node :: nodes =>
      match Strings.Split ":"%char node with
      | [ip; _] => ip :: getIP nodes
      | _ => getIP nodes
      end
  end.

Section Handlers.

Context {N R : Type} `{!GossipNode N, !RaftConfig R}.

(** The state the handlers work on: the state machine with the gossip cache and
    the gossip node, the write flag, raft's configuration. *)
Record server : Type := Server {
  h_fsm : Fsm.fsm_state N;
  h_enableWrite : Z;
  h_raft : R
}.

Definition gossip (h : server) : N := GCM.gcm_gnode (Fsm.f_gcm (h_fsm h)).

Definition with_fsm (h : server) (f : Fsm.fsm_state N) : server := Server f (h_enableWrite h) (h_raft h).
Definition with_raft (h : server) (r : R) : server := Server (h_fsm h) (h_enableWrite h) r.
Definition with_gossip (h : server) (n : N) : server :=
  with_fsm h (Fsm.FsmState (Fsm.f_cm (h_fsm h)) (GCM.Gcm (GCM.gcm_data (Fsm.f_gcm (h_fsm h))) n)).

Definition checkWritePermission (h : server) : bool := h_enableWrite h =? ENABLE_WRITE_TRUE.

Definition setWriteFlag (h : server) (flag : bool) : server :=
  Server (h_fsm h) (if flag then ENABLE_WRITE_TRUE else ENABLE_WRITE_FALSE) (h_raft h).

(** [monitorLeadrship] on the notifications received so far. *)
Definition monitorLeadrship (h : server) (leaderNotifyCh : list bool) : server :=
  fold_left (fun h (leader : bool) => if leader then setWriteFlag h true else setWriteFlag h false) leaderNotifyCh h.

(** [vars.Get] of the query: the empty string when the parameter is absent. *)
Definition query : Type := string -> string.

(** [raft.Apply] of an entry, as raft answers it on this node. *)
Definition raft_Apply (h : server) (event : logEntryData) (r : raft_reply) : outcome (server * error) :=
  match r with
  | RaftOk => s ← Fsm.Apply (h_fsm h) (Fsm.marshal_entry event); Ret (with_fsm h s.1, None)
  | RaftErr err true => s ← Fsm.Apply (h_fsm h) (Fsm.marshal_entry event); Ret (with_fsm h s.1, Some err)
  | RaftErr err false => Ret (h, Some err)
  end.

Definition doGet (h : server) (vars : query) : response :=
  let key := vars "key" in
  if decide (key = "") then reply "" else reply (KV.Get (Fsm.f_cm (h_fsm h)) key +:+ nl).

Definition not_allowed (h : server) (what : string) : response :=
  reply (what +:+ " method not allowed, leader is " +:+ raft_Leader (h_raft h) +:+ nl).

Definition doSet (h : server) (vars : query) (r : raft_reply) : outcome (server * response) :=
  if negb (checkWritePermission h) then Ret (h, not_allowed h "write") else
  let key := vars "key" in
  let value := vars "value" in
  if decide (key = "" \/ value = "") then Ret (h, reply ("param error" +:+ nl)) else
  q ← raft_Apply h (Entry CMD_SET key value) r;
  match q.2 with
  | Some _ => Ret (q.1, internal_error)
  | None => Ret (q.1, ok)
  end.

Definition doDel (h : server) (vars : query) (r : raft_reply) : outcome (server * response) :=
  if negb (checkWritePermission h) then Ret (h, not_allowed h "delete") else
  let key := vars "key" in
  if decide (key = "") then Ret (h, reply "") else
  q ← raft_Apply h (Entry CMD_DELETE key "") r;
  match q.2 with
  | Some _ => Ret (q.1, internal_error)
  | None => Ret (q.1, ok)
  end.

Definition doJoin (h : server) (vars : query) : server * response :=
  if negb (checkWritePermission h) then (h, not_allowed h "raft join") else
  let peerAddress := vars "peerAddress" in
  if decide (peerAddress = "") then (h, reply ("invalid peerAddress" +:+ nl)) else
  let '(r, err) := raft_AddVoter (h_raft h) peerAddress in
  (with_raft h r, match err with Some _ => internal_error | None => ok end).

Definition doLeave (h : server) (vars : query) : server * response :=
  if negb (checkWritePermission h) then (h, not_allowed h "raft leave") else
  let peerAddress := vars "peerAddress" in
  if decide (peerAddress = "") then (h, reply ("invalid peerAddress" +:+ nl)) else
  let '(r, err) := raft_RemoveServer (h_raft h) peerAddress in
  (with_raft h r, match err with Some _ => internal_error | None => ok end).

(** [nodes] is the variable of the path. *)
Definition doGossipJoin (h : server) (nodes : string) : server * response :=
  let peers := Strings.Split ","%char nodes in
  let '(g, (n, err)) := Join (gossip h) peers in
  (with_gossip h g,
   match err with
   | Some _ => internal_error
   | None => if negb (n =? Z.of_nat (length peers)) then internal_error else ok
   end).

Definition doGossipLeave (h : server) : server * response :=
  let '(g, err) := Leave (gossip h) (Time.Second * GOSSIP_LEAVE_INTERVAL_IN_SECONDS) in
  (with_gossip h g, match err with Some _ => internal_error | None => ok end).

Definition doStatus (h : server) : response :=
  let '(dataBytes, err) := KV.Marshal (Fsm.f_cm (h_fsm h)) in
  match err with Some _ => internal_error | None => reply dataBytes end.

Definition doStatusForKey (h : server) (key : string) : response :=
  let '(value, err) := KV.GetKey (Fsm.f_cm (h_fsm h)) key in
  match err with
  | Some e => reply e
  | None => reply (Encode.marshal_map (Some {[key := value]}))
  end.

Definition doGossipNodes (h : server) : response := reply (marshal_strings (Members (gossip h))).

Definition doLeader (h : server) : response :=
  let leader := raft_Leader (h_raft h) in
  if decide (leader = "") then Response StatusInternalServerError ("error no leader" +:+ nl)
  else reply (leader +:+ nl).

(** [stCached.Members]: no members when the configuration cannot be read. *)
Definition raft_Members (h : server) : list string :=
  match raft_Servers (h_raft h) with
  | inl servers => servers
  | inr _ => []
  end.

Definition doNodes (h : server) : response := reply (marshal_strings (raft_Members h)).

Definition doMembersConsensus (h : server) : outcome response :=
  let raftMembers := sort_strings (getIP (raft_Members h)) in
  let gossipMembers := sort_strings (getIP (Members (gossip h))) in
  equal ← SliceEqual (Some raftMembers) (Some gossipMembers);
  if negb equal then
    Ret (Response StatusInternalServerError
           ("error raft members " +:+ format_strings raftMembers +:+ " , gossip members "
            +:+ format_strings gossipMembers +:+ " differ" +:+ nl))
  else Ret ok.

(** The first loop of [reJoinGossipNodes]. *)
Fixpoint needToJoin (raftMembers gossipMembers : list string) : list string :=
  match raftMembers with
  | [] => []
  | node :: raftMembers =>
      if Exists gossipMembers node then needToJoin raftMembers gossipMembers
      else node :: needToJoin raftMembers gossipMembers
  end.

Definition reJoinGossipNodes (h : server) : server :=
  let raftMembers := getIP (raft_Members h) in
  let gossipMembers := getIP (Members (gossip h)) in
  fold_left (fun h node => with_gossip h (Join (gossip h) [node]).1) (needToJoin raftMembers gossipMembers) h.

End Handlers.

Arguments server : clear implicits.

(** ** Lemmas *)

Section Facts.

Context {N R : Type} `{!GossipNode N, !RaftConfig R}.

Implicit Types (h : server N R).

Definition allocated h (d : gmap string string) : Prop := KV.repr (Fsm.f_cm (h_fsm h)) d.

(** Raft's answer and what it left: the entry was applied or not. *)
Definition applied (r : raft_reply) : bool :=
  match r with RaftOk => true | RaftErr _ b => b end.

Definition reply_error (r : raft_reply) : error :=
  match r with RaftOk => None | RaftErr err _ => Some err end.

Lemma raft_Apply_spec h d e r :
  allocated h d -> Fsm.entry_clean e ->
  exists h', raft_Apply h e r = Ret (h', reply_error r) /\
    h_enableWrite h' = h_enableWrite h /\ h_raft h' = h_raft h /\
    allocated h' (if applied r then default d (KV.spec_step d <$> Fsm.kv_op e) else d).
Proof.
  intros Hd He. destruct (Fsm.committed_spec (h_fsm h) d e Hd He) as (f' & Hf' & Hd' & _).
  cbn [Fsm.run_event] in Hf'. apply bind_Ret_inv in Hf' as (p & Hp & [= <-]).
  destruct r as [|err [|]]; cbn [raft_Apply applied reply_error]; rewrite ?Hp; cbn [mbind outcome_bind];
    eexists; split_and!; done.
Qed.

Lemma doSet_spec h d vars r :
  allocated h d -> checkWritePermission h = true -> vars "key" <> "" -> vars "value" <> "" ->
  Utf8.valid (vars "key") = true -> Utf8.valid (vars "value") = true ->
  exists h', doSet h vars r = Ret (h', match r with RaftOk => ok | RaftErr _ _ => internal_error end) /\
    checkWritePermission h' = true /\
    allocated h' (if applied r then <[vars "key" := vars "value"]> d else d).
Proof.
  intros Hd Hp Hk Hv Hku Hvu. unfold doSet. rewrite Hp. cbn [negb]. rewrite decide_False by tauto.
  destruct (raft_Apply_spec h d (Entry CMD_SET (vars "key") (vars "value")) r Hd) as (h' & -> & Hw & _ & Hd').
  { by split_and!. }
  cbn [mbind outcome_bind fst snd]. exists h'. split_and!; [by destruct r| |exact Hd'].
  unfold checkWritePermission in *. by rewrite Hw.
Qed.

Lemma doDel_spec h d vars :
  allocated h d -> checkWritePermission h = true -> vars "key" <> "" -> Utf8.valid (vars "key") = true ->
  exists h', doDel h vars RaftOk = Ret (h', ok) /\ checkWritePermission h' = true /\
    allocated h' (delete (vars "key") d).
Proof.
  intros Hd Hp Hk Hku. unfold doDel. rewrite Hp. cbn [negb]. rewrite decide_False by done.
  destruct (raft_Apply_spec h d (Entry CMD_DELETE (vars "key") "") RaftOk Hd) as (h' & -> & Hw & _ & Hd').
  { by split_and!. }
  exists h'. split_and!; [done| |exact Hd']. unfold checkWritePermission in *. by rewrite Hw.
Qed.

Lemma needToJoin_filter l1 l2 : needToJoin l1 l2 = filter (fun node => node ∉ l2) l1.
Proof.
  induction l1 as [|x l1 IH]; [done|]. cbn [needToJoin]. rewrite filter_cons.
  destruct (Exists l2 x) eqn:He.
  - apply Exists_elem in He. by rewrite decide_False by auto.
  - apply Exists_not_elem in He. by rewrite decide_True, IH.
Qed.

(** Joining nodes one by one only touches the gossip node. *)
Lemma join_all l : forall h,
  let h' := fold_left (fun h node => with_gossip h (Join (gossip h) [node]).1) l h in
  gossip h' = fold_left (fun n ip => (Join n [ip]).1) l (gossip h) /\
  Fsm.f_cm (h_fsm h') = Fsm.f_cm (h_fsm h).
Proof.
  induction l as [|ip l IH]; intros h; [done|]. cbn [fold_left].
  destruct (IH (with_gossip h (Join (gossip h) [ip]).1)) as [-> ->]. done.
Qed.

Lemma sort_strings_perm l : sort_strings l ≡ₚ l.
Proof. apply merge_sort_Permutation. Qed.

(** Sorted, two lists are equal exactly when they have the same elements. *)
Lemma sort_strings_eq l1 l2 : sort_strings l1 = sort_strings l2 <-> l1 ≡ₚ l2.
Proof.
  split.
  - intros H. by rewrite <- (sort_strings_perm l1), H, sort_strings_perm.
  - intros H. apply (StronglySorted_unique String.le); [apply StronglySorted_merge_sort; apply _..|].
    by rewrite !sort_strings_perm.
Qed.

End Facts.

End Http.

(** ** Properties *)

(** A fixed cluster to run the handlers on: the addresses of the servers. *)
#[global] Instance static_RaftConfig : RaftConfig (list string) := {
  raft_Leader servers := default ""%string (head servers);
  raft_AddVoter servers peer := (servers ++ [peer], None);
  raft_RemoveServer servers peer := (filter (fun s => s <> peer) servers, None);
  raft_Servers servers := inl servers
}.

Definition demo_server (flag : Z) : Http.server GNode.static_node (list string) :=
  Http.Server demo_node flag ["10.0.0.1:7000"; "10.0.0.2:7000"].

Definition demo_query (key value : string) : Http.query :=
  fun name => if decide (name = "key") then key else if decide (name = "value") then value else "".

(** A client reads its writes: on the leader, when raft commits, [doSet]
    answers ok and [doGet] then returns the value for the key and what it
    returned before for every other key; when raft reports an error the answer
    is an internal error, whether or not the entry was applied. *)
Theorem http_set_then_get {N R} `{!GossipNode N, !RaftConfig R} (h : Http.server N R) d vars r :
  Http.allocated h d -> Http.checkWritePermission h = true -> vars "key" <> "" -> vars "value" <> "" ->
  Utf8.valid (vars "key") = true -> Utf8.valid (vars "value") = true ->
  exists h', Http.doSet h vars r =
      Ret (h', match r with RaftOk => Http.ok | RaftErr _ _ => Http.internal_error end) /\
    Http.checkWritePermission h' = true /\
    forall q, q "key" <> "" ->
      Http.doGet h' q = if decide (Http.applied r = true /\ q "key" = vars "key")
                        then Http.reply (vars "value" +:+ Http.nl) else Http.doGet h q.
Proof.
  intros Hd Hp Hk Hv Hku Hvu. destruct (Http.doSet_spec h d vars r) as (h' & Hset & Hw & Hd'); [done..|].
  exists h'. split_and!; [done|done|]. intros q Hq. unfold Http.doGet. rewrite !(decide_False (P := q "key" = "")) by done.
  rewrite (KV.Get_repr _ _ _ Hd), (KV.Get_repr _ _ _ Hd').
  destruct (Http.applied r); [|by rewrite decide_False by naive_solver].
  rewrite lookup_insert. repeat case_decide; cbn; naive_solver.
Qed.

Lemma http_set_then_get_witness :
  exists h', Http.doSet (demo_server 1) (demo_query "db" "10.0.0.9") RaftOk = Ret (h', Http.ok) /\
    Http.checkWritePermission h' = true /\
    forall q, q "key" <> "" ->
      Http.doGet h' q = if decide (Http.applied RaftOk = true /\ q "key" = "db")
                        then Http.reply ("10.0.0.9" +:+ Http.nl) else Http.doGet (demo_server 1) q.
Proof. apply (http_set_then_get (demo_server 1) ∅ (demo_query "db" "10.0.0.9") RaftOk); done. Defined.

(** C23: only the leader writes: the write flag is what the last leadership
    notification said; without it every writing handler leaves the server as it
    is and names the leader; with it a request without its parameters (key or
    value of [doSet], key of [doDel], address of [doJoin] and [doLeave]) reaches
    neither raft nor the table and gets the answer for missing parameters. *)
Theorem http_follower_refuses {N R} `{!GossipNode N, !RaftConfig R} (h : Http.server N R) vars r notes b :
  (let f := Http.monitorLeadrship h (notes ++ [b]) in
   Http.checkWritePermission f = b /\ Http.h_fsm f = Http.h_fsm h /\ Http.h_raft f = Http.h_raft h) /\
  (let f := Http.monitorLeadrship h (notes ++ [false]) in
   Http.doSet f vars r = Ret (f, Http.not_allowed f "write") /\
   Http.doDel f vars r = Ret (f, Http.not_allowed f "delete") /\
   Http.doJoin f vars = (f, Http.not_allowed f "raft join") /\
   Http.doLeave f vars = (f, Http.not_allowed f "raft leave")) /\
  (let l := Http.monitorLeadrship h (notes ++ [true]) in
   (vars "key" = "" \/ vars "value" = "" -> Http.doSet l vars r = Ret (l, Http.reply ("param error" +:+ Http.nl))) /\
   (vars "key" = "" -> Http.doDel l vars r = Ret (l, Http.reply "")) /\
   (vars "peerAddress" = "" ->
    Http.doJoin l vars = (l, Http.reply ("invalid peerAddress" +:+ Http.nl)) /\
    Http.doLeave l vars = (l, Http.reply ("invalid peerAddress" +:+ Http.nl)))).
Proof.
  assert (Hmon : forall b', Http.monitorLeadrship h (notes ++ [b']) =
    Http.setWriteFlag (Http.monitorLeadrship h notes) b').
  { intros b'. unfold Http.monitorLeadrship. rewrite fold_left_app. by destruct b'. }
  assert (Hkeep : forall l (h0 : Http.server N R), Http.h_fsm (Http.monitorLeadrship h0 l) = Http.h_fsm h0 /\
    Http.h_raft (Http.monitorLeadrship h0 l) = Http.h_raft h0).
  { induction l as [|x l IH]; intros h0; [done|].
    destruct x; [apply (IH (Http.setWriteFlag h0 true)) | apply (IH (Http.setWriteFlag h0 false))]. }
  split; [|split]; cbn zeta; rewrite !Hmon.
  - destruct (Hkeep notes h) as [H1 H2]. split_and!; [by destruct b|done|done].
  - done.
  - unfold Http.doSet, Http.doDel, Http.doJoin, Http.doLeave. cbn [Http.checkWritePermission Http.setWriteFlag].
    split_and!; intros Hk; rewrite !decide_True by done; done.
Qed.

(** [doDel] removes the key: on the leader, when raft commits, a later
    [doGet] of the key returns the empty value, and other keys keep theirs. *)
Theorem http_del_then_get {N R} `{!GossipNode N, !RaftConfig R} (h : Http.server N R) d vars :
  Http.allocated h d -> Http.checkWritePermission h = true -> vars "key" <> "" ->
  Utf8.valid (vars "key") = true ->
  exists h', Http.doDel h vars RaftOk = Ret (h', Http.ok) /\
    forall q, q "key" <> "" ->
      Http.doGet h' q = if decide (q "key" = vars "key") then Http.reply Http.nl else Http.doGet h q.
Proof.
  intros Hd Hp Hk Hku. destruct (Http.doDel_spec h d vars) as (h' & Hdel & _ & Hd'); [done..|].
  exists h'. split; [done|]. intros q Hq. unfold Http.doGet. rewrite !(decide_False (P := q "key" = "")) by done.
  rewrite (KV.Get_repr _ _ _ Hd), (KV.Get_repr _ _ _ Hd'), lookup_delete. repeat case_decide; cbn; naive_solver.
Qed.

Lemma http_del_then_get_witness :
  exists h', Http.doDel (demo_server 1) (demo_query "db" "") RaftOk = Ret (h', Http.ok) /\
    forall q, q "key" <> "" ->
      Http.doGet h' q = if decide (q "key" = "db") then Http.reply Http.nl else Http.doGet (demo_server 1) q.
Proof. apply (http_del_then_get (demo_server 1) ∅ (demo_query "db" "")); done. Defined.

(** A key that is not UTF-8: the byte 255. *)
Definition raw_key : string := String "255"%char EmptyString.

(** A key that is not UTF-8 is acknowledged and not found: the entry is
    marshalled as JSON, which replaces the bytes, so the value lands under
    another key on every node. *)
Theorem http_set_raw_key_lost :
  exists h', Http.doSet (demo_server 1) (demo_query raw_key "v") RaftOk = Ret (h', Http.ok) /\
    Http.doGet h' (demo_query raw_key "") = Http.reply Http.nl /\
    Http.doGet h' (demo_query Utf8.replacement "") = Http.reply ("v" +:+ Http.nl).
Proof. eexists. split_and!; vm_compute; reflexivity. Qed.

(** C30: [doMembersConsensus] compares the clusters: it never panics, and answers
    ok exactly when the hosts of the raft servers and of the gossip members
    are the same, with the same number of nodes on each. *)
Theorem members_consensus_correct {N R} `{!GossipNode N, !RaftConfig R} (h : Http.server N R) :
  exists rs, Http.doMembersConsensus h = Ret rs /\
    (rs = Http.ok <-> Http.getIP (Http.raft_Members h) ≡ₚ Http.getIP (Members (Http.gossip h))).
Proof.
  unfold Http.doMembersConsensus. rewrite SliceEqual_spec. cbn [mbind outcome_bind].
  case_bool_decide as Heq; cbn [negb]; eexists; (split; [done|]); rewrite <- Http.sort_strings_eq.
  - split; [naive_solver|done].
  - split; [discriminate|]. intros Hs. destruct Heq. by rewrite Hs.
Qed.

(** [reJoinGossipNodes] joins exactly the raft hosts that are not gossip
    hosts, one by one in raft's order, and does nothing when every raft host
    already gossips. *)
Theorem rejoin_missing {N R} `{!GossipNode N, !RaftConfig R} (h : Http.server N R) :
  let raft_ips := Http.getIP (Http.raft_Members h) in
  let gossip_ips := Http.getIP (Members (Http.gossip h)) in
  let joins := filter (fun ip => ip ∉ gossip_ips) raft_ips in
  Http.gossip (Http.reJoinGossipNodes h) = fold_left (fun n ip => (Join n [ip]).1) joins (Http.gossip h) /\
  Fsm.f_cm (Http.h_fsm (Http.reJoinGossipNodes h)) = Fsm.f_cm (Http.h_fsm h) /\
  (raft_ips ⊆ gossip_ips -> joins = []).
Proof.
  intros raft_ips gossip_ips joins. unfold Http.reJoinGossipNodes. rewrite Http.needToJoin_filter.
  fold raft_ips gossip_ips joins.
  destruct (Http.join_all joins h) as [-> ->]. split_and!; [done|done|].
  intros Hsub. apply filter_none. intros ip Hin Hn. by apply Hn, Hsub.
Qed.
