(* ===== verification/Views.v ===== *)
(** * The status pages with times: http.go and commonDetector.go

    [doGossipStatus], [doGossipStatusForKey], [doDetectorData] and
    [doDetectorDataForKey] print the gossip cache and the detector's windows
    as JSON.  [zone] is the offset of the local zone at an instant. *)

From S2P Require Import Prelude GoStd Calendar Json JsonTree Delegate Gossip GossipCache Detector Fsm Quorum Http.

Module Views.

Section Pages.

Context (zone : Time.t -> Z).

(** The zero [time.Time] is in UTC; every other instant of the service comes
    from [time.Unix] or [time.Now], in local time. *)
Definition offset (t : Time.t) : Z := if decide (t = Time.zero) then 0 else zone t.

Definition json_time (t : Time.t) : option json := JStr <$> Calendar.MarshalJSON (offset t) t.

(** [time.Unix(...).Format("2006-01-02 15:04:05")]. *)
Definition format (t : Time.t) : string := Calendar.Format (zone t) t.

Definition json_report (r : GCM.tempGossipStatusAndTimeStamp) : json :=
  JObj [("GossipStatus", JStr (GCM.t_status r)); ("TimeStamp", JStr (GCM.t_time r))].

Definition json_consensus (v : GCM.tempGossipConsensus) : option json :=
  eventTime ← json_time (GCM.t_prevEventTime v);
  emptyTime ← json_time (GCM.t_emptyTime v);
  Some (JObj [("PrevEventTime", eventTime); ("PrevConsensus", JStr (GCM.t_prevConsensus v));
              ("Empty", JBool (GCM.t_empty v)); ("EmptyTime", emptyTime);
              ("Consensus", JObj (map (fun kv => (kv.1, json_report kv.2)) (JsonTree.items (GCM.t_consensus v))))]).

Definition json_sample (s : StatusAndTime) : option json :=
  t ← json_time (sa_Time s); Some (JObj [("Status", JStr (sa_Status s)); ("Time", t)]).

Definition json_window (l : list StatusAndTime) : option json := JArr <$> mapM json_sample l.

(** [json.Marshal] of a map: an error in a value is an error of the whole. *)
Definition json_map {A : Type} (f : A -> option json) (m : gmap string A) : option json :=
  JObj <$> mapM (fun kv => pair kv.1 <$> f kv.2) (JsonTree.items m).

Definition page (j : option json) : response :=
  match j with
  | Some j => Http.reply (JsonTree.render j)
  | None => Http.internal_error
  end.

Section Handlers.

Context {N R : Type} `{!GossipNode N, !RaftConfig R}.

Definition doGossipStatus (h : Http.server N R) : response :=
  page (json_map json_consensus (GCM.Marshal_table format (Fsm.f_gcm (Http.h_fsm h)))).

Definition doGossipStatusForKey (h : Http.server N R) (key : string) : response :=
  let '(value, err) := GCM.GetKey format (Fsm.f_gcm (Http.h_fsm h)) key in
  match err with
  | Some e => Http.reply e
  | None => page (json_map json_consensus {[key := value]})
  end.

End Handlers.

Definition doDetectorData (d : Detector) : response := page (json_map json_window (Detector.Clone d)).

Definition doDetectorDataForKey (d : Detector) (key : string) : response :=
  let '(data, err) := Detector.Get d key in
  match err with
  | Some e => Http.reply e
  | None => page (json_map json_window {[key := data]})
  end.

End Pages.

(** ** Lemmas *)

Section Facts.

Context (zone : Time.t -> Z).

(** The zones of the model: whole minutes, less than a hundred hours. *)
Definition good_zone : Prop := forall t, Calendar.good_offset (zone t).

(** The instants the service stores. *)
Definition stored_time (t : Time.t) : Prop := t = Time.zero \/ in_int64 t.

Lemma json_time_ok t : good_zone -> stored_time t ->
  exists s, json_time zone t = Some (JStr s) /\ s = Calendar.RFC3339Nano (offset zone t) t /\
    Calendar.parse_rfc3339 s = Some t.
Proof.
  intros Hz Ht. unfold json_time.
  assert (Hm : exists s, Calendar.MarshalJSON (offset zone t) t = Some s).
  { unfold offset. case_decide as Hd; [subst t; eexists; apply Calendar.MarshalJSON_zero|].
    apply Calendar.MarshalJSON_stamp; [apply Hz|]. by destruct Ht. }
  destruct Hm as [s Hs]. exists s. rewrite Hs. split_and!; [done|exact (Calendar.MarshalJSON_text _ _ _ Hs)|].
  eapply Calendar.parse_MarshalJSON; [|exact Hs]. unfold offset. case_decide; [by exists 0|apply Hz].
Qed.

(** A map all of whose values can be written. *)
Lemma json_map_ok {A : Type} (f : A -> option json) (g : A -> json) (m : gmap string A) :
  map_Forall (fun _ v => f v = Some (g v)) m ->
  json_map f m = Some (JObj (map (fun kv => (kv.1, g kv.2)) (JsonTree.items m))).
Proof.
  intros Hm. unfold json_map. cut (mapM (fun kv => pair kv.1 <$> f kv.2) (JsonTree.items m) =
    Some (map (fun kv => (kv.1, g kv.2)) (JsonTree.items m))); [by intros -> |].
  apply mapM_Some. apply Forall2_fmap_r, Forall_Forall2_diag, Forall_forall.
  intros [k v] Hkv. rewrite JsonTree.items_perm, elem_of_map_to_list in Hkv. cbn. by rewrite (Hm _ _ Hkv).
Qed.

(** The page of a map whose values can be written and show what they should. *)
Lemma page_of_map {A : Type} (f : A -> option json) (sh : A -> json -> Prop) (m : gmap string A) :
  map_Forall (fun key v => Utf8.valid key = true /\
    exists e, f v = Some e /\ JsonTree.numberless e = true /\ sh v (JsonTree.coerced e)) m ->
  exists j, json_map f m = Some j /\ Parse.parse_document (JsonTree.render j) = Some (JsonTree.coerced j) /\
    forall key, match m !! key with
                | Some v => exists e, JsonTree.field key (JsonTree.coerced j) = Some e /\ sh v e
                | None => JsonTree.field key (JsonTree.coerced j) = None
                end.
Proof.
  intros Hm. set (g := fun v => default JNull (f v)).
  assert (Hg : map_Forall (fun _ v => f v = Some (g v) /\ JsonTree.numberless (g v) = true /\ sh v (JsonTree.coerced (g v))) m).
  { intros k v Hk. destruct (Hm _ _ Hk) as (_ & e & He & Hn & Hs). unfold g. by rewrite He. }
  rewrite (json_map_ok f g) by (intros k v Hk; apply (Hg _ _ Hk)). eexists. split; [reflexivity|]. split.
  - apply JsonTree.parse_document_render. cbn [JsonTree.numberless]. apply forallb_forall.
    intros x ((k & v) & <- & Hin)%in_map_iff. apply list_elem_of_In in Hin.
    rewrite JsonTree.items_perm, elem_of_map_to_list in Hin. apply (Hg _ _ Hin).
  - intros key. rewrite JsonTree.field_items by (intros k v Hk; apply (Hm _ _ Hk)).
    destruct (m !! key) as [v|] eqn:Hk; [|reflexivity]. eexists. split; [reflexivity|]. apply (Hg _ _ Hk).
Qed.

(** ** Lemmas: texts are ASCII *)

Lemma ascii_app a b : ascii_str (a +:+ b) = ascii_str a && ascii_str b.
Proof. induction a as [|c a IH]; [done|]. cbn. by rewrite IH, andb_assoc. Qed.

Lemma digit_ascii n : Utf8.is_ascii (Strconv.digit (n mod 10)) = true.
Proof.
  pose proof (Z.mod_pos_bound n 10). pattern (Strconv.digit (n mod 10)).
  apply digit_cases; try done. lia.
Qed.

Lemma pad_ascii w : forall n, ascii_str (Calendar.pad w n) = true.
Proof. induction w as [|w IH]; intros n; [done|]. cbn [Calendar.pad]. by rewrite ascii_app, IH; cbn; rewrite digit_ascii. Qed.

Lemma trim_ascii t : ascii_str t = true -> ascii_str (Calendar.trim_zeros t) = true.
Proof.
  induction t as [|c t IH]; [done|]. cbn [ascii_str Calendar.trim_zeros]. intros [Hc Ht]%andb_true_iff.
  specialize (IH Ht). destruct (Calendar.trim_zeros t); [case_decide; [done|]; cbn; by rewrite Hc|].
  cbn [ascii_str] in *. by rewrite Hc.
Qed.

Lemma date_ascii off t : ascii_str (Calendar.format_date (Calendar.wall_date off t)) = true.
Proof. unfold Calendar.format_date. destruct (Calendar.wall_date off t) as [[y m] d]. by rewrite !ascii_app, !pad_ascii. Qed.

Lemma clock_ascii n : ascii_str (Calendar.format_clock n) = true.
Proof. unfold Calendar.format_clock. by rewrite !ascii_app, !pad_ascii. Qed.

Lemma Format_ascii off t : ascii_str (Calendar.Format off t) = true.
Proof. unfold Calendar.Format. by rewrite !ascii_app, date_ascii, clock_ascii. Qed.

Lemma RFC3339Nano_ascii off t : ascii_str (Calendar.RFC3339Nano off t) = true.
Proof.
  unfold Calendar.RFC3339Nano. rewrite !ascii_app, date_ascii, clock_ascii. cbn [andb ascii_str].
  assert (Hn : ascii_str (Calendar.formatNano (t mod Time.Second)) = true).
  { unfold Calendar.formatNano. pose proof (trim_ascii _ (pad_ascii 9 (t mod Time.Second))).
    by destruct (Calendar.trim_zeros (Calendar.pad 9 (t mod Time.Second))). }
  rewrite Hn. unfold Calendar.format_zone. case_match; [done|]. rewrite !ascii_app, !pad_ascii. by case_match.
Qed.

(** The text of an instant survives the trip through JSON. *)
Lemma json_time_read t : good_zone -> stored_time t ->
  exists s, json_time zone t = Some (JStr s) /\ Utf8.coerce s = s /\ Calendar.parse_rfc3339 s = Some t.
Proof.
  intros Hz Ht. destruct (json_time_ok t Hz Ht) as (s & Hj & Hs & Hp). exists s. split; [exact Hj|]. split; [|exact Hp].
  apply coerce_valid, ascii_valid. rewrite Hs. apply RFC3339Nano_ascii.
Qed.

(** ** Lemmas: the gossip page *)

Definition entry_ok (v : gossipConsensus) : Prop :=
  stored_time (prevEventTime v) /\ stored_time (emptyTime v) /\ Utf8.valid (prevConsensus v) = true /\
  map_Forall (fun node r => Utf8.valid node = true /\ Utf8.valid (r_status r) = true) (gm_tab (consensus v)).

Definition time_of (o : option json) : option Time.t :=
  j ← o; s ← JsonTree.text j; Calendar.parse_rfc3339 s.

(** [e] shows the entry [v]: instants as RFC 3339, the reports by node. *)
Definition shows (v : gossipConsensus) (e : json) : Prop :=
  time_of (JsonTree.field "PrevEventTime" e) = Some (prevEventTime v) /\
  JsonTree.field "PrevConsensus" e = Some (JStr (prevConsensus v)) /\
  JsonTree.field "Empty" e = Some (JBool (empty v)) /\
  time_of (JsonTree.field "EmptyTime" e) = Some (emptyTime v) /\
  exists reports, JsonTree.field "Consensus" e = Some reports /\
    forall node, JsonTree.field node reports =
      (fun r => JObj [("GossipStatus", JStr (r_status r)); ("TimeStamp", JStr (format zone (r_timeStamp r)))])
        <$> gm_get (consensus v) node.

Lemma export_consensus v :
  GCM.t_consensus (GCM.export_entry (format zone) v) =
  (fun r => GCM.TempReport (r_status r) (format zone (r_timeStamp r))) <$> gm_tab (consensus v).
Proof.
  unfold GCM.export_entry. cbn [GCM.t_consensus].
  rewrite <- (fold_insert_range _ (gm_items (consensus v)) (consensus v)) by apply gm_items_range.
  generalize (∅ : gmap string GCM.tempGossipStatusAndTimeStamp). induction (gm_items (consensus v)) as [|[k r] l IH];
    intros m; [done|]. cbn [fold_left fst snd]. rewrite of_stamp_id. apply IH.
Qed.

Lemma json_consensus_shows v : good_zone -> entry_ok v ->
  exists e, json_consensus zone (GCM.export_entry (format zone) v) = Some e /\ JsonTree.numberless e = true /\
    shows v (JsonTree.coerced e).
Proof.
  intros Hz (Ht1 & Ht2 & Hc & Hr). unfold json_consensus. cbn [GCM.export_entry GCM.t_prevEventTime GCM.t_emptyTime GCM.t_prevConsensus GCM.t_empty].
  destruct (json_time_read (prevEventTime v) Hz Ht1) as (s1 & -> & Hs1 & Hp1).
  destruct (json_time_read (emptyTime v) Hz Ht2) as (s2 & -> & Hs2 & Hp2). cbn [mbind option_bind].
  rewrite export_consensus. eexists. split; [done|]. set (reports := JsonTree.items _). split.
  { cbn [JsonTree.numberless forallb snd andb]. rewrite andb_true_r. by apply (JsonTree.numberless_map json_report). }
  set (J := map _ reports). change (JsonTree.coerced (JObj [("PrevEventTime", JStr s1); ("PrevConsensus", JStr (prevConsensus v));
      ("Empty", JBool (empty v)); ("EmptyTime", JStr s2); ("Consensus", JObj J)])) with
    (JObj [("PrevEventTime", JStr (Utf8.coerce s1)); ("PrevConsensus", JStr (Utf8.coerce (prevConsensus v)));
      ("Empty", JBool (empty v)); ("EmptyTime", JStr (Utf8.coerce s2)); ("Consensus", JsonTree.coerced (JObj J))]).
  rewrite Hs1, Hs2, (coerce_valid _ Hc). unfold shows. split_and!; [JsonTree.find_field; done..|].
  eexists. split; [by JsonTree.find_field|]. intros node. subst J reports.
  rewrite JsonTree.field_items.
  - rewrite lookup_fmap, <- option_fmap_compose, gm_get_tab. destruct (gm_tab (consensus v) !! node) as [r|] eqn:Hn; [|done].
    destruct (Hr _ _ Hn) as [_ Hst].
    transitivity (Some (JObj [("GossipStatus", JStr (Utf8.coerce (r_status r)));
      ("TimeStamp", JStr (Utf8.coerce (format zone (r_timeStamp r))))])); [done|].
    by rewrite (coerce_valid _ Hst), (coerce_valid (format zone _)) by apply ascii_valid, Format_ascii.
  - apply map_Forall_fmap. intros n r Hn. by destruct (Hr _ _ Hn).
Qed.

Definition cache_ok (m : gmap string gossipConsensus) : Prop :=
  map_Forall (fun key v => Utf8.valid key = true /\ entry_ok v) m.

(** A page made of entries of the cache. *)
Lemma page_of_entries (m : gmap string gossipConsensus) :
  good_zone -> cache_ok m ->
  exists j, json_map (json_consensus zone) (GCM.export_entry (format zone) <$> m) = Some j /\
    Parse.parse_document (JsonTree.render j) = Some (JsonTree.coerced j) /\
    forall key, match m !! key with
                | Some v => exists e, JsonTree.field key (JsonTree.coerced j) = Some e /\ shows v e
                | None => JsonTree.field key (JsonTree.coerced j) = None
                end.
Proof.
  intros Hz Hm. set (export := GCM.export_entry (format zone)).
  destruct (page_of_map (json_consensus zone) (fun w e => forall v, w = export v -> entry_ok v -> shows v e)
    (export <$> m)) as (j & Hj & Hp & Hf).
  - apply map_Forall_fmap. intros k v Hk. destruct (Hm _ _ Hk) as [Hu Hv]. split; [exact Hu|].
    destruct (json_consensus_shows v Hz Hv) as (e & He & Hn & _). exists e. split; [exact He|]. split; [exact Hn|].
    intros v' Heq Hv'. destruct (json_consensus_shows v' Hz Hv') as (e' & He' & _ & Hs').
    unfold export in Heq. rewrite <- Heq, He in He'. by apply (inj Some) in He' as ->.
  - exists j. split; [exact Hj|]. split; [exact Hp|]. intros key. specialize (Hf key). rewrite lookup_fmap in Hf.
    destruct (m !! key) as [v|] eqn:Hk; [|exact Hf]. destruct Hf as (e & He & Hs). exists e. split; [exact He|].
    apply Hs; [done|]. by apply (Hm key).
Qed.

Lemma Marshal_table_fmap {N : Type} (c : GCM.gossipCacheManager N) :
  GCM.Marshal_table (format zone) c = GCM.export_entry (format zone) <$> GCM.gcm_data c.
Proof. exact (fold_insert_range _ _ (Some (GCM.gcm_data c)) (gm_items_range (Some (GCM.gcm_data c)))). Qed.

(** ** Lemmas: the detector page *)

Definition sample_ok (s : StatusAndTime) : Prop := stored_time (sa_Time s) /\ Utf8.valid (sa_Status s) = true.

Definition windows_ok (d : Detector) : Prop :=
  map_Forall (fun key w => Utf8.valid key = true /\ Forall sample_ok (w_data w)) (d_w d).

Definition shows_sample (s : StatusAndTime) (e : json) : Prop :=
  JsonTree.field "Status" e = Some (JStr (sa_Status s)) /\ time_of (JsonTree.field "Time" e) = Some (sa_Time s).

(** The slots of the ring buffer, in the order of the slice. *)
Definition shows_window (data : list StatusAndTime) (e : json) : Prop :=
  exists l, e = JArr l /\ Forall2 shows_sample data l.

Lemma json_window_shows data : good_zone -> Forall sample_ok data ->
  exists e, json_window zone data = Some e /\ JsonTree.numberless e = true /\ shows_window data (JsonTree.coerced e).
Proof.
  intros Hz Hd. cut (exists l, mapM (json_sample zone) data = Some l /\ forallb JsonTree.numberless l = true /\
    Forall2 shows_sample data (map JsonTree.coerced l)).
  { intros (l & Hl & Hn & Hs). exists (JArr l). unfold json_window. rewrite Hl. split; [done|]. split; [exact Hn|].
    eexists. split; [reflexivity|exact Hs]. }
  induction Hd as [|s data [Ht Hv] Hd (l & Hl & Hn & Hs)]; [by exists []|].
  destruct (json_time_read (sa_Time s) Hz Ht) as (t & Hj & Hc & Hp). exists (JObj [("Status", JStr (sa_Status s)); ("Time", JStr t)] :: l).
  split; [change (mapM (json_sample zone) (s :: data)) with (e ← json_sample zone s; l ← mapM (json_sample zone) data; Some (e :: l));
    rewrite Hl; unfold json_sample; by rewrite Hj|].
  split; [exact Hn|]. constructor; [|exact Hs].
  change (JsonTree.coerced (JObj [("Status", JStr (sa_Status s)); ("Time", JStr t)])) with
    (JObj [("Status", JStr (Utf8.coerce (sa_Status s))); ("Time", JStr (Utf8.coerce t))]).
  rewrite Hc, (coerce_valid _ Hv). split; JsonTree.find_field; done.
Qed.

End Facts.

(** ** Properties *)

(** C31: the gossip status page is a JSON document that shows the cache: every
    key with its record, the instants exactly, and the reports by node with
    their status and local time; no other key.  The page of a key shows its
    entry, or says that the key is not found.  No page fails for instants
    that come from 64-bit stamps. *)
Theorem gossip_page_shows_cache {N R} `{!GossipNode N, !RaftConfig R} zone (h : Http.server N R) :
  let data := GCM.gcm_data (Fsm.f_gcm (Http.h_fsm h)) in
  good_zone zone -> cache_ok data ->
  (exists body j, doGossipStatus zone h = Http.reply body /\ Parse.parse_document body = Some j /\
     forall key, match data !! key with
                 | Some v => exists e, JsonTree.field key j = Some e /\ shows zone v e
                 | None => JsonTree.field key j = None
                 end) /\
  (forall key, match data !! key with
               | Some v => exists body j e, doGossipStatusForKey zone h key = Http.reply body /\
                   Parse.parse_document body = Some j /\ JsonTree.field key j = Some e /\ shows zone v e
               | None => doGossipStatusForKey zone h key = Http.reply ("key " +:+ key +:+ " not found")
               end).
Proof.
  intros data Hz Hm. split.
  - destruct (page_of_entries zone data Hz Hm) as (j & Hj & Hp & Hf). exists (JsonTree.render j), (JsonTree.coerced j).
    unfold doGossipStatus. rewrite Marshal_table_fmap. fold data. by rewrite Hj.
  - intros key. unfold doGossipStatusForKey, GCM.GetKey. fold data. destruct (data !! key) as [v|] eqn:Hk; [|done].
    destruct (page_of_entries zone {[key := v]} Hz) as (j & Hj & Hp & Hf).
    { apply map_Forall_singleton. by apply Hm. }
    specialize (Hf key). rewrite lookup_singleton_eq in Hf. destruct Hf as (e & He & Hs).
    rewrite map_fmap_singleton in Hj. exists (JsonTree.render j), (JsonTree.coerced j), e. by rewrite Hj.
Qed.

(** China Standard Time, and a cache with one report. *)
Definition demo_zone (t : Time.t) : Z := 28800.

Definition demo_entry : gossipConsensus :=
  Consensus (Time.Unix 1577836800 5) GOSSIP_UP false Time.zero (Some {["n1:1" := Report GOSSIP_UP 1577836801000000000]}).

Definition demo_page_server : Http.server GNode.static_node (list string) :=
  Http.Server (Fsm.FsmState (Fsm.f_cm demo_node) (GCM.Gcm {["db" := demo_entry]} (GNode.static_start "n1:1" ["n1:1"])))
    1 ["10.0.0.1:7000"].

Lemma demo_zone_good : good_zone demo_zone.
Proof. intros t. exists 480. done. Qed.

Lemma gossip_page_shows_cache_witness :
  exists body j e, doGossipStatusForKey demo_zone demo_page_server "db" = Http.reply body /\
    Parse.parse_document body = Some j /\ JsonTree.field "db" j = Some e /\ shows demo_zone demo_entry e.
Proof.
  refine (proj2 (gossip_page_shows_cache demo_zone demo_page_server demo_zone_good _) "db").
  apply map_Forall_singleton. split; [reflexivity|]. split_and!; [right; done|by left|reflexivity|].
  by apply map_Forall_singleton.
Defined.

(** The detector page is a JSON document that shows every window of the
    detector slot by slot, with the exact instants, and no other key; the page
    of a key shows its window, or says that the key is not found. *)
Theorem detector_page_shows_windows zone (d : Detector) :
  good_zone zone -> windows_ok d ->
  (exists body j, doDetectorData zone d = Http.reply body /\ Parse.parse_document body = Some j /\
     forall key, match d_w d !! key with
                 | Some w => exists e, JsonTree.field key j = Some e /\ shows_window (w_data w) e
                 | None => JsonTree.field key j = None
                 end) /\
  (forall key, match d_w d !! key with
               | Some w => exists body j e, doDetectorDataForKey zone d key = Http.reply body /\
                   Parse.parse_document body = Some j /\ JsonTree.field key j = Some e /\ shows_window (w_data w) e
               | None => doDetectorDataForKey zone d key = Http.reply ("key " +:+ key +:+ " not found")
               end).
Proof.
  intros Hz Hd. split.
  - destruct (page_of_map (json_window zone) shows_window (Detector.Clone d)) as (j & Hj & Hp & Hf).
    { apply map_Forall_fmap. intros k w Hk. destruct (Hd _ _ Hk) as [Hu Hs]. split; [exact Hu|]. by apply json_window_shows. }
    exists (JsonTree.render j), (JsonTree.coerced j). unfold doDetectorData. rewrite Hj. split; [reflexivity|].
    split; [exact Hp|]. intros key. specialize (Hf key). unfold Detector.Clone in Hf. rewrite lookup_fmap in Hf.
    by destruct (d_w d !! key).
  - intros key. unfold doDetectorDataForKey, Detector.Get. destruct (d_w d !! key) as [w|] eqn:Hk; [|reflexivity].
    destruct (page_of_map (json_window zone) shows_window {[key := w_data w]}) as (j & Hj & Hp & Hf).
    { apply map_Forall_singleton. destruct (Hd _ _ Hk) as [Hu Hs]. split; [exact Hu|]. by apply json_window_shows. }
    specialize (Hf key). rewrite lookup_singleton_eq in Hf. destruct Hf as (e & He & Hs).
    exists (JsonTree.render j), (JsonTree.coerced j), e. by rewrite Hj.
Qed.

Definition demo_window : Windowed := Window [Sample "UP" (Time.Unix 1577836800 0); zero_sample] 1 1.

Lemma detector_page_shows_windows_witness :
  let d := MkDetector {["db" := demo_window]} 2 1 in
  exists body j, doDetectorData demo_zone d = Http.reply body /\ Parse.parse_document body = Some j /\
    forall key, match d_w d !! key with
                | Some w => exists e, JsonTree.field key j = Some e /\ shows_window (w_data w) e
                | None => JsonTree.field key j = None
                end.
Proof.
  refine (proj1 (detector_page_shows_windows demo_zone _ demo_zone_good _)).
  apply map_Forall_singleton. split; [reflexivity|].
  repeat (apply Forall_cons; split); [split; [by right|reflexivity]|split; [by left|reflexivity]|by apply Forall_nil].
Defined.

End Views.
