(* ===== verification/Server.v ===== *)
(** * The whole HTTP server: [NewHttpServer] of http.go on gorilla's router

    A request target is parsed, its path cleaned and routed, and the handler
    runs on the node: the state behind the handlers of [Http] and the detector
    behind the pages of [Views].  A handler that panics takes its connection
    with it, not the process: net/http recovers. *)

From Stdlib Require Import Ascii.
From S2P Require Import Prelude GoStd Base Json Url Mux KVCache Delegate Gossip GossipCache Detector Fsm Quorum Http Views.

Module Server.

(** The methods that [NewHttpServer] registers. *)
Inductive handler : Type :=
| doSet | doGet | doDel | doJoin | doLeave | doGossipJoin | doGossipLeave
| doStatus | doStatusForKey | doGossipStatus | doGossipStatusForKey
| doLeader | doMembersConsensus | doGossipNodes | doNodes
| doDetectorData | doDetectorDataForKey.

(** The registrations in order; the detector's pages exist for the common
    verifier. *)
Definition registrations (commonVerifier : bool) : list (string * handler) :=
  [("/set", doSet); ("/get", doGet); ("/del", doDel);
   ("/join", doJoin); ("/leave", doLeave);
   ("/gossipjoin/{nodes}", doGossipJoin); ("/gossipleave", doGossipLeave);
   ("/status", doStatus); ("/status/{key}", doStatusForKey);
   ("/gossipstatus", doGossipStatus); ("/gossipstatus/{key}", doGossipStatusForKey);
   ("/leader", doLeader); ("/membersconsensus", doMembersConsensus);
   ("/gossipnodes", doGossipNodes); ("/raftnodes", doNodes)]
  ++ if commonVerifier then [("/detectordata", doDetectorData); ("/detectordata/{key}", doDetectorDataForKey)] else [].

Definition NewHttpServer (commonVerifier : bool) : Mux.Router handler :=
  fold_left (fun mux r => Mux.HandleFunc mux r.1 r.2) (registrations commonVerifier) Mux.NewRouter.

Section Serving.

Context {N R : Type} `{!GossipNode N, !RaftConfig R}.

(** The node as the handlers see it. *)
Record site : Type := Site { s_server : Http.server N R; s_detector : Detector }.

(** What a request meets: raft's answer, the local zone, the Go release. *)
Record env : Type := Env { e_raft : raft_reply; e_zone : Time.t -> Z; e_semi : bool }.

(** A handler on its state, the query and the variables of the path. *)
Definition run (e : env) (x : site) (f : handler) (rawQuery : string) (vars : gmap string string)
    : outcome (site * response) :=
  let h := s_server x in
  let query := Url.Get (Url.ParseQuery (e_semi e) rawQuery) in
  let var name := default "" (vars !! name) in
  let state (p : Http.server N R * response) := Ret (Site p.1 (s_detector x), p.2) in
  let answer (rs : response) := Ret (x, rs) in
  match f with
  | doSet => p ← Http.doSet h query (e_raft e); state p
  | doGet => answer (Http.doGet h query)
  | doDel => p ← Http.doDel h query (e_raft e); state p
  | doJoin => state (Http.doJoin h query)
  | doLeave => state (Http.doLeave h query)
  | doGossipJoin => state (Http.doGossipJoin h (var "nodes"))
  | doGossipLeave => state (Http.doGossipLeave h)
  | doStatus => answer (Http.doStatus h)
  | doStatusForKey => answer (Http.doStatusForKey h (var "key"))
  | doGossipStatus => answer (Views.doGossipStatus (e_zone e) h)
  | doGossipStatusForKey => answer (Views.doGossipStatusForKey (e_zone e) h (var "key"))
  | doLeader => answer (Http.doLeader h)
  | doMembersConsensus => rs ← Http.doMembersConsensus h; answer rs
  | doGossipNodes => answer (Http.doGossipNodes h)
  | doNodes => answer (Http.doNodes h)
  | doDetectorData => answer (Views.doDetectorData (e_zone e) (s_detector x))
  | doDetectorDataForKey => answer (Views.doDetectorDataForKey (e_zone e) (s_detector x) (var "key"))
  end.

Definition bad_request : response := Response 400 "400 Bad Request".
Definition moved : response := Response 301 "".
Definition not_found : response := Response 404 ("404 page not found" +:+ Http.nl).

(** A request, whatever its method. *)
Definition serve (e : env) (x : site) (target : string) : outcome (site * response) :=
  match Url.parse_target target with
  | None => Ret (x, bad_request)
  | Some (path, rawQuery) =>
      match Mux.ServeHTTP (NewHttpServer true) path with
      | Mux.Redirect _ => Ret (x, moved)
      | Mux.NotFound => Ret (x, not_found)
      | Mux.Handle f vars => run e x f rawQuery vars
      end
  end.

End Serving.

Arguments site : clear implicits.

(** ** The site map

    What the router comes to: one word for a page, a word and a variable for
    the page of a key. *)
Definition pages : list (string * handler) :=
  [("set", doSet); ("get", doGet); ("del", doDel); ("join", doJoin); ("leave", doLeave); ("gossipleave", doGossipLeave);
   ("status", doStatus); ("gossipstatus", doGossipStatus); ("leader", doLeader); ("membersconsensus", doMembersConsensus);
   ("gossipnodes", doGossipNodes); ("raftnodes", doNodes); ("detectordata", doDetectorData)].

Definition key_pages : list (string * (string * handler)) :=
  [("gossipjoin", ("nodes", doGossipJoin)); ("status", ("key", doStatusForKey));
   ("gossipstatus", ("key", doGossipStatusForKey)); ("detectordata", ("key", doDetectorDataForKey))].

Fixpoint assoc {A : Type} (k : string) (l : list (string * A)) : option A :=
  match l with
  | [] => None
  | (k', v) :: l => if decide (k = k') then Some v else assoc k l
  end.

Definition site_map (path : string) : option (handler * gmap string string) :=
  match Strings.Split "/"%char path with
  | [e; a] => if decide (e = "") then (fun f => (f, ∅)) <$> assoc a pages else None
  | [e; a; v] =>
      if decide (e = "" /\ v <> "") then
        (fun p => (p.2, {[p.1 := v]})) <$> assoc a key_pages
      else None
  | _ => None
  end.

(** ** Lemmas: routing *)

(** The shape of a template. *)
Inductive shape : Type := Plain (a : string) | Keyed (a name : string).

Definition shape_tokens (s : shape) : list Mux.token :=
  match s with
  | Plain a => [Mux.TLit (String "/" a)]
  | Keyed a name => [Mux.TLit (String "/" (a +:+ "/")); Mux.TVar name; Mux.TLit ""]
  end.

Definition shape_word (s : shape) : string := match s with Plain a | Keyed a _ => a end.

Definition shapes : list (shape * handler) :=
  [(Plain "set", doSet); (Plain "get", doGet); (Plain "del", doDel); (Plain "join", doJoin); (Plain "leave", doLeave);
   (Keyed "gossipjoin" "nodes", doGossipJoin); (Plain "gossipleave", doGossipLeave);
   (Plain "status", doStatus); (Keyed "status" "key", doStatusForKey);
   (Plain "gossipstatus", doGossipStatus); (Keyed "gossipstatus" "key", doGossipStatusForKey);
   (Plain "leader", doLeader); (Plain "membersconsensus", doMembersConsensus);
   (Plain "gossipnodes", doGossipNodes); (Plain "raftnodes", doNodes);
   (Plain "detectordata", doDetectorData); (Keyed "detectordata" "key", doDetectorDataForKey)].

Lemma router_shapes :
  NewHttpServer true = (fun sf => Mux.MkRoute (Some (shape_tokens sf.1)) sf.2) <$> shapes.
Proof. vm_compute. reflexivity. Qed.

(** The variables a shape takes from the pieces of a path. *)
Definition shape_vars (s : shape) (pieces : list string) : option (gmap string string) :=
  match s, pieces with
  | Plain a, [e; b] => if decide (e = "" /\ b = a) then Some ∅ else None
  | Keyed a name, [e; b; v] => if decide (e = "" /\ b = a /\ v <> "") then Some {[name := v]} else None
  | _, _ => None
  end.

Lemma route_shape {H : Type} s (f : H) path :
  Mux.no_slash (shape_word s) = true ->
  Mux.Route_Match (Mux.MkRoute (Some (shape_tokens s)) f) path = shape_vars s (Strings.Split "/"%char path).
Proof.
  intros Ha. unfold Mux.Route_Match. cbn [Mux.r_regexp mbind option_bind]. destruct s as [a|a name]; cbn [shape_tokens shape_word] in *.
  - rewrite Mux.match_plain by done. cbn [shape_vars]. case_decide as Hs; [rewrite Hs; by rewrite decide_True|].
    destruct (Strings.Split "/"%char path) as [|e [|b [|]]]; try done. case_decide; naive_solver.
  - rewrite Mux.match_keyed by done. cbn [shape_vars].
    destruct (Strings.Split "/"%char path) as [|e [|b [|v [|]]]]; try done. by case_decide.
Qed.

(** The first shape that fits. *)
Fixpoint first_shape (l : list (shape * handler)) (pieces : list string) : option (handler * gmap string string) :=
  match l with
  | [] => None
  | (s, f) :: l =>
      match shape_vars s pieces with
      | Some vars => Some (f, vars)
      | None => first_shape l pieces
      end
  end.

Lemma match_shapes l path :
  Forall (fun sf => Mux.no_slash (shape_word sf.1) = true) l ->
  Mux.Match ((fun sf => Mux.MkRoute (Some (shape_tokens sf.1)) sf.2) <$> l) path =
  first_shape l (Strings.Split "/"%char path).
Proof.
  induction 1 as [|[s f] l Hs Hl IH]; [done|]. cbn [fmap list_fmap Mux.Match first_shape fst snd].
  rewrite route_shape by done. destruct (shape_vars s _); [done|exact IH].
Qed.

Lemma first_shape_pages e a :
  first_shape shapes [e; a] = if decide (e = "") then (fun f => (f, ∅)) <$> assoc a pages else None.
Proof.
  case_decide as He.
  - subst e. unfold shapes, pages. cbn [first_shape shape_vars assoc].
    repeat (case_decide as Hd; [destruct Hd as [_ ->]; reflexivity|];
      rewrite (decide_False (P := a = _)) by (intros ->; by apply Hd); clear Hd). done.
  - unfold shapes. cbn [first_shape shape_vars]. by repeat rewrite decide_False by naive_solver.
Qed.

Lemma first_shape_keys e a v :
  first_shape shapes [e; a; v] =
  if decide (e = "" /\ v <> "") then (fun p => (p.2, {[p.1 := v]})) <$> assoc a key_pages else None.
Proof.
  case_decide as He.
  - destruct He as [-> Hv]. unfold shapes, key_pages. cbn [first_shape shape_vars assoc].
    repeat (case_decide as Hd; [destruct Hd as (_ & -> & _); reflexivity|];
      rewrite (decide_False (P := a = _)) by (intros ->; by apply Hd); clear Hd). done.
  - unfold shapes. cbn [first_shape shape_vars]. by repeat rewrite decide_False by naive_solver.
Qed.

Lemma router_site_map path : Mux.Match (NewHttpServer true) path = site_map path.
Proof.
  rewrite router_shapes, match_shapes by (repeat (apply Forall_cons; split; [reflexivity|]); by apply Forall_nil).
  unfold site_map. destruct (Strings.Split "/"%char path) as [|e [|a [|v [|w l]]]]; [reflexivity..| | |reflexivity].
  - apply first_shape_pages.
  - apply first_shape_keys.
Qed.

(** ** Lemmas: requests *)

Definition page_name_ok (a : string) : bool :=
  Url.all_bytes Url.unreserved a && Mux.no_slash a && negb (bool_decide (a ∈ [""; "."; ".."])).

Lemma pages_ok : Forall (fun p => page_name_ok p.1 = true) pages.
Proof. by repeat (apply Forall_cons; split; [reflexivity|]); apply Forall_nil. Qed.

Lemma key_pages_ok : Forall (fun p => page_name_ok p.1 = true) key_pages.
Proof. by repeat (apply Forall_cons; split; [reflexivity|]); apply Forall_nil. Qed.

Lemma page_name_spec a : page_name_ok a = true -> Url.all_bytes Url.unreserved a = true /\ Mux.good_elem a.
Proof.
  unfold page_name_ok. rewrite !andb_true_iff, negb_true_iff, bool_decide_eq_false.
  intros [[Hu Hn] Hne]. split; [done|]. unfold Mux.good_elem. set_solver.
Qed.

Lemma assoc_pages a f : (a, f) ∈ pages -> assoc a pages = Some f.
Proof. unfold pages. intros H. repeat (apply elem_of_cons in H as [[= -> ->]|H]; [reflexivity|]). by apply elem_of_nil in H. Qed.

Lemma assoc_key_pages a p : (a, p) ∈ key_pages -> assoc a key_pages = Some p.
Proof. unfold key_pages. intros H. repeat (apply elem_of_cons in H as [[= -> ->]|H]; [reflexivity|]). by apply elem_of_nil in H. Qed.

Section Requests.

Context {N R : Type} `{!GossipNode N, !RaftConfig R}.

Implicit Types (x : site N R).

(** A page with its query reaches its handler. *)
Lemma serve_page e x a f q :
  (a, f) ∈ pages -> Url.has_byte Url.is_ctl q = false ->
  serve e x (String "/" a +:+ String "?" q) = run e x f q ∅.
Proof.
  intros Hin Hq. pose proof pages_ok as Hok. rewrite Forall_forall in Hok.
  destruct (page_name_spec a (Hok _ Hin)) as [Hu Hg]. unfold serve. rewrite Url.parse_target_query by done.
  unfold Mux.ServeHTTP. assert (Hr : String "/" a = Mux.rooted [a] false) by (unfold Mux.rooted; cbn; by rewrite app_nil_str).
  rewrite decide_False by (intros Hc; apply Hc; rewrite Hr; apply Mux.cleanPath_rooted; by apply Forall_singleton).
  rewrite router_site_map. unfold site_map. change (Strings.Split "/"%char (String "/" a)) with ("" :: Strings.Split "/"%char a).
  destruct Hg as (_ & _ & _ & Hns). rewrite Url.Split_one by done. rewrite decide_True by done.
  by rewrite (assoc_pages a f Hin).
Qed.

(** The page of a key: reached with the key, or the node is left alone. *)
Lemma serve_key e x a name f k :
  (a, (name, f)) ∈ key_pages ->
  (Mux.good_elem k -> serve e x (String "/" (a +:+ String "/" (Url.PathEscape k))) = run e x f "" {[name := k]}) /\
  (~ Mux.good_elem k -> exists rs, serve e x (String "/" (a +:+ String "/" (Url.PathEscape k))) = Ret (x, rs) /\
     rs_code rs ∈ [301; 404]).
Proof.
  intros Hin. pose proof key_pages_ok as Hok. rewrite Forall_forall in Hok.
  destruct (page_name_spec a (Hok _ Hin)) as [Hu Hg]. unfold serve. rewrite Url.parse_target_key by done.
  unfold Mux.ServeHTTP. rewrite router_site_map. unfold site_map.
  change (Strings.Split "/"%char (String "/" ?t)) with ("" :: Strings.Split "/"%char t).
  destruct Hg as (H1 & H2 & H3 & Hns). rewrite Url.Split_app by done. split.
  - intros Hk. pose proof Hk as (K1 & K2 & K3 & Kns).
    assert (Hr : String "/" (a +:+ String "/" k) = Mux.rooted [a; k] false) by (unfold Mux.rooted; cbn; by rewrite app_nil_str).
    rewrite decide_False by (intros Hc; apply Hc; rewrite Hr; apply Mux.cleanPath_rooted; by repeat (apply Forall_cons; split)).
    rewrite Url.Split_one by done. rewrite decide_True by done. by rewrite (assoc_key_pages _ _ Hin).
  - intros Hk. case_decide as Hc; [exists moved; split; [done|set_solver]|].
    assert (Hnone : forall o, o = None -> exists rs,
      match match o with Some (h, vars) => Mux.Handle h vars | None => Mux.NotFound end with
      | Mux.Redirect _ => Ret (x, moved) | Mux.NotFound => Ret (x, not_found)
      | Mux.Handle f vars => run e x f "" vars end = Ret (x, rs) /\ rs_code rs ∈ [301; 404]).
    { intros o ->. exists not_found. split; [done|set_solver]. }
    apply Hnone. destruct (Strings.Split "/"%char k) as [|v [|v2 l]] eqn:Hs; [by apply Mux.Split_not_nil in Hs| |done].
    apply decide_False. intros [_ Hv]. apply Hk.
    assert (v = k) as ->. { rewrite <- (Mux.join_Split k), Hs. done. }
    pose proof (Mux.Split_pieces k) as Hp. rewrite Hs, Forall_singleton in Hp.
    split_and!; [done| | |done]; intros ->; clear -Hin Hc; unfold key_pages in Hin;
      repeat (apply elem_of_cons in Hin as [[= -> -> ->]|Hin]; [by vm_compute in Hc|]); by apply elem_of_nil in Hin.
Qed.

End Requests.

(** ** Properties *)

(** C19: routing: a path that is not clean is redirected to its clean form, which
    is clean, so a client is redirected at most once; a clean path goes to the
    handler the site map gives for its pieces, with the variable, and any other
    path is not found. *)
Theorem routing_exact path :
  Mux.ServeHTTP (NewHttpServer true) path =
    (if decide (Mux.cleanPath path <> path) then Mux.Redirect (Mux.cleanPath path)
     else match site_map path with
          | Some (f, vars) => Mux.Handle f vars
          | None => Mux.NotFound
          end) /\
  Mux.cleanPath (Mux.cleanPath path) = Mux.cleanPath path.
Proof. split; [unfold Mux.ServeHTTP; by rewrite router_site_map|apply Mux.cleanPath_idem]. Qed.

(** C20: requests reach their handlers: every page sees exactly the parameters
    that the client encoded in the query; the page of a key sees the key, when
    it is an element of a path: no slash in it, not empty, not a dot or two.
    For any other key the answer is not found or a redirect and the node is
    left as it is. *)
Theorem request_reaches_handler {N R} `{!GossipNode N, !RaftConfig R} e (x : site N R) :
  (forall a f l, (a, f) ∈ pages ->
     serve e x (String "/" a +:+ String "?" (Url.encode_query l)) = run e x f (Url.encode_query l) ∅ /\
     forall name, Url.Get (Url.ParseQuery (e_semi e) (Url.encode_query l)) name = Url.Get l name) /\
  (forall a name f k, (a, (name, f)) ∈ key_pages ->
     let target := String "/" (a +:+ String "/" (Url.PathEscape k)) in
     (Mux.good_elem k -> serve e x target = run e x f "" {[name := k]}) /\
     (~ Mux.good_elem k -> exists rs, serve e x target = Ret (x, rs) /\ rs_code rs ∈ [301; 404])).
Proof.
  split.
  - intros a f l Hin. split; [by apply serve_page, Url.encode_query_no_ctl|]. intros name. by rewrite Url.ParseQuery_encode.
  - intros a name f k Hin. by apply serve_key.
Qed.

Definition set_target (k v : string) : string := "/set?" +:+ Url.encode_query [("key", k); ("value", v)].
Definition get_target (k : string) : string := "/get?" +:+ Url.encode_query [("key", k)].
Definition del_target (k : string) : string := "/del?" +:+ Url.encode_query [("key", k)].
Definition status_target (k : string) : string := "/status/" +:+ Url.PathEscape k.

(** The URL that gets a key answers what the table holds. *)
Lemma serve_get {N R} `{!GossipNode N, !RaftConfig R} e (x : site N R) d k :
  Http.allocated (s_server x) d -> k <> "" ->
  serve e x (get_target k) = Ret (x, Http.reply (default "" (d !! k) +:+ Http.nl)).
Proof.
  intros Hd Hk. change (get_target k) with (String "/" "get" +:+ String "?" (Url.encode_query [("key", k)])).
  rewrite (serve_page _ _ "get" doGet) by (apply Url.encode_query_no_ctl || set_solver). cbn [run].
  rewrite Url.ParseQuery_encode. unfold Http.doGet.
  change (Url.Get [("key", k)] "key") with k. rewrite decide_False by done. by rewrite (KV.Get_repr _ _ _ Hd).
Qed.

(** C18: a client's writes through the whole server: on a leader that commits,
    the URL that sets a UTF-8 key answers ok; afterwards the URL that gets a
    key answers the new value for that key and the old one for the others, the
    status page of the key, when the key can be an element of a path, is a
    JSON document that decodes to the pair, and the URL that deletes the key
    answers ok and leaves the other keys. *)
Theorem url_set_get_delete {N R} `{!GossipNode N, !RaftConfig R} e (x : site N R) d k v :
  Http.allocated (s_server x) d -> Http.checkWritePermission (s_server x) = true -> e_raft e = RaftOk ->
  k <> "" -> v <> "" -> Utf8.valid k = true -> Utf8.valid v = true ->
  exists x' x'', serve e x (set_target k v) = Ret (x', Http.ok) /\
    (forall e' k', k' <> "" ->
       serve e' x' (get_target k') = Ret (x', Http.reply (default "" (<[k := v]> d !! k') +:+ Http.nl))) /\
    (forall e', Mux.good_elem k ->
       exists body j, serve e' x' (status_target k) = Ret (x', Http.reply body) /\
         Parse.parse_document body = Some j /\ Decode.into_map j = Some (Some {[k := v]})) /\
    serve e x' (del_target k) = Ret (x'', Http.ok) /\
    (forall e' k', k' <> "" ->
       serve e' x'' (get_target k') = Ret (x'', Http.reply (default "" (delete k d !! k') +:+ Http.nl))).
Proof.
  intros Hd Hw Hr Hk Hv Hku Hvu. set (q := Url.Get (Url.ParseQuery (e_semi e) (Url.encode_query [("key", k); ("value", v)]))).
  assert (Hq : q "key" = k /\ q "value" = v) by (unfold q; by rewrite Url.ParseQuery_encode).
  destruct Hq as [Hqk Hqv]. destruct (Http.doSet_spec (s_server x) d q RaftOk) as (h' & Hset & Hw' & Hd'); [by rewrite ?Hqk, ?Hqv..|].
  rewrite Hqk, Hqv in Hd'. cbn [Http.applied] in Hd'.
  destruct (Http.doDel_spec h' (<[k := v]> d) (Url.Get [("key", k)])) as (h'' & Hdel & _ & Hd''); [done..|].
  change (Url.Get [("key", k)] "key") with k in Hd''. rewrite delete_insert_eq in Hd''.
  exists (Site h' (s_detector x)), (Site h'' (s_detector x)). split_and!.
  - change (set_target k v) with (String "/" "set" +:+ String "?" (Url.encode_query [("key", k); ("value", v)])).
    rewrite (serve_page e x "set" doSet) by (apply Url.encode_query_no_ctl || set_solver). cbn [run]. fold q. by rewrite Hr, Hset.
  - intros e' k' Hk'. by apply serve_get.
  - intros e' Hg. change (status_target k) with (String "/" ("status" +:+ String "/" (Url.PathEscape k))).
    destruct (serve_key e' (Site h' (s_detector x)) "status" "key" doStatusForKey k) as [Hs _]; [set_solver|].
    rewrite (Hs Hg). cbn [run]. rewrite lookup_singleton_eq. unfold Http.doStatusForKey, KV.GetKey. cbn [default from_option id s_server].
    rewrite gm_get_tab, Hd'. cbn [gm_tab]. rewrite lookup_insert_eq.
    destruct (marshal_map_roundtrip (Some {[k := v]})) as (j & Hj & Hm); [by apply map_Forall_singleton|]. eauto.
  - change (del_target k) with (String "/" "del" +:+ String "?" (Url.encode_query [("key", k)])).
    rewrite (serve_page _ _ "del" doDel) by (apply Url.encode_query_no_ctl || set_solver). cbn [run s_server].
    rewrite Url.ParseQuery_encode, Hr, Hdel. done.
  - intros e' k' Hk'. by apply serve_get.
Qed.

Definition demo_site : site GNode.static_node (list string) := Site (demo_server 1) (Detector.NewDetector 10 3).

Definition demo_env : env := Env RaftOk Views.demo_zone true.

Lemma request_reaches_handler_witness :
  serve demo_env demo_site (String "/" "leader" +:+ String "?" (Url.encode_query [])) = run demo_env demo_site doLeader "" ∅ /\
  run demo_env demo_site doLeader "" ∅ = Ret (demo_site, Http.reply ("10.0.0.1:7000" +:+ Http.nl)).
Proof.
  split; [|reflexivity]. apply (proj1 (request_reaches_handler demo_env demo_site) "leader" doLeader []).
  unfold pages. do 8 apply list_elem_of_further. apply list_elem_of_here.
Defined.

Lemma url_set_get_delete_witness :
  exists x' x'', serve demo_env demo_site (set_target "a b&c" "1+1") = Ret (x', Http.ok) /\
    serve demo_env x' (get_target "a b&c") = Ret (x', Http.reply ("1+1" +:+ Http.nl)) /\
    serve demo_env x' (del_target "a b&c") = Ret (x'', Http.ok) /\
    serve demo_env x'' (get_target "a b&c") = Ret (x'', Http.reply Http.nl).
Proof.
  destruct (url_set_get_delete demo_env demo_site ∅ "a b&c" "1+1") as (x' & x'' & Hset & Hget & _ & Hdel & Hgone); try done.
  exists x', x''. split; [exact Hset|]. split; [exact (Hget demo_env "a b&c" ltac:(done))|]. split; [exact Hdel|].
  exact (Hgone demo_env "a b&c" ltac:(done)).
Defined.

End Server.
