(* ===== verification/Demo.v ===== *)
(** * The demonstration in lru.go: a page per product, and a run of the cache

    [test] serves one page with the router and never returns from
    [log.Fatal]; the run of the cache behind it is unreachable in the source
    and is modelled for what it would print. *)

From Stdlib Require Import Ascii.
From S2P Require Import Prelude GoStd Lru Url Mux Quorum Http Server.

Module Demo.

Import Server.

(** [ArticlesCategoryHandler] on the variables of the path. *)
Definition ArticlesCategoryHandler (vars : gmap string string) : response :=
  Response 200 ("Category: " +:+ default "" (vars !! "key") +:+ Http.nl).

Definition test_router : Mux.Router unit :=
  Mux.HandleFunc Mux.NewRouter "/products/{key}" tt.

(** A request to the server of [test]. *)
Definition test_serve (target : string) : response :=
  match Url.parse_target target with
  | None => bad_request
  | Some (path, _) =>
      match Mux.ServeHTTP test_router path with
      | Mux.Redirect _ => moved
      | Mux.NotFound => not_found
      | Mux.Handle _ vars => ArticlesCategoryHandler vars
      end
  end.

(** The goroutine of the [i]-th turn, on a cache of three entries. *)
Definition test_ops (i : Z) : list Lru.op :=
  let s j := Strconv.FormatInt j in
  [Lru.OpPut (s i) (s i); Lru.OpGet (s (i + 2)); Lru.OpPut (s (i + 1)) (s (i + 1));
   Lru.OpPut (s (i + 2)) (s (i + 2)); Lru.OpGet (s (i + 2)); Lru.OpPut (s (i + 3)) (s (i + 3));
   Lru.OpGet (s (i + 2))].

(** [fmt.Println] of the two results of [Get]. *)
Definition println_get (r : option string) : string :=
  match r with
  | Some value => value +:+ " true" +:+ Http.nl
  | None => " false" +:+ Http.nl
  end.

Definition is_get (o : Lru.op) : bool := match o with Lru.OpGet _ => true | Lru.OpPut _ _ => false end.

(** The loop has one turn, so its goroutine runs alone. *)
Definition test_cache : outcome (list string) :=
  r ← Lru.run (Lru.NewLRUCache 3) (test_ops 0);
  Ret ((fun p => println_get p.2) <$> filter (fun p => is_get p.1 = true) (zip (test_ops 0) r.2)).

(** ** Lemmas *)

Lemma test_router_match path :
  Mux.Match test_router path = (fun vars => (tt, vars)) <$> shape_vars (Keyed "products" "key") (Strings.Split "/"%char path).
Proof.
  replace test_router with [Mux.MkRoute (Some (shape_tokens (Keyed "products" "key"))) tt] by (vm_compute; reflexivity).
  cbn [Mux.Match]. rewrite route_shape by reflexivity. by destruct (shape_vars _ _).
Qed.

End Demo.

(** ** Properties *)

Section Claims.

Import Server.

(** The page of a product: the request for the escaped name answers with the
    name itself, unless the name is empty, a dot path or holds a slash; those
    are redirected or not found. *)
Theorem product_page k :
  (Mux.good_elem k -> Demo.test_serve (String "/" ("products" +:+ String "/" (Url.PathEscape k))) =
                      Response 200 ("Category: " +:+ k +:+ Http.nl)) /\
  (~ Mux.good_elem k ->
     rs_code (Demo.test_serve (String "/" ("products" +:+ String "/" (Url.PathEscape k)))) ∈ [301; 404]).
Proof.
  unfold Demo.test_serve. rewrite Url.parse_target_key by done. unfold Mux.ServeHTTP. rewrite Demo.test_router_match.
  change (Strings.Split "/"%char (String "/" ?t)) with ("" :: Strings.Split "/"%char t).
  rewrite Url.Split_app by done. split.
  - intros Hk. pose proof Hk as (K1 & K2 & K3 & Kns).
    assert (Hr : String "/" ("products" +:+ String "/" k) = Mux.rooted ["products"; k] false)
      by (unfold Mux.rooted; cbn; by rewrite app_nil_str).
    rewrite decide_False.
    + rewrite Url.Split_one by done. cbn [shape_vars]. rewrite decide_True by done. done.
    + intros Hc. apply Hc. rewrite Hr. apply Mux.cleanPath_rooted. repeat (apply Forall_cons; split); done.
  - intros Hk. case_decide as Hc; [set_solver|].
    destruct (Strings.Split "/"%char k) as [|v [|v2 l]] eqn:Hs; [by apply Mux.Split_not_nil in Hs| |cbn; set_solver].
    cbn [shape_vars]. rewrite decide_False; [cbn; set_solver|]. intros (_ & _ & Hv). apply Hk.
    assert (v = k) as ->. { rewrite <- (Mux.join_Split k), Hs. done. }
    pose proof (Mux.Split_pieces k) as Hp. rewrite Hs, Forall_singleton in Hp.
    split_and!; [done| | |done]; intros ->; by vm_compute in Hc.
Qed.

(** What the run of the cache would print: the second and the third read find
    the entry, after an eviction too. *)
Theorem demo_cache_prints :
  Demo.test_cache = Ret [" false" +:+ Http.nl; "2 true" +:+ Http.nl; "2 true" +:+ Http.nl].
Proof. vm_compute. reflexivity. Qed.

End Claims.
