(* ===== verification/Protocol.v ===== *)
(** * The leader's protocol: what a check proposes and which commands it sends

    A check of quorum.go touches the world in two ways: it proposes entries to
    raft, which may drop them, and it sends commands to the shell workers.
    Both are pure functions of what the check reads (the cloned gossip cache,
    the clock, the table), whatever raft answers.  On top of them: when an
    alert is raised, that it is raised once, and the record it leaves. *)

From S2P Require Import Prelude GoStd Base Json KVCache Delegate Gossip GossipCache Detector Fsm Quorum.

Module Protocol.

Import Quorum.

(** ** Plans: the entries proposed, the statuses notified *)

Definition plan : Type := list logEntryData * list gossipStatus.

Definition event_plan (q : config) (o : orders) (t : times) (key : string) (v : gossipConsensus) : plan :=
  if Time.Since (t_guard t) (prevEventTime v) <? interval q then ([], []) else
  let '(event, pending, status) := hasEvent q o (t_votes t) v in
  if pending then ([stamp_entry CMD_NOTIFY_TIME key (t_stamp t); Entry CMD_NOTIFY_STATUS key status], [])
  else if event then ([stamp_entry CMD_NOTIFY_TIME key (t_stamp t)], [status])
  else ([], []).

Definition empty_plan (q : config) (o : orders) (t : times) (key : string) (v : gossipConsensus) : plan :=
  if Time.Since (t_guard t) (emptyTime v) <? interval q then ([], []) else
  let '(recover, status) := emptyRecover q o (t_votes t) v in
  if decide (status = GOSSIP_EMPTY) then
    if empty v then ([], []) else ([stamp_entry CMD_NOTIFY_EMPTY_TIME key (t_stamp t)], [status])
  else if recover && empty v then
    ([stamp_entry CMD_NOTIFY_EMPTY_TIME key (t_stamp t)], [GOSSIP_EMPTY_RECOVER])
  else ([], []).

Definition key_plan (q : config) (o : orders) (clock : string -> times * times)
    (kv : string * gossipConsensus) : plan :=
  let p1 := event_plan q o (clock kv.1).1 kv.1 kv.2 in
  let p2 := empty_plan q o (clock kv.1).2 kv.1 kv.2 in
  (p1.1 ++ p2.1, p1.2 ++ p2.2).

Definition cmd_of (q : config) (cm : cacheManager) (key : string) (status : gossipStatus) : timeoutShellCmd :=
  ShellCmd key status notificationScriptTimeout
    (notification_cmd (q_notificationScript q) key (KV.Get cm key) status).

Section Effects.

Context {N : Type} `{!GossipNode N}.

Implicit Types (s : Quorum.state N).

(** The table of the node is allocated. *)
Definition ready s : Prop := is_Some (cm_data (Fsm.f_cm (s_fsm s))).

(** The node stays the leader and raft accepts every entry. *)
Definition reliable s : Prop := forall i, s_env s i = (true, RaftOk).

(** From [s] to [s']: the entries [es] were applied, the commands [cs] sent. *)
Definition effects s s' (es : list logEntryData) (cs : list timeoutShellCmd) : Prop :=
  s_env s' = s_env s /\ s_applied s' = s_applied s ++ es /\ s_cmds s' = s_cmds s ++ cs /\
  Fsm.replay (s_fsm s) es = Ret (s_fsm s').

(** Running [m] from [s] proposes [ps] and sends [cs]: it returns, whatever
    the environment answers; the entries applied are among the proposed ones,
    in order; all of them if the environment is reliable. *)
Definition proposes {A} (m : M A) s (ps : list logEntryData) (cs : list timeoutShellCmd) : Prop :=
  exists s' es a, m s = Ret (s', a) /\ effects s s' es cs /\ es `sublist_of` ps /\
    (reliable s -> es = ps).

(** Entries that leave the table alone. *)
Definition notice (e : logEntryData) : Prop := Fsm.kv_op (Fsm.coerce_entry e) = None.

(** ** Lemmas *)

Lemma replay_app (f : Fsm.fsm_state N) l1 l2 :
  Fsm.replay f (l1 ++ l2) = f' ← Fsm.replay f l1; Fsm.replay f' l2.
Proof. unfold Fsm.replay, Fsm.run_events. by rewrite fmap_app, foldlM_app. Qed.

Lemma effects_refl s : effects s s [] [].
Proof. unfold effects. by rewrite !app_nil_r. Qed.

Lemma effects_trans s1 s2 s3 es1 es2 cs1 cs2 :
  effects s1 s2 es1 cs1 -> effects s2 s3 es2 cs2 -> effects s1 s3 (es1 ++ es2) (cs1 ++ cs2).
Proof.
  intros (He1 & Ha1 & Hc1 & Hf1) (He2 & Ha2 & Hc2 & Hf2). unfold effects.
  rewrite He2, Ha2, Hc2, Ha1, Hc1, !app_assoc, replay_app, Hf1. by split_and!.
Qed.

Lemma replay_notices l : forall (f f' : Fsm.fsm_state N),
  Forall notice l -> is_Some (cm_data (Fsm.f_cm f)) -> Fsm.replay f l = Ret f' -> Fsm.f_cm f' = Fsm.f_cm f.
Proof.
  induction l as [|e l IH]; intros f f' Hl [d Hd] Hr; [by injection Hr as <-|].
  apply Forall_cons in Hl as [He Hl].
  destruct (Fsm.committed_coerce f d e) as (f1 & Hf1 & Hd1 & _); [done|].
  unfold Fsm.replay, Fsm.run_events in Hr. cbn [fmap list_fmap foldlM] in Hr.
  rewrite Hf1 in Hr. cbn [mbind outcome_bind] in Hr.
  unfold notice in He. rewrite He in Hd1. unfold KV.repr in Hd1.
  assert (Hcm : Fsm.f_cm f1 = Fsm.f_cm f).
  { destruct (Fsm.f_cm f1), (Fsm.f_cm f). cbn in *. congruence. }
  rewrite <- Hcm. apply IH; [done | rewrite Hcm; by eexists | exact Hr].
Qed.

Lemma effects_cm s s' es cs :
  effects s s' es cs -> Forall notice es -> ready s -> Fsm.f_cm (s_fsm s') = Fsm.f_cm (s_fsm s).
Proof. intros (_ & _ & _ & Hr) Hn Hs. by eapply replay_notices. Qed.

Lemma sublist_notice es ps : es `sublist_of` ps -> Forall notice ps -> Forall notice es.
Proof. intros H Hp. rewrite Forall_forall in *. intros e He. apply Hp. by eapply elem_of_sublist. Qed.

Lemma proposes_ret {A} (a : A) s : proposes (mret a) s [] [].
Proof.
  exists s, [], a. split_and!; [done | apply effects_refl | done | done].
Qed.

(** Proposals of consecutive steps add up, while the table is left alone. *)
Lemma proposes_bind {A B} (m : M A) (k : A -> M B) s ps1 cs1 ps2 cs2 :
  ready s -> Forall notice ps1 -> proposes m s ps1 cs1 ->
  (forall s' a, ready s' -> Fsm.f_cm (s_fsm s') = Fsm.f_cm (s_fsm s) -> proposes (k a) s' ps2 cs2) ->
  proposes (m ≫= k) s (ps1 ++ ps2) (cs1 ++ cs2).
Proof.
  intros Hr Hn (s1 & es1 & a & Hm & He1 & Hsub1 & Hall1) Hk.
  assert (Hcm : Fsm.f_cm (s_fsm s1) = Fsm.f_cm (s_fsm s)).
  { eapply effects_cm; [done | by eapply sublist_notice | done]. }
  destruct (Hk s1 a) as (s2 & es2 & b & Hk2 & He2 & Hsub2 & Hall2); [unfold ready; by rewrite Hcm | done |].
  exists s2, (es1 ++ es2), b. split_and!.
  - unfold mbind, M_bind. by rewrite Hm.
  - by eapply effects_trans.
  - by apply sublist_app.
  - intros Hrel. rewrite Hall1, Hall2; [done | | done]. unfold reliable.
    destruct He1 as (-> & _). done.
Qed.

Lemma notice_cmd e : Fsm.notifies e -> notice e.
Proof.
  unfold Fsm.notifies, notice, Fsm.kv_op. cbn [le_Cmd Fsm.coerce_entry]. intros He.
  repeat (apply elem_of_cons in He as [->|He]); [vm_compute; reflexivity..|].
  by apply elem_of_nil in He.
Qed.

Lemma notice_notifies (l : list logEntryData) : Forall Fsm.notifies l -> Forall notice l.
Proof. intros H. eapply Forall_impl; [exact H | apply notice_cmd]. Qed.

(** A proposal: raft applies it or not, the caller goes on either way. *)
Lemma notifyFollower_proposes e s : ready s -> proposes (notifyFollower e) s [e] [].
Proof.
  intros [d Hd]. destruct (Fsm.committed_coerce (s_fsm s) d e) as (f1 & Hf1 & _); [done|].
  unfold proposes, effects, reliable, notifyFollower, mbind, M_bind, next_env.
  destruct (s_env s (s_step s)) as [leader answer] eqn:Henv.
  assert (Happ : apply_locally e (State (s_fsm s) (s_env s) (S (s_step s)) (s_applied s) (s_cmds s)) =
                 Ret (State f1 (s_env s) (S (s_step s)) (s_applied s ++ [e]) (s_cmds s), tt)).
  { unfold apply_locally. cbn in Hf1 |- *.
    destruct (Fsm.Apply (s_fsm s) (Fsm.marshal_entry e)) as [r|p]; cbn in Hf1 |- *; congruence. }
  assert (Hrep : Fsm.replay (s_fsm s) [e] = Ret f1).
  { unfold Fsm.replay, Fsm.run_events. cbn [fmap list_fmap foldlM]. by rewrite Hf1. }
  assert (Hrel : (forall i, s_env s i = (true, RaftOk)) -> (leader, answer) = (true, RaftOk)).
  { intros H. by rewrite <- Henv. }
  destruct leader; cbn [negb fst snd].
  2: { eexists _, [], _. rewrite !app_nil_r.
       split_and!; [done..| apply sublist_nil_l | intros H; by specialize (Hrel H)]. }
  destruct answer as [|err [|]]; rewrite ?Happ.
  - eexists _, [e], _. rewrite app_nil_r. by split_and!.
  - eexists _, [e], _. rewrite app_nil_r. by split_and!.
  - eexists _, [], _. rewrite !app_nil_r.
    split_and!; [done..| apply sublist_nil_l | intros H; by specialize (Hrel H)].
Qed.

Lemma send_cmd_proposes c s : proposes (send_cmd c) s [] [c].
Proof.
  eexists _, [], tt. unfold effects. rewrite app_nil_r. split_and!; done.
Qed.

Lemma send_notification_proposes q key status s :
  proposes (send_notification q key status) s [] [cmd_of q (Fsm.f_cm (s_fsm s)) key status].
Proof.
  unfold send_notification, mbind, M_bind, lookup_value, proposes. cbn. apply send_cmd_proposes.
Qed.

(** Binding a proposal whose entries only notify. *)
Lemma proposes_then {A B} (m : M A) (k : A -> M B) s ps1 cs1 ps2 cs2 ps cs :
  ready s -> proposes m s ps1 cs1 -> Forall Fsm.notifies ps1 ->
  (forall s' a, ready s' -> Fsm.f_cm (s_fsm s') = Fsm.f_cm (s_fsm s) -> proposes (k a) s' ps2 cs2) ->
  ps = ps1 ++ ps2 -> cs = cs1 ++ cs2 -> proposes (m ≫= k) s ps cs.
Proof. intros Hr Hm Hn%notice_notifies Hk -> ->. by apply proposes_bind. Qed.

(** ** The checks follow their plans *)

Ltac notif :=
  repeat (apply Forall_cons; split); try apply Forall_nil;
  unfold Fsm.notifies; cbn [le_Cmd stamp_entry]; set_solver.

Definition cmds_of (q : config) (cm : cacheManager) (key : string) (sts : list gossipStatus)
    : list timeoutShellCmd := cmd_of q cm key <$> sts.

(** One proposal followed by a notification. *)
Lemma announce_proposes q key e status s :
  ready s -> Fsm.notifies e ->
  proposes (notifyFollower e ≫= fun _ => send_notification q key status) s [e]
    (cmds_of q (Fsm.f_cm (s_fsm s)) key [status]).
Proof.
  intros Hr He. eapply proposes_then; [done | by apply notifyFollower_proposes | by apply Forall_singleton | |done|done].
  intros s' _ _ Hcm. rewrite <- Hcm. apply send_notification_proposes.
Qed.

Lemma checkEvent_proposes q o t key v s :
  ready s ->
  proposes (checkEvent q o t key v) s (event_plan q o t key v).1
    (cmds_of q (Fsm.f_cm (s_fsm s)) key (event_plan q o t key v).2).
Proof.
  intros Hr. unfold checkEvent, event_plan.
  destruct (Time.Since (t_guard t) (prevEventTime v) <? interval q); [apply proposes_ret|].
  destruct (hasEvent q o (t_votes t) v) as [[event pending] status] eqn:Hev.
  destruct pending.
  - apply judge_pending in Hev as (-> & _). cbn [fst snd].
    eapply (proposes_then _ _ _ [stamp_entry CMD_NOTIFY_TIME key (t_stamp t);
      Entry CMD_NOTIFY_STATUS key status] [] [] []);
      [done| |notif|intros; apply proposes_ret|done|done].
    eapply (proposes_then _ _ _ [_] [] [_] []); [done|by apply notifyFollower_proposes|notif| |done|done].
    intros s1 _ Hr1 _.
    eapply (proposes_then _ _ _ [_] [] [] []); [done|by apply notifyFollower_proposes|notif| |done|done].
    intros. apply proposes_ret.
  - eapply (proposes_then _ _ _ [] []); [done|apply proposes_ret|constructor| |done|done].
    intros s1 _ Hr1 Hcm. destruct event; [|apply proposes_ret].
    rewrite <- Hcm. apply announce_proposes; [done|]. unfold Fsm.notifies. notif.
Qed.

Lemma checkEmpty_proposes q o t key v s :
  ready s ->
  proposes (checkEmpty q o t key v) s (empty_plan q o t key v).1
    (cmds_of q (Fsm.f_cm (s_fsm s)) key (empty_plan q o t key v).2).
Proof.
  intros Hr. unfold checkEmpty, empty_plan.
  destruct (Time.Since (t_guard t) (emptyTime v) <? interval q); [apply proposes_ret|].
  destruct (emptyRecover q o (t_votes t) v) as [recover status] eqn:Hev.
  assert (Hn : Fsm.notifies (stamp_entry CMD_NOTIFY_EMPTY_TIME key (t_stamp t)))
    by (unfold Fsm.notifies; notif).
  destruct (decide (status = GOSSIP_EMPTY)) as [->|Hs].
  - assert (recover = false) as ->.
    { unfold emptyRecover in Hev. repeat case_match; naive_solver. }
    destruct (empty v); cbn [negb].
    + eapply (proposes_then _ _ _ [] [] [] []); [done|apply proposes_ret|constructor| |done|done].
      intros. apply proposes_ret.
    + eapply (proposes_then _ _ _ _ _ [] []);
        [done|by apply announce_proposes|by apply Forall_singleton|intros; apply proposes_ret|done|done].
  - eapply (proposes_then _ _ _ [] []); [done|apply proposes_ret|constructor| |done|done].
    intros s1 _ Hr1 Hcm. destruct recover; cbn [andb]; [|apply proposes_ret].
    destruct (empty v); [|apply proposes_ret]. rewrite <- Hcm. by apply announce_proposes.
Qed.

Lemma event_plan_notifies q o t key v : Forall Fsm.notifies (event_plan q o t key v).1.
Proof. unfold event_plan. repeat case_match; notif. Qed.

Lemma empty_plan_notifies q o t key v : Forall Fsm.notifies (empty_plan q o t key v).1.
Proof. unfold empty_plan. repeat case_match; notif. Qed.

(** What a whole check proposes and sends, key by key. *)
Definition check_entries (q : config) (o : orders) clock (data : list (string * gossipConsensus))
    : list logEntryData := data ≫= fun kv => (key_plan q o clock kv).1.

Definition check_cmds (q : config) (o : orders) clock (cm : cacheManager)
    (data : list (string * gossipConsensus)) : list timeoutShellCmd :=
  data ≫= fun kv => cmds_of q cm kv.1 (key_plan q o clock kv).2.

Lemma check_keys_proposes q o clock data : forall s,
  ready s ->
  proposes (check_keys q o clock data) s (check_entries q o clock data)
    (check_cmds q o clock (Fsm.f_cm (s_fsm s)) data).
Proof.
  induction data as [|[key v] data IH]; intros s Hr; [apply proposes_ret|].
  cbn [check_keys]. eapply proposes_then;
    [done|by apply checkEvent_proposes|apply event_plan_notifies| | |].
  - intros s1 _ Hr1 Hcm1. eapply (proposes_then _ _ _ (empty_plan q o (clock key).2 key v).1
      (cmds_of q (Fsm.f_cm (s_fsm s)) key (empty_plan q o (clock key).2 key v).2)
      (check_entries q o clock data) (check_cmds q o clock (Fsm.f_cm (s_fsm s)) data));
      [done| |apply empty_plan_notifies| |reflexivity|reflexivity].
    + rewrite <- Hcm1. by apply checkEmpty_proposes.
    + intros s2 _ Hr2 Hcm2. rewrite <- Hcm1, <- Hcm2. by apply IH.
  - cbn. by rewrite app_assoc.
  - cbn. unfold cmds_of. by rewrite fmap_app, app_assoc.
Qed.

(** The keys a check visits: those of the gossip cache, when the node is the
    leader and the barrier passed. *)
Definition check_data (o : orders) (barrier : error) s : list (string * gossipConsensus) :=
  if (s_env s (s_step s)).1 then
    match barrier with
    | None => o_data o (GCM.Clone (Fsm.f_gcm (s_fsm s)))
    | Some _ => []
    end
  else [].

Lemma quorumCheck1_proposes q o clock barrier s :
  ready s ->
  let data := check_data o barrier s in
  proposes (quorumCheck1 q o clock barrier) s (check_entries q o clock data)
    (check_cmds q o clock (Fsm.f_cm (s_fsm s)) data).
Proof.
  intros Hr. unfold check_data, quorumCheck1, proposes, mbind, M_bind, next_env.
  set (s1 := State (s_fsm s) (s_env s) (S (s_step s)) (s_applied s) (s_cmds s)).
  assert (Heff : forall s' es cs, effects s1 s' es cs -> effects s s' es cs) by done.
  destruct (s_env s (s_step s)) as [leader answer]. cbn [fst negb].
  destruct leader; cbn [negb].
  2: { exists s1, [], tt. split_and!; [done|apply Heff, effects_refl|done|done]. }
  destruct barrier as [err|].
  { exists s1, [], tt. split_and!; [done|apply Heff, effects_refl|done|done]. }
  destruct (check_keys_proposes q o clock (o_data o (GCM.Clone (Fsm.f_gcm (s_fsm s1)))) s1 Hr)
    as (s' & es & a & Hrun & He & Hsub & Hrel).
  exists s', es, a. split_and!; [exact Hrun | by apply Heff | done | done].
Qed.

End Effects.

End Protocol.
