(* ===== verification/Alerts.v ===== *)
(** * Alerts: what the quorum checker of quorum.go guarantees

    The commands one [quorumCheck1] sends are justified by the reports in the
    gossip cache, none that is due is missing, none is repeated before newer
    reports arrive, and the record that follows a finished command is the
    status announced. *)

From S2P Require Import Prelude GoStd Base Json KVCache Delegate Gossip GossipCache Detector Fsm Quorum Protocol.

Module Alerts.

Import Quorum Protocol.

(** ** Specification *)

(** The record says the opposite of [st]. *)
Definition flips (prev st : gossipStatus) : Prop :=
  (st = GOSSIP_DOWN /\ prev = GOSSIP_UP) \/ (st = GOSSIP_UP /\ prev = GOSSIP_DOWN).

(** The nodes with a fresh report that speaks against an empty answer. *)
Definition recovering (since : Time.t) (now : string -> Time.t) (m : gomap gossipStatusAndTimeStamp)
    : gmap string gossipStatusAndTimeStamp :=
  filter (fun kv => fresh since (now kv.1) kv.2 = true /\ recovered (r_status kv.2) = true) (gm_tab m).

(** The interval since [last] has passed. *)
Definition due (q : config) (t : times) (last : Time.t) : Prop :=
  interval q <= Time.Since (t_guard t) last.

(** The entry [v] of a key justifies announcing [st]. *)
Definition justified (q : config) (t : times * times) (v : gossipConsensus) (st : gossipStatus) : Prop :=
  (flips (prevConsensus v) st /\ due q t.1 (prevEventTime v) /\
   q_quorum q <= Z.of_nat (size (supporters (prevEventTime v) (t_votes t.1) (consensus v) st)))
  \/ (st = GOSSIP_EMPTY /\ empty v = false /\ due q t.2 (emptyTime v) /\
      q_quorum q <= Z.of_nat (size (supporters (emptyTime v) (t_votes t.2) (consensus v) st)))
  \/ (st = GOSSIP_EMPTY_RECOVER /\ empty v = true /\ due q t.2 (emptyTime v) /\
      q_quorum q <= Z.of_nat (size (recovering (emptyTime v) (t_votes t.2) (consensus v)))).

(** ** Lemmas *)

Section Plans.

Context (q : config) (o : orders) (Ho : valid_orders o).

Lemma status_supported since now m st :
  status_now (q_quorum q) (o_counts o) (votes since now (o_reports o m)) = st -> st <> "" ->
  q_quorum q <= Z.of_nat (size (supporters since now m st)).
Proof.
  intros Hst Hne. rewrite <- (occurs_supporters _ _ _ _ _ (vo_reports o Ho m)).
  eapply status_now_sound; [apply Ho | done | done].
Qed.

Lemma length_recovered since now ord :
  length (filter (fun s => recovered s = true) (votes since now ord)) =
  length (filter (fun kv => fresh since (now kv.1) kv.2 = true /\ recovered (r_status kv.2) = true) ord).
Proof.
  induction ord as [|[n r] ord IH]; [done|]. unfold votes. cbn [omap list_omap].
  fold (votes since now ord). rewrite (filter_cons _ (n, r)). cbn [fst snd].
  destruct (fresh since (now n) r) eqn:Hf.
  - rewrite filter_cons. repeat case_decide; cbn [length]; try rewrite IH; naive_solver.
  - rewrite decide_False by naive_solver. exact IH.
Qed.

Lemma recovered_count since now m :
  length (filter (fun s => recovered s = true) (votes since now (o_reports o m))) =
  size (recovering since now m).
Proof.
  unfold recovering. rewrite size_filter_list, length_recovered.
  pose proof (vo_reports o Ho m) as H. unfold range_of in H. by rewrite H.
Qed.

Lemma event_plan_justified t key v st :
  st ∈ (event_plan q o t key v).2 ->
  flips (prevConsensus v) st /\ due q t (prevEventTime v) /\
  q_quorum q <= Z.of_nat (size (supporters (prevEventTime v) (t_votes t) (consensus v) st)).
Proof.
  unfold event_plan, due.
  destruct (Z.ltb_spec (Time.Since (t_guard t) (prevEventTime v)) (interval q)); [by intros ?%elem_of_nil|].
  destruct (hasEvent q o (t_votes t) v) as [[event pending] status] eqn:Hev.
  destruct pending; [by intros ?%elem_of_nil|]. destruct event; [|by intros ?%elem_of_nil].
  intros ->%list_elem_of_singleton. apply judge_event in Hev as (_ & Hst & Hfl).
  split_and!; [done|done|]. apply status_supported; [done|].
  destruct Hfl as [[-> _]|[-> _]]; done.
Qed.

Lemma empty_plan_justified t key v st :
  st ∈ (empty_plan q o t key v).2 ->
  due q t (emptyTime v) /\
  ((st = GOSSIP_EMPTY /\ empty v = false /\
    q_quorum q <= Z.of_nat (size (supporters (emptyTime v) (t_votes t) (consensus v) st))) \/
   (st = GOSSIP_EMPTY_RECOVER /\ empty v = true /\
    q_quorum q <= Z.of_nat (size (recovering (emptyTime v) (t_votes t) (consensus v))))).
Proof.
  unfold empty_plan, due.
  destruct (Z.ltb_spec (Time.Since (t_guard t) (emptyTime v)) (interval q)); [by intros ?%elem_of_nil|].
  unfold emptyRecover. rewrite recovered_count.
  set (now := status_now _ _ _). destruct (decide (now = GOSSIP_EMPTY)) as [He|He].
  - rewrite decide_True by done. destruct (empty v); [by intros ?%elem_of_nil|].
    intros ->%list_elem_of_singleton. split; [done|]. left. split_and!; [done|done|].
    by apply status_supported; [|rewrite He].
  - destruct (Z.geb_spec (Z.of_nat (size (recovering (emptyTime v) (t_votes t) (consensus v)))) (q_quorum q));
      rewrite decide_False by done; cbn [andb]; [|by intros ?%elem_of_nil].
    destruct (empty v); [|by intros ?%elem_of_nil].
    intros ->%list_elem_of_singleton. split; [done|]. right. by split_and!.
Qed.

Lemma key_plan_justified clock key v st :
  st ∈ (key_plan q o clock (key, v)).2 -> justified q (clock key) v st.
Proof.
  unfold key_plan, justified. cbn [fst snd]. intros [H|H]%elem_of_app.
  - left. by apply event_plan_justified in H.
  - right. apply empty_plan_justified in H as (Hd & [H|H]); [left|right]; naive_solver.
Qed.

End Plans.

Lemma elem_of_check_cmds q o clock cm data c :
  c ∈ check_cmds q o clock cm data <->
  exists key v st, (key, v) ∈ data /\ st ∈ (key_plan q o clock (key, v)).2 /\ c = cmd_of q cm key st.
Proof.
  unfold check_cmds, cmds_of. rewrite list_elem_of_bind. split.
  - intros ([key v] & (st & -> & Hst)%list_elem_of_fmap & Hin). eauto 10.
  - intros (key & v & st & Hin & Hst & ->). exists (key, v). split; [|done].
    by apply list_elem_of_fmap_2.
Qed.

(** A copy of an entry justifies what the entry justifies. *)
Lemma justified_clone q t v st :
  justified q t (with_consensus v (Some (gm_tab (consensus v)))) st <-> justified q t v st.
Proof. done. Qed.

(** ** The commands of a whole check *)

Lemma elem_of_check_data {N} `{!GossipNode N} o barrier (s : Quorum.state N) key v' :
  valid_orders o ->
  (key, v') ∈ check_data o barrier s <->
  (s_env s (s_step s)).1 = true /\ barrier = None /\
  exists v, GCM.gcm_data (Fsm.f_gcm (s_fsm s)) !! key = Some v /\
            v' = with_consensus v (Some (gm_tab (consensus v))).
Proof.
  intros Ho. unfold check_data. destruct (s_env s (s_step s)) as [[] a]; cbn [fst];
    [|by split; [intros ?%elem_of_nil | intros []]].
  destruct barrier; [by split; [intros ?%elem_of_nil | intros (_ & [=] & _)]|].
  rewrite (vo_data o Ho), elem_of_map_to_list, GCM.Clone_spec, lookup_fmap_Some. naive_solver.
Qed.

Lemma check_data_NoDup {N} `{!GossipNode N} o barrier (s : Quorum.state N) :
  valid_orders o -> NoDup (check_data o barrier s).*1.
Proof.
  intros Ho. unfold check_data. destruct (s_env s (s_step s)) as [[] a]; cbn [fst]; [|constructor].
  destruct barrier; [constructor|]. rewrite (vo_data o Ho). apply NoDup_fst_map_to_list.
Qed.

(** The commands on one key come from the visit of that key. *)
Lemma check_cmds_other q o clock cm data key (P : timeoutShellCmd -> Prop) `{!forall c, Decision (P c)} :
  (forall c, P c -> tsc_key c = key) -> key ∉ data.*1 -> filter P (check_cmds q o clock cm data) = [].
Proof.
  intros HP Hk. apply filter_none. intros c (key' & v & st & Hin & _ & ->)%elem_of_check_cmds Hc.
  apply HP in Hc. cbn in Hc. subst key'. apply Hk, list_elem_of_fmap. by exists (key, v).
Qed.

Lemma check_cmds_key q o clock cm data key v (P : timeoutShellCmd -> Prop) `{!forall c, Decision (P c)} :
  (forall c, P c -> tsc_key c = key) -> NoDup data.*1 -> (key, v) ∈ data ->
  filter P (check_cmds q o clock cm data) = filter P (cmds_of q cm key (key_plan q o clock (key, v)).2).
Proof.
  intros HP. induction data as [|[k w] data IH]; intros Hnd Hin; [by apply elem_of_nil in Hin|].
  apply NoDup_cons in Hnd as [Hk Hnd]. unfold check_cmds. cbn [mbind list_bind].
  rewrite filter_app. fold (check_cmds q o clock cm data).
  apply elem_of_cons in Hin as [[= <- <-]|Hin].
  - by rewrite (check_cmds_other _ _ _ _ _ key), app_nil_r by done.
  - rewrite IH by done. replace (filter P (cmds_of q cm k (key_plan q o clock (k, w)).2)) with
      ([] : list timeoutShellCmd); [done|]. symmetry. apply filter_none.
    intros c (st & -> & _)%list_elem_of_fmap Hc. apply HP in Hc. cbn in Hc. subst k.
    apply Hk, list_elem_of_fmap. by exists (key, v).
Qed.

(** A verdict that is backed, due and not in doubt is announced. *)
Lemma event_plan_raised q o t key v st :
  valid_orders o -> 1 <= q_quorum q ->
  Z.of_nat (size (voters (prevEventTime v) (t_votes t) (consensus v))) < 2 * q_quorum q ->
  flips (prevConsensus v) st -> due q t (prevEventTime v) ->
  q_quorum q <= Z.of_nat (size (supporters (prevEventTime v) (t_votes t) (consensus v) st)) ->
  event_plan q o t key v = ([stamp_entry CMD_NOTIFY_TIME key (t_stamp t)], [st]).
Proof.
  intros Ho Hq Hmaj Hfl Hdue Hsup. unfold event_plan, due in *.
  destruct (Z.ltb_spec (Time.Since (t_guard t) (prevEventTime v)) (interval q)); [lia|].
  assert (Hst : status_now (q_quorum q) (o_counts o)
    (votes (prevEventTime v) (t_votes t) (o_reports o (consensus v))) = st).
  { apply status_now_majority; [apply Ho|done| | |].
    - by rewrite (length_voters _ _ _ _ (vo_reports o Ho (consensus v))).
    - by destruct Hfl as [[-> _]|[-> _]].
    - by rewrite (occurs_supporters _ _ _ _ _ (vo_reports o Ho (consensus v))). }
  unfold hasEvent. rewrite Hst. destruct Hfl as [[-> ->]|[-> ->]]; done.
Qed.

(** ** What the entries of a check leave in the records *)

Lemma key_plan_keys q o clock key v : Forall (fun e => le_Key e = key) (key_plan q o clock (key, v)).1.
Proof.
  unfold key_plan. cbn [fst snd]. apply Forall_app. unfold event_plan, empty_plan.
  split; repeat case_match; repeat constructor.
Qed.

Lemma event_plan_clean q o t key v :
  Utf8.valid key = true -> Forall Fsm.entry_clean (event_plan q o t key v).1.
Proof.
  intros Hk. unfold event_plan. case_match; [constructor|].
  destruct (hasEvent q o (t_votes t) v) as [[event pending] status] eqn:Hev.
  assert (Hst : Fsm.entry_clean (stamp_entry CMD_NOTIFY_TIME key (t_stamp t))).
  { split_and!; [done|done|apply FormatInt_valid]. }
  destruct pending; [|case_match; first [by apply Forall_singleton | by apply Forall_nil]].
  apply judge_pending in Hev as (_ & _ & Hs & _). repeat (apply Forall_cons; split); [done| |constructor].
  split_and!; [done|done|]. by destruct Hs as [-> | ->].
Qed.

Lemma empty_plan_clean q o t key v :
  Utf8.valid key = true -> Forall Fsm.entry_clean (empty_plan q o t key v).1.
Proof.
  intros Hk. unfold empty_plan.
  assert (Hst : Fsm.entry_clean (stamp_entry CMD_NOTIFY_EMPTY_TIME key (t_stamp t))).
  { split_and!; [done|done|apply FormatInt_valid]. }
  repeat case_match; first [by apply Forall_singleton | by apply Forall_nil].
Qed.

Lemma check_entries_clean q o clock data :
  Forall (fun kv => Utf8.valid kv.1 = true) data -> Forall Fsm.entry_clean (check_entries q o clock data).
Proof.
  induction 1 as [|[key v] data Hk _ IH]; [constructor|]. cbn. apply Forall_app. split; [|exact IH].
  apply Forall_app. split; [by apply event_plan_clean | by apply empty_plan_clean].
Qed.

Lemma meta_log_app k l1 l2 x : Fsm.meta_log k (l1 ++ l2) x = Fsm.meta_log k l2 (Fsm.meta_log k l1 x).
Proof. apply fold_left_app. Qed.

(** The time of the last event in a record. *)
Definition event_time (x : Time.t * gossipStatus * bool * Time.t) : Time.t := x.1.1.1.

Lemma meta_op_time key t x :
  event_time (Fsm.meta_op (stamp_entry CMD_NOTIFY_TIME key t) x) = Time.UnixNano t.
Proof.
  destruct x as [[[pt pc] em] et]. unfold Fsm.meta_op. cbn [le_Cmd le_Value stamp_entry].
  rewrite !decide_False, decide_True by done. rewrite ParseInt_FormatInt by apply wrap64_range. done.
Qed.

Lemma event_plan_stamps q o t key v st :
  st ∈ (event_plan q o t key v).2 ->
  event_plan q o t key v = ([stamp_entry CMD_NOTIFY_TIME key (t_stamp t)], [st]).
Proof.
  unfold event_plan. repeat case_match; try by intros ?%elem_of_nil.
  by intros ->%list_elem_of_singleton.
Qed.

Lemma empty_plan_shape q o t key v :
  (empty_plan q o t key v).1 = [] \/
  (empty_plan q o t key v).1 = [stamp_entry CMD_NOTIFY_EMPTY_TIME key (t_stamp t)].
Proof.
  unfold empty_plan. case_match; [by left|]. destruct (emptyRecover q o (t_votes t) v) as [recover status].
  case_decide; [destruct (empty v); by auto|]. destruct (recover && empty v); by auto.
Qed.

(** UP and DOWN are announced by the event check only. *)
Lemma up_down_event q o clock key v st :
  valid_orders o -> st ∈ [GOSSIP_UP; GOSSIP_DOWN] -> st ∈ (key_plan q o clock (key, v)).2 ->
  st ∈ (event_plan q o (clock key).1 key v).2.
Proof.
  intros Ho Hst [H|H]%elem_of_app; [exact H|].
  apply empty_plan_justified in H as (_ & [[-> _]|[-> _]]); [set_solver|set_solver|done].
Qed.

(** Reports that are not newer than the last event raise nothing. *)
Lemma event_plan_stale q o t key v :
  valid_orders o ->
  (forall n r, gm_get (consensus v) n = Some r -> r_timeStamp r <= Time.UnixNano (prevEventTime v)) ->
  event_plan q o t key v = ([], []).
Proof.
  intros Ho Hold. unfold event_plan. case_match; [done|]. unfold hasEvent.
  rewrite votes_none, status_now_nil; [done|apply Ho|]. intros n r Hin. unfold fresh.
  apply (range_of_elem _ _ _ _ (vo_reports o Ho (consensus v))) in Hin. apply Hold in Hin.
  apply Z.leb_le in Hin. by rewrite Hin.
Qed.

(** The only entry of a plan that writes the event time is the stamp. *)
Lemma event_plan_time q o t key v e :
  e ∈ (event_plan q o t key v).1 -> le_Cmd e = CMD_NOTIFY_TIME -> e = stamp_entry CMD_NOTIFY_TIME key (t_stamp t).
Proof.
  unfold event_plan. case_match; [by intros ?%elem_of_nil|].
  destruct (hasEvent q o (t_votes t) v) as [[[] []] status]; cbn [fst]; set_unfold; naive_solver.
Qed.

(** What the commands sent by a check are, in terms of the cache. *)
Lemma check_cmd_source {N} `{!GossipNode N} q o clock barrier (s : Quorum.state N) c :
  valid_orders o ->
  c ∈ check_cmds q o clock (Fsm.f_cm (s_fsm s)) (check_data o barrier s) ->
  exists v, GCM.gcm_data (Fsm.f_gcm (s_fsm s)) !! tsc_key c = Some v /\
    (s_env s (s_step s)).1 = true /\ barrier = None /\
    tsc_status c ∈ (key_plan q o clock (tsc_key c, with_consensus v (Some (gm_tab (consensus v))))).2 /\
    c = cmd_of q (Fsm.f_cm (s_fsm s)) (tsc_key c) (tsc_status c).
Proof.
  intros Ho (key & v' & st & Hin & Hst & ->)%elem_of_check_cmds.
  apply elem_of_check_data in Hin as (Hl & Hb & v & Hv & ->); [|done]. by exists v.
Qed.

(** ** A cluster to run the model on: node [n1], four nodes report on [db]. *)

Definition reports (sts : list (string * gossipStatus)) (ts : Z) : gomap gossipStatusAndTimeStamp :=
  Some (list_to_map ((fun ns => (ns.1, Report ns.2 ts)) <$> sts)).

Definition demo_cm : cacheManager := CacheManager (Some {["db" := "10.0.0.1"]}).

Definition demo_gcm (prev : gossipStatus) (m : gomap gossipStatusAndTimeStamp)
    : GCM.gossipCacheManager GNode.static_node :=
  GCM.Gcm {["db" := Consensus 0 prev false 0 m]} (GNode.static_start "n1:1" ["n1:1"; "n2:1"; "n3:1"]).

Definition demo_state (prev : gossipStatus) (m : gomap gossipStatusAndTimeStamp)
    : Quorum.state GNode.static_node :=
  State (Fsm.FsmState demo_cm (demo_gcm prev m)) (fun _ => (true, RaftOk)) 0 [] [].

Definition demo_config : config := Config 3 "./notify" 60.

(** Every clock shows second [n]. *)
Definition demo_clock (n : Z) : string -> times * times :=
  fun _ => let t := Times (n * Time.Second) (fun _ => n * Time.Second) (n * Time.Second) in (t, t).

Definition three_down : gomap gossipStatusAndTimeStamp :=
  reports [("n1", GOSSIP_DOWN); ("n2", GOSSIP_DOWN); ("n3", GOSSIP_DOWN); ("n4", GOSSIP_UP)]
    (95 * Time.Second).

(** Other orders the language allows. *)
Definition reversed_orders : orders :=
  Orders (fun m => reverse (gm_items m)) (fun m => reverse (map_to_list m)) map_to_list.

Lemma reversed_orders_valid : valid_orders reversed_orders.
Proof. split; intros; unfold range_of; cbn; rewrite ?reverse_Permutation; reflexivity. Qed.

(** ** Properties *)

(** C1: a check is sound: it returns whatever raft answers, and each command
    it sends is about a key of the gossip cache, carries the value of the key,
    and is justified: UP or DOWN only against the opposite record, EMPTY and
    EMPTY_RECOVER only against the flag, each backed by fresh reports of at
    least [quorum] distinct nodes, after the event interval. *)
Theorem alerts_justified {N} `{!GossipNode N} q o clock barrier (s : Quorum.state N) :
  ready s -> valid_orders o ->
  exists s' cs, quorumCheck1 q o clock barrier s = Ret (s', tt) /\ s_cmds s' = s_cmds s ++ cs /\
    forall c, c ∈ cs -> exists v,
      GCM.gcm_data (Fsm.f_gcm (s_fsm s)) !! tsc_key c = Some v /\
      justified q (clock (tsc_key c)) v (tsc_status c) /\
      c = cmd_of q (Fsm.f_cm (s_fsm s)) (tsc_key c) (tsc_status c).
Proof.
  intros Hr Ho. destruct (quorumCheck1_proposes q o clock barrier s Hr)
    as (s' & es & [] & Hrun & (_ & _ & Hc & _) & _).
  eexists s', _. split_and!; [exact Hrun|exact Hc|]. intros c Hin.
  apply check_cmd_source in Hin as (v & Hv & _ & _ & Hst & Hcmd); [|done].
  exists v. split_and!; [done| |done]. apply (justified_clone q _ v). exact (key_plan_justified q o Ho _ _ _ _ Hst).
Qed.

Lemma alerts_justified_witness :
  let s := demo_state GOSSIP_UP three_down in
  exists s' cs, quorumCheck1 demo_config plain_orders (demo_clock 100) None s = Ret (s', tt) /\
    s_cmds s' = s_cmds s ++ cs /\
    forall c, c ∈ cs -> exists v,
      GCM.gcm_data (Fsm.f_gcm (s_fsm s)) !! tsc_key c = Some v /\
      justified demo_config (demo_clock 100 (tsc_key c)) v (tsc_status c) /\
      c = cmd_of demo_config (Fsm.f_cm (s_fsm s)) (tsc_key c) (tsc_status c).
Proof.
  apply (alerts_justified demo_config plain_orders (demo_clock 100) None (demo_state GOSSIP_UP three_down)).
  - by eexists.
  - apply plain_orders_valid.
Defined.

(** A backed, due verdict is announced by exactly one command. *)
Lemma raise_alert {N} `{!GossipNode N} q o clock (s : Quorum.state N) key v st :
  ready s -> valid_orders o -> (s_env s (s_step s)).1 = true ->
  GCM.gcm_data (Fsm.f_gcm (s_fsm s)) !! key = Some v -> 1 <= q_quorum q ->
  Z.of_nat (size (voters (prevEventTime v) (t_votes (clock key).1) (consensus v))) < 2 * q_quorum q ->
  flips (prevConsensus v) st -> due q (clock key).1 (prevEventTime v) ->
  q_quorum q <= Z.of_nat (size (supporters (prevEventTime v) (t_votes (clock key).1) (consensus v) st)) ->
  exists s' cs, quorumCheck1 q o clock None s = Ret (s', tt) /\ s_cmds s' = s_cmds s ++ cs /\
    filter (fun c => tsc_key c = key /\ tsc_status c = st) cs = [cmd_of q (Fsm.f_cm (s_fsm s)) key st].
Proof.
  intros Hr Ho Hl Hv Hq Hmaj Hfl Hdue Hsup. destruct (quorumCheck1_proposes q o clock None s Hr)
    as (s' & es & [] & Hrun & (_ & _ & Hc & _) & _).
  eexists s', _. split_and!; [exact Hrun|exact Hc|].
  set (v' := with_consensus v (Some (gm_tab (consensus v)))).
  rewrite (check_cmds_key _ _ _ _ _ key v');
    [|naive_solver|by apply check_data_NoDup|by apply elem_of_check_data; eauto].
  unfold key_plan. cbn [fst snd].
  rewrite (event_plan_raised q o (clock key).1 key v' st) by done. unfold cmds_of. rewrite fmap_app.
  cbn [snd fmap list_fmap app]. rewrite filter_cons, decide_True by done. f_equal.
  apply filter_none. intros c (st' & -> & Hst')%list_elem_of_fmap [_ Heq]. cbn in Heq. subst st'.
  apply empty_plan_justified in Hst' as (_ & [[-> _]|[-> _]]); [| |done].
  all: destruct Hfl as [[? _]|[? _]]; done.
Qed.

(** C4: a check is complete: on a leader past the barrier, when the record of
    a key is the opposite of a status that a quorum of fresh reports carries,
    the interval has passed and the quorum is a majority of the fresh reports,
    exactly one command announcing the status is sent, in every iteration
    order of the maps. *)
Theorem alert_raised {N} `{!GossipNode N} q o clock (s : Quorum.state N) key v st :
  ready s -> valid_orders o -> (s_env s (s_step s)).1 = true ->
  GCM.gcm_data (Fsm.f_gcm (s_fsm s)) !! key = Some v -> 1 <= q_quorum q ->
  Z.of_nat (size (voters (prevEventTime v) (t_votes (clock key).1) (consensus v))) < 2 * q_quorum q ->
  flips (prevConsensus v) st -> due q (clock key).1 (prevEventTime v) ->
  q_quorum q <= Z.of_nat (size (supporters (prevEventTime v) (t_votes (clock key).1) (consensus v) st)) ->
  exists s' cs, quorumCheck1 q o clock None s = Ret (s', tt) /\ s_cmds s' = s_cmds s ++ cs /\
    filter (fun c => tsc_key c = key /\ tsc_status c = st) cs = [cmd_of q (Fsm.f_cm (s_fsm s)) key st].
Proof. apply raise_alert. Qed.

Lemma alert_raised_witness :
  let s := demo_state GOSSIP_UP three_down in
  exists s' cs, quorumCheck1 demo_config plain_orders (demo_clock 100) None s = Ret (s', tt) /\
    s_cmds s' = s_cmds s ++ cs /\
    filter (fun c => tsc_key c = "db" /\ tsc_status c = GOSSIP_DOWN) cs =
    [cmd_of demo_config demo_cm "db" GOSSIP_DOWN].
Proof.
  apply (alert_raised demo_config plain_orders (demo_clock 100) (demo_state GOSSIP_UP three_down) "db"
           (Consensus 0 GOSSIP_UP false 0 three_down) GOSSIP_DOWN).
  - by eexists.
  - apply plain_orders_valid.
  - reflexivity.
  - reflexivity.
  - cbn. lia.
  - vm_compute. reflexivity.
  - left. done.
  - vm_compute. discriminate.
  - vm_compute. discriminate.
Defined.

(** What a finished command for [st] makes of the record. *)
Definition record_result (st : gossipStatus) (x : Time.t * gossipStatus * bool * Time.t)
    : Time.t * gossipStatus * bool * Time.t :=
  let '(pt, pc, em, et) := x in
  if decide (st = GOSSIP_EMPTY) then (pt, pc, true, et)
  else if decide (st = GOSSIP_EMPTY_RECOVER) then (pt, pc, false, et)
  else (pt, st, em, et).

Lemma result_entry_meta r x :
  Fsm.meta_op (result_entry r) x = record_result (scr_status r) x.
Proof.
  destruct x as [[[pt pc] em] et]. unfold result_entry, record_result, Fsm.meta_op.
  destruct (decide (scr_status r = GOSSIP_EMPTY)); [reflexivity|].
  destruct (decide (scr_status r = GOSSIP_EMPTY_RECOVER)); [reflexivity|]. reflexivity.
Qed.

Lemma result_entry_clean r :
  Utf8.valid (scr_key r) = true -> Utf8.valid (scr_status r) = true -> Fsm.entry_clean (result_entry r).
Proof. intros Hk Hs. unfold result_entry. by repeat case_decide. Qed.

Lemma quorumCheck2_proposes {N} `{!GossipNode N} r (s : Quorum.state N) :
  ready s -> proposes (quorumCheck2 r) s [result_entry r] [].
Proof.
  intros Hr. destruct (notifyFollower_proposes (result_entry r) s Hr) as (s' & es & a & Hrun & Heff).
  exists s', es, tt. split; [|exact Heff]. unfold quorumCheck2, mbind, M_bind. by rewrite Hrun.
Qed.

(** C16: a finished command is recorded: when a worker of the leader has run a
    command, whatever it printed and whether or not it failed, and raft
    accepts the entry, the record of the key holds the announced status (or
    the empty flag), and nothing else changes in the records and the table. *)
Theorem result_recorded {N} `{!GossipNode N} exec (s : Quorum.state N) c r :
  ready s -> reliable s -> Utf8.valid (tsc_key c) = true -> Utf8.valid (tsc_status c) = true ->
  doTimeoutShellCmd exec true c = Some r ->
  exists s', quorumCheck2 r s = Ret (s', tt) /\ s_cmds s' = s_cmds s /\
    Fsm.f_cm (s_fsm s') = Fsm.f_cm (s_fsm s) /\
    forall k, GCM.meta (Fsm.f_gcm (s_fsm s')) k =
      if decide (tsc_key c = k) then record_result (tsc_status c) (GCM.meta (Fsm.f_gcm (s_fsm s)) k)
      else GCM.meta (Fsm.f_gcm (s_fsm s)) k.
Proof.
  intros Hr Hrel Hk Hst Hdo. unfold doTimeoutShellCmd in Hdo. cbn [negb] in Hdo.
  destruct (ShellCmdTimeout _ _ _ _) as [[out err] e]. injection Hdo as <-.
  set (r := ShellResult _ _ _ _ _).
  destruct (quorumCheck2_proposes r s Hr) as (s' & es & [] & Hrun & (_ & _ & Hc & Hf) & _ & Hes).
  rewrite (Hes Hrel) in Hf. exists s'. rewrite app_nil_r in Hc. destruct Hr as [d Hd].
  assert (Hcl : Fsm.entry_clean (result_entry r)) by (by apply result_entry_clean).
  destruct (Fsm.replay_spec [result_entry r] (s_fsm s) d Hd) as (f' & Hf' & _ & Hm & _).
  { by apply Forall_singleton. }
  rewrite Hf in Hf'. injection Hf' as <-. split_and!; [done|done| |].
  - eapply replay_notices; [|by eexists|exact Hf]. apply Forall_singleton, notice_cmd.
    unfold Fsm.notifies, result_entry. repeat case_decide; cbn [le_Cmd]; set_solver.
  - intros k. rewrite Hm. unfold Fsm.meta_log. cbn [fold_left].
    replace (le_Key (result_entry r)) with (tsc_key c) by (unfold result_entry; by repeat case_decide).
    case_decide; [|done]. apply result_entry_meta.
Qed.

Lemma result_recorded_witness :
  let s := demo_state GOSSIP_UP three_down in
  let r := ShellResult "db" GOSSIP_DOWN "paged" "" None in
  exists s', quorumCheck2 r s = Ret (s', tt) /\ s_cmds s' = s_cmds s /\
    Fsm.f_cm (s_fsm s') = Fsm.f_cm (s_fsm s) /\
    forall k, GCM.meta (Fsm.f_gcm (s_fsm s')) k =
      if decide ("db" = k) then record_result GOSSIP_DOWN (GCM.meta (Fsm.f_gcm (s_fsm s)) k)
      else GCM.meta (Fsm.f_gcm (s_fsm s)) k.
Proof.
  apply (result_recorded (fun _ _ _ => ("paged", "")) (demo_state GOSSIP_UP three_down)
           (cmd_of demo_config demo_cm "db" GOSSIP_DOWN)); [by eexists|done|done|done|].
  vm_compute. reflexivity.
Defined.

(** With a majority quorum the verdict is a function of the reports: the
    random iteration orders of the two map loops of [hasEvent] do not matter. *)
Theorem hasEvent_order_independent q o1 o2 now v :
  valid_orders o1 -> valid_orders o2 -> 1 <= q_quorum q ->
  Z.of_nat (size (voters (prevEventTime v) now (consensus v))) < 2 * q_quorum q ->
  hasEvent q o1 now v = hasEvent q o2 now v.
Proof.
  intros Ho1 Ho2 Hq Hmaj. unfold hasEvent. f_equal.
  set (vs1 := votes _ _ _). set (vs2 := votes _ _ (o_reports o2 _)).
  assert (Hst : forall s, s <> "" ->
    status_now (q_quorum q) (o_counts o1) vs1 = s <-> status_now (q_quorum q) (o_counts o2) vs2 = s).
  { intros s Hs. subst vs1 vs2.
    rewrite !status_now_majority; try apply Ho1; try apply Ho2; try done;
      try (by rewrite (length_voters _ _ _ _ (vo_reports _ Ho1 _)) || rewrite (length_voters _ _ _ _ (vo_reports _ Ho2 _))).
    by rewrite (occurs_supporters _ _ _ _ _ (vo_reports _ Ho1 _)),
      (occurs_supporters _ _ _ _ _ (vo_reports _ Ho2 _)). }
  destruct (decide (status_now (q_quorum q) (o_counts o1) vs1 = "")) as [H1|H1].
  - destruct (decide (status_now (q_quorum q) (o_counts o2) vs2 = "")) as [H2|H2]; [congruence|].
    by apply Hst.
  - symmetry. by apply Hst.
Qed.

Lemma hasEvent_order_independent_witness :
  hasEvent demo_config plain_orders (fun _ => 100 * Time.Second) (Consensus 0 GOSSIP_UP false 0 three_down) =
  hasEvent demo_config reversed_orders (fun _ => 100 * Time.Second) (Consensus 0 GOSSIP_UP false 0 three_down).
Proof.
  apply hasEvent_order_independent;
    [apply plain_orders_valid|apply reversed_orders_valid|done|vm_compute; reflexivity].
Defined.

(** Two nodes say DOWN, two say UP. *)
Definition split_vote : gomap gossipStatusAndTimeStamp :=
  reports [("n1", GOSSIP_DOWN); ("n2", GOSSIP_DOWN); ("n3", GOSSIP_UP); ("n4", GOSSIP_UP)] (95 * Time.Second).

(** Below a majority the verdict is left to chance: with quorum 2 and two
    reports each for UP and DOWN, one iteration order of the counting map
    raises a DOWN alert on an UP key and another order raises none. *)
Theorem split_vote_ambiguous :
  valid_orders plain_orders /\ valid_orders reversed_orders /\
  let q := Config 2 "./notify" 60 in
  let v := Consensus 0 GOSSIP_UP false 0 split_vote in
  let now := fun _ : string => 100 * Time.Second in
  {[hasEvent q plain_orders now v; hasEvent q reversed_orders now v]} =
    ({[(true, false, GOSSIP_DOWN); (false, false, GOSSIP_UP)]} : gset (bool * bool * gossipStatus)).
Proof.
  split_and!; [apply plain_orders_valid|apply reversed_orders_valid|vm_compute; reflexivity].
Qed.

(** C14: a check does exactly its plan: key by key, the entries of the pending
    record or the event stamp and of the empty stamp, and the commands; raft
    may drop entries but the order is kept, and with a reliable leader all are
    applied.  A node that is not the leader, or whose barrier fails, proposes
    and sends nothing. *)
Theorem check_follows_plan {N} `{!GossipNode N} q o clock barrier (s : Quorum.state N) :
  ready s ->
  let data := check_data o barrier s in
  exists s' es, quorumCheck1 q o clock barrier s = Ret (s', tt) /\
    s_applied s' = s_applied s ++ es /\ Fsm.replay (s_fsm s) es = Ret (s_fsm s') /\
    s_cmds s' = s_cmds s ++ check_cmds q o clock (Fsm.f_cm (s_fsm s)) data /\
    es `sublist_of` check_entries q o clock data /\
    (reliable s -> es = check_entries q o clock data) /\
    ((s_env s (s_step s)).1 = false \/ barrier <> None -> data = []).
Proof.
  intros Hr data. destruct (quorumCheck1_proposes q o clock barrier s Hr)
    as (s' & es & [] & Hrun & (_ & Ha & Hc & Hf) & Hsub & Hrel).
  exists s', es. split_and!; try done. subst data. unfold check_data.
  intros [-> | Hb]; [done|]. destruct barrier; [by case_match|done].
Qed.

Lemma check_follows_plan_witness :
  let s := demo_state GOSSIP_UP three_down in
  let data := check_data plain_orders None s in
  exists s' es, quorumCheck1 demo_config plain_orders (demo_clock 100) None s = Ret (s', tt) /\
    s_applied s' = s_applied s ++ es /\ Fsm.replay (s_fsm s) es = Ret (s_fsm s') /\
    s_cmds s' = s_cmds s ++ check_cmds demo_config plain_orders (demo_clock 100) (Fsm.f_cm (s_fsm s)) data /\
    es `sublist_of` check_entries demo_config plain_orders (demo_clock 100) data /\
    (reliable s -> es = check_entries demo_config plain_orders (demo_clock 100) data) /\
    ((s_env s (s_step s)).1 = false \/ None <> (None : error) -> data = []).
Proof.
  apply (check_follows_plan demo_config plain_orders (demo_clock 100) None (demo_state GOSSIP_UP three_down)).
  by eexists.
Defined.

End Alerts.
