(* ===== verification/Leader.v ===== *)
(** * The leader as a transition system

    The goroutines of main.go that touch the consensus records, interleaved:
    the periodic check, the shell workers, the result loop (quorum.go), client
    entries applied by raft (fsm.go), incoming gossip (gossipCache.go) and the
    scavenger.  Commands and results wait in channels; the workers run
    concurrently, so both are taken in any order.  Records stay in their domain,
    and an alert whose time raft has recorded is not repeated. *)

From S2P Require Import Prelude GoStd Base Json KVCache Delegate Gossip GossipCache Detector Fsm Quorum Protocol Alerts.

Module Leader.

Import Quorum Protocol.

Section System.

Context {N : Type} `{!GossipNode N}.

Record world : Type := World {
  w_state : Quorum.state N;
  w_cmdCh : list timeoutShellCmd;
  w_resultCh : list shellCmdResult
}.

Definition with_fsm (s : Quorum.state N) (f : Fsm.fsm_state N) : Quorum.state N :=
  State f (s_env s) (s_step s) (s_applied s) (s_cmds s).

Definition with_gcm (s : Quorum.state N) (g : GCM.gossipCacheManager N) : Quorum.state N :=
  with_fsm s (Fsm.FsmState (Fsm.f_cm (s_fsm s)) g).

Inductive step (q : config) : world -> world -> Prop :=
| step_check o clock barrier s s' cs p rs :
    valid_orders o ->
    quorumCheck1 q o clock barrier s = Ret (s', tt) -> s_cmds s' = s_cmds s ++ cs ->
    step q (World s p rs) (World s' (p ++ cs) rs)
| step_worker exec leader c s p1 p2 rs :
    step q (World s (p1 ++ c :: p2) rs)
           (World s (p1 ++ p2) (rs ++ option_list (doTimeoutShellCmd exec leader c)))
| step_result r s s' p r1 r2 :
    quorumCheck2 r s = Ret (s', tt) ->
    step q (World s p (r1 ++ r :: r2)) (World s' p (r1 ++ r2))
| step_client e s f' p rs :
    le_Cmd e ∈ [CMD_SET; CMD_DELETE] ->
    Fsm.run_event (s_fsm s) (Fsm.Committed e) = Ret f' ->
    step q (World s p rs) (World (with_fsm s f') p rs)
| step_gossip m s g' p rs :
    GCM.deliver (Fsm.f_gcm (s_fsm s)) m = Ret g' ->
    step q (World s p rs) (World (with_gcm s g') p rs)
| step_forget key s p rs :
    step q (World s p rs) (World (with_gcm s (GCM.DelKey (Fsm.f_gcm (s_fsm s)) key)) p rs)
| step_forget_node key nodeAddr s p rs :
    step q (World s p rs) (World (with_gcm s (GCM.DelNodeAddr (Fsm.f_gcm (s_fsm s)) key nodeAddr)) p rs).

(** The node when [main] has built it. *)
Definition start (gnode : N) (env : nat -> bool * raft_reply) : world :=
  World (State (Fsm.FsmState KV.NewCacheManager (GCM.NewGossipCacheManager gnode)) env 0 [] []) [] [].

(** ** The invariant *)

Definition record_status (x : Time.t * gossipStatus * bool * Time.t) : gossipStatus := x.1.1.2.

(** A record has no status yet, or UP, or DOWN. *)
Definition records_ok (f : Fsm.fsm_state N) : Prop :=
  forall k, record_status (GCM.meta (Fsm.f_gcm f) k) ∈ [""; GOSSIP_UP; GOSSIP_DOWN].

(** The statuses commands announce. *)
Definition announced (st : gossipStatus) : Prop :=
  st ∈ [GOSSIP_UP; GOSSIP_DOWN; GOSSIP_EMPTY; GOSSIP_EMPTY_RECOVER].

Definition invariant (w : world) : Prop :=
  ready (w_state w) /\ records_ok (s_fsm (w_state w)) /\
  Forall (fun c => announced (tsc_status c)) (w_cmdCh w) /\
  Forall (fun r => announced (scr_status r)) (w_resultCh w).

(** An entry that can only write UP or DOWN into a record. *)
Definition sane (e : logEntryData) : Prop :=
  le_Cmd (Fsm.coerce_entry e) = CMD_NOTIFY_STATUS ->
  le_Value (Fsm.coerce_entry e) ∈ [GOSSIP_UP; GOSSIP_DOWN].

(** ** Lemmas *)

Lemma meta_op_status e x :
  record_status (Fsm.meta_op e x) =
  if decide (le_Cmd e = CMD_NOTIFY_STATUS) then le_Value e else record_status x.
Proof.
  destruct x as [[[pt pc] em] et]. unfold Fsm.meta_op. case_decide; [done|].
  repeat (case_decide; [by case_match|]). done.
Qed.

Lemma sane_committed f e f' d :
  KV.repr (Fsm.f_cm f) d -> sane e -> records_ok f -> Fsm.run_event f (Fsm.Committed e) = Ret f' ->
  is_Some (cm_data (Fsm.f_cm f')) /\ records_ok f'.
Proof.
  intros Hd He Hok Hrun. destruct (Fsm.committed_coerce f d e Hd) as (f1 & Hf1 & Hd1 & Hm & _).
  rewrite Hrun in Hf1. injection Hf1 as <-. split; [by eexists|]. intros k. rewrite Hm.
  case_decide as Hk; [|apply Hok]. rewrite meta_op_status. case_decide as Hc; [|apply Hok].
  specialize (He Hc). set_solver.
Qed.

Lemma sane_replay es : forall f f',
  Forall sane es -> is_Some (cm_data (Fsm.f_cm f)) -> records_ok f -> Fsm.replay f es = Ret f' ->
  is_Some (cm_data (Fsm.f_cm f')) /\ records_ok f'.
Proof.
  induction es as [|e es IH]; intros f f' Hes [d Hd] Hok Hrun; [injection Hrun as <-; by split; [eexists|]|].
  apply Forall_cons in Hes as [He Hes]. unfold Fsm.replay, Fsm.run_events in Hrun.
  cbn [fmap list_fmap foldlM] in Hrun. apply bind_Ret_inv in Hrun as (f1 & Hf1 & Hrun).
  destruct (sane_committed f e f1 d Hd He Hok Hf1) as [Hd1 Hok1]. by apply (IH f1).
Qed.

Lemma sane_other e : Utf8.valid (le_Cmd e) = true -> le_Cmd e <> CMD_NOTIFY_STATUS -> sane e.
Proof. intros Hv Hne H. unfold Fsm.coerce_entry in H. cbn in H. by rewrite coerce_valid in H. Qed.

Lemma sane_stamp cmd key t : cmd ∈ [CMD_NOTIFY_TIME; CMD_NOTIFY_EMPTY_TIME] -> sane (stamp_entry cmd key t).
Proof. intros H. set_unfold in H. destruct H as [-> | [-> | []]]; by apply sane_other. Qed.

Lemma sane_client e : le_Cmd e ∈ [CMD_SET; CMD_DELETE] -> sane e.
Proof.
  intros H. set_unfold in H. destruct H as [H | [H | []]]; apply sane_other; by rewrite H.
Qed.

Lemma sane_status key st : st ∈ [GOSSIP_UP; GOSSIP_DOWN] -> sane (Entry CMD_NOTIFY_STATUS key st).
Proof.
  unfold sane. cbn [le_Cmd le_Value Fsm.coerce_entry].
  intros Hst _. rewrite coerce_valid; [done|]. set_unfold in Hst. destruct Hst as [-> | [-> | []]]; done.
Qed.

Lemma sane_result r : announced (scr_status r) -> sane (result_entry r).
Proof.
  intros Hr. unfold result_entry. do 2 (case_decide; [by apply sane_other|]).
  apply sane_status. unfold announced in Hr. set_solver.
Qed.

Lemma sane_event_plan q o t key v : Forall sane (event_plan q o t key v).1.
Proof.
  unfold event_plan. case_match; [constructor|].
  destruct (hasEvent q o (t_votes t) v) as [[event pending] status] eqn:Hev.
  assert (sane (stamp_entry CMD_NOTIFY_TIME key (t_stamp t))) by (apply sane_stamp; set_solver).
  destruct pending; [|case_match; first [by apply Forall_singleton | by apply Forall_nil]].
  apply judge_pending in Hev as (_ & _ & Hs & _).
  repeat (apply Forall_cons; split); [done| |constructor]. apply sane_status. set_solver.
Qed.

Lemma sane_check q o clock data : Forall sane (check_entries q o clock data).
Proof.
  induction data as [|[key v] data IH]; [constructor|]. apply Forall_app. split; [|exact IH].
  unfold key_plan. cbn [fst snd]. apply Forall_app. split; [apply sane_event_plan|].
  destruct (Alerts.empty_plan_shape q o (clock key).2 key v) as [-> | ->]; [constructor|].
  apply Forall_singleton, sane_stamp. set_solver.
Qed.

Lemma announced_justified q t v st : Alerts.justified q t v st -> announced st.
Proof. unfold Alerts.justified, Alerts.flips, announced. set_solver. Qed.

Lemma announced_worker exec leader c r :
  announced (tsc_status c) -> doTimeoutShellCmd exec leader c = Some r -> announced (scr_status r).
Proof. unfold doTimeoutShellCmd. intros Hc Hr. by repeat case_match; simplify_eq/=. Qed.

(** Changes of the gossip cache that keep or clear records. *)
Lemma records_gcm s (g : GCM.gossipCacheManager N) :
  (forall k, GCM.meta g k = GCM.meta (Fsm.f_gcm (s_fsm s)) k \/ GCM.meta g k = GCM.meta_of zero_consensus) ->
  records_ok (s_fsm s) -> records_ok (s_fsm (with_gcm s g)).
Proof.
  intros Hg Hok k. unfold with_gcm. cbn [with_fsm s_fsm Fsm.f_gcm].
  destruct (Hg k) as [-> | ->]; [apply Hok | constructor].
Qed.

Lemma check_invariant q o clock barrier s s' cs :
  valid_orders o -> ready s -> records_ok (s_fsm s) ->
  quorumCheck1 q o clock barrier s = Ret (s', tt) -> s_cmds s' = s_cmds s ++ cs ->
  ready s' /\ records_ok (s_fsm s') /\ Forall (fun c => announced (tsc_status c)) cs.
Proof.
  intros Ho Hr Hok Hrun Hcs. destruct (quorumCheck1_proposes q o clock barrier s Hr)
    as (s1 & es & [] & Hrun1 & (_ & _ & Hc & Hf) & Hsub & _).
  rewrite Hrun in Hrun1. injection Hrun1 as <-. rewrite Hcs in Hc. apply app_inv_head in Hc. subst cs.
  destruct (sane_replay es (s_fsm s) (s_fsm s')) as [Hd Hrec]; [|done|done|done|].
  - rewrite Forall_forall. intros e He. eapply elem_of_sublist in He; [|exact Hsub].
    pose proof (sane_check q o clock (check_data o barrier s)) as Hall. rewrite Forall_forall in Hall. by apply Hall.
  - split_and!; [done|done|]. apply Forall_forall. intros c Hin.
    apply Alerts.check_cmd_source in Hin as (v & _ & _ & _ & Hst & _); [|done].
    eapply announced_justified, Alerts.key_plan_justified; [exact Ho|exact Hst].
Qed.

Lemma result_invariant r s s' :
  announced (scr_status r) -> ready s -> records_ok (s_fsm s) -> quorumCheck2 r s = Ret (s', tt) ->
  ready s' /\ records_ok (s_fsm s').
Proof.
  intros Hr Hready Hok Hrun. destruct (Alerts.quorumCheck2_proposes r s Hready)
    as (s1 & es & [] & Hrun1 & (_ & _ & _ & Hf) & Hsub & _).
  rewrite Hrun in Hrun1. injection Hrun1 as <-.
  apply (sane_replay es (s_fsm s) (s_fsm s')); [|done|done|done].
  rewrite Forall_forall. intros e He. eapply elem_of_sublist in He; [|exact Hsub].
  apply list_elem_of_singleton in He as ->. by apply sane_result.
Qed.

Lemma invariant_step q w w' : invariant w -> step q w w' -> invariant w'.
Proof.
  intros (Hr & Hok & Hp & Hrs) Hstep. unfold invariant. destruct Hstep; cbn in Hr, Hok, Hp, Hrs |- *.
  - destruct (check_invariant q o clock barrier s s' cs) as (? & ? & ?); [done..|].
    split_and!; try done. by apply Forall_app.
  - apply Forall_app in Hp as [Hp1 [Hc Hp2]%Forall_cons]. split_and!; [done|done| |].
    + by apply Forall_app.
    + apply Forall_app. split; [done|]. destruct (doTimeoutShellCmd exec leader c) eqn:Hd; constructor;
        [|constructor]. by eapply announced_worker.
  - apply Forall_app in Hrs as [Hr1 [Hc Hr2]%Forall_cons].
    destruct (result_invariant r s s') as [? ?]; [done..|]. split_and!; try done. by apply Forall_app.
  - destruct Hr as [d Hd]. destruct (sane_committed (s_fsm s) e f' d) as [? ?]; [done|by apply sane_client|done..|].
    by split_and!.
  - split_and!; try done. apply records_gcm; [|done]. intros k. left. by eapply GCM.deliver_meta.
  - split_and!; try done. apply records_gcm; [|done]. intros k. rewrite GCM.DelKey_meta. case_decide; by auto.
  - split_and!; try done. apply records_gcm; [|done]. intros k. left. apply GCM.DelNodeAddr_meta.
Qed.

Lemma invariant_start gnode env : invariant (start gnode env).
Proof.
  split_and!; [by eexists| |constructor|constructor]. intros k. constructor.
Qed.

Lemma invariant_reachable q gnode env w : rtc (step q) (start gnode env) w -> invariant w.
Proof.
  intros Hw. assert (Hinv := invariant_start gnode env). induction Hw as [|w1 w2 w3 H1 _ IH]; [done|].
  by apply IH, (invariant_step q w1).
Qed.

(** A verdict is pending only for a key without a record. *)
Lemma pending_first q o now (v : gossipConsensus) event st :
  prevConsensus v ∈ [""; GOSSIP_UP; GOSSIP_DOWN] -> hasEvent q o now v = (event, true, st) ->
  prevConsensus v = "".
Proof. intros Hin (_ & _ & _ & Hu & Hd)%judge_pending. set_solver. Qed.

(** ** An event that has been recorded

    [quiet T key]: the key has its entry, none of its reports is newer than [T],
    and the keys of the cache are UTF-8. *)
Definition quiet (T : Z) (key : string) (w : world) : Prop :=
  let g := Fsm.f_gcm (s_fsm (w_state w)) in
  is_Some (GCM.gcm_data g !! key) /\
  (forall n r, GCM.report g key n = Some r -> r_timeStamp r <= T) /\
  (forall k, is_Some (GCM.gcm_data g !! k) -> Utf8.valid k = true).

(** A step of the leader that leaves it so. *)
Definition quiet_step (q : config) (T : Z) (key : string) (w w' : world) : Prop :=
  step q w w' /\ quiet T key w'.

(** Commands that announce an outage or its end. *)
Definition alarms (key : string) (c : timeoutShellCmd) : Prop :=
  tsc_key c = key /\ tsc_status c ∈ [GOSSIP_UP; GOSSIP_DOWN].

Definition recorded (f : Fsm.fsm_state N) (key : string) : Z := Alerts.event_time (GCM.meta (Fsm.f_gcm f) key).

Definition settled (T : Z) (key : string) (w : world) : Prop :=
  ready (w_state w) /\ quiet T key w /\ recorded (s_fsm (w_state w)) key = T.

Lemma meta_op_other_time e x :
  le_Cmd e <> CMD_NOTIFY_TIME -> Alerts.event_time (Fsm.meta_op e x) = Alerts.event_time x.
Proof.
  intros He. destruct x as [[[pt pc] em] et]. unfold Fsm.meta_op. rewrite (decide_False (P := le_Cmd e = CMD_NOTIFY_TIME)) by done.
  case_decide; [done|]. repeat (case_decide; [by case_match|]). done.
Qed.

Lemma replay_keeps es : forall (f f' : Fsm.fsm_state N),
  is_Some (cm_data (Fsm.f_cm f)) -> Fsm.replay f es = Ret f' ->
  forall k, is_Some (GCM.gcm_data (Fsm.f_gcm f) !! k) -> is_Some (GCM.gcm_data (Fsm.f_gcm f') !! k).
Proof.
  unfold Fsm.replay, Fsm.run_events. induction es as [|e es IH]; intros f f' [d Hd] Hrun; [by injection Hrun as <-|].
  cbn [fmap list_fmap foldlM] in Hrun. apply bind_Ret_inv in Hrun as (f1 & Hf1 & Hrun).
  destruct (Fsm.committed_coerce f d e Hd) as (f1' & Hf1' & Hd1 & _ & _ & Hdom & _).
  rewrite Hf1 in Hf1'. injection Hf1' as <-. intros k Hk. apply (IH f1 f'); [by eexists|done|by apply Hdom].
Qed.

(** Entries on a record whose only event time is that of [x]. *)
Lemma replay_recorded key t es : forall (f f' : Fsm.fsm_state N),
  let x := stamp_entry CMD_NOTIFY_TIME key t in
  (forall e, e ∈ es -> le_Cmd (Fsm.coerce_entry e) = CMD_NOTIFY_TIME -> le_Key (Fsm.coerce_entry e) = key ->
             Fsm.coerce_entry e = x) ->
  is_Some (cm_data (Fsm.f_cm f)) -> Fsm.replay f es = Ret f' ->
  is_Some (cm_data (Fsm.f_cm f')) /\
  ((x ∈ Fsm.coerce_entry <$> es) /\ recorded f' key = Time.UnixNano t \/ (x ∉ Fsm.coerce_entry <$> es) /\ recorded f' key = recorded f key).
Proof.
  induction es as [|e es IH]; intros f f' x Hes [d Hd] Hrun.
  { injection Hrun as <-. split; [by eexists|right]. split; [apply not_elem_of_nil|done]. }
  unfold Fsm.replay, Fsm.run_events in Hrun.
  cbn [fmap list_fmap foldlM] in Hrun. apply bind_Ret_inv in Hrun as (f1 & Hf1 & Hrun).
  destruct (Fsm.committed_coerce f d e Hd) as (f1' & Hf1' & Hd1 & Hm & _).
  rewrite Hf1 in Hf1'. injection Hf1' as <-.
  destruct (IH f1 f') as (Hd' & Ht); [by intros; apply Hes; [right|..]|by eexists|done|].
  split; [done|]. destruct Ht as [[Hin Ht]|[Hni Ht]]; [left; by split; [right|]|]. unfold recorded in Ht. rewrite Hm in Ht.
  destruct (decide (le_Key (Fsm.coerce_entry e) = key)) as [Hk|Hk];
    [destruct (decide (le_Cmd (Fsm.coerce_entry e) = CMD_NOTIFY_TIME)) as [Hc|Hc]|].
  - left. unfold recorded. rewrite Ht. cbn [fmap list_fmap]. rewrite (Hes e) by (done || by left).
    split; [by left|]. apply Alerts.meta_op_time.
  - right. rewrite meta_op_other_time in Ht by done. split; [|done]. cbn. intros [He|?]%elem_of_cons; [|done].
    by rewrite <- He in Hc.
  - right. split; [|done]. cbn. intros [He|?]%elem_of_cons; [|done]. by rewrite <- He in Hk.
Qed.

(** The entries of a check that write the event time of a key. *)
Lemma check_time_entry q o clock barrier (s : Quorum.state N) key e :
  valid_orders o -> (forall k, is_Some (GCM.gcm_data (Fsm.f_gcm (s_fsm s)) !! k) -> Utf8.valid k = true) ->
  e ∈ check_entries q o clock (check_data o barrier s) ->
  le_Cmd (Fsm.coerce_entry e) = CMD_NOTIFY_TIME -> le_Key (Fsm.coerce_entry e) = key ->
  Fsm.coerce_entry e = stamp_entry CMD_NOTIFY_TIME key (t_stamp (clock key).1) /\
  exists v, GCM.gcm_data (Fsm.f_gcm (s_fsm s)) !! key = Some v /\
    e ∈ (event_plan q o (clock key).1 key (with_consensus v (Some (gm_tab (consensus v))))).1.
Proof.
  intros Ho Hu He Hc Hk.
  assert (Hcl : Fsm.entry_clean e).
  { pose proof (Alerts.check_entries_clean q o clock (check_data o barrier s)) as Hcl. rewrite Forall_forall in Hcl.
    rewrite Forall_forall in Hcl. apply Hcl; [|done]. intros [k v] Hin.
    apply Alerts.elem_of_check_data in Hin as (_ & _ & v0 & Hv & _); [|done]. apply Hu. by eexists. }
  rewrite Fsm.coerce_entry_clean in Hc, Hk |- * by done.
  unfold check_entries in He. apply list_elem_of_bind in He as ([k v'] & He & Hin).
  apply Alerts.elem_of_check_data in Hin as (_ & _ & v & Hv & ->); [|done].
  pose proof (Alerts.key_plan_keys q o clock k (with_consensus v (Some (gm_tab (consensus v))))) as Hkeys.
  rewrite Forall_forall in Hkeys. rewrite (Hkeys e He) in Hk. subst k.
  unfold key_plan in He. cbn [fst snd] in He. apply elem_of_app in He as [He|He].
  - split; [by eapply Alerts.event_plan_time|]. by exists v.
  - exfalso. destruct (Alerts.empty_plan_shape q o (clock key).2 key (with_consensus v (Some (gm_tab (consensus v)))))
      as [Hp|Hp]; rewrite Hp in He; [by apply elem_of_nil in He|]. apply list_elem_of_singleton in He. by subst e.
Qed.

(** A settled key: its event check raises nothing. *)
Lemma settled_stale q o t key T w v :
  valid_orders o -> settled T key w ->
  GCM.gcm_data (Fsm.f_gcm (s_fsm (w_state w))) !! key = Some v -> in_int64 T ->
  event_plan q o t key (with_consensus v (Some (gm_tab (consensus v)))) = ([], []).
Proof.
  intros Ho (_ & (_ & Hold & _) & Hrec) Hv HT. apply Alerts.event_plan_stale; [done|]. intros n r Hn.
  unfold recorded, GCM.meta in Hrec. rewrite Hv in Hrec. cbn in Hrec. cbn [with_consensus prevEventTime consensus] in *.
  rewrite Hrec. unfold Time.UnixNano. rewrite wrap64_id by done. apply (Hold n). unfold GCM.report. rewrite Hv.
  by rewrite gm_get_tab.
Qed.

Lemma settled_check q o clock barrier key T s s' cs p rs :
  valid_orders o -> in_int64 T -> settled T key (World s p rs) ->
  quorumCheck1 q o clock barrier s = Ret (s', tt) -> s_cmds s' = s_cmds s ++ cs ->
  ready s' /\ recorded (s_fsm s') key = T /\ Forall (fun c => ~ alarms key c) cs.
Proof.
  intros Ho HT Hset Hrun Hcs. pose proof Hset as (Hr & (_ & _ & Hu) & Hrec). cbn [w_state] in *.
  destruct (quorumCheck1_proposes q o clock barrier s Hr) as (s1 & es & [] & Hrun1 & (_ & _ & Hc & Hf) & Hsub & _).
  rewrite Hrun in Hrun1. injection Hrun1 as <-. rewrite Hcs in Hc. apply app_inv_head in Hc. subst cs.
  destruct (replay_recorded key (t_stamp (clock key).1) es (s_fsm s) (s_fsm s')) as (Hr' & Ht); [|done|done|].
  { intros e He Hcmd Hk. eapply elem_of_sublist in He; [|exact Hsub].
    by destruct (check_time_entry q o clock barrier s key e Ho Hu He Hcmd Hk). }
  split_and!; [done| |].
  - destruct Ht as [[Hin _]|[_ Ht]]; [|by rewrite Ht]. exfalso.
    apply list_elem_of_fmap in Hin as (e & Hx & He). eapply elem_of_sublist in He; [|exact Hsub].
    destruct (check_time_entry q o clock barrier s key e Ho Hu He) as (_ & v & Hv & Hin); [by rewrite <- Hx..|].
    rewrite (settled_stale q o _ key T (World s p rs) v) in Hin by done. by apply elem_of_nil in Hin.
  - apply Forall_forall. intros c Hin [Hk Hst].
    apply Alerts.check_cmd_source in Hin as (v & Hv & _ & _ & Hplan & _); [|done]. rewrite Hk in *.
    apply Alerts.up_down_event in Hplan; [|done|done].
    rewrite (settled_stale q o _ key T (World s p rs) v) in Hplan by done. by apply elem_of_nil in Hplan.
Qed.

(** Steps other than the check send nothing and keep the recorded time. *)
Lemma settled_step q key T w w' :
  in_int64 T -> settled T key w -> quiet_step q T key w w' ->
  settled T key w' /\
  exists cs, s_cmds (w_state w') = s_cmds (w_state w) ++ cs /\ Forall (fun c => ~ alarms key c) cs.
Proof.
  intros HT Hset [Hstep Hq]. pose proof Hset as (Hr & _ & Hrec). unfold settled.
  assert (Hnone : forall s s' : Quorum.state N, s_cmds s' = s_cmds s ->
    exists cs, s_cmds s' = s_cmds s ++ cs /\ Forall (fun c => ~ alarms key c) cs).
  { intros s s' ->. exists []. by rewrite app_nil_r. }
  destruct Hstep; cbn [w_state] in *.
  - destruct (settled_check q o clock barrier key T s s' cs p rs) as (? & ? & ?); [done..|]. split; [by split_and!|].
    by exists cs.
  - split; [by split_and!|by apply Hnone].
  - destruct (Alerts.quorumCheck2_proposes r s Hr) as (s1 & es & [] & Hrun1 & (_ & _ & Hc & Hf) & Hsub & _).
    match goal with H : quorumCheck2 _ _ = Ret (s', tt) |- _ => rewrite H in Hrun1 end. injection Hrun1 as <-.
    rewrite app_nil_r in Hc.
    assert (Hno : forall e, e ∈ es -> le_Cmd (Fsm.coerce_entry e) <> CMD_NOTIFY_TIME).
    { intros e He. eapply elem_of_sublist in He; [|exact Hsub]. apply list_elem_of_singleton in He as ->.
      unfold result_entry. by repeat case_decide. }
    destruct (replay_recorded key 0 es (s_fsm s) (s_fsm s')) as (Hr' & Ht); [|done|done|].
    { intros e He Hcmd. by apply Hno in He. }
    destruct Ht as [[Hin _]|[_ Ht]].
    { apply list_elem_of_fmap in Hin as (e & Hx & He). apply Hno in He. by rewrite <- Hx in He. }
    split; [by split_and!; [| |rewrite Ht]|by apply Hnone].
  - destruct Hr as [d Hd]. destruct (Fsm.committed_coerce (s_fsm s) d e Hd) as (f1 & Hf1 & Hd1 & Hm & _).
    match goal with H : Fsm.run_event _ _ = Ret f' |- _ => rewrite H in Hf1 end. injection Hf1 as <-.
    split; [|by apply Hnone]. split_and!; [by eexists|done|]. rewrite <- Hrec. unfold recorded. cbn [s_fsm with_fsm].
    rewrite Hm. case_decide; [|done]. apply meta_op_other_time.
    match goal with H : le_Cmd e ∈ _ |- _ => set_unfold in H; destruct H as [H|[H|[]]] end;
      unfold Fsm.coerce_entry; cbn [le_Cmd]; by rewrite H.
  - split; [|by apply Hnone]. split_and!; [done|done|]. rewrite <- Hrec. unfold recorded, with_gcm. cbn [with_fsm s_fsm Fsm.f_gcm].
    by erewrite GCM.deliver_meta.
  - split; [|by apply Hnone]. split_and!; [done|done|]. rewrite <- Hrec. unfold recorded, with_gcm. cbn [with_fsm s_fsm Fsm.f_gcm].
    rewrite GCM.DelKey_meta. case_decide as Hk; [|done]. destruct Hq as ([v Hv] & _). subst.
    cbn in Hv. by rewrite lookup_delete_eq in Hv.
  - split; [|by apply Hnone]. split_and!; [done|done|]. rewrite <- Hrec. unfold recorded, with_gcm. cbn [with_fsm s_fsm Fsm.f_gcm].
    by rewrite GCM.DelNodeAddr_meta.
Qed.

Lemma settled_run q key T w w' :
  in_int64 T -> settled T key w -> rtc (quiet_step q T key) w w' ->
  settled T key w' /\
  exists cs, s_cmds (w_state w') = s_cmds (w_state w) ++ cs /\ Forall (fun c => ~ alarms key c) cs.
Proof.
  intros HT Hset Hrun. induction Hrun as [w|w1 w2 w3 H1 _ IH].
  - split; [done|]. exists []. by rewrite app_nil_r.
  - destruct (settled_step q key T w1 w2 HT Hset H1) as [Hset2 (cs & Hcs & Hno)].
    destruct (IH Hset2) as [Hset3 (cs' & Hcs' & Hno')]. split; [done|]. exists (cs ++ cs').
    rewrite Hcs', Hcs, app_assoc. split; [done|]. by apply Forall_app.
Qed.

End System.

Arguments world : clear implicits.

(** ** Properties *)

(** However the check, the workers, the results, client entries, gossip
    and the scavenger interleave, from the start of the node, every consensus
    record is unset, UP or DOWN; so the check never panics, and it sets a
    record without announcing it (the pending branch) only for a key that has
    none. *)
Theorem reachable_records {N} `{!GossipNode N} q (gnode : N) env w :
  rtc (step q) (start gnode env) w ->
  (forall k, record_status (GCM.meta (Fsm.f_gcm (s_fsm (w_state w))) k) ∈ [""; GOSSIP_UP; GOSSIP_DOWN]) /\
  (forall o clock barrier, exists s', quorumCheck1 q o clock barrier (w_state w) = Ret (s', tt)) /\
  (forall o now k v event st,
     GCM.gcm_data (Fsm.f_gcm (s_fsm (w_state w))) !! k = Some v ->
     hasEvent q o now v = (event, true, st) -> prevConsensus v = "").
Proof.
  intros (Hr & Hok & _)%invariant_reachable. split_and!; [exact Hok| |].
  - intros o clock barrier. destruct (quorumCheck1_proposes q o clock barrier (w_state w) Hr)
      as (s' & es & [] & Hrun & _). by exists s'.
  - intros o now k v event st Hv. apply pending_first. specialize (Hok k). unfold GCM.meta in Hok.
    by rewrite Hv in Hok.
Qed.

(** A client sets a key, a node reports on it. *)
Definition demo_world : world GNode.static_node :=
  start (GNode.static_start "n1:1" ["n1:1"]) (fun _ => (true, RaftOk)).

Lemma reachable_records_witness :
  exists w, rtc (step Alerts.demo_config) demo_world w /\ w <> demo_world /\
    forall k, record_status (GCM.meta (Fsm.f_gcm (s_fsm (w_state w))) k) ∈ [""; GOSSIP_UP; GOSSIP_DOWN].
Proof.
  eexists. split_and!.
  - eapply rtc_once, (step_client _ (Entry CMD_SET "db" "10.0.0.1")); [constructor|].
    vm_compute. reflexivity.
  - discriminate.
  - eapply (reachable_records Alerts.demo_config (GNode.static_start "n1:1" ["n1:1"])
             (fun _ => (true, RaftOk))).
    eapply rtc_once, (step_client _ (Entry CMD_SET "db" "10.0.0.1")); [constructor|].
    vm_compute. reflexivity.
Defined.

(** C5: an alert is not repeated: with each UP or DOWN command on a key a check
    proposes its time as the event time of the key's record, so raft applies that
    entry when it accepts what the check proposes; and from there, in every run
    of later checks (at any time, in any map order, with any raft answers),
    workers, results, client entries, incoming gossip and scavenging of other
    keys, no command for UP or DOWN on the key is sent, as long as no report on
    it is newer than the recorded time and its entry stays. *)
Theorem alert_not_repeated {N} `{!GossipNode N} q o clock barrier (s s1 : Quorum.state N) cs1 es key p rs :
  let x := stamp_entry CMD_NOTIFY_TIME key (t_stamp (clock key).1) in
  let T := Time.UnixNano (t_stamp (clock key).1) in
  valid_orders o -> ready s -> quorumCheck1 q o clock barrier s = Ret (s1, tt) ->
  s_cmds s1 = s_cmds s ++ cs1 -> s_applied s1 = s_applied s ++ es ->
  (forall c, c ∈ cs1 -> alarms key c -> reliable s -> x ∈ es) /\
  (x ∈ es -> quiet T key (World s1 p rs) ->
   forall w, rtc (quiet_step q T key) (World s1 p rs) w ->
   exists cs, s_cmds (w_state w) = s_cmds s1 ++ cs /\ Forall (fun c => ~ alarms key c) cs).
Proof.
  intros x T Ho Hr Hrun Hcs Hes.
  destruct (quorumCheck1_proposes q o clock barrier s Hr) as (s1' & es' & [] & Hrun' & (_ & He & Hc & Hf) & Hsub & Hall).
  rewrite Hrun in Hrun'. injection Hrun' as <-. rewrite Hcs in Hc. apply app_inv_head in Hc. subst cs1.
  rewrite Hes in He. apply app_inv_head in He. subst es'. split.
  - intros c Hin [Hk Hst] Hrel. rewrite (Hall Hrel).
    apply Alerts.check_cmd_source in Hin as (v & Hv & Hl & Hb & Hplan & _); [|done]. rewrite Hk in *.
    apply Alerts.up_down_event, Alerts.event_plan_stamps in Hplan; [|done..].
    apply list_elem_of_bind. eexists (key, _). split; [|apply Alerts.elem_of_check_data; eauto].
    unfold key_plan. cbn [fst snd]. rewrite Hplan. by left.
  - intros Hx Hq w Hw. pose proof Hq as (_ & _ & Hu).
    destruct (replay_recorded key (t_stamp (clock key).1) es (s_fsm s) (s_fsm s1)) as (Hr1 & Ht); [|done|done|].
    { intros e He Hcmd Hk. eapply elem_of_sublist in He; [|exact Hsub].
      refine (proj1 (check_time_entry q o clock barrier s key e Ho _ He Hcmd Hk)).
      intros k Hin. apply Hu. by eapply replay_keeps. }
    assert (Hset : settled T key (World s1 p rs)); [|by destruct (settled_run q key T _ w (wrap64_range _) Hset Hw)].
    split_and!; [done|done|]. destruct Ht as [[_ Ht]|[Hni _]]; [done|]. destruct Hni.
    apply list_elem_of_fmap. exists x. split; [|done]. symmetry. apply Fsm.coerce_entry_clean.
    split_and!; [done| |apply FormatInt_valid]. apply Hu, Hq.
Qed.

(** Deciding [quiet] on a cache. *)
Lemma quiet_by_run {N} `{!GossipNode N} T key (w : world N) :
  (let data := GCM.gcm_data (Fsm.f_gcm (s_fsm (w_state w))) in
   forallb (fun kv => Utf8.valid kv.1) (map_to_list data) &&
   match data !! key with
   | Some v => forallb (fun nr => r_timeStamp nr.2 <=? T) (map_to_list (gm_tab (consensus v)))
   | None => false
   end) = true -> quiet T key w.
Proof.
  cbn zeta. rewrite andb_true_iff. intros [Hu Hr]. rewrite forallb_forall in Hu.
  destruct (GCM.gcm_data (Fsm.f_gcm (s_fsm (w_state w))) !! key) as [v|] eqn:Hv; [|done].
  rewrite forallb_forall in Hr. unfold quiet, GCM.report. rewrite Hv. split_and!; [by eexists| |].
  - intros n r Hn. rewrite gm_get_tab in Hn. apply Z.leb_le. apply (Hr (n, r)), list_elem_of_In.
    by apply elem_of_map_to_list.
  - intros k [v' Hk]. apply (Hu (k, v')), list_elem_of_In. by apply elem_of_map_to_list.
Qed.

(** The outage of [db] is announced at second 100; then an old report comes in,
    the command's result is recorded, and two more checks run. *)
Lemma alert_not_repeated_witness :
  let s := Alerts.demo_state GOSSIP_UP Alerts.three_down in
  let T := 100 * Time.Second in
  let r := ShellResult "db" GOSSIP_DOWN "paged" "" None in
  exists s1 w, quorumCheck1 Alerts.demo_config plain_orders (Alerts.demo_clock 100) None s = Ret (s1, tt) /\
    s_cmds s1 = [cmd_of Alerts.demo_config Alerts.demo_cm "db" GOSSIP_DOWN] /\
    rtc (quiet_step Alerts.demo_config T "db") (World s1 [] [r]) w /\ (s_step s1 < s_step (w_state w))%nat /\
    exists cs, s_cmds (w_state w) = s_cmds s1 ++ cs /\ Forall (fun c => ~ alarms "db" c) cs.
Proof.
  intros s T r. eexists. eexists.
  match goal with |- ?run = Ret (?s1, tt) /\ _ /\ rtc _ _ ?w /\ _ =>
    assert (Hrun : run = Ret (s1, tt)) by (vm_compute; reflexivity);
    assert (Hpath : rtc (quiet_step Alerts.demo_config T "db") (World s1 [] [r]) w) end.
  { eapply rtc_l; [split; [eapply (step_gossip _ (Msg (90 * Time.Second) "n4" "db" "10.0.0.1" GOSSIP_DOWN)); vm_compute; reflexivity
                           |apply quiet_by_run; vm_compute; reflexivity]|].
    eapply rtc_l; [split; [eapply (step_result _ r _ _ [] [] []); vm_compute; reflexivity
                           |apply quiet_by_run; vm_compute; reflexivity]|].
    eapply rtc_l; [split; [eapply (step_check _ Alerts.reversed_orders (Alerts.demo_clock 200) None _ _ []);
                             [apply Alerts.reversed_orders_valid|vm_compute; reflexivity|vm_compute; reflexivity]
                           |apply quiet_by_run; vm_compute; reflexivity]|].
    eapply rtc_l; [split; [eapply (step_check _ plain_orders (Alerts.demo_clock 300) None _ _ []);
                             [apply plain_orders_valid|vm_compute; reflexivity|vm_compute; reflexivity]
                           |apply quiet_by_run; vm_compute; reflexivity]|].
    apply rtc_refl. }
  split_and!; [exact Hrun|vm_compute; reflexivity|exact Hpath|cbn; lia|].
  refine (proj2 (alert_not_repeated Alerts.demo_config plain_orders (Alerts.demo_clock 100) None s _ _ _ "db" [] [r]
    plain_orders_valid _ Hrun _ _) _ _ _ Hpath).
  - by eexists.
  - vm_compute. reflexivity.
  - vm_compute. reflexivity.
  - vm_compute. left.
  - apply quiet_by_run. vm_compute. reflexivity.
Defined.

End Leader.
