(* ===== verification/Commands.v ===== *)
(** * The checker action by action: quorum.go under full interleaving

    [quorumCheck1] is a sequence of actions: entries it proposes to raft and
    commands it sends to the workers.  Here every action is a step of its own,
    and between two of them anything may happen: gossip arrives, clients write,
    the scavenger deletes, workers run, results are recorded.  The commands go
    through the unbuffered channels and the pool of [Pipeline]. *)

From S2P Require Import Prelude GoStd Base Json KVCache Delegate Gossip GossipCache Detector Fsm Pool Pipeline Quorum Protocol Alerts Leader.

Module Commands.

Import Quorum Protocol Leader.

Inductive action : Type :=
| Propose (e : logEntryData)
| Notify (key : string) (status : gossipStatus).

(** ** The actions of a check *)

Definition event_actions (q : config) (o : orders) (t : times) (key : string) (v : gossipConsensus) : list action :=
  if Time.Since (t_guard t) (prevEventTime v) <? interval q then [] else
  let '(event, pending, status) := hasEvent q o (t_votes t) v in
  (if pending then
     [Propose (stamp_entry CMD_NOTIFY_TIME key (t_stamp t)); Propose (Entry CMD_NOTIFY_STATUS key status)]
   else [])
  ++ if event then [Propose (stamp_entry CMD_NOTIFY_TIME key (t_stamp t)); Notify key status] else [].

Definition empty_actions (q : config) (o : orders) (t : times) (key : string) (v : gossipConsensus) : list action :=
  if Time.Since (t_guard t) (emptyTime v) <? interval q then [] else
  let '(recover, status) := emptyRecover q o (t_votes t) v in
  let stamp := Propose (stamp_entry CMD_NOTIFY_EMPTY_TIME key (t_stamp t)) in
  (if decide (status = GOSSIP_EMPTY) then if negb (empty v) then [stamp; Notify key status] else [] else [])
  ++ if recover then if empty v then [stamp; Notify key GOSSIP_EMPTY_RECOVER] else [] else [].

Definition check_actions (q : config) (o : orders) (clock : string -> times * times)
    (data : list (string * gossipConsensus)) : list action :=
  data ≫= fun kv => event_actions q o (clock kv.1).1 kv.1 kv.2 ++ empty_actions q o (clock kv.1).2 kv.1 kv.2.

Section System.

Context {N : Type} `{!GossipNode N}.

Implicit Types (s : Quorum.state N).

(** An action, uninterrupted. *)
Definition run_action (q : config) (a : action) : M (N := N) unit :=
  match a with
  | Propose e => _ ← notifyFollower e; skip
  | Notify key status => send_notification q key status
  end.

Fixpoint run_actions (q : config) (l : list action) : M (N := N) unit :=
  match l with
  | [] => skip
  | a :: l => _ ← run_action q a; run_actions q l
  end.

(** ** The interleaved system *)

Definition work s (c : timeoutShellCmd) s' : Prop := s' = s.
Definition emit s (c : timeoutShellCmd) (o : option shellCmdResult) : Prop :=
  exists exec leader, o = doTimeoutShellCmd exec leader c.
Definition take s (r : shellCmdResult) s' : Prop := quorumCheck2 r s = Ret (s', tt).

Abbreviation net := (Pipeline.net (Quorum.state N) timeoutShellCmd shellCmdResult).

Record system : Type := Sys {
  y_net : net;
  y_actions : list action      (** what the check in progress has still to do *)
}.

Definition with_state (n : net) s : net :=
  Pipeline.Net s (Pipeline.n_todo n) (Pipeline.n_disp n) (Pipeline.n_pool n) (Pipeline.n_running n) (Pipeline.n_worked n)
    (Pipeline.n_sending n) (Pipeline.n_done n) (Pipeline.n_releasing n) (Pipeline.n_leaving n) (Pipeline.n_consumer n)
    (Pipeline.n_cancelled n).

Definition with_todo (n : net) (l : list timeoutShellCmd) : net :=
  Pipeline.Net (Pipeline.n_state n) l (Pipeline.n_disp n) (Pipeline.n_pool n) (Pipeline.n_running n) (Pipeline.n_worked n)
    (Pipeline.n_sending n) (Pipeline.n_done n) (Pipeline.n_releasing n) (Pipeline.n_leaving n) (Pipeline.n_consumer n)
    (Pipeline.n_cancelled n).

Definition bump s : Quorum.state N := State (s_fsm s) (s_env s) (S (s_step s)) (s_applied s) (s_cmds s).

(** The checker and the workers at work.  A check that is at a send goes on
    when the dispatch loop has received the command. *)
Inductive move (q : config) : system -> system -> Prop :=
| move_propose n e l s' err :
    Pipeline.n_todo n = [] -> notifyFollower e (Pipeline.n_state n) = Ret (s', err) ->
    move q (Sys n (Propose e :: l)) (Sys (with_state n s') l)
| move_notify n key status l :
    Pipeline.n_todo n = [] ->
    move q (Sys n (Notify key status :: l))
           (Sys (with_todo n [cmd_of q (Fsm.f_cm (s_fsm (Pipeline.n_state n))) key status]) l)
| move_pipe n n' l :
    Pipeline.step work emit take n n' -> move q (Sys n l) (Sys n' l).

(** What starts a check or comes from elsewhere. *)
Inductive event (q : config) : system -> system -> Prop :=
| event_check n o clock barrier :
    valid_orders o -> Pipeline.n_todo n = [] ->
    event q (Sys n []) (Sys (with_state n (bump (Pipeline.n_state n)))
                          (check_actions q o clock (check_data o barrier (Pipeline.n_state n))))
| event_client n l e f :
    le_Cmd e ∈ [CMD_SET; CMD_DELETE] -> Fsm.run_event (s_fsm (Pipeline.n_state n)) (Fsm.Committed e) = Ret f ->
    event q (Sys n l) (Sys (with_state n (with_fsm (Pipeline.n_state n) f)) l)
| event_gossip n l m g :
    GCM.deliver (Fsm.f_gcm (s_fsm (Pipeline.n_state n))) m = Ret g ->
    event q (Sys n l) (Sys (with_state n (with_gcm (Pipeline.n_state n) g)) l)
| event_forget n l key :
    event q (Sys n l) (Sys (with_state n (with_gcm (Pipeline.n_state n)
                              (GCM.DelKey (Fsm.f_gcm (s_fsm (Pipeline.n_state n))) key))) l)
| event_forget_node n l key nodeAddr :
    event q (Sys n l) (Sys (with_state n (with_gcm (Pipeline.n_state n)
                              (GCM.DelNodeAddr (Fsm.f_gcm (s_fsm (Pipeline.n_state n))) key nodeAddr))) l).

Definition step (q : config) (y y' : system) : Prop := move q y y' \/ event q y y'.

Definition start (gnode : N) (env : nat -> bool * raft_reply) : system :=
  Sys (Pipeline.start 100 (w_state (Leader.start gnode env)) []) [].

(** No check runs, no command is under way. *)
Definition idle (y : system) : Prop := y_actions y = [] /\ Pipeline.finished (y_net y).

(** ** The invariant *)

Definition action_ok (a : action) : Prop :=
  match a with Propose e => sane e | Notify _ status => announced status end.

Definition waiting (n : net) : list timeoutShellCmd := Pipeline.pending n ++ Pipeline.n_worked n.

Definition sys_ok (y : system) : Prop :=
  let n := y_net y in
  (exists l, Pipeline.net_ok 100 l n) /\ ready (Pipeline.n_state n) /\ records_ok (s_fsm (Pipeline.n_state n)) /\
  Forall (fun c => announced (tsc_status c)) (waiting n) /\
  Forall (fun r => announced (scr_status r)) (Pipeline.n_sending n).*2 /\
  Forall action_ok (y_actions y).

(** The moves left until the system is idle, if nothing comes. *)
Definition effort (y : system) : nat := (9 * length (y_actions y) + Pipeline.remaining (y_net y))%nat.

(** ** Lemmas: a check is its actions *)

Lemma M_bind_assoc {A B C : Type} (m : M (N := N) A) (f : A -> M (N := N) B) (g : B -> M (N := N) C) s :
  ((m ≫= f) ≫= g) s = (m ≫= fun a => f a ≫= g) s.
Proof. unfold mbind, M_bind. by destruct (m s) as [[s' a]|]. Qed.

Lemma M_bind_ext {A B : Type} (m : M (N := N) A) (f g : A -> M (N := N) B) s :
  (forall a s', f a s' = g a s') -> (m ≫= f) s = (m ≫= g) s.
Proof. intros H. unfold mbind, M_bind. destruct (m s) as [[s' a]|]; [apply H|done]. Qed.

Lemma run_actions_app q l1 l2 s : run_actions q (l1 ++ l2) s = (_ ← run_actions q l1; run_actions q l2) s.
Proof.
  revert s. induction l1 as [|a l1 IH]; intros s; [done|]. cbn [app run_actions].
  rewrite M_bind_assoc. apply M_bind_ext. intros _ s'. apply IH.
Qed.

Ltac run_M :=
  cbv beta iota delta [mbind M_bind run_actions run_action skip mret M_ret app negb];
  repeat match goal with
  | |- context [notifyFollower ?e ?s] => destruct (notifyFollower e s) as [[? ?]|]; cbv beta iota
  | |- context [send_notification ?q ?k ?st ?s] => destruct (send_notification q k st s) as [[? []]|]; cbv beta iota
  end.

Lemma checkEvent_actions q o t key v s : checkEvent q o t key v s = run_actions q (event_actions q o t key v) s.
Proof.
  unfold checkEvent, event_actions. destruct (_ <? _); [done|].
  destruct (hasEvent q o (t_votes t) v) as [[event pending] status]. rewrite run_actions_app.
  destruct pending, event; by run_M.
Qed.

Lemma checkEmpty_actions q o t key v s : checkEmpty q o t key v s = run_actions q (empty_actions q o t key v) s.
Proof.
  unfold checkEmpty, empty_actions. destruct (_ <? _); [done|].
  destruct (emptyRecover q o (t_votes t) v) as [recover status]. rewrite run_actions_app.
  destruct (decide (status = GOSSIP_EMPTY)), (empty v), recover; by run_M.
Qed.

Lemma check_keys_actions q o clock data s : check_keys q o clock data s = run_actions q (check_actions q o clock data) s.
Proof.
  revert s. induction data as [|[key v] data IH]; intros s; [done|].
  change (check_actions q o clock ((key, v) :: data)) with
    ((event_actions q o (clock key).1 key v ++ empty_actions q o (clock key).2 key v) ++ check_actions q o clock data).
  rewrite <- app_assoc, !run_actions_app. cbn [check_keys]. unfold mbind, M_bind. rewrite checkEvent_actions.
  destruct (run_actions q _ s) as [[s1 []]|]; [|done]. rewrite run_actions_app. unfold mbind, M_bind.
  rewrite checkEmpty_actions. destruct (run_actions q _ s1) as [[s2 []]|]; [|done]. apply IH.
Qed.

(** ** Lemmas: what a check may propose and announce *)

Lemma event_actions_ok q o t key v : Forall action_ok (event_actions q o t key v).
Proof.
  unfold event_actions. destruct (_ <? _); [by apply Forall_nil|].
  destruct (hasEvent q o (t_votes t) v) as [[event pending] status] eqn:Hev.
  assert (Hs : sane (stamp_entry CMD_NOTIFY_TIME key (t_stamp t))) by (apply sane_stamp; set_solver).
  apply Forall_app. split; [destruct pending|destruct event]; try by apply Forall_nil.
  - apply judge_pending in Hev as (_ & _ & Hst & _). repeat (apply Forall_cons; split); [done| |by apply Forall_nil].
    apply sane_status. set_solver.
  - apply judge_event in Hev as (_ & _ & Hst). repeat (apply Forall_cons; split); [done| |by apply Forall_nil].
    unfold action_ok, announced. set_solver.
Qed.

Lemma empty_actions_ok q o t key v : Forall action_ok (empty_actions q o t key v).
Proof.
  unfold empty_actions. destruct (_ <? _); [by apply Forall_nil|].
  assert (Hs : sane (stamp_entry CMD_NOTIFY_EMPTY_TIME key (t_stamp t))) by (apply sane_stamp; set_solver).
  destruct (emptyRecover q o (t_votes t) v) as [recover status].
  assert (Hn : forall st, st ∈ [GOSSIP_EMPTY; GOSSIP_EMPTY_RECOVER] ->
    Forall action_ok [Propose (stamp_entry CMD_NOTIFY_EMPTY_TIME key (t_stamp t)); Notify key st]).
  { intros st Hst. repeat (apply Forall_cons; split); [done| |by apply Forall_nil]. unfold action_ok, announced. set_solver. }
  apply Forall_app. split; [case_decide as Hst; [|by apply Forall_nil]; destruct (empty v)|destruct recover, (empty v)];
    try (by apply Forall_nil); apply Hn; set_solver.
Qed.

Lemma check_actions_ok q o clock data : Forall action_ok (check_actions q o clock data).
Proof.
  induction data as [|[key v] data IH]; [by apply Forall_nil|]. apply Forall_app. split; [|exact IH].
  apply Forall_app. split; [apply event_actions_ok|apply empty_actions_ok].
Qed.

(** ** Lemmas: the invariant *)

Lemma proposed_ok e s s' err :
  sane e -> ready s -> records_ok (s_fsm s) -> notifyFollower e s = Ret (s', err) ->
  ready s' /\ records_ok (s_fsm s').
Proof.
  intros He Hr Hok Hrun. destruct (notifyFollower_proposes e s Hr) as (s1 & es & err1 & Hrun1 & (_ & _ & _ & Hf) & Hsub & _).
  rewrite Hrun in Hrun1. injection Hrun1 as <- <-.
  apply (sane_replay es (s_fsm s) (s_fsm s')); [|done|done|done].
  rewrite Forall_forall. intros e' He'. eapply elem_of_sublist in He'; [|exact Hsub].
  by apply list_elem_of_singleton in He' as ->.
Qed.

(** A change of the state alone. *)
Lemma sys_ok_state n l s :
  sys_ok (Sys n l) -> ready s -> records_ok (s_fsm s) -> sys_ok (Sys (with_state n s) l).
Proof. intros (Hn & _ & _ & Hw & Hs & Ha) Hr Hok. split_and!; [exact Hn|exact Hr|exact Hok|exact Hw|exact Hs|exact Ha]. Qed.

Lemma sys_ok_gcm n l g :
  sys_ok (Sys n l) ->
  (forall k, GCM.meta g k = GCM.meta (Fsm.f_gcm (s_fsm (Pipeline.n_state n))) k \/ GCM.meta g k = GCM.meta_of zero_consensus) ->
  sys_ok (Sys (with_state n (with_gcm (Pipeline.n_state n) g)) l).
Proof.
  intros Hy Hg. pose proof Hy as (_ & Hr & Hok & _). apply sys_ok_state; [done|done|]. by apply records_gcm.
Qed.

Lemma sys_ok_pipe n n' l : sys_ok (Sys n l) -> Pipeline.step work emit take n n' -> sys_ok (Sys n' l).
Proof.
  intros ((items & Hn) & Hr & Hok & Hw & Hs & Ha) Hstep.
  destruct (Pipeline.net_ok_step work emit take 100 items n n' Hn Hstep) as [Hn' _].
  cbn [y_net y_actions] in *. unfold sys_ok, waiting in *. cbn [y_net y_actions].
  split; [by exists items|]. destruct Hstep; unfold Pipeline.pending in *; cbn in *;
    rewrite ?fmap_app, ?Forall_app, ?Forall_cons, ?Forall_singleton in *; cbn in *; rewrite ?Forall_app, ?Forall_cons in *;
    try (split_and!; naive_solver).
  - unfold work in *. subst. split_and!; naive_solver.
  - destruct H as (exec & leader & H). symmetry in H. split_and!; try naive_solver.
    eapply announced_worker; [|exact H]. naive_solver.
  - unfold take in H. destruct (result_invariant y s s') as [? ?]; [naive_solver|done|done|done|]. split_and!; naive_solver.
Qed.

Lemma sys_ok_step q y y' : sys_ok y -> step q y y' -> sys_ok y'.
Proof.
  intros Hy [Hm|He].
  - destruct Hm as [n e l s' err Ht Hrun|n key status l Ht|n n' l Hs].
    + pose proof Hy as (Hn & Hr & Hok & Hw & Hsd & [He Hl]%Forall_cons).
      destruct (proposed_ok e _ s' err He Hr Hok Hrun) as [Hr' Hok'].
      split_and!; [exact Hn|exact Hr'|exact Hok'|exact Hw|exact Hsd|exact Hl].
    + pose proof Hy as ((items & Hn) & Hr & Hok & Hw & Hsd & [He Hl]%Forall_cons). cbn [y_net] in *. split_and!; try done.
      * exists (cmd_of q (Fsm.f_cm (s_fsm (Pipeline.n_state n))) key status :: items).
        destruct Hn as (Hp & Hrest). split; [|exact Hrest]. unfold Pipeline.pending, Pipeline.started in *. cbn.
        rewrite Ht in Hp. cbn in Hp. by rewrite Hp.
      * unfold waiting, Pipeline.pending in *. cbn. rewrite Ht in Hw. apply Forall_cons. split; [done|exact Hw].
    + by eapply sys_ok_pipe.
  - destruct He as [n o clock barrier Ho Ht|n l e f Hc Hrun|n l m g Hd|n l key|n l key na].
    + destruct Hy as (Hn & Hr & Hok & Hw & Hs & _). split_and!; try done. apply check_actions_ok.
    + pose proof Hy as (_ & [d Hd] & Hok & _). destruct (sane_committed _ e f d Hd) as [? ?]; [by apply sane_client|done|done|].
      by apply sys_ok_state.
    + apply sys_ok_gcm; [done|]. intros k. left. by eapply GCM.deliver_meta.
    + apply sys_ok_gcm; [done|]. intros k. rewrite GCM.DelKey_meta. case_decide; by auto.
    + apply sys_ok_gcm; [done|]. intros k. left. apply GCM.DelNodeAddr_meta.
Qed.

Lemma sys_ok_start gnode env : sys_ok (start gnode env).
Proof.
  destruct (invariant_start gnode env) as (Hr & Hok & _). split_and!; try done; [|by apply Forall_nil..].
  exists []. apply Pipeline.net_ok_start.
Qed.

Lemma sys_ok_reachable q gnode env y : rtc (step q) (start gnode env) y -> sys_ok y.
Proof.
  intros H. assert (Hi := sys_ok_start gnode env). induction H as [|y1 y2 y3 H1 _ IH]; [done|].
  by apply IH, (sys_ok_step q y1).
Qed.

(** ** Lemmas: no deadlock, and an end *)

Lemma sys_progress q y : sys_ok y -> (exists y', move q y y') \/ idle y.
Proof.
  intros ((items & Hn) & Hr & _). destruct y as [n l]. cbn [y_net] in *.
  assert (Hpipe : (exists n', Pipeline.step work emit take n n') \/ Pipeline.finished n).
  { apply (Pipeline.net_progress work emit take 100 items); [done|]. split_and!.
    - intros c _. by eexists.
    - intros c _. exists None. by exists (fun _ _ _ => ("", "")), false.
    - intros c r _. destruct (Alerts.quorumCheck2_proposes r (Pipeline.n_state n) Hr) as (s' & es & [] & Hrun & _).
      by exists s'. }
  destruct Hpipe as [[n' Hn']|Hf]; [left; eexists; by apply move_pipe|].
  destruct l as [|a l]; [by right|left]. destruct Hf as (Ht & _). destruct a as [e|key status].
  - destruct (notifyFollower_proposes e (Pipeline.n_state n) Hr) as (s' & es & err & Hrun & _).
    eexists. by eapply move_propose.
  - eexists. by apply move_notify.
Qed.

Lemma move_effort q y y' : sys_ok y -> move q y y' -> (effort y' < effort y)%nat.
Proof.
  intros ((items & Hn) & _) Hm. destruct Hm as [n e l s' err Ht Hrun|n key status l Ht|n n' l Hs]; unfold effort; cbn [y_net y_actions length] in *.
  - change (Pipeline.remaining (with_state n s')) with (Pipeline.remaining n). lia.
  - unfold Pipeline.remaining. cbn. rewrite Ht. cbn. lia.
  - destruct (Pipeline.net_ok_step work emit take 100 items n n' Hn Hs) as [_ Hlt]. lia.
Qed.

Lemma moves_bounded q k y y' : sys_ok y -> nsteps (move q) k y y' -> (k + effort y' <= effort y)%nat.
Proof.
  intros Hy H. induction H as [y|k y y1 y2 H1 _ IH]; [lia|].
  pose proof (move_effort q y y1 Hy H1). specialize (IH (sys_ok_step q y y1 Hy (or_introl H1))). lia.
Qed.

End System.

Arguments system : clear implicits.

(** ** Properties *)

(** A check is its actions: [quorumCheck1], run without interruption, reads
    the write flag and the barrier and then performs exactly the actions of the
    keys it has copied, in order. *)
Theorem check_is_its_actions {N} `{!GossipNode N} q o clock barrier (s : Quorum.state N) :
  quorumCheck1 q o clock barrier s = run_actions q (check_actions q o clock (check_data o barrier s)) (bump s).
Proof.
  unfold quorumCheck1, check_data, mbind, M_bind, next_env. fold (bump s).
  destruct (s_env s (s_step s)) as [leader answer]. destruct leader; cbn [fst negb]; [|done].
  destruct barrier as [err|]; [done|]. apply check_keys_actions.
Qed.

(** C6: checks under full interleaving: from the start of a node, however the
    actions of the checks interleave with workers, results, clients, gossip and
    the scavenger, every record is unset, UP or DOWN, and every command and
    result under way announces a status; at most a hundred workers run; a check
    in progress or a command under way can always move on, so nothing
    deadlocks; and without new events the node is idle after a bounded number
    of moves. *)
Theorem interleaved_checks {N} `{!GossipNode N} q (gnode : N) env y :
  rtc (step q) (start gnode env) y ->
  (forall k, record_status (GCM.meta (Fsm.f_gcm (s_fsm (Pipeline.n_state (y_net y)))) k) ∈ [""; GOSSIP_UP; GOSSIP_DOWN]) /\
  (forall c, c ∈ waiting (y_net y) -> announced (tsc_status c)) /\
  (Pipeline.workers (y_net y) <= 100)%nat /\
  ((exists y', move q y y') \/ idle y) /\
  (forall k y', nsteps (move q) k y y' -> (k <= effort y)%nat).
Proof.
  intros Hy%sys_ok_reachable. pose proof Hy as ((items & Hn) & _ & Hok & Hw & _). rewrite Forall_forall in Hw.
  split_and!; [exact Hok|exact Hw| |by apply sys_progress|].
  - destruct Hn as (_ & _ & Hq & Hqueue & _). destruct (Pipeline.n_disp (y_net y)); lia.
  - intros k y' Hk. pose proof (moves_bounded q k y y' Hy Hk). lia.
Qed.

(** A first report, a check with two entries to propose, and a client that writes
    before it has. *)
Lemma interleaved_checks_witness :
  exists y, rtc (step (Config 1 "./notify" 60)) (start (GNode.static_start "n1:1" ["n1:1"]) (fun _ => (true, RaftOk))) y /\
    length (y_actions y) = 2%nat /\
    exists y', move (Config 1 "./notify" 60) y y'.
Proof.
  assert (Hrun : exists y, rtc (step (Config 1 "./notify" 60)) (start (GNode.static_start "n1:1" ["n1:1"]) (fun _ => (true, RaftOk))) y /\
    length (y_actions y) = 2%nat).
  { eexists. split.
    - eapply rtc_l; [right; eapply (event_gossip _ _ _ (Msg 5000000000 "n1:1" "db" "h" GOSSIP_UP)); vm_compute; reflexivity|].
      eapply rtc_l; [right; apply (event_check _ _ plain_orders (Alerts.demo_clock 100) None); [apply plain_orders_valid|reflexivity]|].
      eapply rtc_once. right. eapply (event_client _ _ _ (Entry CMD_SET "db" "h")); [constructor|vm_compute; reflexivity].
    - vm_compute. reflexivity. }
  destruct Hrun as (y & Hy & Hl). exists y. split_and!; [exact Hy|exact Hl|].
  destruct (interleaved_checks (Config 1 "./notify" 60) (GNode.static_start "n1:1" ["n1:1"]) (fun _ => (true, RaftOk)) y Hy)
    as (_ & _ & _ & [Hm|[Hidle _]] & _); [exact Hm|]. rewrite Hidle in Hl. discriminate.
Defined.

End Commands.
