(* ===== verification/EndToEnd.v ===== *)
(** * From a probe to an alert: the components put together

    A verdict on one node becomes a report in its cache and a message in its
    queue (bridge.go, gossipCache.go), the queue's packets carry it to another
    node's inbox (memberlist's queue.go, delegate.go), [consumeGossip] merges
    it there (bridge.go), and the check of the leader turns enough of them into
    one alert (quorum.go).  The theorems follow a report through all of these
    with the real node over memberlist and the delegate. *)

From S2P Require Import Prelude GoStd Base Json KVCache Queue Delegate QueueFlow Gossip GossipCache Detector Bridge Fsm Quorum Protocol Alerts Leader.

Module EndToEnd.

Import Bridge.

Section Transport.

Context {ML : Type} `{!Memberlist ML}.

Abbreviation node := (GNode.gossipNode ML).

Implicit Types (a l : node) (b : bridge node) (ms : list MyBroadcastMessage).

Definition with_delegate a (d : Delegate.MyDelegate) : node :=
  GNode.MkNode (GNode.gn_addr a) (GNode.gn_memberlist a) d.

(** One packet from [a] that arrives at [l]: memberlist asks the delegate of
    [a] for messages and hands each to the delegate of [l].  The call is the
    retransmission limit, the overhead and the size limit. *)
Definition transmit (x : node * node) (call : Z * Z * Z) : outcome (node * node) :=
  let '(a, l) := x in
  let '(d, packet) := Delegate.GetBroadcasts (GNode.gn_delegate a) call.1.1 call.1.2 call.2 in
  d' ← foldlM Delegate.NotifyMsg (GNode.gn_delegate l) packet;
  Ret (with_delegate a d, with_delegate l d').

(** A node reports the verdict [output] at [now] and its next packets, one per
    call, arrive at [l]. *)
Definition report_to (l : node) (x : bridge node * (verifyOutput * Time.t) * list (Z * Z * Z)) : outcome node :=
  let '(b, (output, now), calls) := x in
  r ← makeGossip2 b output now;
  p ← foldlM transmit (GCM.gcm_gnode (b_gcm r.1), l) calls;
  Ret p.2.

(** The messages waiting on a node. *)
Definition outbox a : Queue.queue MyBroadcastMessage := Delegate.d_broadcasts (GNode.gn_delegate a).
Definition inbox a : list MyBroadcastMessage := Delegate.d_msgs (GNode.gn_delegate a).

(** ** Lemmas *)

(** The calls of a run, packet by packet. *)
Lemma run_out ops : forall q out,
  QueueFlow.run ops (q, out) =
  ((QueueFlow.run ops (q, [])).1, out ++ (QueueFlow.run ops (q, [])).2) :> Queue.queue MyBroadcastMessage * _.
Proof.
  unfold QueueFlow.run. induction ops as [|o ops IH]; intros q out; cbn [fold_left].
  { by rewrite app_nil_r. }
  destruct o as [m|tl ov li]; cbn [QueueFlow.run_op fst snd]; [by rewrite IH|].
  destruct (QueueFlow.send q tl ov li) as [q' sent]. rewrite IH, (IH q' ([] ++ sent)). cbn.
  by rewrite app_assoc.
Qed.

Lemma transmit_spec a l call :
  Forall Delegate.msg_clean (Queue.lb_b <$> Queue.q_tq (outbox a)) ->
  exists a' l', transmit (a, l) call = Ret (a', l') /\
    outbox a' = (QueueFlow.send (outbox a) call.1.1 call.1.2 call.2).1 /\
    inbox l' = inbox l ++ (QueueFlow.send (outbox a) call.1.1 call.1.2 call.2).2 /\
    outbox l' = outbox l /\ GNode.gn_addr l' = GNode.gn_addr l /\
    GNode.gn_memberlist l' = GNode.gn_memberlist l.
Proof.
  intros Hcl. unfold transmit, Delegate.GetBroadcasts. fold (outbox a).
  destruct (QueueFlow.send_forall _ (outbox a) call.1.1 call.1.2 call.2 Hcl) as [_ Hsent].
  rewrite QueueFlow.GetBroadcasts_send. cbn [fst snd].
  change (Message <$> ?x) with (Delegate.msg_Message <$> x).
  rewrite Delegate.NotifyMsg_all by done. by do 2 eexists.
Qed.

Lemma transmits_spec calls : forall a l,
  Forall Delegate.msg_clean (Queue.lb_b <$> Queue.q_tq (outbox a)) ->
  exists a' l', foldlM transmit (a, l) calls = Ret (a', l') /\
    inbox l' = inbox l ++ (QueueFlow.run (QueueFlow.sends calls) (outbox a, [])).2 /\
    outbox l' = outbox l /\ GNode.gn_addr l' = GNode.gn_addr l /\
    GNode.gn_memberlist l' = GNode.gn_memberlist l.
Proof.
  induction calls as [|[[tl ov] li] calls IH]; intros a l Hcl.
  { exists a, l. cbn. by rewrite app_nil_r. }
  destruct (transmit_spec a l (tl, ov, li) Hcl) as (a1 & l1 & H1 & Hout & Hin & Ho1 & Ha1 & Hm1).
  cbn [fst snd] in Hout, Hin.
  destruct (IH a1 l1) as (a2 & l2 & H2 & Hin2 & Ho2 & Ha2 & Hm2).
  { rewrite Hout. by apply QueueFlow.send_forall. }
  exists a2, l2. cbn [foldlM]. rewrite H1. cbn [mbind outcome_bind].
  split_and!; [done| |congruence..]. rewrite Hin2, Hin, Hout. unfold QueueFlow.sends.
  cbn [fmap list_fmap]. unfold QueueFlow.run at 2. cbn [fold_left QueueFlow.run_op fst snd].
  destruct (QueueFlow.send (outbox a) tl ov li) as [q' sent]. cbn [fst snd app].
  fold (QueueFlow.run ((fun c : Z * Z * Z => QueueFlow.Send c.1.1 c.1.2 c.2) <$> calls) (q', sent)).
  rewrite (run_out _ q' sent). cbn [snd]. by rewrite <- app_assoc.
Qed.

(** ** One sender *)

(** What a sender needs: a cache and stamps in order, a queue in order whose
    messages survive the JSON codec, and packets enough for all of it. *)
Definition sender_ok (T : Z) (x : bridge node * (verifyOutput * Time.t) * list (Z * Z * Z)) : Prop :=
  let '(b, (output, now), calls) := x in
  let q := outbox (GCM.gcm_gnode (b_gcm b)) in
  let q' := Queue.QueueBroadcast q (output_msg b output now) in
  GCM.writable (b_gcm b) /\ own_behind b /\ stamps_left b now /\ QueueFlow.flow_ok T q /\
  Forall Delegate.msg_clean (Queue.lb_b <$> Queue.q_tq q) /\ Delegate.msg_clean (output_msg b output now) /\
  Forall (fun c => c.1.1 <= T /\ QueueFlow.fits c.1.2 c.2 q') calls /\
  (QueueFlow.budgets T QueueFlow.all (Queue.q_tq q') <= length calls)%nat.

(** The message a sender adds, and all it may send. *)
Definition verdict_msg (x : bridge node * (verifyOutput * Time.t) * list (Z * Z * Z)) : MyBroadcastMessage :=
  output_msg x.1.1 x.1.2.1 x.1.2.2.

Definition may_send (x : bridge node * (verifyOutput * Time.t) * list (Z * Z * Z)) (m : MyBroadcastMessage) : Prop :=
  m = verdict_msg x \/ m ∈ Queue.lb_b <$> Queue.q_tq (outbox (GCM.gcm_gnode (b_gcm x.1.1))).

Lemma report_to_spec T l x :
  1 <= T -> sender_ok T x ->
  exists l' sent, report_to l x = Ret l' /\ inbox l' = inbox l ++ sent /\
    verdict_msg x ∈ sent /\ Forall (may_send x) sent /\
    outbox l' = outbox l /\ GNode.gn_addr l' = GNode.gn_addr l /\
    GNode.gn_memberlist l' = GNode.gn_memberlist l.
Proof.
  destruct x as [[b [output now]] calls]. intros HT (Hw & Hown & Hst & Hfl & Hcl & Hm & Hcalls & Hbud).
  unfold report_to. rewrite makeGossip2_spec by done. cbn [mbind outcome_bind fst b_gcm].
  set (m := output_msg b output now) in *. set (q := outbox (GCM.gcm_gnode (b_gcm b))) in *.
  set (a := GCM.gcm_gnode (GCM.stored (b_gcm b) m)).
  assert (Hq : outbox a = Queue.QueueBroadcast q m) by done.
  destruct (transmits_spec calls a l) as (a' & l' & Hrun & Hin & Ho & Ha & Hml).
  { rewrite Hq. by apply QueueFlow.enqueue_forall. }
  rewrite Hrun. cbn [mbind outcome_bind snd]. eexists l', _. split_and!; [done|exact Hin| | |done..]; rewrite Hq.
  - destruct (QueueFlow.enqueue_elem q m) as (y & Hy & H0 & Hb).
    destruct (QueueFlow.sends_drain T calls _ [] (QueueFlow.enqueue_flow T q _ HT Hfl) Hcalls Hbud)
      as (_ & _ & Hsent). specialize (Hsent y Hy H0). by rewrite Hb in Hsent.
  - apply QueueFlow.sends_forall; [|by apply Forall_nil]. apply QueueFlow.enqueue_forall; [by left|].
    apply Forall_forall. intros m' Hm'. by right.
Qed.

Lemma reports_spec T xs : 1 <= T -> forall l,
  Forall (sender_ok T) xs ->
  exists l' sent, foldlM report_to l xs = Ret l' /\ inbox l' = inbox l ++ sent /\
    Forall (fun x => verdict_msg x ∈ sent) xs /\
    Forall (fun m => exists x, x ∈ xs /\ may_send x m) sent /\
    outbox l' = outbox l /\ GNode.gn_addr l' = GNode.gn_addr l /\
    GNode.gn_memberlist l' = GNode.gn_memberlist l.
Proof.
  intros HT. induction xs as [|x xs IH]; intros l Hok.
  { exists l, []. cbn. by rewrite app_nil_r. }
  apply Forall_cons in Hok as [Hx Hok].
  destruct (report_to_spec T l x HT Hx) as (l1 & s1 & H1 & Hi1 & Hv1 & Hm1 & Ho1 & Ha1 & Hml1).
  destruct (IH l1 Hok) as (l2 & s2 & H2 & Hi2 & Hv2 & Hm2 & Ho2 & Ha2 & Hml2).
  exists l2, (s1 ++ s2). cbn [foldlM]. rewrite H1. cbn [mbind outcome_bind].
  split_and!; [done|by rewrite Hi2, Hi1, <- app_assoc| | |congruence..].
  - apply Forall_cons. split; [set_solver|]. eapply Forall_impl; [exact Hv2|]. set_solver.
  - rewrite Forall_app. rewrite !Forall_forall in *. split; [set_solver|].
    intros m (y & Hy & Hs)%Hm2. exists y. split; [by constructor|done].
Qed.

(** ** The receiver *)

Abbreviation sender := (bridge node * (verifyOutput * Time.t) * list (Z * Z * Z))%type.

(** All messages the receiver [l] may come to see from the senders. *)
Definition in_transit l (xs : list sender) (m : MyBroadcastMessage) : Prop :=
  m ∈ inbox l \/ exists x, x ∈ xs /\ may_send x m.

(** Nobody is ahead of a sender about itself: what the receiver's cache holds
    and what is in transit of its reports on the key is older than its verdict. *)
Definition not_ahead (g : GCM.gossipCacheManager node) (xs : list sender) (x : sender) : Prop :=
  let m := verdict_msg x in
  (forall r, GCM.report g (Key m) (Node m) = Some r -> r_timeStamp r < TimeStamp m) /\
  (forall m', in_transit (GCM.gcm_gnode g) xs m' -> GCM.about (Key m) (Node m) m' ->
              m' = m \/ TimeStamp m' < TimeStamp m).

(** After the packets of all senders and one [consumeGossip] the receiver
    holds the verdict of every sender, and reports of nobody it has not heard
    of. *)
Lemma verdicts_arrive T xs b :
  1 <= T -> Forall (sender_ok T) xs -> GCM.writable (b_gcm b) ->
  exists l' b', foldlM report_to (GCM.gcm_gnode (b_gcm b)) xs = Ret l' /\
    consumeGossip (with_gcm b (GCM.Gcm (GCM.gcm_data (b_gcm b)) l')) = Ret b' /\
    GCM.writable (b_gcm b') /\
    (forall x, x ∈ xs -> not_ahead (b_gcm b) xs x ->
       GCM.report (b_gcm b') (Key (verdict_msg x)) (Node (verdict_msg x)) =
       Some (GCM.msg_report (verdict_msg x))) /\
    (forall k n, is_Some (GCM.report (b_gcm b') k n) -> is_Some (GCM.report (b_gcm b) k n) \/
       exists m, in_transit (GCM.gcm_gnode (b_gcm b)) xs m /\ GCM.about k n m) /\
    (forall k, GCM.meta (b_gcm b') k = GCM.meta (b_gcm b) k).
Proof.
  intros HT Hok Hw. set (l := GCM.gcm_gnode (b_gcm b)).
  destruct (reports_spec T xs HT l Hok) as (l' & sent & Hrun & Hin & Hv & Hm & _).
  set (b1 := with_gcm b (GCM.Gcm (GCM.gcm_data (b_gcm b)) l')).
  destruct (consumeGossip_spec b1 Hw) as (b' & Hc & Hw' & _ & Hr & Hmeta & _).
  assert (Hmsgs : (GetMessages (GCM.gcm_gnode (b_gcm b1))).2 = inbox l ++ sent) by exact Hin.
  assert (Htr : forall m, m ∈ inbox l ++ sent -> in_transit l xs m).
  { rewrite Forall_forall in Hm. intros m [H|H]%elem_of_app; [by left|right; by apply Hm]. }
  exists l', b'. rewrite Hmsgs in Hr. split_and!; [done|done|done| | |done].
  - intros x Hx [Hold Hnew]. rewrite Hr. apply GCM.latest_newest; [|done|exact Hold|auto].
    rewrite Forall_forall in Hv. apply elem_of_app. right. by apply Hv.
  - intros k n [r Hkn]. rewrite Hr in Hkn. unfold GCM.latest in Hkn.
    destruct (GCM.fold_newer_max (filter (GCM.about k n) (inbox l ++ sent)) (GCM.report (b_gcm b1) k n))
      as ([Heq | (m & [Hab Hm']%list_elem_of_filter & _)] & _).
    + left. rewrite Heq in Hkn. by eexists.
    + right. exists m. auto.
Qed.

End Transport.

(** ** Properties *)

Import Quorum Protocol Alerts.

(** C13: a report reaches a peer: a node whose stamps and queue are in order
    reports a verdict; when as many of its next packets arrive at a peer as
    its queue may still cost, the peer's next [consumeGossip] returns and its
    cache holds exactly this verdict as the node's report on the key, the
    consensus records being untouched, provided nothing about the node's own
    report is ahead of the node. *)
Theorem report_reaches_peer {ML} `{!Memberlist ML} T b output now calls (peer : bridge (GNode.gossipNode ML)) :
  let x := (b, (output, now), calls) in
  1 <= T -> sender_ok T x -> GCM.writable (b_gcm peer) -> not_ahead (b_gcm peer) [x] x ->
  exists b1 p peer', makeGossip2 b output now = Ret (b1, (may_event b output, may_empty b output)) /\
    foldlM transmit (GCM.gcm_gnode (b_gcm b1), GCM.gcm_gnode (b_gcm peer)) calls = Ret p /\
    consumeGossip (with_gcm peer (GCM.Gcm (GCM.gcm_data (b_gcm peer)) p.2)) = Ret peer' /\
    GCM.report (b_gcm peer') (vo_key output) (Addr (GCM.gcm_gnode (b_gcm b))) =
      Some (Report (vo_status output) (next_stamp b now)) /\
    forall k, GCM.meta (b_gcm peer') k = GCM.meta (b_gcm peer) k.
Proof.
  intros x HT Hx Hw Hna. destruct (verdicts_arrive T [x] peer HT) as (l' & peer' & Hrun & Hc & _ & Hv & _ & Hm).
  { by apply Forall_singleton. } { done. }
  cbn [foldlM] in Hrun. apply bind_Ret_inv in Hrun as (l1 & Hrun & [= <-]).
  unfold report_to, x in Hrun. destruct Hx as (Hwb & Hown & Hst & _).
  rewrite makeGossip2_spec in Hrun |- * by done. cbn [mbind outcome_bind fst] in Hrun.
  apply bind_Ret_inv in Hrun as (p & Hp & [= <-]).
  eexists _, p, peer'. split_and!; [reflexivity|exact Hp|exact Hc| |exact Hm].
  apply (Hv x); [set_solver|done].
Qed.

(** ** The leader *)

Section Leader.

Context {N : Type} `{!GossipNode N}.

Implicit Types (g : GCM.gossipCacheManager N).

Lemma report_entry g key n r :
  GCM.report g key n = Some r ->
  exists v, GCM.gcm_data g !! key = Some v /\ GCM.meta g key = GCM.meta_of v /\
            forall n', GCM.report g key n' = gm_tab (consensus v) !! n'.
Proof.
  unfold GCM.report, GCM.meta. destruct (GCM.gcm_data g !! key) as [v|]; [|done]. intros _.
  exists v. split_and!; [done|done|]. intros n'. by rewrite gm_get_tab.
Qed.

(** Enough distinct nodes with a fresh report are enough supporters. *)
Lemma supporters_enough (v : gossipConsensus) since now st (ns : list string) :
  NoDup ns ->
  (forall n, n ∈ ns -> exists r, gm_tab (consensus v) !! n = Some r /\ fresh since (now n) r = true /\ r_status r = st) ->
  Z.of_nat (length ns) <= Z.of_nat (size (supporters since now (consensus v) st)).
Proof.
  intros Hnd Hns. apply Nat2Z.inj_le. rewrite <- (size_list_to_set (C := gset string)) by done.
  rewrite <- size_dom. apply subseteq_size. intros n Hn%elem_of_list_to_set.
  destruct (Hns n Hn) as (r & Hr & Hf & Hs). apply elem_of_dom. exists r. by apply map_lookup_filter_Some.
Qed.

(** Only members vote. *)
Lemma voters_within (v : gossipConsensus) since now (members : gset string) :
  (forall n, is_Some (gm_tab (consensus v) !! n) -> n ∈ members) ->
  (size (voters since now (consensus v)) <= size members)%nat.
Proof.
  intros Hm. rewrite <- size_dom. apply subseteq_size. intros n [r Hr]%elem_of_dom.
  apply Hm. exists r. by apply map_lookup_filter_Some in Hr as [Hr _].
Qed.

End Leader.

(** From probes to an alert: nodes whose verdict on a key contradicts the
    leader's record report it and, sender after sender, their packets reach
    the leader; whatever else their queues and the leader's inbox hold and
    whatever the iteration orders, the leader's next [consumeGossip] and check
    return, and the check sends exactly one command announcing the
    verdict, provided the reporting nodes are a quorum, the quorum is a
    majority of the nodes the leader can have heard of, the verdicts are fresh
    at the check, nothing about a sender's own report is ahead of the sender,
    and the event interval has passed. *)
Theorem outage_announced {ML} `{!Memberlist ML} T q o clock (s : Quorum.state (GNode.gossipNode ML)) det last
    (xs : list (bridge (GNode.gossipNode ML) * (verifyOutput * Time.t) * list (Z * Z * Z)))
    (members : gset string) key st :
  let g := Fsm.f_gcm (s_fsm s) in
  let b := MkBridge (Fsm.f_cm (s_fsm s)) g det last in
  let '(since, record, _, _) := GCM.meta g key in
  1 <= T -> Forall (sender_ok T) xs ->
  Forall (fun x => vo_key x.1.2.1 = key /\ vo_status x.1.2.1 = st /\ not_ahead g xs x /\
            fresh since (t_votes (clock key).1 (Node (verdict_msg x))) (GCM.msg_report (verdict_msg x)) = true) xs ->
  NoDup ((fun x => Node (verdict_msg x)) <$> xs) ->
  1 <= q_quorum q <= Z.of_nat (length xs) ->
  Z.of_nat (size members) < 2 * q_quorum q ->
  (forall n, is_Some (GCM.report g key n) \/
     (exists m, in_transit (GCM.gcm_gnode g) xs m /\ GCM.about key n m) -> n ∈ members) ->
  ready s -> GCM.writable g -> valid_orders o -> (s_env s (s_step s)).1 = true ->
  flips record st -> due q (clock key).1 since ->
  exists l' b' s' cs, foldlM report_to (GCM.gcm_gnode g) xs = Ret l' /\
    consumeGossip (with_gcm b (GCM.Gcm (GCM.gcm_data g) l')) = Ret b' /\
    quorumCheck1 q o clock None (Leader.with_gcm s (b_gcm b')) = Ret (s', tt) /\
    s_cmds s' = s_cmds s ++ cs /\
    filter (fun c => tsc_key c = key /\ tsc_status c = st) cs = [cmd_of q (Fsm.f_cm (s_fsm s)) key st].
Proof.
  intros g b. destruct (GCM.meta g key) as [[[since record] em] et] eqn:Hmeta.
  intros HT Hok Hxs Hnd Hq Hsize Hmem Hready Hw Ho Hlead Hflips Hdue.
  destruct (verdicts_arrive T xs b HT Hok Hw) as (l' & b' & Hrun & Hc & Hw' & Hv & Hheard & Hm).
  rewrite Forall_forall in Hxs.
  assert (Hrep : forall x, x ∈ xs -> GCM.report (b_gcm b') key (Node (verdict_msg x)) =
                                     Some (GCM.msg_report (verdict_msg x))).
  { intros x Hx. destruct (Hxs x Hx) as (<- & _ & Hna & _). exact (Hv x Hx Hna). }
  destruct xs as [|x0 xs0] eqn:Hxs0; [cbn in Hq; lia|]. rewrite <- Hxs0 in *.
  destruct (report_entry (b_gcm b') key _ _ (Hrep x0 ltac:(rewrite Hxs0; constructor))) as (v & Hlk & Hmv & Hgm).
  rewrite Hm in Hmv. change (b_gcm b) with g in Hmv. rewrite Hmeta in Hmv.
  injection Hmv as Hsince Hrecord _ _.
  destruct (raise_alert q o clock (Leader.with_gcm s (b_gcm b')) key v st) as (s' & cs & Hcheck & Hcs & Hone);
    [done|done|done|done|lia| |by rewrite <- Hrecord|by rewrite <- Hsince| |by exists l', b', s', cs].
  - rewrite <- Hsince. eapply Z.le_lt_trans; [|exact Hsize]. apply Nat2Z.inj_le, voters_within.
    intros n Hn. rewrite <- Hgm in Hn. apply Hmem. exact (Hheard key n Hn).
  - rewrite <- Hsince. etrans; [apply Hq|].
    rewrite <- (length_fmap (fun x => Node (verdict_msg x)) xs).
    apply supporters_enough; [done|]. intros n (x & -> & Hx)%list_elem_of_fmap.
    exists (GCM.msg_report (verdict_msg x)). rewrite <- Hgm.
    destruct (Hxs x Hx) as (_ & <- & _ & Hf). by split_and!; [apply Hrep| |].
Qed.

(** ** The hypotheses can hold *)

Definition demo_sender (addr : string) : bridge GNode.static_node * (verifyOutput * Time.t) * list (Z * Z * Z) :=
  (MkBridge (CacheManager (Some {["db" := "h"]})) (GCM.NewGossipCacheManager (GNode.static_start addr []))
     new_detector 0,
   (VerifyOutput "db" "h" GOSSIP_DOWN, 95 * Time.Second), [(2, 2, 1400); (2, 2, 1400)]).

Lemma demo_sender_ok addr :
  Utf8.valid addr = true -> (String.length (Delegate.msg_Message (verdict_msg (demo_sender addr))) < 1000)%nat ->
  sender_ok 2 (demo_sender addr).
Proof.
  intros Ha Hlen. unfold sender_ok, demo_sender. cbn [fst snd].
  set (b := MkBridge _ _ _ _). set (m := output_msg b _ _) in *.
  assert (Hfit : QueueFlow.fits 2 1400 (Queue.QueueBroadcast (outbox (GCM.gcm_gnode (b_gcm b))) m)).
  { split; [lia|]. apply Forall_singleton. cbn [Queue.lb_b].
    change (2 + Z.of_nat (String.length (Delegate.msg_Message m)) <= 1400).
    change (verdict_msg (demo_sender addr)) with m in Hlen. lia. }
  split_and!.
  - apply GCM.writable_new.
  - intros k r Hr. unfold GCM.report in Hr. cbn in Hr. by rewrite lookup_empty in Hr.
  - unfold stamps_left. split_and!; vm_compute; first [reflexivity | discriminate].
  - split_and!; [constructor|by apply Forall_nil|vm_compute; discriminate..].
  - by apply Forall_nil.
  - split_and!; [split; vm_compute; first [reflexivity | discriminate]|exact Ha|reflexivity..].
  - repeat (apply Forall_cons; split; [split; [cbn; lia|exact Hfit]|]). by apply Forall_nil.
  - cbn. lia.
Qed.

Lemma demo_not_ahead (g : GCM.gossipCacheManager GNode.static_node) addrs addr :
  (forall r, GCM.report g "db" addr = Some r -> r_timeStamp r < 95 * Time.Second) ->
  inbox (GCM.gcm_gnode g) = [] ->
  not_ahead g (demo_sender <$> addrs) (demo_sender addr).
Proof.
  intros Hr Hin. split.
  - intros r H. specialize (Hr r H). change (r_timeStamp r < 95 * Time.Second + 1). lia.
  - intros m' [H | (x & (a & -> & _)%list_elem_of_fmap & [-> | H])] [_ Hn].
    + rewrite Hin in H. by apply elem_of_nil in H.
    + left. change (a = addr) in Hn. by subst.
    + by apply elem_of_nil in H.
Qed.

Lemma report_reaches_peer_witness :
  let x := demo_sender "n1:1" in
  let peer := BridgeClaims.demo_bridge in
  exists b1 p peer',
    makeGossip2 x.1.1 x.1.2.1 x.1.2.2 = Ret (b1, (may_event x.1.1 x.1.2.1, may_empty x.1.1 x.1.2.1)) /\
    foldlM transmit (GCM.gcm_gnode (b_gcm b1), GCM.gcm_gnode (b_gcm peer)) x.2 = Ret p /\
    consumeGossip (with_gcm peer (GCM.Gcm (GCM.gcm_data (b_gcm peer)) p.2)) = Ret peer' /\
    GCM.report (b_gcm peer') "db" "n1:1" = Some (Report GOSSIP_DOWN 95000000001) /\
    forall k, GCM.meta (b_gcm peer') k = GCM.meta (b_gcm peer) k.
Proof.
  apply (report_reaches_peer 2 (demo_sender "n1:1").1.1 (VerifyOutput "db" "h" GOSSIP_DOWN) (95 * Time.Second)
           (demo_sender "n1:1").2 BridgeClaims.demo_bridge).
  - lia.
  - apply demo_sender_ok; [reflexivity|]. apply Nat.ltb_lt. vm_compute. reflexivity.
  - apply GCM.writable_new.
  - apply (demo_not_ahead _ ["n1:1"]); [|reflexivity].
    intros r Hr. unfold GCM.report in Hr. cbn in Hr. by rewrite lookup_empty in Hr.
Defined.

Lemma outage_announced_witness :
  let s := demo_state GOSSIP_UP (Some ∅) in
  let g := Fsm.f_gcm (s_fsm s) in
  let xs := demo_sender <$> ["n1:1"; "n2:1"; "n3:1"] in
  exists l' b' s' cs, foldlM report_to (GCM.gcm_gnode g) xs = Ret l' /\
    consumeGossip (with_gcm (MkBridge (Fsm.f_cm (s_fsm s)) g new_detector 0) (GCM.Gcm (GCM.gcm_data g) l')) = Ret b' /\
    quorumCheck1 demo_config plain_orders (demo_clock 100) None (Leader.with_gcm s (b_gcm b')) = Ret (s', tt) /\
    s_cmds s' = s_cmds s ++ cs /\
    filter (fun c => tsc_key c = "db" /\ tsc_status c = GOSSIP_DOWN) cs =
      [cmd_of demo_config (Fsm.f_cm (s_fsm s)) "db" GOSSIP_DOWN].
Proof.
  set (addrs := ["n1:1"; "n2:1"; "n3:1"]).
  assert (Hno : forall n, GCM.report (demo_gcm GOSSIP_UP (Some ∅)) "db" n = None).
  { intros n. unfold GCM.report, demo_gcm. cbn [GCM.gcm_data]. rewrite lookup_singleton_eq. apply lookup_empty. }
  apply (outage_announced 2 demo_config plain_orders (demo_clock 100) (demo_state GOSSIP_UP (Some ∅)) new_detector 0
           (demo_sender <$> addrs) (list_to_set addrs) "db" GOSSIP_DOWN).
  - lia.
  - repeat (apply Forall_cons; split;
      [apply demo_sender_ok; [reflexivity|apply Nat.ltb_lt; vm_compute; reflexivity]|]). by apply Forall_nil.
  - apply Forall_fmap, Forall_forall. intros a Ha. unfold compose.
    split_and!; [done|done|apply demo_not_ahead; [|reflexivity]|vm_compute; reflexivity].
    intros r. change (GCM.report (demo_gcm GOSSIP_UP (Some ∅)) "db" a = Some r -> r_timeStamp r < 95 * Time.Second).
    by rewrite Hno.
  - apply (bool_decide_unpack (NoDup addrs)). vm_compute. exact I.
  - cbn. lia.
  - vm_compute. reflexivity.
  - intros n [[r Hr] | (m & [H | (x & (a & -> & Ha)%list_elem_of_fmap & [-> | H])] & [_ Hn])].
    + change (GCM.report (demo_gcm GOSSIP_UP (Some ∅)) "db" n = Some r) in Hr. by rewrite Hno in Hr.
    + by apply elem_of_nil in H.
    + change (a = n) in Hn. subst a. by apply elem_of_list_to_set.
    + by apply elem_of_nil in H.
  - by eexists.
  - apply map_Forall_singleton. by eexists.
  - apply plain_orders_valid.
  - reflexivity.
  - left. done.
  - vm_compute. discriminate.
Defined.

End EndToEnd.
