(* ===== verification/GossipNet.v ===== *)
(** * The gossip network: every node of a cluster and the packets between them

    The nodes of main.go side by side: each runs [makeGossip2],
    [consumeGossip] and the scavenger on its own cache, memberlist moves
    packets between their delegates, and raft changes tables and consensus
    records.  The network is asynchronous: a packet arrives at any time later,
    several times, or never, and the goroutines of a node interleave at their
    critical sections, so [consumeGossip] and the scavenger are sequences of
    actions.  The invariant says that gossip is authentic everywhere and that
    no node can panic in it. *)

From S2P Require Import Prelude GoStd Base Json KVCache Queue Delegate QueueFlow Gossip GossipCache Detector Bridge Fsm EndToEnd.

Module GossipNet.

Import Bridge EndToEnd.

Section Network.

Context {ML : Type} `{!Memberlist ML}.

Abbreviation node := (GNode.gossipNode ML).

(** A node: what its goroutines work on, and the messages [consumeGossip] has
    collected and not yet merged. *)
Record member : Type := Member {
  m_bridge : bridge node;
  m_pending : list MyBroadcastMessage
}.

(** The cluster: its nodes by gossip address, the packets on the wire with
    their targets, and every report a node has made. *)
Record net : Type := Net {
  nt_nodes : gmap string member;
  nt_wire : list (string * list string);
  nt_made : list MyBroadcastMessage
}.

Inductive action : Type :=
  (** One turn of [makeGossip2]: a verdict is stamped and stored. *)
  | Verdict (a : string) (output : verifyOutput) (now : Time.t)
  (** Memberlist asks [a] for a packet to [c]; one of the packets arrives. *)
  | Emit (a c : string) (call : Z * Z * Z)
  | Arrive (i : nat)
  (** [consumeGossip] collects the inbox, and merges one of the messages. *)
  | Collect (a : string)
  | Merge (a : string)
  (** The two critical sections of the scavenger. *)
  | DropKey (a key : string)
  | DropNode (a key nodeAddr : string)
  (** Raft hands a committed entry to [Apply]; the windows of the detector or
      the member list change. *)
  | Commit (a : string) (e : logEntryData)
  | Local (a : string) (d : Detector) (ml : ML).

Implicit Types (s : net) (x : member) (a c : string) (n : node).

Definition m_node x : node := GCM.gcm_gnode (b_gcm (m_bridge x)).

(** The table and the cache are what the state machine of the node works on. *)
Definition m_fsm x : Fsm.fsm_state node := Fsm.FsmState (b_cm (m_bridge x)) (b_gcm (m_bridge x)).

Definition with_node (b : bridge node) n : bridge node :=
  with_gcm b (GCM.Gcm (GCM.gcm_data (b_gcm b)) n).

Definition put s a x : net := Net (<[a := x]> (nt_nodes s)) (nt_wire s) (nt_made s).

(** The node [a] at work; an address nobody has does nothing. *)
Definition on s a (f : member -> outcome net) : outcome net :=
  match nt_nodes s !! a with Some x => f x | None => Ret s end.

Definition act s (o : action) : outcome net :=
  match o with
  | Verdict a output now => on s a (fun x =>
      r ← makeGossip2 (m_bridge x) output now;
      Ret (Net (<[a := Member r.1 (m_pending x)]> (nt_nodes s)) (nt_wire s)
             (nt_made s ++ [output_msg (m_bridge x) output now])))
  | Emit a c call => on s a (fun x =>
      let '(d, packet) := Delegate.GetBroadcasts (GNode.gn_delegate (m_node x)) call.1.1 call.1.2 call.2 in
      Ret (Net (<[a := Member (with_node (m_bridge x) (with_delegate (m_node x) d)) (m_pending x)]> (nt_nodes s))
             (nt_wire s ++ [(c, packet)]) (nt_made s)))
  | Arrive i =>
      match nt_wire s !! i with
      | None => Ret s
      | Some (c, packet) => on s c (fun x =>
          d ← foldlM Delegate.NotifyMsg (GNode.gn_delegate (m_node x)) packet;
          Ret (put s c (Member (with_node (m_bridge x) (with_delegate (m_node x) d)) (m_pending x))))
      end
  | Collect a => on s a (fun x =>
      let '(n, msgs) := GetMessages (m_node x) in
      Ret (put s a (Member (with_node (m_bridge x) n) (m_pending x ++ msgs))))
  | Merge a => on s a (fun x =>
      match m_pending x with
      | [] => Ret s
      | m :: ms => g ← GCM.deliver (b_gcm (m_bridge x)) m; Ret (put s a (Member (with_gcm (m_bridge x) g) ms))
      end)
  | DropKey a key => on s a (fun x =>
      Ret (put s a (Member (with_gcm (m_bridge x) (GCM.DelKey (b_gcm (m_bridge x)) key)) (m_pending x))))
  | DropNode a key nodeAddr => on s a (fun x =>
      Ret (put s a (Member (with_gcm (m_bridge x) (GCM.DelNodeAddr (b_gcm (m_bridge x)) key nodeAddr)) (m_pending x))))
  | Commit a e => on s a (fun x =>
      r ← Fsm.Apply (m_fsm x) (Fsm.marshal_entry e);
      Ret (put s a (Member (MkBridge (Fsm.f_cm r.1) (Fsm.f_gcm r.1) (b_detector (m_bridge x))
                              (b_lastTimeStamp (m_bridge x))) (m_pending x))))
  | Local a d ml => on s a (fun x =>
      Ret (put s a (Member (MkBridge (b_cm (m_bridge x)) (GCM.Gcm (GCM.gcm_data (b_gcm (m_bridge x)))
                              (GNode.MkNode (GNode.gn_addr (m_node x)) ml (GNode.gn_delegate (m_node x))))
                            d (b_lastTimeStamp (m_bridge x))) (m_pending x))))
  end.

Definition acts s (os : list action) : outcome net := foldlM act s os.

(** What an action needs: stamps that do not overflow and fields the JSON codec
    carries for a report, a retransmission limit of at most [T] for a packet,
    and a gossip entry for a committed entry that notifies: a setter would
    otherwise create one whose reports are a nil map. *)
Definition enabled (T : Z) s (o : action) : Prop :=
  match o with
  | Verdict a output now => forall x, nt_nodes s !! a = Some x ->
      stamps_left (m_bridge x) now /\ Delegate.msg_clean (output_msg (m_bridge x) output now)
  | Emit _ _ call => call.1.1 <= T
  | Commit a e => forall x, nt_nodes s !! a = Some x -> Fsm.known (m_fsm x) (Fsm.coerce_entry e)
  | _ => True
  end.

(** The cluster as main.go starts it, each node with its view of the members. *)
Definition start_member (a : string) (ml : ML) : member :=
  Member (MkBridge KV.NewCacheManager (GCM.NewGossipCacheManager (GNode.MkNode a ml (Delegate.new_delegate a)))
            new_detector 0) [].

Definition start (cfg : gmap string ML) : net :=
  Net (map_imap (fun a ml => Some (start_member a ml)) cfg) [] [].

Inductive reachable (T : Z) (cfg : gmap string ML) : net -> Prop :=
  | reach_start : reachable T cfg (start cfg)
  | reach_act s o s' : reachable T cfg s -> enabled T s o -> act s o = Ret s' -> reachable T cfg s'.

(** ** The invariant *)

(** A report in a cache was made by the node it names. *)
Definition authentic (made : list MyBroadcastMessage) (g : GCM.gossipCacheManager node) : Prop :=
  forall k (n' : string) r, GCM.report g k n' = Some r -> exists m, m ∈ made /\ GCM.about k n' m /\ r = GCM.msg_report m.

Definition member_ok (T : Z) (made : list MyBroadcastMessage) (a : string) x : Prop :=
  let b := m_bridge x in
  GNode.gn_addr (m_node x) = a /\ (is_Some (cm_data (b_cm b)) /\ GCM.writable (b_gcm b)) /\ QueueFlow.flow_ok T (outbox (m_node x)) /\
  Forall (.∈ made) (Queue.lb_b <$> Queue.q_tq (outbox (m_node x))) /\
  Forall (.∈ made) (inbox (m_node x)) /\ Forall (.∈ made) (m_pending x) /\
  authentic made (b_gcm b) /\ MinInt64 <= b_lastTimeStamp b /\
  (forall m, m ∈ made -> Node m = a -> TimeStamp m <= b_lastTimeStamp b).

(** What was made: by a node of the cluster, fit for the wire, and no node
    stamps two reports alike. *)
Definition made_ok (nodes : gmap string member) (made : list MyBroadcastMessage) : Prop :=
  (forall m, m ∈ made -> Delegate.msg_clean m /\ is_Some (nodes !! Node m)) /\
  (forall m1 m2, m1 ∈ made -> m2 ∈ made -> Node m1 = Node m2 -> TimeStamp m1 = TimeStamp m2 -> m1 = m2).

Definition wire_ok (made : list MyBroadcastMessage) (p : string * list string) : Prop :=
  exists ms, p.2 = Delegate.msg_Message <$> ms /\ Forall (.∈ made) ms.

Definition net_ok (T : Z) s : Prop :=
  map_Forall (member_ok T (nt_made s)) (nt_nodes s) /\ made_ok (nt_nodes s) (nt_made s) /\
  Forall (wire_ok (nt_made s)) (nt_wire s).

End Network.

Arguments member : clear implicits.
Arguments net : clear implicits.
Arguments action : clear implicits.

(** ** Lemmas *)

Section Facts.

Context {ML : Type} `{!Memberlist ML}.

Abbreviation node := (GNode.gossipNode ML).

Implicit Types (s : net ML) (x : member ML) (a c : string) (n : node) (m : MyBroadcastMessage).

Lemma on_some s a x (f : member ML -> outcome (net ML)) : nt_nodes s !! a = Some x -> on s a f = f x.
Proof. unfold on. by intros ->. Qed.

(** A node whose cache, queues and pending messages stay in order may change
    while the reports made stay. *)
Lemma put_ok T s a x :
  net_ok T s -> is_Some (nt_nodes s !! a) -> member_ok T (nt_made s) a x -> net_ok T (put s a x).
Proof.
  intros (Hn & [Hm Hu] & Hw) Ha Hx. split_and!; cbn; [by apply map_Forall_insert_2| |done].
  split; [|done]. intros m Hin. destruct (Hm m Hin) as [Hc Hs]. split; [done|].
  apply lookup_insert_is_Some'. by right.
Qed.

Lemma made_clean T s (ms : list MyBroadcastMessage) :
  net_ok T s -> Forall (.∈ nt_made s) ms -> Forall Delegate.msg_clean ms.
Proof. intros (_ & [Hm _] & _) HF. eapply Forall_impl; [exact HF|]. intros m Hin. by apply Hm. Qed.

(** More reports elsewhere do not disturb a node. *)
Lemma member_ok_mono T made a x m :
  Node m <> a -> member_ok T made a x -> member_ok T (made ++ [m]) a x.
Proof.
  intros Hne (Ha & [Ht Hw] & Hf & Ho & Hi & Hp & Hau & Hmin & Hl).
  assert (Hsub : forall ms, Forall (.∈ made) ms -> Forall (.∈ made ++ [m]) ms).
  { intros ms HF. eapply Forall_impl; [exact HF|]. intros m' H. cbn in *. set_solver. }
  split_and!; auto.
  - intros k n' r Hr. destruct (Hau k n' r Hr) as (m' & Hin & ?). exists m'. split; [set_solver|done].
  - intros m' [Hin | ->%list_elem_of_singleton]%elem_of_app; [by apply Hl|done].
Qed.

(** A delivery of a report that was made: the queue takes it, the rest of the
    node stays. *)
Lemma deliver_ok T made a x (g : GCM.gossipCacheManager node) m ms :
  1 <= T -> member_ok T made a x -> m ∈ made -> Forall (.∈ made) ms ->
  GCM.deliver (b_gcm (m_bridge x)) m = Ret g -> member_ok T made a (Member (with_gcm (m_bridge x) g) ms).
Proof.
  intros HT (Ha & [Ht Hw] & Hf & Ho & Hi & Hp & Hau & Hmin & Hl) Hm Hms Hd.
  destruct (GCM.deliver_spec _ m Hw) as (g' & Hd' & Hw' & Hr & _ & Hg). rewrite Hd in Hd'. injection Hd' as <-.
  unfold member_ok, m_node in *. cbn [m_bridge m_pending with_gcm b_gcm b_lastTimeStamp] in *. rewrite Hg.
  assert (Hau' : authentic made g).
  { intros k n' r. rewrite Hr. case_decide as Hab; [|exact (Hau k n' r)]. unfold GCM.newer.
    destruct (GCM.accepts (GCM.report _ k n') m); [|exact (Hau k n' r)]. intros [= <-]. by exists m. }
  case_match; [|by split_and!]. split_and!; try done.
  - change (outbox _) with (Queue.QueueBroadcast (outbox (GCM.gcm_gnode (b_gcm (m_bridge x)))) m).
    by apply QueueFlow.enqueue_flow.
  - change (outbox _) with (Queue.QueueBroadcast (outbox (GCM.gcm_gnode (b_gcm (m_bridge x)))) m).
    by apply QueueFlow.enqueue_forall.
Qed.

(** Changes of the cache that add no report. *)
Lemma cache_ok T made a x (g : GCM.gossipCacheManager node) :
  member_ok T made a x -> GCM.gcm_gnode g = m_node x -> GCM.writable g ->
  (forall k (n' : string) r, GCM.report g k n' = Some r -> GCM.report (b_gcm (m_bridge x)) k n' = Some r) ->
  member_ok T made a (Member (with_gcm (m_bridge x) g) (m_pending x)).
Proof.
  intros (Ha & [Ht Hw] & Hf & Ho & Hi & Hp & Hau & Hmin & Hl) Hg Hw' Hr. unfold member_ok, m_node in *.
  cbn [m_bridge m_pending with_gcm b_gcm b_lastTimeStamp]. rewrite Hg. split_and!; try done.
  intros k n' r H. by apply Hau, Hr.
Qed.

Lemma own_stamps T made a x : member_ok T made a x -> own_behind (m_bridge x).
Proof.
  intros (Ha & _ & _ & _ & _ & _ & Hau & _ & Hl) k r Hr.
  change (Addr (GCM.gcm_gnode (b_gcm (m_bridge x)))) with (GNode.gn_addr (m_node x)) in Hr. rewrite Ha in Hr.
  destruct (Hau k a r Hr) as (m & Hin & [_ Hn] & ->). by apply Hl.
Qed.

(** The delegate of a node may change when its queues stay in order. *)
Lemma delegate_ok T made a x n ms :
  member_ok T made a x -> GNode.gn_addr n = GNode.gn_addr (m_node x) ->
  QueueFlow.flow_ok T (outbox n) -> Forall (.∈ made) (Queue.lb_b <$> Queue.q_tq (outbox n)) ->
  Forall (.∈ made) (inbox n) -> Forall (.∈ made) ms ->
  member_ok T made a (Member (with_node (m_bridge x) n) ms).
Proof.
  intros (Ha & [Ht Hw] & _ & _ & _ & _ & Hau & Hmin & Hl) Hn Hf Ho Hi Hms. unfold member_ok, m_node in *.
  cbn [m_bridge m_pending with_node with_gcm b_gcm b_lastTimeStamp GCM.gcm_gnode].
  split_and!; try done. by rewrite Hn.
Qed.

(** ** Every action keeps the invariant *)

Lemma sub_snoc (made ms : list MyBroadcastMessage) m : Forall (.∈ made) ms -> Forall (.∈ made ++ [m]) ms.
Proof. intros HF. eapply Forall_impl; [exact HF|]. intros m' H. cbn in *. set_solver. Qed.

(** The node that reports. *)
Definition reported x output now : member ML :=
  Member (MkBridge (b_cm (m_bridge x)) (GCM.stored (b_gcm (m_bridge x)) (output_msg (m_bridge x) output now))
            (b_detector (m_bridge x)) (next_stamp (m_bridge x) now)) (m_pending x).

Lemma reported_ok T made a x output now :
  1 <= T -> member_ok T made a x -> b_lastTimeStamp (m_bridge x) < next_stamp (m_bridge x) now ->
  member_ok T (made ++ [output_msg (m_bridge x) output now]) a (reported x output now).
Proof.
  intros HT (Ha & [Ht Hw] & Hf & Ho & Hi & Hp & Hau & Hmin & Hl) Hpast. unfold member_ok, m_node, reported in *.
  cbn [m_bridge m_pending b_gcm b_lastTimeStamp]. set (m := output_msg (m_bridge x) output now).
  split_and!; [exact Ha|exact Ht|by apply GCM.stored_writable| | |exact (sub_snoc _ _ _ Hi)|exact (sub_snoc _ _ _ Hp)| |lia|].
  - change (outbox _) with (Queue.QueueBroadcast (outbox (m_node x)) m). by apply QueueFlow.enqueue_flow.
  - change (outbox _) with (Queue.QueueBroadcast (outbox (m_node x)) m).
    apply QueueFlow.enqueue_forall; [set_solver|exact (sub_snoc _ _ _ Ho)].
  - intros k n' r. rewrite GCM.stored_report. case_decide as Hab.
    { intros [= <-]. exists m. split_and!; [set_solver|done..]. }
    intros Hr. destruct (Hau k n' r Hr) as (m' & Hin & ?). exists m'. split; [set_solver|done].
  - intros m' [Hin | ->%list_elem_of_singleton]%elem_of_app Hna; [|done]. specialize (Hl m' Hin Hna). lia.
Qed.

(** The reports made, one more of them with a stamp of its own. *)
Lemma made_snoc (nodes : gmap string (member ML)) made m x :
  made_ok nodes made -> Delegate.msg_clean m ->
  (forall m', m' ∈ made -> Node m' = Node m -> TimeStamp m' < TimeStamp m) ->
  made_ok (<[Node m := x]> nodes) (made ++ [m]).
Proof.
  intros [Hm Hu] Hcl Hnew. split.
  - intros m' [Hin | ->%list_elem_of_singleton]%elem_of_app.
    + destruct (Hm m' Hin) as [? ?]. split; [done|]. apply lookup_insert_is_Some'. by right.
    + split; [done|]. by rewrite lookup_insert_eq.
  - intros m1 m2 [H1 | ->%list_elem_of_singleton]%elem_of_app [H2 | ->%list_elem_of_singleton]%elem_of_app Hno Hts;
      [by apply Hu|exfalso..|done].
    + specialize (Hnew m1 H1 Hno). lia.
    + specialize (Hnew m2 H2 (eq_sym Hno)). lia.
Qed.

Lemma verdict_ok T s a x output now :
  1 <= T -> net_ok T s -> nt_nodes s !! a = Some x ->
  stamps_left (m_bridge x) now -> Delegate.msg_clean (output_msg (m_bridge x) output now) ->
  let s' := Net (<[a := reported x output now]> (nt_nodes s)) (nt_wire s)
              (nt_made s ++ [output_msg (m_bridge x) output now]) in
  act s (Verdict a output now) = Ret s' /\ net_ok T s'.
Proof.
  intros HT (Hn & Hm & Hwi) Hx Hst Hcl s'. pose proof (Hn a x Hx) as Hok.
  pose proof (own_stamps _ _ _ _ Hok) as Hown. pose proof Hok as (Ha & [Ht Hw] & _ & _ & _ & _ & _ & _ & Hl).
  cbn [act]. rewrite (on_some _ _ x), makeGossip2_spec by done. split; [done|]. subst s'.
  destruct Hst as (Hnow & Hmin & Hmax). destruct (next_stamp_past (m_bridge x) now Hnow Hmax Hmin) as (Hpast & _ & _).
  set (m := output_msg (m_bridge x) output now) in *. assert (Hma : Node m = a) by exact Ha.
  split_and!; cbn.
  - intros c y [[<- <-] | [Hne Hy]]%lookup_insert_Some; [by apply reported_ok|].
    apply member_ok_mono; [congruence|by apply Hn].
  - rewrite <- Hma. apply made_snoc; [done|done|]. intros m' Hin Hno. rewrite Hma in Hno.
    specialize (Hl m' Hin Hno). change (TimeStamp m) with (next_stamp (m_bridge x) now). lia.
  - eapply Forall_impl; [exact Hwi|]. intros p (ms & Hp2 & HF). exists ms. split; [done|by apply sub_snoc].
Qed.

(** A packet leaves: it holds reports that were made. *)
Lemma emit_ok T s a c x call :
  net_ok T s -> nt_nodes s !! a = Some x -> call.1.1 <= T ->
  let snt := QueueFlow.send (outbox (m_node x)) call.1.1 call.1.2 call.2 in
  let d := GNode.gn_delegate (m_node x) in
  let x' := Member (with_node (m_bridge x) (with_delegate (m_node x)
              (Delegate.MkDelegate (Delegate.d_meta d) (Delegate.d_state d) (Delegate.d_remoteState d) snt.1
                 (Delegate.d_msgs d)))) (m_pending x) in
  let s' := Net (<[a := x']> (nt_nodes s)) (nt_wire s ++ [(c, Delegate.msg_Message <$> snt.2)]) (nt_made s) in
  act s (Emit a c call) = Ret s' /\ net_ok T s' /\ Forall (.∈ nt_made s) snt.2.
Proof.
  intros Hs Hx Htl snt d x' s'. pose proof Hs as (Hn & _ & Hwi).
  pose proof (Hn a x Hx) as Hok. pose proof Hok as (_ & _ & Hf & Ho & Hi & Hp & _).
  destruct (QueueFlow.send_forall _ (outbox (m_node x)) call.1.1 call.1.2 call.2 Ho) as [Ho' Hsent].
  cbn [act]. rewrite (on_some _ _ x) by done. unfold Delegate.GetBroadcasts. fold (outbox (m_node x)).
  rewrite QueueFlow.GetBroadcasts_send. split; [done|]. split; [|exact Hsent].
  assert (Hx' : member_ok T (nt_made s) a x').
  { apply delegate_ok; [done|done|by apply QueueFlow.send_flow|exact Ho'|exact Hi|exact Hp]. }
  destruct (put_ok T s a x' Hs (mk_is_Some _ _ Hx) Hx') as (Hn' & Hm' & _). split_and!; [exact Hn'|exact Hm'|].
  apply Forall_app. split; [done|]. apply Forall_singleton. by eexists.
Qed.

(** A packet arrives: its messages join the inbox. *)
Lemma arrive_ok T s i c packet x ms :
  net_ok T s -> nt_wire s !! i = Some (c, packet) -> nt_nodes s !! c = Some x ->
  packet = Delegate.msg_Message <$> ms -> Forall (.∈ nt_made s) ms ->
  let d := GNode.gn_delegate (m_node x) in
  let x' := Member (with_node (m_bridge x) (with_delegate (m_node x)
              (Delegate.MkDelegate (Delegate.d_meta d) (Delegate.d_state d) (Delegate.d_remoteState d)
                 (Delegate.d_broadcasts d) (Delegate.d_msgs d ++ ms)))) (m_pending x) in
  act s (Arrive i) = Ret (put s c x') /\ net_ok T (put s c x').
Proof.
  intros Hs Hi Hx -> Hms d x'. pose proof Hs as (Hn & _). pose proof (Hn c x Hx) as Hok.
  pose proof Hok as (_ & _ & Hf & Ho & Hin & Hp & _).
  cbn [act]. rewrite Hi, (on_some _ _ x) by done.
  rewrite Delegate.NotifyMsg_all by (by eapply made_clean). split; [done|].
  apply put_ok; [done|by eexists|]. apply delegate_ok; try done. by apply Forall_app.
Qed.

(** Steps of one node that make no report. *)
Lemma on_put_ok T s a (f : member ML -> outcome (net ML)) :
  net_ok T s ->
  (forall x, nt_nodes s !! a = Some x -> member_ok T (nt_made s) a x ->
     f x = Ret s \/ exists x', f x = Ret (put s a x') /\ member_ok T (nt_made s) a x') ->
  exists s', on s a f = Ret s' /\ net_ok T s'.
Proof.
  intros Hs Hf. pose proof Hs as (Hn & _). unfold on. destruct (nt_nodes s !! a) as [x|] eqn:Hx; [|by exists s].
  destruct (Hf x eq_refl (Hn a x Hx)) as [-> | (x' & -> & Hok)]; [by exists s|].
  eexists. split; [done|]. by apply put_ok.
Qed.

Lemma DelKey_keeps (g : GCM.gossipCacheManager node) key :
  GCM.writable g -> GCM.writable (GCM.DelKey g key) /\
  forall k (n' : string) r, GCM.report (GCM.DelKey g key) k n' = Some r -> GCM.report g k n' = Some r.
Proof.
  intros Hw. split; [by apply map_Forall_delete|]. intros k n' r. unfold GCM.report.
  rewrite GCM.DelKey_lookup. by case_decide.
Qed.

Lemma DelNodeAddr_keeps (g : GCM.gossipCacheManager node) key nodeAddr :
  GCM.writable g -> GCM.writable (GCM.DelNodeAddr g key nodeAddr) /\
  GCM.gcm_gnode (GCM.DelNodeAddr g key nodeAddr) = GCM.gcm_gnode g /\
  forall k (n' : string) r, GCM.report (GCM.DelNodeAddr g key nodeAddr) k n' = Some r -> GCM.report g k n' = Some r.
Proof.
  intros Hw. split_and!.
  - unfold GCM.DelNodeAddr. destruct (GCM.gcm_data g !! key) as [v|] eqn:Hv; [|done].
    apply map_Forall_insert_2; [|done]. destruct (Hw key v Hv) as [t Ht]. cbn. rewrite Ht. by eexists.
  - unfold GCM.DelNodeAddr. by destruct (GCM.gcm_data g !! key).
  - intros k n' r. rewrite GCM.DelNodeAddr_report. by case_decide.
Qed.

(** A committed entry changes the table or the record of a key. *)
Lemma commit_ok T made a x e :
  member_ok T made a x -> Fsm.known (m_fsm x) (Fsm.coerce_entry e) ->
  exists f, Fsm.Apply (m_fsm x) (Fsm.marshal_entry e) = Ret (f, None) /\
    member_ok T made a (Member (MkBridge (Fsm.f_cm f) (Fsm.f_gcm f) (b_detector (m_bridge x))
                                  (b_lastTimeStamp (m_bridge x))) (m_pending x)).
Proof.
  intros (Ha & [[d Ht] Hw] & Hf & Ho & Hi & Hp & Hau & Hmin & Hl) Hk. set (e' := Fsm.coerce_entry e) in *.
  destruct (Fsm.apply_entry_spec (m_fsm x) e' d Ht) as (f & Hrun & Hd & Hg). exists f.
  unfold Fsm.Apply. rewrite Fsm.unmarshal_marshal. split; [exact Hrun|].
  assert (Hgn : GCM.gcm_gnode (Fsm.f_gcm f) = m_node x).
  { rewrite Hg. destruct (Fsm.setter e'); cbn; [apply GCM.update_gnode|done]. }
  assert (Hcons : forall fn, Fsm.setter e' = Some fn -> Fsm.notifies e' /\ forall v, consensus (fn v) = consensus v).
  { intros fn Hs. split; [by destruct (Fsm.setter_spec e' fn zero_consensus Hs)|].
    intros v. by destruct (Fsm.setter_spec e' fn v Hs) as (_ & _ & ? & _). }
  assert (Hcm : is_Some (cm_data (Fsm.f_cm f))) by (by eexists).
  unfold member_ok, m_node in *. cbn [m_bridge m_pending b_gcm b_cm b_lastTimeStamp]. rewrite Hgn.
  split_and!; try done; rewrite Hg; destruct (Fsm.setter e') as [fn|]; cbn; try done;
    destruct (Hcons fn eq_refl) as [Hno Hfn].
  - apply Fsm.update_writable; [done|exact (Hk Hno)|done].
  - intros k n' r. rewrite GCM.update_report by done. apply Hau.
Qed.

(** No action of a network in order panics, and it leaves the network in
    order. *)
Lemma act_ok T s o :
  1 <= T -> net_ok T s -> enabled T s o -> exists s', act s o = Ret s' /\ net_ok T s'.
Proof.
  intros HT Hs Hen. destruct o as [a output now|a c call|i|a|a|a key|a key nodeAddr|a e|a d ml].
  - destruct (nt_nodes s !! a) as [x|] eqn:Hx; [|by exists s; cbn [act]; unfold on; rewrite Hx].
    destruct (Hen x Hx) as [Hst Hcl]. eexists. by apply verdict_ok.
  - destruct (nt_nodes s !! a) as [x|] eqn:Hx; [|by exists s; cbn [act]; unfold on; rewrite Hx].
    destruct (emit_ok T s a c x call Hs Hx Hen) as (H1 & H2 & _). by eexists.
  - destruct (nt_wire s !! i) as [[c packet]|] eqn:Hi; [|by exists s; cbn [act]; rewrite Hi].
    destruct (nt_nodes s !! c) as [x|] eqn:Hx; [|by exists s; cbn [act]; unfold on; rewrite Hi, Hx].
    pose proof Hs as (_ & _ & Hw). rewrite Forall_forall in Hw.
    destruct (Hw _ (list_elem_of_lookup_2 _ _ _ Hi)) as (ms & Hp & Hms).
    eexists. by apply (arrive_ok T s i c packet x ms).
  - apply on_put_ok; [done|]. intros x Hx Hok. right. eexists. split; [done|].
    pose proof Hok as (_ & _ & Hf & Ho & Hin & Hp & _).
    apply delegate_ok; try done; first [by apply Forall_nil | apply Forall_app; split; [done|exact Hin]].
  - apply on_put_ok; [done|]. intros x Hx Hok. pose proof Hok as (_ & [_ Hw] & _ & _ & _ & Hp & _).
    destruct (m_pending x) as [|m ms] eqn:Hpe; [by left|right]. apply Forall_cons in Hp as [Hm Hp].
    destruct (GCM.deliver_spec (b_gcm (m_bridge x)) m Hw) as (g & Hd & _). rewrite Hd.
    eexists. split; [done|]. by apply (deliver_ok T (nt_made s) a x g m ms).
  - apply on_put_ok; [done|]. intros x Hx Hok. right. eexists. split; [done|].
    destruct (DelKey_keeps (b_gcm (m_bridge x)) key) as [Hw Hr]; [apply Hok|]. by apply cache_ok.
  - apply on_put_ok; [done|]. intros x Hx Hok. right. eexists. split; [done|].
    destruct (DelNodeAddr_keeps (b_gcm (m_bridge x)) key nodeAddr) as (Hw & Hg & Hr); [apply Hok|]. by apply cache_ok.
  - apply on_put_ok; [done|]. intros x Hx Hok. right.
    destruct (commit_ok T (nt_made s) a x e Hok (Hen x Hx)) as (f & -> & Hok'). by eexists.
  - apply on_put_ok; [done|]. intros x Hx Hok. right. eexists. split; [done|].
    destruct Hok as (Ha & [Ht Hw] & Hf & Ho & Hi & Hp & Hau & Hmin & Hl). by split_and!.
Qed.

Lemma start_ok T (cfg : gmap string ML) : net_ok T (start cfg).
Proof.
  split_and!; [|split; [by intros m ?%elem_of_nil|by intros m1 m2 ?%elem_of_nil]|by apply Forall_nil].
  intros a x Hx. unfold start in Hx. cbn [nt_nodes] in Hx. rewrite map_lookup_imap in Hx.
  destruct (cfg !! a) as [c|]; [|done]. cbn in Hx. injection Hx as <-.
  split_and!; [done|by eexists|apply GCM.writable_new| |by apply Forall_nil..| |cbn; solve_int|by intros m ?%elem_of_nil].
  - split_and!; [constructor|by apply Forall_nil|cbn; solve_int..].
  - intros k n' r Hr. unfold GCM.report in Hr. cbn in Hr. by rewrite lookup_empty in Hr.
Qed.

Lemma reachable_ok T cfg s : 1 <= T -> reachable T cfg s -> net_ok T s.
Proof.
  intros HT Hr. induction Hr as [|s o s' _ IH Hen Hact]; [apply start_ok|].
  destruct (act_ok T s o HT IH Hen) as (s1 & H1 & Hok). congruence.
Qed.

(** Nodes neither join nor leave the map: a node that stops is one that no
    longer acts. *)
Lemma on_dom s a (f : member ML -> outcome (net ML)) s' :
  (forall x s', nt_nodes s !! a = Some x -> f x = Ret s' ->
     s' = s \/ exists x', nt_nodes s' = <[a := x']> (nt_nodes s)) ->
  on s a f = Ret s' -> dom (nt_nodes s') = dom (nt_nodes s).
Proof.
  intros Hf. unfold on. destruct (nt_nodes s !! a) as [x|] eqn:Hx; [|by intros [= <-]].
  intros H. destruct (Hf x s' eq_refl H) as [-> | (x' & ->)]; [done|]. apply dom_insert_lookup_L. by eexists.
Qed.

Lemma act_dom s o s' : act s o = Ret s' -> dom (nt_nodes s') = dom (nt_nodes s).
Proof.
  destruct o as [a output now|a c call|i|a|a|a key|a key nodeAddr|a e|a d ml]; cbn [act].
  3: destruct (nt_wire s !! i) as [[c packet]|]; [|by intros [= <-]].
  all: apply on_dom; intros x s1 _.
  - intros (r & _ & [= <-])%bind_Ret_inv. right. by eexists.
  - destruct (Delegate.GetBroadcasts _ _ _ _). intros [= <-]. right. by eexists.
  - intros (r & _ & [= <-])%bind_Ret_inv. right. by eexists.
  - destruct (GetMessages (m_node x)). intros [= <-]. right. by eexists.
  - destruct (m_pending x); [intros [= <-]; by left|]. intros (r & _ & [= <-])%bind_Ret_inv. right. by eexists.
  - intros [= <-]. right. by eexists.
  - intros [= <-]. right. by eexists.
  - intros (r & _ & [= <-])%bind_Ret_inv. right. by eexists.
  - intros [= <-]. right. by eexists.
Qed.

Lemma reachable_dom T cfg s : reachable T cfg s -> dom (nt_nodes s) = dom cfg.
Proof.
  induction 1 as [|s o s' _ IH _ Hact]; [|by rewrite (act_dom _ _ _ Hact)].
  unfold start. cbn. rewrite dom_imap_L with (X := dom cfg); [done|].
  intros a. rewrite elem_of_dom. split; [|naive_solver]. intros [c Hc]. eexists. split; [done|]. by eexists.
Qed.

End Facts.

(** A cache that is not behind the reports made of a node on a key. *)
Definition current {ML} `{!Memberlist ML} (made : list MyBroadcastMessage)
    (g : GCM.gossipCacheManager (GNode.gossipNode ML)) (k a : string) : Prop :=
  forall m, m ∈ made -> GCM.about k a m -> exists r, GCM.report g k a = Some r /\ TimeStamp m <= r_timeStamp r.

Lemma current_agree {ML} `{!Memberlist ML} T s (x y : member ML) a b k c :
  net_ok T s -> nt_nodes s !! a = Some x -> nt_nodes s !! b = Some y ->
  current (nt_made s) (b_gcm (m_bridge x)) k c -> current (nt_made s) (b_gcm (m_bridge y)) k c ->
  GCM.report (b_gcm (m_bridge x)) k c = GCM.report (b_gcm (m_bridge y)) k c.
Proof.
  intros (Hn & [_ Hu] & _) Hx Hy Hcx Hcy.
  destruct (Hn a x Hx) as (_ & _ & _ & _ & _ & _ & Hax & _).
  destruct (Hn b y Hy) as (_ & _ & _ & _ & _ & _ & Hay & _). specialize (Hax k c). specialize (Hay k c).
  destruct (GCM.report (b_gcm (m_bridge x)) k c) as [rx|] eqn:Hrx,
    (GCM.report (b_gcm (m_bridge y)) k c) as [ry|] eqn:Hry;
    [|destruct (Hax rx eq_refl) as (m & Hin & Hab & _); destruct (Hcy m Hin Hab) as (? & ? & _); congruence
     |destruct (Hay ry eq_refl) as (m & Hin & Hab & _); destruct (Hcx m Hin Hab) as (? & ? & _); congruence|done].
  destruct (Hax rx eq_refl) as (m1 & Hi1 & Hab1 & ->), (Hay ry eq_refl) as (m2 & Hi2 & Hab2 & ->).
  destruct (Hcx m2 Hi2 Hab2) as (r1 & Hr1 & Hle1), (Hcy m1 Hi1 Hab1) as (r2 & Hr2 & Hle2). simplify_eq.
  destruct Hab1, Hab2. cbn in Hle1, Hle2.
  assert (m1 = m2) as -> by (apply Hu; [done|done|congruence|lia]). done.
Qed.

(** A run of enabled actions stays among the reachable networks. *)
Fixpoint enabled_all {ML} `{!Memberlist ML} (T : Z) (s : net ML) (os : list (action ML)) : Prop :=
  match os with
  | [] => True
  | o :: os => enabled T s o /\ match act s o with Ret s' => enabled_all T s' os | Panic _ => False end
  end.

Lemma acts_reachable {ML} `{!Memberlist ML} T cfg os : forall (s s' : net ML),
  reachable T cfg s -> enabled_all T s os -> acts s os = Ret s' -> reachable T cfg s'.
Proof.
  induction os as [|o os IH]; intros s s' Hr Hen Hrun; [by injection Hrun as <-|].
  destruct Hen as [Ho Hos]. unfold acts in Hrun. cbn [foldlM] in Hrun. apply bind_Ret_inv in Hrun as (s1 & H1 & Hrun).
  rewrite H1 in Hos. exact (IH s1 s' (reach_act T cfg s o s1 Hr Ho H1) Hos Hrun).
Qed.

(** The same as a check to run. *)
#[global] Instance stamps_left_dec {N} `{!GossipNode N} (b : bridge N) now : Decision (stamps_left b now).
Proof. unfold stamps_left. apply _. Defined.

#[global] Instance known_dec {N} `{!GossipNode N} (f : Fsm.fsm_state N) e : Decision (Fsm.known f e).
Proof. unfold Fsm.known, Fsm.notifies. apply _. Defined.

#[global] Instance msg_clean_dec m : Decision (Delegate.msg_clean m).
Proof. unfold Delegate.msg_clean, in_int64. apply _. Defined.

Fixpoint enabled_check {ML} `{!Memberlist ML} (T : Z) (s : net ML) (os : list (action ML)) : bool :=
  match os with
  | [] => true
  | o :: os =>
      match o with
      | Verdict a output now =>
          match nt_nodes s !! a with
          | Some x => bool_decide (stamps_left (m_bridge x) now) &&
                      bool_decide (Delegate.msg_clean (output_msg (m_bridge x) output now))
          | None => true
          end
      | Emit _ _ call => call.1.1 <=? T
      | Commit a e =>
          match nt_nodes s !! a with
          | Some x => bool_decide (Fsm.known (m_fsm x) (Fsm.coerce_entry e))
          | None => true
          end
      | _ => true
      end && match act s o with Ret s' => enabled_check T s' os | Panic _ => false end
  end.

Lemma enabled_all_checked {ML} `{!Memberlist ML} T os : forall (s : net ML),
  enabled_check T s os = true -> enabled_all T s os.
Proof.
  induction os as [|o os IH]; intros s Hc; [done|]. cbn [enabled_check] in Hc. apply andb_true_iff in Hc as [Ho Hos].
  split; [|destruct (act s o); [by apply IH|done]]. destruct o; try done.
  - intros x Hx. rewrite Hx, andb_true_iff, !bool_decide_eq_true in Ho. done.
  - by apply Z.leb_le.
  - intros x Hx. rewrite Hx, bool_decide_eq_true in Ho. done.
Qed.

(** ** Properties *)

(** C3: gossip is authentic and cannot stop a node, in every network that can
    be reached from the start of a cluster, with packets delayed, reordered,
    duplicated and lost and the goroutines of every node interleaved: a report
    in any cache was made by the node it names, which is a node of the cluster
    whose last stamp it does not pass; no node stamps two reports alike; two
    nodes that are not behind on a node's reports on a key hold the same report;
    and every enabled action returns. *)
Theorem gossip_network_sound {ML} `{!Memberlist ML} T cfg (s : net ML) :
  1 <= T -> reachable T cfg s ->
  (forall a x k c r, nt_nodes s !! a = Some x -> GCM.report (b_gcm (m_bridge x)) k c = Some r ->
     exists y m, nt_nodes s !! c = Some y /\ c ∈ dom cfg /\ m ∈ nt_made s /\ GCM.about k c m /\
       r = GCM.msg_report m /\ r_timeStamp r <= b_lastTimeStamp (m_bridge y)) /\
  GCM.consistent (nt_made s) /\
  (forall a x b y k c, nt_nodes s !! a = Some x -> nt_nodes s !! b = Some y ->
     current (nt_made s) (b_gcm (m_bridge x)) k c -> current (nt_made s) (b_gcm (m_bridge y)) k c ->
     GCM.report (b_gcm (m_bridge x)) k c = GCM.report (b_gcm (m_bridge y)) k c) /\
  (forall o, enabled T s o -> exists s', act s o = Ret s').
Proof.
  intros HT Hr. pose proof (reachable_ok T cfg s HT Hr) as Hok. pose proof Hok as (Hn & [Hm Hu] & _). split_and!.
  - intros a x k c r Hx Hrep. destruct (Hn a x Hx) as (_ & _ & _ & _ & _ & _ & Hau & _).
    destruct (Hau k c r Hrep) as (m & Hin & Hab & ->). pose proof Hab as [_ <-].
    destruct (Hm m Hin) as [_ [y Hy]]. exists y, m. split_and!; try done.
    + rewrite <- (reachable_dom T cfg s Hr). by apply elem_of_dom.
    + by destruct (Hn _ y Hy) as (_ & _ & _ & _ & _ & _ & _ & _ & Hl); apply Hl.
  - intros m1 m2 H1 H2 _ Hno Hts. by rewrite (Hu m1 m2).
  - intros a x b y k c Hx Hy. by apply (current_agree T s x y a b).
  - intros o Hen. destruct (act_ok T s o HT Hok Hen) as (s' & Hs' & _). by exists s'.
Qed.

(** Two nodes: one reports twice, the first packet is delayed behind the
    second and arrives twice. *)
Definition demo_cfg : gmap string (list string) :=
  {["n1:1" := ["n1:1"; "n2:1"]; "n2:1" := ["n1:1"; "n2:1"]]}.

Definition demo_actions : list (action (list string)) :=
  [Commit "n1:1" (Entry CMD_SET "db" "h"); Verdict "n1:1" (VerifyOutput "db" "h" GOSSIP_UP) 50; Emit "n1:1" "n2:1" (1, 2, 1400);
   Verdict "n1:1" (VerifyOutput "db" "h" GOSSIP_DOWN) 20; Emit "n1:1" "n2:1" (1, 2, 1400);
   Commit "n1:1" (Entry CMD_NOTIFY_STATUS "db" GOSSIP_UP); Arrive 1; Collect "n2:1"; Arrive 0; Merge "n2:1"; Arrive 0; Collect "n2:1"; Merge "n2:1"; Merge "n2:1"].

Lemma gossip_network_sound_witness :
  exists s x y m, reachable 1 demo_cfg s /\ nt_nodes s !! "n2:1" = Some x /\ nt_nodes s !! "n1:1" = Some y /\
    GCM.report (b_gcm (m_bridge x)) "db" "n1:1" = Some (Report GOSSIP_DOWN 52) /\
    m ∈ nt_made s /\ Report GOSSIP_DOWN 52 = GCM.msg_report m /\ 52 <= b_lastTimeStamp (m_bridge y).
Proof.
  destruct (acts (start demo_cfg) demo_actions) as [s|] eqn:Hrun; [|by vm_compute in Hrun].
  assert (Hr : reachable 1 demo_cfg s).
  { apply (acts_reachable 1 demo_cfg demo_actions (start demo_cfg)); [constructor|by apply enabled_all_checked; vm_compute|done]. }
  destruct (nt_nodes s !! "n2:1") as [x|] eqn:Hx; [|vm_compute in Hrun; injection Hrun as <-; by vm_compute in Hx].
  assert (Hrep : GCM.report (b_gcm (m_bridge x)) "db" "n1:1" = Some (Report GOSSIP_DOWN 52)).
  { vm_compute in Hrun. injection Hrun as <-. vm_compute in Hx. injection Hx as <-. vm_compute. reflexivity. }
  destruct (gossip_network_sound 1 demo_cfg s ltac:(lia) Hr) as (Hau & _).
  destruct (Hau "n2:1" x "db" "n1:1" _ Hx Hrep) as (y & m & Hy & _ & Hm & _ & Heq & Hle).
  exists s, x, y, m. exact (conj Hr (conj Hx (conj Hy (conj Hrep (conj Hm (conj Heq Hle)))))).
Defined.

(** A restarted node can stay unheard: its last stamp starts from zero again, so
    when its clock is behind the stamps of its reports from before, a peer that
    holds such a report ignores the new verdict, whatever it says. *)
Theorem restart_behind_clock {ML} `{!Memberlist ML} a (ml : ML) output (now : Time.t)
    (g : GCM.gossipCacheManager (GNode.gossipNode ML)) r :
  0 <= now < r_timeStamp r -> r_timeStamp r <= MaxInt64 -> GCM.writable g ->
  GCM.report g (vo_key output) a = Some r ->
  let b := m_bridge (start_member a ml) in
  (exists b', makeGossip2 b output now = Ret (b', (false, false)) /\ b_lastTimeStamp b' = now + 1) /\
  GCM.deliver g (output_msg b output now) = Ret g.
Proof.
  intros Hnow Hmax Hw Hr b. assert (Hn : Time.UnixNano now = now) by (apply wrap64_id; solve_int).
  assert (Hst : stamps_left b now) by (unfold stamps_left; rewrite Hn; cbn; solve_int).
  assert (Hs : next_stamp b now = now + 1).
  { destruct Hst as (H1 & H2 & H3). destruct (next_stamp_past b now H1 H3 H2) as (_ & _ & ->). rewrite Hn. cbn. lia. }
  split.
  - rewrite makeGossip2_spec; [|apply GCM.writable_new| |done].
    + eexists. split; [done|]. exact Hs.
    + intros k r' Hr'. unfold GCM.report in Hr'. cbn in Hr'. by rewrite lookup_empty in Hr'.
  - rewrite GCM.deliver_stored by done.
    change (Key (output_msg b output now)) with (vo_key output). change (Node (output_msg b output now)) with a.
    rewrite Hr. cbn [GCM.accepts]. change (TimeStamp (output_msg b output now)) with (next_stamp b now). rewrite Hs.
    destruct (Z.gtb_spec (now + 1) (r_timeStamp r)); [lia|done].
Qed.

End GossipNet.
