(* ===== verification/ClusterAlert.v ===== *)
(** * From any reachable network to an alert

    Nodes of a cluster in any state it can be in report a verdict, their next
    packets reach the leader, the leader's [consumeGossip] merges them and its
    check announces the verdict: the hypotheses on queues, stamps and messages
    under which EndToEnd follows one report are invariants of the network, so
    none of them is left here. *)

From S2P Require Import Prelude GoStd Base Json KVCache Queue Delegate QueueFlow Gossip GossipCache Detector Bridge Fsm Quorum Protocol Alerts Leader EndToEnd GossipNet.

Module ClusterAlert.

Import Bridge EndToEnd GossipNet.

(** A node that reports: its address, its verdict with the clock reading of the
    stamp, and the calls of its next packets. *)
Abbreviation reporter := (string * (verifyOutput * Time.t) * list (Z * Z * Z))%type.

Section Plan.

Context {ML : Type} `{!Memberlist ML}.

Implicit Types (s : net ML) (x y : member ML) (a l : string).

(** The packets of [a] arrive at [l], each as soon as it is sent; [w] packets
    have been on the wire before. *)
Fixpoint relay a l (w : nat) (calls : list (Z * Z * Z)) : list (action ML) :=
  match calls with
  | [] => []
  | c :: calls => Emit a l c :: Arrive w :: relay a l (S w) calls
  end.

Fixpoint reports_plan l (w : nat) (rs : list reporter) : list (action ML) :=
  match rs with
  | [] => []
  | (a, (output, now), calls) :: rs =>
      Verdict a output now :: relay a l w calls ++ reports_plan l (w + length calls) rs
  end.

(** The leader's [consumeGossip] over [k] messages. *)
Definition consume l (k : nat) : list (action ML) := Collect l :: repeat (Merge l) k.

(** ** Specification *)

(** What a reporter needs: a stamp that does not overflow, a report the codec
    carries, and packets enough for what its queue holds. *)
Definition can_report (T : Z) s l (r : reporter) : Prop :=
  let '(a, (output, now), calls) := r in
  a <> l /\ exists x, nt_nodes s !! a = Some x /\
    let m := output_msg (m_bridge x) output now in
    let q := Queue.QueueBroadcast (outbox (m_node x)) m in
    stamps_left (m_bridge x) now /\ Delegate.msg_clean m /\
    Forall (fun c => c.1.1 <= T /\ QueueFlow.fits c.1.2 c.2 q) calls /\
    (QueueFlow.budgets T QueueFlow.all (Queue.q_tq q) <= length calls)%nat.

(** The report a reporter makes. *)
Definition report_of s (r : reporter) : MyBroadcastMessage :=
  let '(a, (output, now), _) := r in
  match nt_nodes s !! a with
  | Some x => output_msg (m_bridge x) output now
  | None => Delegate.zero_msg
  end.

(** The receiver before and after packets: only its inbox differs, by [sent]. *)
Definition received y y' (sent : list MyBroadcastMessage) : Prop :=
  b_gcm (m_bridge y') = GCM.Gcm (GCM.gcm_data (b_gcm (m_bridge y))) (m_node y') /\
  b_cm (m_bridge y') = b_cm (m_bridge y) /\ m_pending y' = m_pending y /\
  inbox (m_node y') = inbox (m_node y) ++ sent.

(** ** Lemmas *)

Lemma acts_app s os1 os2 : acts s (os1 ++ os2) = (s' ← acts s os1; acts s' os2).
Proof. apply foldlM_app. Qed.

Lemma acts_cons s s' o os : act s o = Ret s' -> acts s (o :: os) = acts s' os.
Proof. intros H. unfold acts. cbn [foldlM]. by rewrite H. Qed.

Lemma received_refl y : received y y [].
Proof. unfold received, m_node. rewrite app_nil_r. by destruct (b_gcm (m_bridge y)). Qed.

Lemma received_trans y1 y2 y3 sent1 sent2 :
  received y1 y2 sent1 -> received y2 y3 sent2 -> received y1 y3 (sent1 ++ sent2).
Proof.
  intros (Hg1 & Hc1 & Hp1 & Hi1) (Hg2 & Hc2 & Hp2 & Hi2). unfold received.
  split_and!; [|congruence..|by rewrite Hi2, Hi1, app_assoc]. by rewrite Hg2, Hg1.
Qed.

(** One packet leaves [a] and arrives at [l]. *)
Lemma hop_spec T s a l x y c :
  net_ok T s -> a <> l -> nt_nodes s !! a = Some x -> nt_nodes s !! l = Some y -> c.1.1 <= T ->
  exists s' x' y', acts s [Emit a l c; Arrive (length (nt_wire s))] = Ret s' /\ net_ok T s' /\
    nt_nodes s' = <[l := y']> (<[a := x']> (nt_nodes s)) /\ nt_made s' = nt_made s /\
    length (nt_wire s') = S (length (nt_wire s)) /\
    outbox (m_node x') = (QueueFlow.send (outbox (m_node x)) c.1.1 c.1.2 c.2).1 /\
    received y y' (QueueFlow.send (outbox (m_node x)) c.1.1 c.1.2 c.2).2.
Proof.
  intros Hs Hne Hx Hy Hc. destruct (emit_ok T s a l x c Hs Hx Hc) as (H1 & Hok1 & Hsent).
  set (snt := QueueFlow.send _ _ _ _) in *. set (x' := Member _ (m_pending x)) in H1, Hok1.
  set (s1 := Net _ _ _) in H1, Hok1.
  destruct (arrive_ok T s1 (length (nt_wire s)) l (Delegate.msg_Message <$> snt.2) y snt.2) as (H2 & Hok2); try done.
  { cbn. rewrite lookup_app_r, Nat.sub_diag by lia. done. }
  { cbn. by rewrite lookup_insert_ne by done. }
  set (y' := Member _ (m_pending y)) in H2, Hok2. exists (put s1 l y'), x', y'.
  rewrite (acts_cons _ _ _ _ H1), (acts_cons _ _ _ _ H2). split_and!; try done.
  cbn. rewrite length_app. cbn. lia.
Qed.

Lemma relay_spec T a l calls : forall s x y,
  net_ok T s -> a <> l -> nt_nodes s !! a = Some x -> nt_nodes s !! l = Some y ->
  Forall (fun c : Z * Z * Z => c.1.1 <= T) calls ->
  exists s' y', acts s (relay a l (length (nt_wire s)) calls) = Ret s' /\ net_ok T s' /\
    nt_nodes s' !! l = Some y' /\ (forall c, c <> a -> c <> l -> nt_nodes s' !! c = nt_nodes s !! c) /\
    nt_made s' = nt_made s /\ length (nt_wire s') = (length (nt_wire s) + length calls)%nat /\
    received y y' (QueueFlow.run (QueueFlow.sends calls) (outbox (m_node x), [])).2.
Proof.
  induction calls as [|c calls IH]; intros s x y Hs Hne Hx Hy Hc.
  { exists s, y. cbn. split_and!; first [done | lia | apply received_refl]. }
  apply Forall_cons in Hc as [Hc Hcs].
  destruct (hop_spec T s a l x y c Hs Hne Hx Hy Hc) as (s1 & x1 & y1 & H1 & Hs1 & Hn1 & Hm1 & Hw1 & Ho1 & Hr1).
  destruct (IH s1 x1 y1 Hs1 Hne) as (s2 & y2 & H2 & Hs2 & Hy2 & Hn2 & Hm2 & Hw2 & Hr2); [| |done|].
  { rewrite Hn1, lookup_insert_ne, lookup_insert_eq by done. done. }
  { by rewrite Hn1, lookup_insert_eq. }
  exists s2, y2. split_and!; [|done|done| |congruence|cbn; lia|].
  - change (relay a l (length (nt_wire s)) (c :: calls))
      with ([Emit a l c; Arrive (length (nt_wire s))] ++ relay a l (S (length (nt_wire s))) calls).
    rewrite acts_app, H1. cbn [mbind outcome_bind]. by rewrite <- Hw1.
  - intros c' Ha Hl. by rewrite Hn2, Hn1, !lookup_insert_ne by done.
  - destruct c as [[tl ov] li]. cbn [fst snd] in *. unfold QueueFlow.sends. cbn [fmap list_fmap].
    unfold QueueFlow.run at 1. cbn [fold_left QueueFlow.run_op fst snd].
    destruct (QueueFlow.send (outbox (m_node x)) tl ov li) as [q' sent]. cbn [fst snd app] in *.
    change (fold_left QueueFlow.run_op ?l ?p) with (QueueFlow.run l p).
    rewrite run_out. cbn [snd]. rewrite <- Ho1. by eapply received_trans.
Qed.

(** One reporter: its report is made and reaches the inbox of [l]. *)
Lemma phase_spec T s l y a output now calls :
  1 <= T -> net_ok T s -> nt_nodes s !! l = Some y -> can_report T s l (a, (output, now), calls) ->
  let m := report_of s (a, (output, now), calls) in
  exists s' y' sent, acts s (Verdict a output now :: relay a l (length (nt_wire s)) calls) = Ret s' /\ net_ok T s' /\
    nt_nodes s' !! l = Some y' /\ (forall c, c <> a -> c <> l -> nt_nodes s' !! c = nt_nodes s !! c) /\
    nt_made s' = nt_made s ++ [m] /\ length (nt_wire s') = (length (nt_wire s) + length calls)%nat /\
    received y y' sent /\ m ∈ sent.
Proof.
  intros HT Hs Hy (Hne & x & Hx & Hst & Hcl & Hcalls & Hbud). unfold report_of. rewrite Hx.
  set (m := output_msg (m_bridge x) output now) in *.
  destruct (verdict_ok T s a x output now HT Hs Hx Hst Hcl) as (H1 & Hs1). set (s1 := Net _ _ _) in *.
  destruct (relay_spec T a l calls s1 (reported x output now) y Hs1 Hne) as (s2 & y2 & H2 & Hs2 & Hy2 & Hn2 & Hm2 & Hw2 & Hr2).
  { cbn. by rewrite lookup_insert_eq. } { cbn. by rewrite lookup_insert_ne. }
  { eapply Forall_impl; [exact Hcalls|]. by intros c [? _]. }
  exists s2, y2. eexists. split_and!; [|done|done| |exact Hm2|exact Hw2|exact Hr2|].
  - rewrite (acts_cons _ _ _ _ H1). exact H2.
  - intros c Ha Hl. rewrite Hn2 by done. cbn. by rewrite lookup_insert_ne.
  - change (outbox (m_node (reported x output now))) with (Queue.QueueBroadcast (outbox (m_node x)) m).
    destruct Hs as (Hn & _). destruct (Hn a x Hx) as (_ & _ & Hf & _).
    destruct (QueueFlow.enqueue_elem (outbox (m_node x)) m) as (z & Hz & H0 & Hb).
    destruct (QueueFlow.sends_drain T calls _ [] (QueueFlow.enqueue_flow T _ m HT Hf) Hcalls Hbud) as (_ & _ & Hsent).
    specialize (Hsent z Hz H0). by rewrite Hb in Hsent.
Qed.

Abbreviation addr_of := (fun r : reporter => r.1.1).

Lemma can_report_frame T s s' l (r : reporter) a :
  (forall c, c <> a -> c <> l -> nt_nodes s' !! c = nt_nodes s !! c) -> addr_of r <> a ->
  can_report T s l r -> can_report T s' l r /\ report_of s' r = report_of s r.
Proof.
  intros Hn Ha. destruct r as [[c [output now]] calls]. cbn in Ha. intros (Hne & x & Hx & H).
  unfold can_report, report_of. rewrite (Hn c) by done. split; [|done]. split; [done|]. by exists x.
Qed.

Lemma reports_plan_spec T l rs : forall s y,
  1 <= T -> net_ok T s -> nt_nodes s !! l = Some y -> Forall (can_report T s l) rs -> NoDup (addr_of <$> rs) ->
  exists s' y' sent, acts s (reports_plan l (length (nt_wire s)) rs) = Ret s' /\ net_ok T s' /\ nt_nodes s' !! l = Some y' /\
    nt_made s' = nt_made s ++ (report_of s <$> rs) /\ received y y' sent /\
    Forall (fun r => report_of s r ∈ sent) rs.
Proof.
  induction rs as [|[[a [output now]] calls] rs IH]; intros s y HT Hs Hy Hok Hnd.
  { exists s, y, []. cbn. rewrite app_nil_r. split_and!; first [done | apply received_refl | by apply Forall_nil]. }
  apply Forall_cons in Hok as [Hr Hok]. rewrite fmap_cons in Hnd. apply NoDup_cons in Hnd as [Hni Hnd]. cbn in Hni.
  destruct (phase_spec T s l y a output now calls HT Hs Hy Hr)
    as (s1 & y1 & sent1 & H1 & Hs1 & Hy1 & Hn1 & Hm1 & Hw1 & Hr1 & Hin1).
  set (r := (a, (output, now), calls)) in *.
  assert (Hframe : Forall (fun r' => can_report T s1 l r' /\ report_of s1 r' = report_of s r') rs).
  { rewrite Forall_forall in *. intros r' Hr'. apply (can_report_frame T s s1 l r' a Hn1); [|by apply Hok].
    intros Heq. apply Hni. apply list_elem_of_fmap. by exists r'. }
  apply Forall_and in Hframe as [Hok1 Heq].
  destruct (IH s1 y1 HT Hs1 Hy1 Hok1 Hnd) as (s2 & y2 & sent2 & H2 & Hs2 & Hy2 & Hm2 & Hr2 & Hin2).
  assert (Hmap : report_of s1 <$> rs = report_of s <$> rs) by (apply Forall_fmap_ext_1; exact Heq).
  exists s2, y2, (sent1 ++ sent2). split_and!; [|done|done| |by eapply received_trans|].
  - change (reports_plan l (length (nt_wire s)) (r :: rs)) with
      ((Verdict a output now :: relay a l (length (nt_wire s)) calls) ++ reports_plan l (length (nt_wire s) + length calls) rs).
    rewrite acts_app, H1. cbn [mbind outcome_bind]. by rewrite <- Hw1.
  - rewrite Hm2, Hm1, Hmap, fmap_cons, <- app_assoc. done.
  - apply Forall_cons. split; [set_solver|]. rewrite Forall_forall in *. intros r' Hr'.
    rewrite <- (Heq r' Hr'). apply elem_of_app. right. by apply Hin2.
Qed.

(** The leader collects and merges its whole inbox. *)
Lemma merges_spec l ms : forall s y g,
  nt_nodes s !! l = Some y -> m_pending y = ms -> GCM.deliver_all (b_gcm (m_bridge y)) ms = Ret g ->
  exists s', acts s (repeat (Merge l) (length ms)) = Ret s' /\
    nt_nodes s' !! l = Some (Member (with_gcm (m_bridge y) g) []) /\ nt_made s' = nt_made s.
Proof.
  induction ms as [|m ms IH]; intros s y g Hy Hp Hd.
  { injection Hd as <-. exists s. split_and!; [done| |done]. rewrite Hy. destruct y as [[? ? ? ?] ?]. cbn in *. by subst. }
  unfold GCM.deliver_all in Hd. cbn [foldlM] in Hd. apply bind_Ret_inv in Hd as (g1 & H1 & Hd).
  set (y1 := Member (with_gcm (m_bridge y) g1) ms).
  assert (Hact : act s (Merge l) = Ret (put s l y1)).
  { cbn [act]. rewrite (on_some _ _ y), Hp, H1 by done. done. }
  destruct (IH (put s l y1) y1 g) as (s' & H' & Hn' & Hm'); [by cbn; rewrite lookup_insert_eq|done|exact Hd|].
  exists s'. cbn [length repeat]. by rewrite (acts_cons _ _ _ _ Hact).
Qed.

(** Undisturbed, the actions are [consumeGossip]. *)
Lemma consume_spec T s l y :
  net_ok T s -> nt_nodes s !! l = Some y -> m_pending y = [] ->
  exists s' b', acts s (consume l (length (inbox (m_node y)))) = Ret s' /\
    consumeGossip (m_bridge y) = Ret b' /\ nt_nodes s' !! l = Some (Member b' []).
Proof.
  intros (Hn & _) Hy Hp. destruct (Hn l y Hy) as (_ & [_ Hw] & _). unfold consume.
  set (y1 := Member (with_node (m_bridge y) (GetMessages (m_node y)).1) (inbox (m_node y))).
  assert (Hact : act s (Collect l) = Ret (put s l y1)).
  { cbn [act]. rewrite (on_some _ _ y), Hp by done. done. }
  rewrite (acts_cons _ _ _ _ Hact).
  destruct (GCM.deliver_all_spec (inbox (m_node y)) (b_gcm (m_bridge y1)) Hw) as (g & Hd & _).
  destruct (merges_spec l (inbox (m_node y)) (put s l y1) y1 g) as (s' & H' & Hn' & _);
    [by cbn; rewrite lookup_insert_eq|done|done|].
  exists s', (with_gcm (m_bridge y) g). split_and!; [done| |done].
  change (consumeGossip (m_bridge y)) with
    (g ← GCM.deliver_all (b_gcm (m_bridge y1)) (inbox (m_node y)); Ret (with_gcm (m_bridge y) g)).
  by rewrite Hd.
Qed.

(** ** The newest report of every node *)

Lemma report_of_node T s l r : net_ok T s -> can_report T s l r -> Node (report_of s r) = addr_of r.
Proof.
  destruct r as [[a [output now]] calls]. intros (Hn & _) (_ & x & Hx & _). unfold report_of. rewrite Hx.
  by destruct (Hn a x Hx) as (Ha & _).
Qed.

Lemma report_of_new T s l r m :
  net_ok T s -> can_report T s l r -> m ∈ nt_made s -> Node m = addr_of r -> TimeStamp m < TimeStamp (report_of s r).
Proof.
  destruct r as [[a [output now]] calls]. intros (Hn & _) (_ & x & Hx & (Hnow & Hmin & Hmax) & _) Hin Hna.
  unfold report_of. rewrite Hx. destruct (Hn a x Hx) as (_ & _ & _ & _ & _ & _ & _ & _ & Hl).
  specialize (Hl m Hin Hna). destruct (next_stamp_past (m_bridge x) now Hnow Hmax Hmin) as (Hpast & _).
  change (TimeStamp (output_msg (m_bridge x) output now)) with (next_stamp (m_bridge x) now). lia.
Qed.

Lemma same_addr (rs : list reporter) r1 r2 :
  NoDup (addr_of <$> rs) -> r1 ∈ rs -> r2 ∈ rs -> addr_of r1 = addr_of r2 -> r1 = r2.
Proof.
  intros Hnd [i Hi]%list_elem_of_lookup [j Hj]%list_elem_of_lookup Heq.
  assert (i = j) as ->; [|congruence]. apply (NoDup_lookup _ i j (addr_of r1) Hnd); rewrite list_lookup_fmap.
  - by rewrite Hi.
  - by rewrite Hj, Heq.
Qed.

(** Nothing that has been made is newer than the report of a reporter. *)
Lemma reporter_newest T s l rs r m :
  net_ok T s -> Forall (can_report T s l) rs -> NoDup (addr_of <$> rs) -> r ∈ rs ->
  m ∈ nt_made s ++ (report_of s <$> rs) -> Node m = addr_of r ->
  m = report_of s r \/ TimeStamp m < TimeStamp (report_of s r).
Proof.
  intros Hs Hok Hnd Hr [Hm | (r' & -> & Hr')%list_elem_of_fmap]%elem_of_app Hna; rewrite Forall_forall in Hok.
  - right. by apply (report_of_new T s l r m Hs (Hok r Hr)).
  - left. rewrite (report_of_node T s l r' Hs (Hok r' Hr')) in Hna. by rewrite (same_addr rs r' r).
Qed.

(** A report the leader already holds and that nothing made is ahead of. *)
Definition settled s (g : GCM.gossipCacheManager (GNode.gossipNode ML)) (key n : string)
    (r : gossipStatusAndTimeStamp) : Prop :=
  GCM.report g key n = Some r /\
  forall m, m ∈ nt_made s -> GCM.about key n m -> TimeStamp m <= r_timeStamp r.

Lemma latest_keeps r k n ms :
  (forall m, m ∈ ms -> GCM.about k n m -> TimeStamp m <= r_timeStamp r) -> GCM.latest (Some r) k n ms = Some r.
Proof.
  unfold GCM.latest. induction ms as [|m ms IH]; intros Hms; [done|]. rewrite filter_cons. case_decide as Hab.
  - cbn [fold_left]. unfold GCM.newer at 2. cbn [GCM.accepts].
    destruct (Z.gtb_spec (TimeStamp m) (r_timeStamp r)) as [Hgt|_];
      [specialize (Hms m ltac:(constructor) Hab); lia|]. apply IH. intros; apply Hms; [by constructor|done].
  - apply IH. intros; apply Hms; [by constructor|done].
Qed.

(** Only nodes of the cluster are heard of. *)
Lemma heard_of T s l y k n :
  net_ok T s -> nt_nodes s !! l = Some y ->
  is_Some (GCM.latest (GCM.report (b_gcm (m_bridge y)) k n) k n (inbox (m_node y))) -> n ∈ dom (nt_nodes s).
Proof.
  intros (Hn & [Hm _] & _) Hy [r Hr]. destruct (Hn l y Hy) as (_ & _ & _ & _ & Hin & _ & Hau & _).
  rewrite Forall_forall in Hin. apply elem_of_dom. unfold GCM.latest in Hr.
  destruct (GCM.fold_newer_max (filter (GCM.about k n) (inbox (m_node y))) (GCM.report (b_gcm (m_bridge y)) k n))
    as ([Heq | (m & [[_ <-] Hm']%list_elem_of_filter & _)] & _).
  - rewrite Heq in Hr. destruct (Hau k n r Hr) as (m & Hin' & [_ <-] & _). by apply Hm.
  - apply Hm. by apply Hin.
Qed.

Lemma acts_dom os : forall s s', acts s os = Ret s' -> dom (nt_nodes s') = dom (nt_nodes s).
Proof.
  unfold acts. induction os as [|o os IH]; intros s s' H; [by injection H as <-|].
  cbn [foldlM] in H. apply bind_Ret_inv in H as (s1 & H1 & H). by rewrite (IH s1 s' H), (act_dom _ _ _ H1).
Qed.

(** What the leader knows after the plan and its [consumeGossip]: the report of
    every reporter, the settled ones it had, and reports of nodes of the
    cluster only. *)
Lemma leader_learns T cfg s l y rs :
  1 <= T -> reachable T cfg s -> nt_nodes s !! l = Some y -> m_pending y = [] ->
  Forall (can_report T s l) rs -> NoDup (addr_of <$> rs) ->
  exists k s' y', acts s (reports_plan l (length (nt_wire s)) rs ++ consume l k) = Ret s' /\ nt_nodes s' !! l = Some y' /\
    b_cm (m_bridge y') = b_cm (m_bridge y) /\
    (forall r, r ∈ rs -> GCM.report (b_gcm (m_bridge y')) (Key (report_of s r)) (addr_of r) =
                         Some (GCM.msg_report (report_of s r))) /\
    (forall key n r, n ∉ addr_of <$> rs -> settled s (b_gcm (m_bridge y)) key n r ->
                     GCM.report (b_gcm (m_bridge y')) key n = Some r) /\
    (forall key n, is_Some (GCM.report (b_gcm (m_bridge y')) key n) -> n ∈ dom cfg) /\
    (forall key, GCM.meta (b_gcm (m_bridge y')) key = GCM.meta (b_gcm (m_bridge y)) key).
Proof.
  intros HT Hreach Hy Hp Hok Hnd. pose proof (reachable_ok T cfg s HT Hreach) as Hs.
  destruct (reports_plan_spec T l rs s y HT Hs Hy Hok Hnd) as (s1 & y1 & sent & H1 & Hs1 & Hy1 & Hm1 & Hrc & Hsent).
  destruct Hrc as (Hg1 & Hc1 & Hp1 & Hi1). rewrite Hp in Hp1.
  destruct (consume_spec T s1 l y1 Hs1 Hy1 Hp1) as (s2 & b2 & H2 & Hcons & Hn2).
  pose proof Hs1 as (Hn1 & _). destruct (Hn1 l y1 Hy1) as (_ & [_ Hw1] & _ & _ & Hin1 & _).
  destruct (consumeGossip_spec (m_bridge y1) Hw1) as (b2' & Hcons' & _ & _ & Hr2 & Hmeta2 & _ & Hcm2 & _).
  rewrite Hcons in Hcons'. injection Hcons' as <-.
  change (GetMessages (GCM.gcm_gnode (b_gcm (m_bridge y1)))).2 with (inbox (m_node y1)) in Hr2.
  assert (Hrep : forall k n, GCM.report (b_gcm (m_bridge y1)) k n = GCM.report (b_gcm (m_bridge y)) k n)
    by (intros; by rewrite Hg1).
  pose proof Hs as (Hn & [Hmade _] & _). pose proof (Hn l y Hy) as (_ & _ & _ & _ & _ & _ & Hau & _).
  rewrite Hm1, Forall_forall in Hin1.
  exists (length (inbox (m_node y1))), s2. eexists. rewrite acts_app, H1. cbn [mbind outcome_bind].
  split_and!; [exact H2|exact Hn2|cbn; congruence|..]; cbn [m_bridge].
  - intros r Hr. rewrite Hr2, Hrep. rewrite Forall_forall in Hsent.
    pose proof (report_of_node T s l r Hs (proj1 (Forall_forall _ _) Hok r Hr)) as Hnode.
    apply GCM.latest_newest; [rewrite Hi1; apply elem_of_app; right; by apply Hsent|done| |].
    + intros r' (m & Hm & [_ Hmn] & ->)%Hau.
      exact (report_of_new T s l r m Hs (proj1 (Forall_forall _ _) Hok r Hr) Hm Hmn).
    + intros m Hm [_ Hmn]. by apply (reporter_newest T s l rs r m Hs Hok Hnd Hr); [apply Hin1|].
  - intros key n r Hni [Hr Hset]. rewrite Hr2, Hrep, Hr. apply latest_keeps. intros m Hm Hab.
    apply Hin1, elem_of_app in Hm as [Hm | (r' & -> & Hr')%list_elem_of_fmap]; [by apply Hset|].
    exfalso. apply Hni, list_elem_of_fmap. exists r'. split; [|done]. destruct Hab as [_ <-].
    by rewrite (report_of_node T s l r' Hs (proj1 (Forall_forall _ _) Hok r' Hr')).
  - intros key n H. rewrite Hr2 in H. rewrite <- (reachable_dom T cfg s Hreach), <- (acts_dom _ _ _ H1).
    exact (heard_of T s1 l y1 key n Hs1 Hy1 H).
  - intros key. by rewrite Hmeta2, Hg1.
Qed.

End Plan.

(** ** Properties *)

Import Quorum Protocol Alerts.

(** The verdict [st] of a reporter on [key], fresh at the check. *)
Definition reports_fresh {ML} `{!Memberlist ML} (s : net ML) since (votes : string -> Time.t) key st (r : reporter) : Prop :=
  vo_key r.1.2.1 = key /\ vo_status r.1.2.1 = st /\
  fresh since (votes r.1.1) (GCM.msg_report (report_of s r)) = true.

(** C2: an outage is announced from any state of a cluster: in a network that
    can be reached from the start, whatever packets are still under way, nodes
    report a verdict on a key that contradicts the leader's record, and their
    next packets, as many as their queues may still cost, reach the leader;
    its [consumeGossip] and its check return, and the check sends
    exactly one command announcing the verdict, provided the reporters
    together with the nodes whose last report the leader already holds with
    this verdict are a quorum, the quorum is a majority of the cluster,
    the reports are fresh at the check, and the event interval has passed. *)
Theorem cluster_outage_announced {ML} `{!Memberlist ML} T cfg (s : net ML) l y q o clock
    (lead : Quorum.state (GNode.gossipNode ML)) (rs : list reporter) (held : list string) key st :
  let '(since, record, _, _) := GCM.meta (b_gcm (m_bridge y)) key in
  1 <= T -> reachable T cfg s -> nt_nodes s !! l = Some y -> m_pending y = [] ->
  s_fsm lead = m_fsm y ->
  Forall (can_report T s l) rs -> Forall (reports_fresh s since (t_votes (clock key).1) key st) rs ->
  Forall (fun n => exists r, settled s (b_gcm (m_bridge y)) key n r /\ r_status r = st /\
                     fresh since (t_votes (clock key).1 n) r = true) held ->
  NoDup (held ++ ((fun r => r.1.1) <$> rs)) ->
  1 <= q_quorum q <= Z.of_nat (length held + length rs) -> Z.of_nat (size (dom cfg)) < 2 * q_quorum q ->
  valid_orders o -> (s_env lead (s_step lead)).1 = true ->
  flips record st -> due q (clock key).1 since ->
  exists k s' y' lead' cs, acts s (reports_plan l (length (nt_wire s)) rs ++ consume l k) = Ret s' /\
    nt_nodes s' !! l = Some y' /\
    quorumCheck1 q o clock None (Leader.with_gcm lead (b_gcm (m_bridge y'))) = Ret (lead', tt) /\
    s_cmds lead' = s_cmds lead ++ cs /\
    filter (fun c => tsc_key c = key /\ tsc_status c = st) cs = [cmd_of q (Fsm.f_cm (s_fsm lead)) key st].
Proof.
  destruct (GCM.meta (b_gcm (m_bridge y)) key) as [[[since record] em] et] eqn:Hmeta.
  intros HT Hreach Hy Hp Hlead Hok Hfr Hheld Hnd Hq Hsize Ho Hl Hflips Hdue.
  pose proof Hnd as (_ & Hdis & Hnd')%NoDup_app.
  destruct (leader_learns T cfg s l y rs HT Hreach Hy Hp Hok Hnd')
    as (k & s' & y' & Hrun & Hy' & _ & Hrs & Hset & Hdom & Hm).
  pose proof (reachable_ok T cfg s HT Hreach) as (Hnodes & _).
  destruct (Hnodes l y Hy) as (_ & [Htab _] & _).
  set (g := b_gcm (m_bridge y')) in *. 
  rewrite Forall_forall in Hfr. rewrite Forall_forall in Hheld. rewrite Forall_forall in Hok.
  assert (Hall : forall n, n ∈ held ++ ((fun r => r.1.1) <$> rs) -> exists r, GCM.report g key n = Some r /\
            fresh since (t_votes (clock key).1 n) r = true /\ r_status r = st).
  { intros n [Hn | (r & -> & Hr)%list_elem_of_fmap]%elem_of_app.
    - destruct (Hheld n Hn) as (r & Hs & Hst & Hf). exists r. split_and!; [|done|done].
      apply Hset; [|done]. intros Hin. by apply (Hdis n).
    - destruct (Hfr r Hr) as (<- & <- & Hf). exists (GCM.msg_report (report_of s r)). specialize (Hrs r Hr).
      destruct r as [[a [output now]] calls]. destruct (Hok _ Hr) as (_ & x & Hx & _).
      unfold report_of in *. rewrite Hx in *. done. }
  destruct (held ++ ((fun r => r.1.1) <$> rs)) as [|n0 ns] eqn:Hns.
  { apply (f_equal length) in Hns. rewrite length_app, length_fmap in Hns. cbn in Hns. lia. }
  rewrite <- Hns in *. destruct (Hall n0) as (r0 & Hr0 & _); [rewrite Hns; constructor|].
  destruct (report_entry g key n0 r0 Hr0) as (v & Hlk & Hmv & Hgm). rewrite Hm, Hmeta in Hmv.
  injection Hmv as Hsince Hrecord _ _.
  destruct (raise_alert q o clock (Leader.with_gcm lead g) key v st) as (lead' & cs & Hcheck & Hcs & Hone);
    [by unfold ready, Leader.with_gcm; cbn; rewrite Hlead|done|done|done|lia| |by rewrite <- Hrecord|by rewrite <- Hsince| |by exists k, s', y', lead', cs].
  - rewrite <- Hsince. eapply Z.le_lt_trans; [|exact Hsize]. apply Nat2Z.inj_le, voters_within.
    intros n Hn. rewrite <- Hgm in Hn. exact (Hdom key n Hn).
  - rewrite <- Hsince. etrans; [apply Hq|]. rewrite <- (length_fmap (fun r : reporter => r.1.1) rs), <- length_app.
    apply supporters_enough; [done|]. intros n Hn. rewrite <- Hgm. exact (Hall n Hn).
Qed.

(** [can_report] as a check to run. *)
#[global] Instance fits_dec overhead limit (q : Queue.queue MyBroadcastMessage) :
  Decision (QueueFlow.fits overhead limit q).
Proof. unfold QueueFlow.fits. apply _. Defined.

Definition can_report_check {ML} `{!Memberlist ML} (T : Z) (s : net ML) l (r : reporter) : bool :=
  let '(a, (output, now), calls) := r in
  match nt_nodes s !! a with
  | None => false
  | Some x =>
      let m := output_msg (m_bridge x) output now in
      let q := Queue.QueueBroadcast (outbox (m_node x)) m in
      bool_decide (a <> l) && bool_decide (stamps_left (m_bridge x) now) && bool_decide (Delegate.msg_clean m) &&
      bool_decide (Forall (fun c : Z * Z * Z => c.1.1 <= T /\ QueueFlow.fits c.1.2 c.2 q) calls) &&
      bool_decide (QueueFlow.budgets T QueueFlow.all (Queue.q_tq q) <= length calls)%nat
  end.

Lemma can_report_checked {ML} `{!Memberlist ML} T (s : net ML) l r :
  can_report_check T s l r = true -> can_report T s l r.
Proof.
  destruct r as [[a [output now]] calls]. unfold can_report_check, can_report.
  destruct (nt_nodes s !! a) as [x|] eqn:Hx; [|done]. rewrite !andb_true_iff, !bool_decide_eq_true.
  intros [[[[Hne Hst] Hcl] Hcalls] Hbud]. split; [done|]. by exists x.
Qed.

(** Three nodes; the leader has reported, its report has reached nobody, and a
    record says that the key is up. *)
Definition demo_members : list string := ["n1:1"; "n2:1"; "n3:1"].

Definition demo_cluster : gmap string (list string) :=
  list_to_map ((fun a => (a, demo_members)) <$> demo_members).

Definition demo_prefix : list (action (list string)) :=
  [Commit "n1:1" (Entry CMD_SET "db" "10.0.0.1");
   Verdict "n1:1" (VerifyOutput "db" "10.0.0.1" GOSSIP_UP) (10 * Time.Second);
   Commit "n1:1" (Entry CMD_NOTIFY_STATUS "db" GOSSIP_UP);
   Commit "n1:1" (Entry CMD_NOTIFY_TIME "db" "10000000000");
   Verdict "n1:1" (VerifyOutput "db" "10.0.0.1" GOSSIP_DOWN) (95 * Time.Second)].

Definition demo_reporters : list reporter :=
  (fun a => (a, (VerifyOutput "db" "10.0.0.1" GOSSIP_DOWN, 95 * Time.Second), [(2, 2, 1400); (2, 2, 1400)])) <$>
  ["n2:1"; "n3:1"].

Definition demo_net : net (list string) :=
  match acts (GossipNet.start demo_cluster) demo_prefix with Ret s => s | Panic _ => Net ∅ [] [] end.

Definition demo_leader : member (list string) :=
  default (start_member "" []) (nt_nodes demo_net !! "n1:1").

Lemma demo_net_reachable : reachable 2 demo_cluster demo_net.
Proof.
  apply (acts_reachable 2 demo_cluster demo_prefix (GossipNet.start demo_cluster)); [constructor| |].
  - apply enabled_all_checked. vm_compute. reflexivity.
  - vm_compute. reflexivity.
Qed.

Lemma cluster_outage_announced_witness :
  let lead := State (m_fsm demo_leader) (fun _ => (true, RaftOk)) 0 [] [] in
  exists k s' y' lead' cs,
    acts demo_net (reports_plan "n1:1" 0 demo_reporters ++ consume "n1:1" k) = Ret s' /\
    nt_nodes s' !! "n1:1" = Some y' /\
    quorumCheck1 demo_config plain_orders (demo_clock 100) None (Leader.with_gcm lead (b_gcm (m_bridge y'))) =
      Ret (lead', tt) /\
    s_cmds lead' = s_cmds lead ++ cs /\
    filter (fun c => tsc_key c = "db" /\ tsc_status c = GOSSIP_DOWN) cs =
      [cmd_of demo_config (b_cm (m_bridge demo_leader)) "db" GOSSIP_DOWN].
Proof.
  apply (cluster_outage_announced 2 demo_cluster demo_net "n1:1" demo_leader demo_config plain_orders (demo_clock 100)
           (State (m_fsm demo_leader) (fun _ => (true, RaftOk)) 0 [] []) demo_reporters ["n1:1"] "db" GOSSIP_DOWN).
  - lia.
  - apply demo_net_reachable.
  - vm_compute. reflexivity.
  - vm_compute. reflexivity.
  - reflexivity.
  - repeat (apply Forall_cons; split; [apply can_report_checked; vm_compute; reflexivity|]). by apply Forall_nil.
  - repeat (apply Forall_cons; split; [split_and!; vm_compute; reflexivity|]). by apply Forall_nil.
  - apply Forall_singleton. exists (Report GOSSIP_DOWN (95 * Time.Second + 1)). split_and!;
      [split; [vm_compute; reflexivity|]|reflexivity|vm_compute; reflexivity].
    intros m Hm _. revert m Hm. apply Forall_forall.
    apply (bool_decide_unpack (Forall (fun m => TimeStamp m <= 95 * Time.Second + 1) (nt_made demo_net))).
    vm_compute. exact I.
  - apply (bool_decide_unpack (NoDup demo_members)). vm_compute. exact I.
  - vm_compute. split; discriminate.
  - vm_compute. reflexivity.
  - apply plain_orders_valid.
  - reflexivity.
  - left. split; vm_compute; reflexivity.
  - vm_compute. discriminate.
Defined.

End ClusterAlert.
