(* ===== verification/Cluster.v ===== *)
(** * The cluster: many nodes, one log

    Every node runs the goroutines of main.go on its own state and applies the
    entries of the common raft log in order (fsm.go).  A node that appends is
    the leader and has applied the whole log, which is what the barrier of
    [quorumCheck1] waits for.  An entry whose proposal was reported as failed
    may still be committed later, by the next leader: it stays in limbo.  A
    node may restart and replay the log, from its beginning or from a snapshot
    of any node, which [Persist] may have written later than raft counts; raft
    may also install a snapshot on a running node that lags. *)

From S2P Require Import Prelude GoStd Base Json KVCache Delegate Gossip GossipCache Detector Fsm Quorum Protocol Alerts Leader.

Module Cluster.

Import Quorum Protocol Leader.

Section System.

Context {N : Type} `{!GossipNode N}.

(** A snapshot file: the index raft has given it, and the bytes [Persist] wrote,
    which may hold later entries too.  [sn_upto] is a ghost: no entry past it
    has reached the bytes. *)
Record snapshot : Type := MkSnapshot {
  sn_index : nat;
  sn_upto : nat;
  sn_bytes : string
}.

(** A node, with two ghosts: [cn_synced] is the [sn_upto] of the snapshot it
    started from, [cn_since] the place in the log where the record of a key
    begins, [None] when the record skips entries. *)
Record node : Type := MkNode {
  cn_world : world N;       (** state, commands and results of the node *)
  cn_applied : nat;         (** entries of the log it has applied *)
  cn_synced : nat;
  cn_since : string -> option nat
}.

Record cluster : Type := MkCluster {
  cl_log : list logEntryData;
  cl_limbo : list logEntryData;
  cl_snapshots : list snapshot;
  cl_nodes : list node
}.

Definition put_node (c : cluster) (i : nat) (n : node) : cluster :=
  MkCluster (cl_log c) (cl_limbo c) (cl_snapshots c) (<[i := n]> (cl_nodes c)).

(** The node [i] has proposed [ps] and raft has committed [es] of them. *)
Definition append (c : cluster) (es ps : list logEntryData) (i : nat) (w : world N) (b : nat)
    (h : string -> option nat) : cluster :=
  MkCluster (cl_log c ++ es) (cl_limbo c ++ ps) (cl_snapshots c)
    (<[i := MkNode w (length (cl_log c ++ es)) b h]> (cl_nodes c)).

Definition fsm_of (w : world N) : Fsm.fsm_state N := s_fsm (w_state w).

Definition with_world_fsm (w : world N) (f : Fsm.fsm_state N) : world N :=
  World (with_fsm (w_state w) f) (w_cmdCh w) (w_resultCh w).

Inductive step (q : config) : cluster -> cluster -> Prop :=
| step_check c i o clock barrier s s' cs es p rs b h :
    cl_nodes c !! i = Some (MkNode (World s p rs) (length (cl_log c)) b h) -> valid_orders o ->
    quorumCheck1 q o clock barrier s = Ret (s', tt) ->
    s_cmds s' = s_cmds s ++ cs -> s_applied s' = s_applied s ++ es ->
    step q c (append c es (check_entries q o clock (check_data o barrier s)) i (World s' (p ++ cs) rs) b h)
| step_result c i r s s' es p r1 r2 b h :
    cl_nodes c !! i = Some (MkNode (World s p (r1 ++ r :: r2)) (length (cl_log c)) b h) ->
    quorumCheck2 r s = Ret (s', tt) -> s_applied s' = s_applied s ++ es ->
    step q c (append c es [result_entry r] i (World s' p (r1 ++ r2)) b h)
| step_client c i e w f b h :
    cl_nodes c !! i = Some (MkNode w (length (cl_log c)) b h) ->
    le_Cmd e ∈ [CMD_SET; CMD_DELETE] -> Fsm.run_event (fsm_of w) (Fsm.Committed e) = Ret f ->
    step q c (append c [e] [] i (with_world_fsm w f) b h)
| step_late c e :
    e ∈ cl_limbo c ->
    step q c (MkCluster (cl_log c ++ [e]) (cl_limbo c) (cl_snapshots c) (cl_nodes c))
| step_follow c i e w f k b h :
    cl_nodes c !! i = Some (MkNode w k b h) -> cl_log c !! k = Some e ->
    Fsm.run_event (fsm_of w) (Fsm.Committed e) = Ret f ->
    step q c (put_node c i (MkNode (with_world_fsm w f) (S k) b h))
| step_worker c i exec leader tsc s p1 p2 rs k b h :
    cl_nodes c !! i = Some (MkNode (World s (p1 ++ tsc :: p2) rs) k b h) ->
    step q c (put_node c i (MkNode (World s (p1 ++ p2)
                (rs ++ option_list (doTimeoutShellCmd exec leader tsc))) k b h))
| step_gossip c i m s g' p rs k b h :
    cl_nodes c !! i = Some (MkNode (World s p rs) k b h) ->
    GCM.deliver (Fsm.f_gcm (s_fsm s)) m = Ret g' ->
    step q c (put_node c i (MkNode (World (with_gcm s g') p rs) k b h))
| step_forget c i key s p rs k b h :
    cl_nodes c !! i = Some (MkNode (World s p rs) k b h) ->
    step q c (put_node c i (MkNode (World (with_gcm s (GCM.DelKey (Fsm.f_gcm (s_fsm s)) key)) p rs) k b
                (fun key' => if decide (key = key') then Some k else h key')))
| step_forget_node c i key nodeAddr s p rs k b h :
    cl_nodes c !! i = Some (MkNode (World s p rs) k b h) ->
    step q c (put_node c i
                (MkNode (World (with_gcm s (GCM.DelNodeAddr (Fsm.f_gcm (s_fsm s)) key nodeAddr)) p rs) k b h))
| step_snapshot c i w k b h index :
    cl_nodes c !! i = Some (MkNode w k b h) -> (index <= k)%nat ->
    step q c (MkCluster (cl_log c) (cl_limbo c)
                (cl_snapshots c ++ [MkSnapshot index (b `max` k) (KV.Marshal (Fsm.f_cm (fsm_of w))).1]) (cl_nodes c))
| step_restart c i gnode env n :
    cl_nodes c !! i = Some n ->
    step q c (put_node c i (MkNode (start gnode env) 0 0 (fun _ => Some 0%nat)))
| step_restart_from c i gnode env n sn f :
    cl_nodes c !! i = Some n -> sn ∈ cl_snapshots c ->
    Fsm.Restore (fsm_of (start gnode env)) (sn_bytes sn) = (f, None) ->
    step q c (put_node c i (MkNode (with_world_fsm (start gnode env) f) (sn_index sn) (sn_upto sn)
                (fun _ => Some (sn_index sn))))
| step_install c i w k b h sn f :
    cl_nodes c !! i = Some (MkNode w k b h) -> sn ∈ cl_snapshots c ->
    Fsm.Restore (fsm_of w) (sn_bytes sn) = (f, None) ->
    step q c (put_node c i (MkNode (with_world_fsm w f) (sn_index sn) (sn_upto sn) (fun _ => None))).

(** A new cluster: nothing logged, every node just started. *)
Definition initial (members : list (N * (nat -> bool * raft_reply))) : cluster :=
  MkCluster [] [] [] ((fun m => MkNode (start m.1 m.2) 0 0 (fun _ => Some 0%nat)) <$> members).

(** ** The invariant *)

(** The entries of the log from [i] to [j], as they come back from the wire. *)
Definition entries (log : list logEntryData) (i j : nat) : list logEntryData :=
  Fsm.coerce_entry <$> drop i (take j log).

Definition ops (log : list logEntryData) (i j : nat) : list KV.op := Fsm.kv_log (entries log i j).

(** The table the first [k] entries of the log make. *)
Definition table_at (log : list logEntryData) (k : nat) : gmap string string :=
  KV.spec_run ∅ (ops log 0 k).

(** The record the entries from [j] to [k] make. *)
Definition record_from (log : list logEntryData) (j k : nat) (key : string) : Time.t * gossipStatus * bool * Time.t :=
  Fsm.meta_log key (entries log j k) (GCM.meta_of zero_consensus).

(** A table at [k] that may hold entries up to [b]: once it has applied them
    again, and from then on, it is the table of the log. *)
Definition catches_up (log : list logEntryData) (d : gmap string string) (k b : nat) : Prop :=
  (k <= length log)%nat /\ (b <= length log)%nat /\
  forall c, (k <= c)%nat -> (b <= c)%nat -> (c <= length log)%nat -> KV.spec_run d (ops log k c) = table_at log c.

Definition records_from (log : list logEntryData) (f : Fsm.fsm_state N) (k : nat) (h : string -> option nat) : Prop :=
  forall key j, h key = Some j -> (j <= k)%nat /\ GCM.meta (Fsm.f_gcm f) key = record_from log j k key.

Definition node_ok (log : list logEntryData) (n : node) : Prop :=
  let f := fsm_of (cn_world n) in
  (exists d, KV.repr (Fsm.f_cm f) d /\ utf8_map d /\ catches_up log d (cn_applied n) (cn_synced n)) /\
  records_from log f (cn_applied n) (cn_since n) /\
  invariant (cn_world n).

Definition snapshot_ok (log : list logEntryData) (sn : snapshot) : Prop :=
  exists d, sn_bytes sn = (KV.Marshal (CacheManager (Some d))).1 /\ utf8_map d /\
    catches_up log d (sn_index sn) (sn_upto sn).

Definition cluster_ok (c : cluster) : Prop :=
  Forall sane (cl_log c) /\ Forall sane (cl_limbo c) /\ Forall (snapshot_ok (cl_log c)) (cl_snapshots c) /\
  Forall (node_ok (cl_log c)) (cl_nodes c).

(** ** Lemmas: parts of the log *)

Lemma entries_split log i j k :
  (i <= j)%nat -> (j <= k)%nat -> (k <= length log)%nat -> entries log i k = entries log i j ++ entries log j k.
Proof.
  intros Hij Hjk Hk. unfold entries. rewrite <- fmap_app. f_equal.
  rewrite <- (take_drop j (take k log)) at 1. rewrite take_take, Nat.min_l by done.
  rewrite drop_app_le by (rewrite length_take; lia). done.
Qed.

Lemma entries_nil log k : entries log k k = [].
Proof. unfold entries. rewrite drop_ge; [done|]. rewrite length_take. lia. Qed.

Lemma entries_grow log es i k : (k <= length log)%nat -> entries (log ++ es) i k = entries log i k.
Proof. intros Hk. unfold entries. by rewrite take_app_le. Qed.

Lemma entries_tail log es :
  entries (log ++ es) (length log) (length (log ++ es)) = Fsm.coerce_entry <$> es.
Proof. unfold entries. by rewrite firstn_all, drop_app_length. Qed.

Lemma entries_one log k e : log !! k = Some e -> entries log k (S k) = Fsm.coerce_entry <$> [e].
Proof.
  intros He. unfold entries. rewrite (take_S_r _ _ _ He). rewrite drop_app_ge by (rewrite length_take; lia).
  rewrite length_take, Nat.min_l by (apply lookup_lt_Some in He; lia). by rewrite Nat.sub_diag.
Qed.

Lemma ops_split log i j k :
  (i <= j)%nat -> (j <= k)%nat -> (k <= length log)%nat -> ops log i k = ops log i j ++ ops log j k.
Proof. intros. unfold ops. by rewrite (entries_split log i j k), Fsm.kv_log_app. Qed.

Lemma entries_clean log i j : Forall Fsm.entry_clean (entries log i j).
Proof. apply Forall_fmap, Forall_forall. intros e _. split_and!; apply coerce_is_valid. Qed.

(** ** Lemmas: catching up *)

Lemma catches_up_exact log d k b : catches_up log d k b -> (b <= k)%nat -> d = table_at log k.
Proof. intros (Hk & _ & H) Hb. rewrite <- (H k) by lia. unfold ops. by rewrite entries_nil. Qed.

Lemma catches_up_empty log : catches_up log ∅ 0 0.
Proof. split_and!; [lia|lia|done]. Qed.

Lemma catches_up_grow log es d k b : catches_up log d k b -> catches_up (log ++ es) d k b.
Proof.
  intros (Hk & Hb & H). split_and!; [rewrite length_app; lia..|]. intros c Hkc Hbc Hc.
  destruct (decide (c <= length log)%nat) as [Hle|Hgt].
  - unfold ops, table_at, ops. rewrite !entries_grow by done. by apply H.
  - unfold table_at. rewrite (ops_split _ k (length log) c), (ops_split _ 0 (length log) c), !KV.spec_run_app by lia.
    f_equal. specialize (H (length log) Hk Hb (le_n _)). unfold ops, table_at, ops in *. by rewrite !entries_grow by done.
Qed.

Lemma catches_up_advance log d k k' b :
  catches_up log d k b -> (k <= k')%nat -> (k' <= length log)%nat ->
  catches_up log (KV.spec_run d (ops log k k')) k' b.
Proof.
  intros (Hk & Hb & H) Hkk Hk'. split_and!; [done..|]. intros c Hkc Hbc Hc.
  rewrite <- KV.spec_run_app, <- ops_split by done. apply H; lia.
Qed.

(** Replaying from an earlier index changes nothing in the end. *)
Lemma catches_up_earlier log d k b i : catches_up log d k b -> (i <= k)%nat -> catches_up log d i (b `max` k).
Proof.
  intros (Hk & Hb & H) Hi. split_and!; [lia..|]. intros c Hic Hbc Hc.
  specialize (H c ltac:(lia) ltac:(lia) Hc). apply map_eq. intros key.
  assert (Hkey : KV.spec_run d (ops log k c) !! key = table_at log c !! key) by (by rewrite H).
  rewrite (ops_split log i k c) by lia. unfold table_at in *.
  rewrite (ops_split log 0 i c), (ops_split log i k c) in * by lia.
  rewrite !KV.spec_run_lookup, !KV.last_write_app in *.
  destruct (KV.last_write (ops log k c) key); [done|]. by destruct (KV.last_write (ops log i k) key).
Qed.

(** ** Lemmas: nodes *)

(** What replaying entries does to the table and the records. *)
Lemma replay_effect es : forall (f f' : Fsm.fsm_state N) d,
  KV.repr (Fsm.f_cm f) d -> Fsm.replay f es = Ret f' ->
  KV.repr (Fsm.f_cm f') (KV.spec_run d (Fsm.kv_log (Fsm.coerce_entry <$> es))) /\
  forall k, GCM.meta (Fsm.f_gcm f') k = Fsm.meta_log k (Fsm.coerce_entry <$> es) (GCM.meta (Fsm.f_gcm f) k).
Proof.
  induction es as [|e es IH]; intros f f' d Hd Hrun; [by injection Hrun as <-|].
  destruct (Fsm.committed_coerce f d e Hd) as (f1 & Hf1 & Hd1 & Hm1 & _).
  unfold Fsm.replay, Fsm.run_events in Hrun. cbn [fmap list_fmap foldlM] in Hrun.
  rewrite Hf1 in Hrun. cbn [mbind outcome_bind] in Hrun. destruct (IH f1 f' _ Hd1 Hrun) as [Ht Hm]. split.
  - unfold Fsm.kv_log in *. cbn. by destruct (Fsm.kv_op (Fsm.coerce_entry e)).
  - intros k. rewrite Hm, Hm1. unfold Fsm.meta_log. cbn. by case_decide.
Qed.

Lemma replay_one (f f' : Fsm.fsm_state N) e :
  Fsm.run_event f (Fsm.Committed e) = Ret f' -> Fsm.replay f [e] = Ret f'.
Proof. intros H. unfold Fsm.replay, Fsm.run_events. cbn [fmap list_fmap foldlM]. by rewrite H. Qed.

Lemma node_ok_grow log es n : node_ok log n -> node_ok (log ++ es) n.
Proof.
  intros ((d & Hd & Hu & Hc) & Hrec & Hi). split_and!; [exists d; split_and!; by try apply catches_up_grow| |done].
  intros key j Hj. destruct (Hrec key j Hj) as [Hjk Hm]. split; [done|]. rewrite Hm. unfold record_from.
  rewrite entries_grow; [done|]. apply Hc.
Qed.

Lemma snapshot_ok_grow log es sn : snapshot_ok log sn -> snapshot_ok (log ++ es) sn.
Proof. intros (d & Hb & Hu & Hc). exists d. split_and!; [done..|]. by apply catches_up_grow. Qed.

(** A node that has applied the entries from [k] to [k']. *)
Lemma node_ok_replay log es (w w' : world N) k k' b h :
  node_ok log (MkNode w k b h) -> (k <= k')%nat -> (k' <= length log)%nat ->
  entries log k k' = Fsm.coerce_entry <$> es -> Fsm.replay (fsm_of w) es = Ret (fsm_of w') -> invariant w' ->
  node_ok log (MkNode w' k' b h).
Proof.
  intros ((d & Hd & Hu & Hc) & Hrec & _) Hkk Hk' Hes Hrep Hi. cbn [cn_world cn_applied cn_synced cn_since] in *.
  destruct (replay_effect es _ _ d Hd Hrep) as [Hd' Hm']. rewrite <- Hes in Hd', Hm'. split_and!; [|..|done].
  - eexists. split_and!; [exact Hd'|apply Fsm.spec_run_utf8; [done|apply entries_clean]|by apply catches_up_advance].
  - intros key j Hj. destruct (Hrec key j Hj) as [Hjk Hm]. cbn [cn_applied cn_world]. split; [lia|].
    rewrite Hm', Hm. unfold record_from. by rewrite (entries_split log j k k'), Alerts.meta_log_app.
Qed.

(** A node that has appended [es] to the log. *)
Lemma node_ok_append log es (w w' : world N) b h :
  node_ok log (MkNode w (length log) b h) -> invariant w' -> Fsm.replay (fsm_of w) es = Ret (fsm_of w') ->
  node_ok (log ++ es) (MkNode w' (length (log ++ es)) b h).
Proof.
  intros Hn Hi Hrep. eapply (node_ok_replay _ es w); [by apply node_ok_grow| |done|apply entries_tail|done|done].
  rewrite length_app. lia.
Qed.

(** A node whose world moved without touching the table or the log: the record
    of a key stays, or begins again here. *)
Lemma node_ok_world log (w w' : world N) q k b h h' :
  node_ok log (MkNode w k b h) -> Leader.step q w w' -> Fsm.f_cm (fsm_of w') = Fsm.f_cm (fsm_of w) ->
  (forall key j, h' key = Some j ->
     (h key = Some j /\ GCM.meta (Fsm.f_gcm (fsm_of w')) key = GCM.meta (Fsm.f_gcm (fsm_of w)) key) \/
     (j = k /\ GCM.meta (Fsm.f_gcm (fsm_of w')) key = GCM.meta_of zero_consensus)) ->
  node_ok log (MkNode w' k b h').
Proof.
  intros ((d & Hd & Hu & Hc) & Hrec & Hi) Hstep Hcm Hh. cbn [cn_world cn_applied cn_synced cn_since] in *.
  split_and!; cbn [cn_world cn_applied cn_synced cn_since]; [exists d; by rewrite Hcm| |by eapply invariant_step].
  intros key j Hj. destruct (Hh key j Hj) as [[Hj' ->]|[-> ->]]; [by apply Hrec|].
  split; [done|]. unfold record_from. by rewrite entries_nil.
Qed.

(** Restoring a snapshot gives its table. *)
Lemma snapshot_Restore log sn (f f' : Fsm.fsm_state N) :
  snapshot_ok log sn -> Fsm.Restore f (sn_bytes sn) = (f', None) ->
  exists d, KV.repr (Fsm.f_cm f') d /\ utf8_map d /\ catches_up log d (sn_index sn) (sn_upto sn) /\
    Fsm.f_gcm f' = Fsm.f_gcm f.
Proof.
  intros (d & Hb & Hu & Hc) Hr. exists d. unfold Fsm.Restore in Hr. rewrite Hb, KV.UnMarshal_Marshal in Hr by done.
  by injection Hr as <-.
Qed.

Lemma node_ok_restore log sn (w : world N) f' h :
  snapshot_ok log sn -> Fsm.Restore (fsm_of w) (sn_bytes sn) = (f', None) -> invariant w ->
  (forall key j, h key = Some j ->
     j = sn_index sn /\ GCM.meta (Fsm.f_gcm (fsm_of w)) key = GCM.meta_of zero_consensus) ->
  node_ok log (MkNode (with_world_fsm w f') (sn_index sn) (sn_upto sn) h).
Proof.
  intros Hsn Hr (_ & Hok & Hp & Hrs) Hh. destruct (snapshot_Restore log sn _ f' Hsn Hr) as (d & Hd & Hu & Hc & Hg).
  split_and!; [by exists d| |].
  - intros key j Hj. destruct (Hh key j Hj) as [-> Hm]. split; [done|]. cbn. rewrite Hg, Hm.
    unfold record_from. by rewrite entries_nil.
  - split_and!; [by eexists| |done|done]. intros key. cbn. rewrite Hg. apply Hok.
Qed.

Lemma node_ok_start log gnode env : node_ok log (MkNode (start gnode env) 0 0 (fun _ => Some 0%nat)).
Proof.
  split_and!; [exists ∅; split_and!; [done|apply map_Forall_empty|apply catches_up_empty]| |apply invariant_start].
  intros key j [= <-]. split; [done|]. unfold record_from. by rewrite entries_nil.
Qed.

(** ** Lemmas: the cluster *)

Lemma cluster_ok_put c i n : cluster_ok c -> node_ok (cl_log c) n -> cluster_ok (put_node c i n).
Proof. intros (Hlog & Hlim & Hsn & Hns) Hn. split_and!; [done..|]. by apply Forall_insert. Qed.

Lemma cluster_ok_append c es ps i w b h :
  cluster_ok c -> Forall sane es -> Forall sane ps ->
  node_ok (cl_log c ++ es) (MkNode w (length (cl_log c ++ es)) b h) -> cluster_ok (append c es ps i w b h).
Proof.
  intros (Hlog & Hlim & Hsn & Hns) Hes Hps Hn. split_and!; cbn [append cl_log cl_limbo cl_snapshots cl_nodes].
  - by apply Forall_app.
  - by apply Forall_app.
  - eapply Forall_impl; [exact Hsn|]. intros. by apply snapshot_ok_grow.
  - apply Forall_insert; [|done]. eapply Forall_impl; [exact Hns|]. intros. by apply node_ok_grow.
Qed.

Lemma sane_sublist es ps : es `sublist_of` ps -> Forall sane ps -> Forall sane es.
Proof. intros Hsub Hps. rewrite Forall_forall in *. intros e He. apply Hps. by eapply elem_of_sublist. Qed.

Lemma cluster_check q c i o clock barrier s s' cs es p rs b h :
  cluster_ok c -> cl_nodes c !! i = Some (MkNode (World s p rs) (length (cl_log c)) b h) -> valid_orders o ->
  quorumCheck1 q o clock barrier s = Ret (s', tt) ->
  s_cmds s' = s_cmds s ++ cs -> s_applied s' = s_applied s ++ es ->
  cluster_ok (append c es (check_entries q o clock (check_data o barrier s)) i (World s' (p ++ cs) rs) b h).
Proof.
  intros Hc Hi Ho Hrun Hcs Hes. pose proof Hc as (_ & _ & _ & Hns). rewrite Forall_lookup in Hns. specialize (Hns i _ Hi).
  pose proof Hns as (_ & _ & Hinv). pose proof Hinv as (Hr & _). cbn in Hr.
  destruct (quorumCheck1_proposes q o clock barrier s Hr) as (s1 & es1 & [] & Hrun1 & (_ & Ha & _ & Hf) & Hsub & _).
  rewrite Hrun in Hrun1. injection Hrun1 as <-. rewrite Hes in Ha. apply app_inv_head in Ha as <-.
  apply cluster_ok_append; [done|by eapply sane_sublist; [|apply sane_check]|apply sane_check|].
  apply (node_ok_append _ _ (World s p rs)); [done| |done].
  eapply invariant_step; [exact Hinv|]. by eapply Leader.step_check.
Qed.

Lemma cluster_result c i r s s' es p r1 r2 b h :
  cluster_ok c -> cl_nodes c !! i = Some (MkNode (World s p (r1 ++ r :: r2)) (length (cl_log c)) b h) ->
  quorumCheck2 r s = Ret (s', tt) -> s_applied s' = s_applied s ++ es ->
  cluster_ok (append c es [result_entry r] i (World s' p (r1 ++ r2)) b h).
Proof.
  intros Hc Hi Hrun Hes. pose proof Hc as (_ & _ & _ & Hns). rewrite Forall_lookup in Hns. specialize (Hns i _ Hi).
  pose proof Hns as (_ & _ & Hinv). pose proof Hinv as (Hr & _ & _ & Hrs). cbn in Hr, Hrs.
  apply Forall_app in Hrs as [_ [Han _]%Forall_cons].
  destruct (Alerts.quorumCheck2_proposes r s Hr) as (s1 & es1 & [] & Hrun1 & (_ & Ha & _ & Hf) & Hsub & _).
  rewrite Hrun in Hrun1. injection Hrun1 as <-. rewrite Hes in Ha. apply app_inv_head in Ha as <-.
  assert (Hsane : sane (result_entry r)) by (by apply sane_result).
  apply cluster_ok_append; [done|by eapply sane_sublist, Forall_singleton|by apply Forall_singleton|].
  apply (node_ok_append _ _ (World s p (r1 ++ r :: r2))); [done| |done].
  eapply (invariant_step (Config 0 "" 0)); [exact Hinv|]. by eapply Leader.step_result.
Qed.

(** Applying one entry, new or of the log. *)
Lemma invariant_committed (w : world N) d e f :
  invariant w -> KV.repr (Fsm.f_cm (fsm_of w)) d -> sane e ->
  Fsm.run_event (fsm_of w) (Fsm.Committed e) = Ret f -> invariant (with_world_fsm w f).
Proof.
  intros (_ & Hok & Hp & Hrs) Hd He Hrun. destruct (sane_committed (fsm_of w) e f d Hd He Hok Hrun) as [Hr Hrec].
  by split_and!.
Qed.

Lemma cluster_client c i e w f b h :
  cluster_ok c -> cl_nodes c !! i = Some (MkNode w (length (cl_log c)) b h) -> sane e ->
  Fsm.run_event (fsm_of w) (Fsm.Committed e) = Ret f -> cluster_ok (append c [e] [] i (with_world_fsm w f) b h).
Proof.
  intros Hc Hi He Hrun. pose proof Hc as (_ & _ & _ & Hns). rewrite Forall_lookup in Hns. specialize (Hns i _ Hi).
  pose proof Hns as ((d & Hd & _) & _ & Hinv).
  apply cluster_ok_append; [done|by apply Forall_singleton|by apply Forall_nil|].
  apply (node_ok_append _ _ w); [done|by eapply invariant_committed|by apply replay_one].
Qed.

Lemma cluster_follow log e w f k b h :
  Forall sane log -> node_ok log (MkNode w k b h) -> log !! k = Some e ->
  Fsm.run_event (fsm_of w) (Fsm.Committed e) = Ret f -> node_ok log (MkNode (with_world_fsm w f) (S k) b h).
Proof.
  intros Hlog Hn He Hrun. pose proof Hn as ((d & Hd & _) & _ & Hinv). rewrite Forall_lookup in Hlog.
  apply (node_ok_replay log [e] w _ k); [done|lia|by eapply lookup_lt_Some in He|by apply entries_one|
    by apply replay_one|by eapply invariant_committed; [..|apply (Hlog k)|]].
Qed.

Lemma cluster_snapshot c i w k b h index :
  cluster_ok c -> cl_nodes c !! i = Some (MkNode w k b h) -> (index <= k)%nat ->
  snapshot_ok (cl_log c) (MkSnapshot index (b `max` k) (KV.Marshal (Fsm.f_cm (fsm_of w))).1).
Proof.
  intros (_ & _ & _ & Hns) Hi Hk. rewrite Forall_lookup in Hns. destruct (Hns i _ Hi) as ((d & Hd & Hu & Hcu) & _).
  exists d. split_and!; [|done|by apply catches_up_earlier]. cbn in Hd |- *. unfold KV.repr in Hd.
  by destruct (Fsm.f_cm (fsm_of w)); cbn in Hd; subst.
Qed.

Lemma cluster_ok_step q c c' : cluster_ok c -> step q c c' -> cluster_ok c'.
Proof.
  intros Hc Hstep. pose proof Hc as (Hlog & Hlim & Hsn & Hns).
  assert (Hpick : forall i n, cl_nodes c !! i = Some n -> node_ok (cl_log c) n).
  { intros i n Hi. rewrite Forall_lookup in Hns. eauto. }
  rewrite Forall_forall in Hsn. destruct Hstep.
  - by eapply cluster_check.
  - by eapply cluster_result.
  - apply cluster_client; [done|done|by apply sane_client|done].
  - rewrite Forall_forall in Hlim. split_and!; cbn [cl_log cl_limbo cl_snapshots cl_nodes].
    + apply Forall_app. split; [done|]. by apply Forall_singleton, Hlim.
    + by apply Forall_forall.
    + apply Forall_forall. intros sn Hin. by apply snapshot_ok_grow, Hsn.
    + eapply Forall_impl; [exact Hns|]. intros. by apply node_ok_grow.
  - apply cluster_ok_put; [done|]. by eapply cluster_follow; [..|exact H1]; eauto.
  - apply cluster_ok_put; [done|]. eapply (node_ok_world _ _ _ q); [apply (Hpick _ _ H)|apply Leader.step_worker|done|auto].
  - apply cluster_ok_put; [done|].
    eapply (node_ok_world _ _ _ q); [apply (Hpick _ _ H)|by eapply Leader.step_gossip|done|].
    intros key j Hj. left. split; [done|]. by eapply GCM.deliver_meta.
  - apply cluster_ok_put; [done|]. eapply (node_ok_world _ _ _ q); [apply (Hpick _ _ H)|apply Leader.step_forget|done|].
    intros key' j. cbn. rewrite GCM.DelKey_meta. case_decide; [intros [= ->]; by right|by left].
  - apply cluster_ok_put; [done|].
    eapply (node_ok_world _ _ _ q); [apply (Hpick _ _ H)|apply Leader.step_forget_node|done|].
    intros key' j Hj. left. split; [done|]. apply GCM.DelNodeAddr_meta.
  - split_and!; [done|done| |done]. apply Forall_app. split; [by apply Forall_forall|].
    apply Forall_singleton. exact (cluster_snapshot _ _ _ _ _ _ _ Hc H H0).
  - apply cluster_ok_put; [done|]. apply node_ok_start.
  - apply cluster_ok_put; [done|]. eapply node_ok_restore; [by apply Hsn|done|apply invariant_start|].
    by intros key j [= <-].
  - apply cluster_ok_put; [done|]. destruct (Hpick _ _ H) as (_ & _ & Hinv).
    by eapply node_ok_restore; [by apply Hsn|done|exact Hinv|].
Qed.

Lemma cluster_ok_reachable q members c : rtc (step q) (initial members) c -> cluster_ok c.
Proof.
  intros H. assert (Hi : cluster_ok (initial members)).
  { split_and!; [constructor..|]. apply Forall_fmap, Forall_forall. intros m _. apply node_ok_start. }
  induction H as [|c1 c2 c3 H1 _ IH]; [done|]. by apply IH, (cluster_ok_step q c1).
Qed.

End System.

Arguments cluster : clear implicits.

(** ** Properties *)

(** C9: the cluster is consistent: in every run of any number of nodes, with
    leader changes, raft errors, entries that commit late, snapshots written
    late, restarts with and without a snapshot, snapshots installed on running
    nodes, gossip and scavenging, every node that has applied what its snapshot
    held has exactly the table its applied entries make of the empty table, so
    every node that has applied the whole log does, and nodes that have applied
    equally many entries agree; the consensus record of a key is exactly what
    the entries make since the node began or last forgot it, unless a snapshot
    was installed on top of it; every record is unset, UP or DOWN; no check
    panics; and a node can always apply the next entry and restore any
    snapshot. *)
Theorem cluster_consistent {N} `{!GossipNode N} q members (c : cluster N) :
  rtc (step q) (initial members) c ->
  (forall i n, cl_nodes c !! i = Some n ->
     (cn_applied n <= length (cl_log c))%nat /\ (cn_synced n <= length (cl_log c))%nat /\
     ((cn_synced n <= cn_applied n)%nat ->
        KV.repr (Fsm.f_cm (fsm_of (cn_world n))) (table_at (cl_log c) (cn_applied n))) /\
     (forall key j, cn_since n key = Some j ->
        GCM.meta (Fsm.f_gcm (fsm_of (cn_world n))) key = record_from (cl_log c) j (cn_applied n) key) /\
     (forall key, record_status (GCM.meta (Fsm.f_gcm (fsm_of (cn_world n))) key) ∈ [""; GOSSIP_UP; GOSSIP_DOWN]) /\
     (forall o clock barrier, exists s', quorumCheck1 q o clock barrier (w_state (cn_world n)) = Ret (s', tt)) /\
     (forall e, exists f, Fsm.run_event (fsm_of (cn_world n)) (Fsm.Committed e) = Ret f) /\
     (forall sn, sn ∈ cl_snapshots c -> exists f, Fsm.Restore (fsm_of (cn_world n)) (sn_bytes sn) = (f, None))) /\
  (forall i j n m, cl_nodes c !! i = Some n -> cl_nodes c !! j = Some m -> cn_applied n = cn_applied m ->
     (cn_synced n <= cn_applied n)%nat -> (cn_synced m <= cn_applied m)%nat ->
     Fsm.f_cm (fsm_of (cn_world n)) = Fsm.f_cm (fsm_of (cn_world m))).
Proof.
  intros Hc%cluster_ok_reachable. destruct Hc as (_ & _ & Hsn & Hns). rewrite Forall_lookup in Hns. rewrite Forall_forall in Hsn.
  assert (Htab : forall i n, cl_nodes c !! i = Some n -> (cn_synced n <= cn_applied n)%nat ->
    KV.repr (Fsm.f_cm (fsm_of (cn_world n))) (table_at (cl_log c) (cn_applied n))).
  { intros i n Hi Hs. destruct (Hns i n Hi) as ((d & Hd & _ & Hcu) & _). by rewrite <- (catches_up_exact _ _ _ _ Hcu Hs). }
  split.
  - intros i n Hi. destruct (Hns i n Hi) as ((d & Hd & _ & Hk & Hb & _) & Hrec & Hr & Hok & _).
    split_and!; [done|done|by apply (Htab i)|by intros key j Hj; apply Hrec|exact Hok|..].
    + intros o clock barrier. destruct (quorumCheck1_proposes q o clock barrier (w_state (cn_world n)) Hr)
        as (s' & es & [] & Hrun & _). by exists s'.
    + intros e. destruct (Fsm.committed_coerce _ d e Hd) as (f & Hf & _). by exists f.
    + intros sn Hin. destruct (Hsn sn Hin) as (t & Hbytes & Hu & _). unfold Fsm.Restore.
      rewrite Hbytes, KV.UnMarshal_Marshal by done. by eexists.
  - intros i j n m Hi Hj Heq Hsi Hsj. pose proof (Htab i n Hi Hsi) as Hti. pose proof (Htab j m Hj Hsj) as Htj.
    unfold KV.repr in Hti, Htj. rewrite Heq in Hti.
    destruct (Fsm.f_cm (fsm_of (cn_world n))), (Fsm.f_cm (fsm_of (cn_world m))). cbn in *. congruence.
Qed.

Definition demo_members : list (GNode.static_node * (nat -> bool * raft_reply)) :=
  [(GNode.static_start "n1:1" ["n1:1"; "n2:1"], fun _ => (true, RaftOk));
   (GNode.static_start "n2:1" ["n1:1"; "n2:1"], fun _ => (false, RaftOk))].

(** The first node commits a client's entry and writes a snapshot that raft
    counts as empty; the second restarts from it and applies the entry again. *)
Lemma cluster_consistent_witness :
  exists c, rtc (step Alerts.demo_config) (initial demo_members) c /\
    cl_log c = [Entry CMD_SET "db" "10.0.0.9"] /\ cn_applied <$> cl_nodes c = [1%nat; 1%nat] /\
    cn_synced <$> cl_nodes c = [0%nat; 1%nat] /\
    forall i j n m, cl_nodes c !! i = Some n -> cl_nodes c !! j = Some m -> cn_applied n = cn_applied m ->
      (cn_synced n <= cn_applied n)%nat -> (cn_synced m <= cn_applied m)%nat ->
      Fsm.f_cm (fsm_of (cn_world n)) = Fsm.f_cm (fsm_of (cn_world m)).
Proof.
  assert (Hrun : exists c, rtc (step Alerts.demo_config) (initial demo_members) c /\
    cl_log c = [Entry CMD_SET "db" "10.0.0.9"] /\ cn_applied <$> cl_nodes c = [1%nat; 1%nat] /\
    cn_synced <$> cl_nodes c = [0%nat; 1%nat]).
  { eexists. split_and!.
    - eapply rtc_l; [eapply (step_client _ _ 0 (Entry CMD_SET "db" "10.0.0.9")); [reflexivity|constructor|vm_compute; reflexivity]|].
      eapply rtc_l; [eapply (step_snapshot _ _ 0 _ _ _ _ 0); [reflexivity|lia]|].
      eapply rtc_l; [eapply (step_restart_from _ _ 1 (GNode.static_start "n2:1" []) (fun _ => (false, RaftOk)));
        [reflexivity|constructor|vm_compute; reflexivity]|].
      eapply rtc_once, (step_follow _ _ 1 (Entry CMD_SET "db" "10.0.0.9")); [reflexivity|reflexivity|vm_compute; reflexivity].
    - reflexivity.
    - reflexivity.
    - reflexivity. }
  destruct Hrun as (c & Hc & Hlog & Happ & Hsy). exists c. split_and!; [exact Hc|exact Hlog|exact Happ|exact Hsy|].
  exact (proj2 (cluster_consistent Alerts.demo_config demo_members c Hc)).
Defined.

(** The scavenger forgets a record that raft replicated.  A key that is still
    gossiped about is not in the table; its record is committed; only the second
    node's scavenger runs before the key is set again.  The two nodes have
    applied the same log, hold the same table and disagree on the record: the
    first knows the key as UP and would announce DOWN, the second has never seen
    it and would not. *)
Definition demo_report : MyBroadcastMessage := Msg 5000000000 "n1:1" "db" "10.0.0.9" GOSSIP_UP.

(** One step of a concrete run. *)
Ltac compute_eq := vm_compute; reflexivity.
Ltac run_step tac := eapply rtc_l; [tac|].

Theorem scavenger_splits_records :
  exists (c : cluster GNode.static_node) n m,
    rtc (step (Config 1 "./notify" 60)) (initial demo_members) c /\ cl_nodes c = [n; m] /\
    cn_applied n = length (cl_log c) /\ cn_applied m = length (cl_log c) /\
    Fsm.f_cm (fsm_of (cn_world n)) = Fsm.f_cm (fsm_of (cn_world m)) /\
    record_status (GCM.meta (Fsm.f_gcm (fsm_of (cn_world n))) "db") = GOSSIP_UP /\
    record_status (GCM.meta (Fsm.f_gcm (fsm_of (cn_world m))) "db") = "".
Proof.
  eexists _, _, _. split_and!.
  - run_step ltac:(eapply (step_gossip _ _ 0 demo_report); [compute_eq|compute_eq]).
    run_step ltac:(eapply (step_check _ _ 0 plain_orders (Alerts.demo_clock 100) None);
      [compute_eq|apply plain_orders_valid|compute_eq|compute_eq|compute_eq]).
    do 2 run_step ltac:(eapply (step_follow _ _ 1); [compute_eq|compute_eq|compute_eq]).
    run_step ltac:(eapply (step_forget _ _ 1 "db"); compute_eq).
    run_step ltac:(eapply (step_client _ _ 0 (Entry CMD_SET "db" "10.0.0.9")); [compute_eq|constructor|compute_eq]).
    run_step ltac:(eapply (step_follow _ _ 1); [compute_eq|compute_eq|compute_eq]). apply rtc_refl.
  - compute_eq.
  - compute_eq.
  - compute_eq.
  - compute_eq.
  - compute_eq.
  - compute_eq.
Qed.

End Cluster.
