(* ===== verification/Startup.v ===== *)
(** * Starting a node: cluster.go, stCached.go, main.go

    Construction runs in order and stops at the first error: [log.Fatal], a
    panic of main, or the usage of the command line end the process.  What
    the operating system, the network and raft answer is a record [platform].
    A computation leaves the trace of what it did and a value or the reason
    for which the process ends.  Raft restores the newest snapshot it can load
    into the state machine when it is built (restoreSnapshot of the vendored
    raft), and applies committed entries from then on. *)

From Stdlib Require Import Ascii.
From S2P Require Import Prelude GoStd Base Json Url Mux Shell Options KVCache Delegate Gossip GossipCache Detector Bridge Fsm Quorum Http Views Server Protocol Leader.

Module Startup.

(** How a goroutine runs: a plain [nimo.GoRoutine], or one of the two loops of
    base.go that call a function, pause and call it again. *)
Inductive schedule : Type :=
| Once
| InSleep (duration : Time.Duration)
| InTimeScale (base : Z).

(** The pause after one call: [n] is what the length function answers. *)
Definition pause (ceil_log10 : Z -> Z) (n : Z) (s : schedule) : option Time.Duration :=
  match s with
  | Once => None
  | InSleep duration => Some duration
  | InTimeScale base => Some (Time.Second * time_scale_interval ceil_log10 base n)
  end.

(** What the process does to the outside, in order. *)
Inductive effect : Type :=
| EGossip (addr cluster : string)
| EListen (addr : string)
| EResolve (addr : string)
| ETransport (addr : string)
| EMkdir (dir : string)
| ESnapshots (dir : string)
| EStore (path : string)
| ERaft (localID : string)
| EBootstrap (servers : list (string * string))
| EGet (url : string)
| EGo (name : string) (s : schedule).

(** [raft.Config] as far as [newRaftNode] sets it; times in nanoseconds. *)
Record raftConfig : Type := RaftConf {
  LocalID : string;
  SnapshotInterval : Time.Duration;
  SnapshotThreshold : Z;
  NotifyCh_cap : nat
}.

(** ** The trace and error monad *)

Definition M (A : Type) : Type := list effect * (A + string).

Definition ret {A : Type} (a : A) : M A := ([], inl a).
Definition fail {A : Type} (err : string) : M A := ([], inr err).

#[global] Instance M_bind : MBind M := fun A B f m =>
  match m.2 with
  | inl a => let r := f a in (m.1 ++ r.1, r.2)
  | inr err => (m.1, inr err)
  end.

(** A call that does [e] and answers [r]. *)
Definition call {A : Type} (e : effect) (r : A + string) : M A := ([e], r).
Definition check (e : effect) (err : error) : M unit :=
  ([e], match err with Some err => inr err | None => inl tt end).

(** An error of a callee under a heading. *)
Definition fatal {A : Type} (text : string) (m : M A) : M A :=
  (m.1, match m.2 with inl a => inl a | inr err => inr (text +:+ err) end).

Section Building.

(** Transport, store, snapshot store, raft, memberlist. *)
Context {T S F R ML : Type} `{!Memberlist ML}.

(** What the operating system and the libraries answer.  [NewRaft] is raft's
    construction less the restore of a snapshot, which is [restoreSnapshot]
    below; [snapshots_List] gives the snapshots newest first; [Applied] is what
    raft's own goroutine has applied when [NewStCachedNode] returns. *)
Record platform : Type := Platform {
  ResolveTCPAddr : string -> string + string;
  NewTCPTransport : string -> T + string;
  LocalAddr : T -> string;
  MkdirAll : string -> error;
  NewFileSnapshotStore : string -> F + string;
  NewBoltStore : string -> S + string;
  NewRaft : raftConfig -> S -> S -> F -> T -> R + string;
  snapshots_List : F -> list string + string;
  snapshots_Open : F -> string -> string + string;
  Applied : R -> list string;
  BootstrapCluster : R -> list (string * string) -> R;
  Listen : string -> error;
  http_Get : string -> string + string;
  memberlist_Create : string -> string -> Z -> ML + string
}.

Context (w : platform).

(** ** cluster.go *)

Definition newRaftTransport (opts : options) : M T :=
  address ← call (EResolve (o_raftTCPAddress opts)) (ResolveTCPAddr w (o_raftTCPAddress opts));
  call (ETransport address) (NewTCPTransport w address).

(** [filepath.Join] of a relative directory and a file name. *)
Fixpoint clean_relative (elems stack : list string) : list string :=
  match elems with
  | [] => rev stack
  | e :: elems =>
      if decide (e = "" \/ e = ".") then clean_relative elems stack
      else if decide (e = "..") then
        match stack with
        | [] => clean_relative elems [".."]
        | top :: stack' => if decide (top = "..") then clean_relative elems (".." :: stack) else clean_relative elems stack'
        end
      else clean_relative elems (e :: stack)
  end.

Definition filepath_Join (dir name : string) : string :=
  Url.join_slash (clean_relative (Strings.Split "/"%char (dir +:+ "/" +:+ name)) []).

Definition raft_config (opts : options) : raftConfig := RaftConf (o_raftTCPAddress opts) (20 * Time.Second) 2 1.

Definition log_path (opts : options) : string := filepath_Join (o_dataDir opts) "raft-log.bolt".
Definition stable_path (opts : options) : string := filepath_Join (o_dataDir opts) "raft-stable.bolt".

Abbreviation machine := (Fsm.fsm_state (GNode.gossipNode ML)) (only parsing).

(** The loop of raft's [restoreSnapshot]: the snapshots newest first, those that
    cannot be opened or restored skipped. *)
Fixpoint load_snapshot (snapshots : F) (ids : list string) (fsm : machine) : machine * bool :=
  match ids with
  | [] => (fsm, false)
  | id :: ids =>
      match snapshots_Open w snapshots id with
      | inr _ => load_snapshot snapshots ids fsm
      | inl source =>
          let '(fsm, err) := Fsm.Restore fsm source in
          match err with
          | Some _ => load_snapshot snapshots ids fsm
          | None => (fsm, true)
          end
      end
  end.

Definition restoreSnapshot (snapshots : F) (fsm : machine) : machine + string :=
  match snapshots_List w snapshots with
  | inr err => inr err
  | inl ids =>
      let '(fsm, loaded) := load_snapshot snapshots ids fsm in
      if loaded then inl fsm
      else if (0 <? length ids)%nat then inr "failed to load any existing snapshots" else inl fsm
  end.

Definition newRaftNode (opts : options) (fsm : machine) : M (R * machine) :=
  let raftConfig := raft_config opts in
  transport ← newRaftTransport opts;
  _ ← check (EMkdir (o_dataDir opts)) (MkdirAll w (o_dataDir opts));
  snapshotStore ← call (ESnapshots (o_dataDir opts)) (NewFileSnapshotStore w (o_dataDir opts));
  logStore ← call (EStore (log_path opts)) (NewBoltStore w (log_path opts));
  stableStore ← call (EStore (stable_path opts)) (NewBoltStore w (stable_path opts));
  raftNode ← call (ERaft (LocalID raftConfig)) (NewRaft w raftConfig logStore stableStore snapshotStore transport);
  fsm ← ([], restoreSnapshot snapshotStore fsm);
  raftNode ← (if o_bootstrap opts then
                let servers := [(LocalID raftConfig, LocalAddr w transport)] in
                call (EBootstrap servers) (inl (BootstrapCluster w raftNode servers))
              else ret raftNode);
  ret (raftNode, fsm).

(** Raft's goroutine applies committed entries; a panic of [Apply] ends the
    process. *)
Definition apply_entries (fsm : machine) (entries : list string) : machine + string :=
  match foldlM (fun f data => r ← Fsm.Apply f data; Ret r.1) fsm entries with
  | Ret fsm => inl fsm
  | Panic _ => inr "panic: apply"
  end.

Definition join_url (opts : options) : string :=
  "http://" +:+ o_joinAddress opts +:+ "/join?peerAddress=" +:+ o_raftTCPAddress opts.

Definition joinRaftCluster (opts : options) : M unit :=
  body ← call (EGet (join_url opts)) (http_Get w (join_url opts));
  if decide (Shell.TrimSpace body <> "ok") then fail ("Error joining cluster: " +:+ body) else ret tt.

(** ** stCached.go *)

(** The node as built: the state machine on a new table and the gossip cache it
    was given, writing switched off, raft.  The HTTP server runs from before
    raft exists. *)
Definition NewStCachedNode (opts : options) (gcm : GCM.gossipCacheManager (GNode.gossipNode ML))
    : M (Http.server (GNode.gossipNode ML) R) :=
  let cm := KV.NewCacheManager in
  _ ← fatal ("listen " +:+ o_httpAddress opts +:+ " failed: ") (check (EListen (o_httpAddress opts)) (Listen w (o_httpAddress opts)));
  _ ← call (EGo "http.Serve" Once) (inl tt);
  node ← fatal "new raft node failed:" (newRaftNode opts (Fsm.FsmState cm gcm));
  _ ← (if decide (o_joinAddress opts <> "") then fatal "join raft cluster failed:" (joinRaftCluster opts) else ret tt);
  fsm ← ([], apply_entries node.2 (Applied w node.1));
  ret (Http.Server fsm Http.ENABLE_WRITE_FALSE node.1).

(** ** main.go *)

(** The goroutines of main. *)
Definition goroutines : list (string * schedule) :=
  let period := Time.Second * 10 in
  [("monitorLeadrship", Once); ("reJoinGossipNodes", InSleep period);
   ("makeGossip1", InTimeScale 120); ("verify", Once); ("makeGossip2", Once);
   ("consumeGossip", InSleep period); ("scavenge", InSleep period);
   ("quorumCheck1", InSleep period); ("doTimeoutShellCmd", Once); ("quorumCheck2", Once)].

Definition go (g : string * schedule) : effect := EGo g.1 g.2.

(** The node that runs after main has started everything; then main waits on a
    channel nobody closes.  The bridge works on the table and the gossip cache of
    the state machine. *)
Record process : Type := Process {
  p_options : options;
  p_server : Http.server (GNode.gossipNode ML) R;
  p_bridge : Bridge.bridge (GNode.gossipNode ML);
  p_checker : Quorum.config
}.

Definition gossip_node (opts : options) : M (GNode.gossipNode ML) :=
  call (EGossip (o_gossipTCPAddress opts) (o_gossipJoinAddress opts))
    (match GNode.NewGossipNode (memberlist_Create w) (o_gossipTCPAddress opts) (o_gossipJoinAddress opts) with
     | Ret r => r
     | Panic _ => inr "panic: index out of range"
     end).

Definition main (args : list string) : M process :=
  match Flag.NewOptions args with
  | None => fail "usage"
  | Some opts =>
      let veri := Bridge.new_detector in
      gnode ← gossip_node opts;
      let gcm := GCM.NewGossipCacheManager gnode in
      st ← NewStCachedNode opts gcm;
      let bri := Bridge.MkBridge (Fsm.f_cm (Http.h_fsm st)) (Fsm.f_gcm (Http.h_fsm st)) veri 0 in
      let qc := Quorum.Config (o_gossipQuorum opts) (o_notificationScript opts) (o_eventInterval opts) in
      _ ← (go <$> goroutines, inl tt);
      ret (Process opts st bri qc)
  end.

(** ** Lemmas: traces *)









(** ** The plan *)










(** The pauses of the periodic goroutines: three seconds to two minutes. *)
Lemma pauses_bounded ceil_log10 n name s d :
  0 <= ceil_log10 (Max n 2) -> (name, s) ∈ goroutines -> pause ceil_log10 n s = Some d ->
  3 * Time.Second <= d <= 120 * Time.Second.
Proof.
  intros Hc Hin Hd. pose proof (time_scale_interval_bounds ceil_log10 120 n ltac:(lia) Hc) as Hb.
  unfold goroutines in Hin. rewrite !elem_of_cons in Hin. unfold Time.Second in *.
  destruct_or! Hin; try (injection Hin as _ ->; cbn in Hd; first [discriminate|injection Hd as <-; unfold Time.Second; lia]).
  by apply not_elem_of_nil in Hin.
Qed.

Lemma bind_inl {A B : Type} (m : M A) (k : A -> M B) b : (m ≫= k).2 = inl b -> exists a, m.2 = inl a /\ (k a).2 = inl b.
Proof. unfold mbind, M_bind. destruct (m.2) as [a|err]; [|done]. by exists a. Qed.

Lemma gossip_node_Addr opts g : (gossip_node opts).2 = inl g -> Addr g = o_gossipTCPAddress opts.
Proof.
  unfold gossip_node, GNode.NewGossipNode. cbn [call snd]. intros Hg.
  repeat case_match; simplify_eq; done.
Qed.

(** ** What a node starts from *)

(** A snapshot that cannot be opened or is no table. *)
Definition unusable (snapshots : F) (id : string) : Prop :=
  match snapshots_Open w snapshots id with
  | inr _ => True
  | inl source => (KV.UnMarshal KV.NewCacheManager source).2 <> None
  end.

(** The table of the newest usable snapshot; a new table if there are none. *)
Definition stored (snapshots : F) (cm : cacheManager) : Prop :=
  exists ids, snapshots_List w snapshots = inl ids /\
    (ids = [] /\ cm = KV.NewCacheManager \/
     exists newer id older source, ids = newer ++ id :: older /\ Forall (unusable snapshots) newer /\
       snapshots_Open w snapshots id = inl source /\ KV.UnMarshal KV.NewCacheManager source = (cm, None)).

(** What the service itself wrote: no snapshot, or in the newest one that opens
    the table [d], which is UTF-8. *)
Definition wrote (snapshots : F) (d : gmap string string) : Prop :=
  exists ids, snapshots_List w snapshots = inl ids /\
    (ids = [] /\ d = ∅ \/
     exists newer id older, ids = newer ++ id :: older /\
       Forall (fun x => exists err, snapshots_Open w snapshots x = inr err) newer /\
       snapshots_Open w snapshots id = inl (KV.Marshal (CacheManager (Some d))).1 /\ utf8_map d).

Lemma UnMarshal_from c c0 source :
  (KV.UnMarshal c source).2 = (KV.UnMarshal c0 source).2 /\
  ((KV.UnMarshal c source).2 <> None -> (KV.UnMarshal c source).1 = c) /\
  ((KV.UnMarshal c source).2 = None -> (KV.UnMarshal c source).1 = (KV.UnMarshal c0 source).1).
Proof. unfold KV.UnMarshal. by repeat case_match. Qed.

Lemma load_snapshot_spec snapshots ids fsm fsm' loaded :
  load_snapshot snapshots ids fsm = (fsm', loaded) ->
  if loaded then
    exists newer id older source, ids = newer ++ id :: older /\ Forall (unusable snapshots) newer /\
      snapshots_Open w snapshots id = inl source /\
      KV.UnMarshal KV.NewCacheManager source = (Fsm.f_cm fsm', None) /\ Fsm.f_gcm fsm' = Fsm.f_gcm fsm
  else fsm' = fsm /\ Forall (unusable snapshots) ids.
Proof.
  revert fsm. induction ids as [|id ids IH]; intros fsm; cbn [load_snapshot]; [by intros [= <- <-]|].
  assert (Hskip : unusable snapshots id -> load_snapshot snapshots ids fsm = (fsm', loaded) ->
    if loaded then exists newer id0 older source, id :: ids = newer ++ id0 :: older /\ Forall (unusable snapshots) newer /\
        snapshots_Open w snapshots id0 = inl source /\
        KV.UnMarshal KV.NewCacheManager source = (Fsm.f_cm fsm', None) /\ Fsm.f_gcm fsm' = Fsm.f_gcm fsm
    else fsm' = fsm /\ Forall (unusable snapshots) (id :: ids)).
  { intros Hid Hl. specialize (IH fsm Hl). destruct loaded.
    - destruct IH as (newer & id0 & older & source & -> & Hn & Hrest). exists (id :: newer), id0, older, source.
      split_and!; [done|by constructor|apply Hrest..].
    - split; [apply IH|]. constructor; [done|apply IH]. }
  unfold unusable in Hskip at 1. destruct (snapshots_Open w snapshots id) as [source|err] eqn:Ho; [|by apply Hskip].
  unfold Fsm.Restore. destruct (UnMarshal_from (Fsm.f_cm fsm) KV.NewCacheManager source) as (Herr & Hkeep & Hnew).
  destruct (KV.UnMarshal (Fsm.f_cm fsm) source) as [cm [e|]]; cbn [fst snd] in *.
  - rewrite Hkeep by done. intros Hl. apply Hskip; [by rewrite <- Herr|]. by destruct fsm.
  - intros [= <- <-]. exists [], id, ids, source. split_and!; [done|constructor|done| |done].
    cbn [Fsm.f_cm]. rewrite Hnew by done. by destruct (KV.UnMarshal KV.NewCacheManager source) as [c0 e0]; cbn in *; subst.
Qed.

Lemma restoreSnapshot_stored snapshots gcm fsm' :
  restoreSnapshot snapshots (Fsm.FsmState KV.NewCacheManager gcm) = inl fsm' ->
  stored snapshots (Fsm.f_cm fsm') /\ Fsm.f_gcm fsm' = gcm.
Proof.
  unfold restoreSnapshot, stored. destruct (snapshots_List w snapshots) as [ids|err]; [|done].
  destruct (load_snapshot snapshots ids _) as [f loaded] eqn:Hl. apply load_snapshot_spec in Hl. destruct loaded.
  - intros [= <-]. destruct Hl as (newer & id & older & source & Hids & Hn & Hopen & Hun & Hg). split; [|done].
    exists ids. split; [done|]. right. by exists newer, id, older, source.
  - destruct Hl as [-> _]. destruct ids; [|done]. intros [= <-]. split; [|done]. exists []. split; [done|by left].
Qed.

Lemma load_snapshot_found snapshots newer id older source cm : forall fsm,
  Forall (unusable snapshots) newer -> snapshots_Open w snapshots id = inl source ->
  KV.UnMarshal KV.NewCacheManager source = (cm, None) ->
  load_snapshot snapshots (newer ++ id :: older) fsm = (Fsm.FsmState cm (Fsm.f_gcm fsm), true).
Proof.
  induction newer as [|x newer IH]; intros fsm Hn Ho Hun; cbn [app load_snapshot].
  - rewrite Ho. unfold Fsm.Restore. destruct (UnMarshal_from (Fsm.f_cm fsm) KV.NewCacheManager source) as (Herr & _ & Hnew).
    rewrite Hun in Herr, Hnew. cbn [fst snd] in *. rewrite Herr, Hnew; done.
  - apply Forall_cons in Hn as [Hx Hn]. unfold unusable in Hx. destruct (snapshots_Open w snapshots x) as [src|err]; [|by apply IH].
    destruct (UnMarshal_from (Fsm.f_cm fsm) KV.NewCacheManager src) as (Herr & Hkeep & _).
    unfold Fsm.Restore. destruct (KV.UnMarshal (Fsm.f_cm fsm) src) as [c [e|]]; cbn [fst snd] in *.
    + rewrite Hkeep by done. by rewrite IH.
    + by rewrite <- Herr in Hx.
Qed.

Lemma stored_restoreSnapshot snapshots gcm cm :
  stored snapshots cm ->
  restoreSnapshot snapshots (Fsm.FsmState KV.NewCacheManager gcm) = inl (Fsm.FsmState cm gcm).
Proof.
  intros (ids & Hids & Hst). unfold restoreSnapshot. rewrite Hids.
  destruct Hst as [[-> ->]|(newer & id & older & source & -> & Hn & Ho & Hun)]; [done|].
  by rewrite (load_snapshot_found snapshots newer id older source cm).
Qed.

Lemma wrote_stored (gcm : GCM.gossipCacheManager (GNode.gossipNode ML)) snapshots d cm :
  wrote snapshots d -> stored snapshots cm -> cm = CacheManager (Some d).
Proof.
  intros (ids & Hids & Hw) Hst.
  assert (Hst' : stored snapshots (CacheManager (Some d))).
  { exists ids. split; [done|]. destruct Hw as [[-> ->]|(newer & id & older & Heq & Hn & Ho & Hu)]; [by left|right].
    exists newer, id, older, (KV.Marshal (CacheManager (Some d))).1. split_and!; [done| |done|by apply KV.UnMarshal_Marshal].
    eapply Forall_impl; [exact Hn|]. intros x [err Hx]. unfold unusable. by rewrite Hx. }
  pose proof (stored_restoreSnapshot snapshots gcm _ Hst) as H1.
  rewrite (stored_restoreSnapshot snapshots gcm _ Hst') in H1. by injection H1.
Qed.






(** The node as main leaves it. *)
Definition started (opts : options) (p : process) : Prop :=
  exists (gnode : GNode.gossipNode ML) snapshots cm,
    let fsm := Http.h_fsm (p_server p) in
    Addr gnode = o_gossipTCPAddress opts /\ p_options p = opts /\
    NewFileSnapshotStore w (o_dataDir opts) = inl snapshots /\ stored snapshots cm /\
    apply_entries (Fsm.FsmState cm (GCM.NewGossipCacheManager gnode)) (Applied w (Http.h_raft (p_server p))) = inl fsm /\
    Http.checkWritePermission (p_server p) = false /\
    p_bridge p = Bridge.MkBridge (Fsm.f_cm fsm) (Fsm.f_gcm fsm) (Detector.NewDetector 5 3) 0 /\
    p_checker p = Quorum.Config (o_gossipQuorum opts) (o_notificationScript opts) (o_eventInterval opts).

Lemma newRaftNode_stored opts gcm r fsm :
  (newRaftNode opts (Fsm.FsmState KV.NewCacheManager gcm)).2 = inl (r, fsm) ->
  exists snapshots, NewFileSnapshotStore w (o_dataDir opts) = inl snapshots /\
    stored snapshots (Fsm.f_cm fsm) /\ Fsm.f_gcm fsm = gcm.
Proof.
  unfold newRaftNode. intros (t & _ & H)%bind_inl. apply bind_inl in H as (_ & _ & H).
  apply bind_inl in H as (snapshots & Hs & H). exists snapshots. split; [done|].
  do 3 apply bind_inl in H as (? & _ & H). apply bind_inl in H as (f & Hf & H).
  apply bind_inl in H as (r' & _ & H). injection H as _ <-. by apply restoreSnapshot_stored.
Qed.

Lemma fatal_inl {A : Type} text (m : M A) a : (fatal text m).2 = inl a -> m.2 = inl a.
Proof. cbn. destruct (m.2); naive_solver. Qed.

Lemma main_process args opts p : Flag.NewOptions args = Some opts -> (main args).2 = inl p -> started opts p.
Proof.
  intros Ho. unfold main. rewrite Ho. intros (g & Hg & H)%bind_inl.
  apply bind_inl in H as (st & Hst & H). injection H as <-. unfold NewStCachedNode in Hst.
  do 2 apply bind_inl in Hst as (_ & _ & Hst). apply bind_inl in Hst as ([r fsm] & Hr%fatal_inl & Hst).
  apply bind_inl in Hst as (_ & _ & Hst). apply bind_inl in Hst as (f & Hf & Hst). injection Hst as <-.
  destruct (newRaftNode_stored _ _ _ _ Hr) as (snapshots & Hs & Hcm & Hgcm).
  exists g, snapshots, (Fsm.f_cm fsm). split_and!; try done; [by apply gossip_node_Addr|].
  cbn in Hf |- *. rewrite <- Hgcm. by destruct fsm.
Qed.

(** Entries raft applies, as the service wrote them. *)
Lemma apply_entries_replay fsm l fsm' :
  apply_entries fsm (Fsm.marshal_entry <$> l) = inl fsm' -> Fsm.replay fsm l = Ret fsm'.
Proof.
  assert (Heq : forall f,
    foldlM (fun f data => r ← Fsm.Apply f data; Ret r.1) f (Fsm.marshal_entry <$> l) = Fsm.replay f l).
  { unfold Fsm.replay, Fsm.run_events. induction l as [|e l IH]; intros f; [done|]. cbn [fmap list_fmap foldlM Fsm.run_event].
    destruct (Fsm.Apply f (Fsm.marshal_entry e)) as [r|]; cbn [mbind outcome_bind]; [apply IH|done]. }
  unfold apply_entries. rewrite Heq. destruct (Fsm.replay fsm l); naive_solver.
Qed.


End Building.

Arguments platform : clear implicits.

(** ** Joining through the network *)

Section Joining.

Context {N R : Type} `{!GossipNode N, !RaftConfig R}.

(** A GET for an http URL answered by the node [x]; a handler that panics closes
    the connection. *)
Definition fetch (e : Server.env) (x : Server.site N R) (url : string) : string + string :=
  match Url.parse_http url with
  | None => inr "unsupported URL"
  | Some (_, target) =>
      match Server.serve e x target with
      | Ret (_, rs) => inl (rs_body rs)
      | Panic _ => inr "EOF"
      end
  end.

(** The addresses of the service: host and port, nothing to escape. *)
Definition plain (s : string) : Prop := s <> "" /\ Url.all_bytes Url.plain_authority s = true.

Definition join_target (addr : string) : string := "/join?peerAddress=" +:+ addr.

Lemma join_url_target opts :
  plain (o_joinAddress opts) -> plain (o_raftTCPAddress opts) ->
  Url.parse_http (join_url opts) = Some (o_joinAddress opts, join_target (o_raftTCPAddress opts)).
Proof.
  intros [Hj Hjp] [Hr Hrp]. unfold join_url.
  change ("/join?peerAddress=" +:+ o_raftTCPAddress opts) with (String "/" ("join?peerAddress=" +:+ o_raftTCPAddress opts)).
  apply Url.parse_http_plain; [done|done| |].
  - rewrite Url.has_byte_app. by rewrite (Url.plain_no_ctl (o_raftTCPAddress opts)).
  - rewrite Url.all_bytes_app. by rewrite (Url.plain_not "#"%char (o_raftTCPAddress opts)).
Qed.

Lemma serve_join e (x : Server.site N R) addr :
  plain addr ->
  Server.serve e x (join_target addr) =
  let p := Http.doJoin (Server.s_server x) (Url.Get [("peerAddress", addr)]) in
  Ret (Server.Site p.1 (Server.s_detector x), p.2).
Proof.
  intros [Ha Hp]. change (join_target addr) with (String "/" "join" +:+ String "?" ("peerAddress" +:+ String "=" addr)).
  rewrite (Server.serve_page e x "join" Server.doJoin); [|set_solver|].
  - cbn [Server.run]. by rewrite Url.ParseQuery_plain.
  - rewrite Url.has_byte_app. cbn [Url.has_byte]. by rewrite (Url.plain_no_ctl addr).
Qed.

(** An answer that starts with a byte other than a space or an o is not ok. *)
Lemma not_ok c s : Utf8.is_ascii c = true -> Shell.is_space (Utf8.C1 c) = false -> c <> "o"%char ->
  Shell.TrimSpace (String c s) <> "ok".
Proof.
  intros Hc Hsp Ho Hok. destruct (Shell.TrimSpace_spec (String c s)) as (pre & mid & post & Heq & _ & Hch & Hpre & _).
  assert (Hch' : Utf8.chunks (String c s) = Utf8.C1 c :: Utf8.chunks s) by (unfold Utf8.chunks; cbn [String.length Utf8.chunks_fuel Utf8.uncons]; by rewrite Hc).
  rewrite Hch' in Hch. destruct pre as [|p pre].
  - rewrite Hok in Heq. cbn in Heq. congruence.
  - injection Hch as <- _. cbn [forallb] in Hpre. by rewrite Hsp in Hpre.
Qed.

End Joining.

(** ** Properties *)


(** C15: a restart recovers the table: a node whose newest snapshot that opens was
    written for a UTF-8 table (or that has no snapshots, an empty table), and for
    which raft has applied [l] since, runs with the table of that state and [l],
    with the consensus records of [l] alone and no reports, on the server as on
    the bridge; with nothing stored and nothing applied it is the start state of
    [Leader]. *)
Theorem restart_recovers {T S F R ML} `{!Memberlist ML} (w : platform T S F R ML) args opts p snapshots d l :
  Flag.NewOptions args = Some opts -> (main w args).2 = inl p ->
  NewFileSnapshotStore w (o_dataDir opts) = inl snapshots -> wrote w snapshots d ->
  Applied w (Http.h_raft (p_server p)) = Fsm.marshal_entry <$> l -> Forall Fsm.entry_clean l ->
  let b := p_bridge p in
  Http.h_fsm (p_server p) = Fsm.FsmState (Bridge.b_cm b) (Bridge.b_gcm b) /\
  KV.repr (Bridge.b_cm b) (KV.spec_run d (Fsm.kv_log l)) /\
  (forall k, GCM.meta (Bridge.b_gcm b) k = Fsm.meta_log k l (GCM.meta_of zero_consensus)) /\
  (forall k n, GCM.report (Bridge.b_gcm b) k n = None) /\
  (d = ∅ -> l = [] -> exists gnode, Addr gnode = o_gossipTCPAddress opts /\
     forall env, Http.h_fsm (p_server p) = Quorum.s_fsm (Leader.w_state (Leader.start gnode env))).
Proof.
  intros Ho Hm Hs Hw Ha Hcl b. destruct (main_process w args opts p Ho Hm)
    as (g & snapshots' & cm & Haddr & _ & Hs' & Hst & Happ & _ & Hb & _).
  rewrite Hs in Hs'. injection Hs' as <-. rewrite (wrote_stored w (GCM.NewGossipCacheManager g) snapshots d cm Hw Hst) in Happ.
  rewrite Ha in Happ. apply apply_entries_replay in Happ.
  destruct (Fsm.replay_spec l (Fsm.FsmState (CacheManager (Some d)) (GCM.NewGossipCacheManager g)) d)
    as (f & Hf & Hd & Hmeta & Hrep); [done|done|].
  rewrite Happ in Hf. injection Hf as Hf. rewrite Hf in *. unfold b. rewrite Hb. cbn [Bridge.b_cm Bridge.b_gcm].
  split_and!; [by destruct f|done|done|by intros; rewrite Hrep|].
  intros -> ->. exists g. split; [done|]. intros env. by injection Happ as <-.
Qed.

(** C22: joining works over HTTP: for addresses of plain hosts and ports, the GET
    of [joinRaftCluster] makes the leader add exactly this node as a voter, and
    joining succeeds exactly when raft accepted; a node that is not the leader
    leaves its configuration alone and the error names the leader. *)
Theorem join_round_trip {T S F ML N R} `{!Memberlist ML, !GossipNode N, !RaftConfig R}
    (w : platform T S F R ML) e (x : Server.site N R) opts :
  plain (o_joinAddress opts) -> plain (o_raftTCPAddress opts) ->
  http_Get w (join_url opts) = fetch e x (join_url opts) ->
  let h := Server.s_server x in
  let '(raft, err) := raft_AddVoter (Http.h_raft h) (o_raftTCPAddress opts) in
  exists x' rs, Server.serve e x (join_target (o_raftTCPAddress opts)) = Ret (x', rs) /\
    if Http.checkWritePermission h then
      Http.h_raft (Server.s_server x') = raft /\
      (joinRaftCluster w opts).2 =
        match err with
        | None => inl tt
        | Some _ => inr ("Error joining cluster: internal error" +:+ Http.nl)
        end
    else
      x' = x /\ (joinRaftCluster w opts).2 =
        inr ("Error joining cluster: raft join method not allowed, leader is " +:+ raft_Leader (Http.h_raft h) +:+ Http.nl).
Proof.
  intros Hj Hr Hnet h. pose proof (serve_join e x (o_raftTCPAddress opts) Hr) as Hserve. fold h in Hserve.
  unfold fetch in Hnet. rewrite join_url_target, Hserve in Hnet by done. cbn zeta iota in Hnet.
  destruct (raft_AddVoter (Http.h_raft h) (o_raftTCPAddress opts)) as [raft err] eqn:Hadd.
  eexists _, _. split; [exact Hserve|]. unfold joinRaftCluster, mbind, M_bind, call. rewrite Hnet. cbn [fst snd app].
  unfold Http.doJoin. destruct (Http.checkWritePermission h); cbn [negb].
  - change (Url.Get [("peerAddress", o_raftTCPAddress opts)] "peerAddress") with (o_raftTCPAddress opts).
    rewrite decide_False by apply Hr. rewrite Hadd. split; [done|]. destruct err; cbn [fst snd rs_body]; reflexivity.
  - split; [by destruct x|]. cbn [fst snd]. unfold Http.not_allowed. cbn [rs_body Http.reply].
    rewrite decide_True; [done|]. by apply not_ok.
Qed.

(** A platform on which everything works: the network leads to [x], the snapshot
    store holds [snapshots] (contents, or what opening one says), raft has
    applied [l]. *)
Definition demo_storage (snapshots : list (string * (string + string))) (l : list logEntryData)
    (x : Server.site GNode.static_node (list string)) : platform unit unit unit (list string) (list string) :=
  {| ResolveTCPAddr a := inl a; NewTCPTransport _ := inl tt; LocalAddr _ := "127.0.0.1:7000"; MkdirAll _ := None;
     NewFileSnapshotStore _ := inl tt; NewBoltStore _ := inl tt; NewRaft _ _ _ _ _ := inl [];
     snapshots_List _ := inl snapshots.*1;
     snapshots_Open _ id := default (inr "no such snapshot") ((list_to_map snapshots : gmap string (string + string)) !! id);
     Applied _ := Fsm.marshal_entry <$> l;
     BootstrapCluster r servers := r ++ servers.*2; Listen _ := None; http_Get := fetch Server.demo_env x;
     memberlist_Create name _ _ := inl [name] |}.

Definition demo_platform := demo_storage [] [].


(** A restart: the newest snapshot does not open, the next one holds a table. *)
Definition demo_restart : platform unit unit unit (list string) (list string) :=
  demo_storage [("5-9", inr "checksum"); ("5-7", inl (KV.Marshal (CacheManager (Some {["db" := "10.0.0.1"]}))).1)]
    [Entry CMD_SET "web" "10.0.0.2"; Entry CMD_NOTIFY_TIME "db" "17"] Server.demo_site.

Lemma restart_recovers_witness :
  exists p, (main demo_restart ["-node=a"]).2 = inl p /\
    KV.repr (Bridge.b_cm (p_bridge p))
      (KV.spec_run {["db" := "10.0.0.1"]} (Fsm.kv_log [Entry CMD_SET "web" "10.0.0.2"; Entry CMD_NOTIFY_TIME "db" "17"])).
Proof.
  eexists. match goal with |- ?run = inl ?p /\ _ => assert (Hrun : run = inl p) by (vm_compute; reflexivity) end.
  split; [exact Hrun|].
  refine (proj1 (proj2 (restart_recovers demo_restart ["-node=a"] _ _ tt {["db" := "10.0.0.1"]} _ eq_refl Hrun eq_refl _ eq_refl _))).
  - exists ["5-9"; "5-7"]. split; [reflexivity|]. right. exists ["5-9"], "5-7", []. split_and!; [reflexivity| |reflexivity|].
    + apply Forall_singleton. by eexists.
    + apply map_Forall_singleton. by split.
  - repeat (apply Forall_cons; split); [by split_and!..|by apply Forall_nil].
Defined.

Definition demo_options (raft : string) : options :=
  Options "./node2" "127.0.0.1:6001" raft "127.0.0.1:6000" false "127.0.0.1:8001" "127.0.0.1:8000" 3
    "./verification_script" "./notification_script" 60.

Lemma join_round_trip_witness :
  exists x' rs, Server.serve Server.demo_env Server.demo_site (join_target "10.0.0.3:7000") = Ret (x', rs) /\
    Http.h_raft (Server.s_server x') = ["10.0.0.1:7000"; "10.0.0.2:7000"; "10.0.0.3:7000"] /\
    (joinRaftCluster (demo_platform Server.demo_site) (demo_options "10.0.0.3:7000")).2 = inl tt.
Proof.
  destruct (join_round_trip (demo_platform Server.demo_site) Server.demo_env Server.demo_site (demo_options "10.0.0.3:7000"))
    as (x' & rs & Hs & Hraft & Hj); [by split|by split|reflexivity|].
  exists x', rs. split; [exact Hs|]. split; [exact Hraft|exact Hj].
Defined.

(** The address is put into the URL as it is: one that needs escaping, such as an
    IPv6 address with a zone, is dropped by the parser of the query, and the
    leader answers that the address is invalid. *)
Theorem join_address_not_escaped :
  (joinRaftCluster (demo_platform Server.demo_site) (demo_options "[fe80::1%eth0]:7000")).2 =
  inr ("Error joining cluster: invalid peerAddress" +:+ Http.nl).
Proof. vm_compute. reflexivity. Qed.

(** ** Requests before raft exists

    [NewStCachedNode] serves requests before it has set [st.raft]; a handler
    that reaches for it dereferences nil.  The write flag is still off. *)
Definition needs_raft (f : Server.handler) : bool :=
  match f with
  | Server.doSet | Server.doDel | Server.doJoin | Server.doLeave
  | Server.doLeader | Server.doNodes | Server.doMembersConsensus => true
  | _ => false
  end.

Section Early.

Context {N R : Type} `{!GossipNode N, !RaftConfig R}.

(** The site before raft: everything but the raft node. *)
Record early_site : Type := Early { es_fsm : Fsm.fsm_state N; es_detector : Detector }.

Definition with_raft (x : early_site) (r : R) : Server.site N R :=
  Server.Site (Http.Server (es_fsm x) Http.ENABLE_WRITE_FALSE r) (es_detector x).

Definition forget (x : Server.site N R) : early_site :=
  Early (Http.h_fsm (Server.s_server x)) (Server.s_detector x).

(** A handler before raft: [r] stands for the fields it does not read. *)
Definition run_early (e : Server.env) (x : early_site) (r : R) (f : Server.handler) (q : string)
    (vars : gmap string string) : outcome (early_site * response) :=
  if needs_raft f then Panic NilDeref
  else p ← Server.run e (with_raft x r) f q vars; Ret (forget p.1, p.2).

End Early.

(** Requests before raft: the handlers that do not need raft answer the same
    whatever raft will be and never panic, so the node can be read while it
    starts; the others, a join among them, lose their connection. *)
Theorem early_requests {N R} `{!GossipNode N, !RaftConfig R} e (x : early_site (N := N)) (r1 r2 : R) f q vars :
  run_early e x r1 f q vars = run_early e x r2 f q vars /\
  (run_early e x r1 f q vars = Panic NilDeref <-> needs_raft f = true).
Proof.
  unfold run_early. destruct f; cbn [needs_raft]; try (split; [reflexivity|done]);
    cbn [Server.run Server.s_server with_raft mbind outcome_bind]; (split; [|split; [|done]]); try done;
    unfold Http.doGossipJoin, Http.doGossipLeave, Http.gossip; cbn; repeat case_match; done.
Qed.

End Startup.
